(** * THEMA: the Mapper-graph clustering model (modeling/model.py,
      modeling/tupper.py, modeling/literals/data_utils.py)

    A shallow embedding of the Python sources.  Python dictionaries are
    association lists kept in insertion order, exceptions are an explicit
    [result], the attributes of a [Model] instance are a record threaded
    through a state-and-error monad, and pickled artifacts live in an
    explicit file system. *)

From Stdlib Require Import List ZArith QArith Qabs Qround Qpower.
From Stdlib Require Import String Ascii Bool Lia Lqa.
From Stdlib Require Import Permutation Sorted OrderedTypeEx DecimalString.
From Stdlib Require DecimalZ.
Import ListNotations.

Set Implicit Arguments.
Set Warnings "-register-all".

(* ================================================================== *)
(** * Part I: the embedding *)
(* ================================================================== *)

(** ** Python run-time: exceptions, dictionaries, sequences *)
Module Py.

(** What a [KeyError] reports: the key that was not found. *)
Inductive key_repr : Type :=
| KStr (s : string)
| KInt (z : Z).

Inductive exn : Type :=
| AssertionError (msg : string)
| KeyError (key : key_repr)
| IndexError
| TypeError
| ValueError
| AttributeError
| ZeroDivisionError
| FileNotFoundError (path : string)
| UnpicklingError.

Inductive result (A : Type) : Type :=
| Ok (a : A)
| Raise (e : exn).
Arguments Ok {A} a.
Arguments Raise {A} e.

Definition rbind {A B} (r : result A) (k : A -> result B) : result B :=
  match r with
  | Ok a => k a
  | Raise e => Raise e
  end.

(** Hashable keys: the two kinds of key the sources use. *)
Class Key (K : Type) : Type := {
  keqb : K -> K -> bool;
  keqb_spec : forall a b, reflect (a = b) (keqb a b);
  krepr : K -> key_repr
}.

#[export] Instance Key_string : Key string :=
  {| keqb := String.eqb; keqb_spec := String.eqb_spec; krepr := KStr |}.

#[export] Instance Key_Z : Key Z :=
  {| keqb := Z.eqb; keqb_spec := Z.eqb_spec; krepr := KInt |}.

(** [x in xs] on a list. *)
Definition mem {K} `{Key K} (x : K) (xs : list K) : bool :=
  existsb (keqb x) xs.

(** A [dict]: bindings in insertion order, at most one per key. *)
Definition dict (K V : Type) : Type := list (K * V).

Fixpoint dict_get {K V} `{Key K} (d : dict K V) (k : K) : option V :=
  match d with
  | [] => None
  | (k', v) :: r => if keqb k' k then Some v else dict_get r k
  end.

(** [d[k] = v]: overwrite in place, or append a new binding. *)
Fixpoint dict_set {K V} `{Key K} (d : dict K V) (k : K) (v : V) : dict K V :=
  match d with
  | [] => [(k, v)]
  | (k', v') :: r =>
      if keqb k' k then (k', v) :: r else (k', v') :: dict_set r k v
  end.

(** [d.pop(k)] *)
Fixpoint dict_pop {K V} `{Key K} (d : dict K V) (k : K)
  : result (dict K V) :=
  match d with
  | [] => Raise (KeyError (krepr k))
  | (k', v') :: r =>
      if keqb k' k then Ok r
      else rbind (dict_pop r k) (fun r' => Ok ((k', v') :: r'))
  end.

Definition dict_keys {K V} (d : dict K V) : list K := map fst d.
Definition dict_values {K V} (d : dict K V) : list V := map snd d.

(** [d[k]] *)
Definition getitem {K V} `{Key K} (d : dict K V) (k : K) : result V :=
  match dict_get d k with
  | Some v => Ok v
  | None => Raise (KeyError (krepr k))
  end.

(** [d.get(k, default)] *)
Definition get_default {K V} `{Key K} (d : dict K V) (k : K) (dflt : V) : V :=
  match dict_get d k with
  | Some v => v
  | None => dflt
  end.

(** [range(n)] *)
Definition range (n : nat) : list Z := map Z.of_nat (seq 0 n).

(** [list(set(xs))]: the distinct elements.  The iteration order of a
    Python set is unspecified; this keeps the last occurrence of each. *)
Definition to_set (xs : list Z) : list Z := nodup Z.eq_dec xs.

(** Truth value of a string (the empty string is falsy). *)
Definition truthy (s : string) : bool :=
  match s with
  | EmptyString => false
  | String _ _ => true
  end.

Fixpoint spaces (n : nat) : string :=
  match n with
  | O => EmptyString
  | S n' => String " "%char (spaces n')
  end.

(** A [for] loop over [xs] whose body updates the local variables [s]
    or raises. *)
Fixpoint rfor_each {A S} (xs : list A) (body : A -> S -> result S) (s : S)
  : result S :=
  match xs with
  | [] => Ok s
  | x :: r => rbind (body x s) (rfor_each r body)
  end.

(** [str(z)] for an integer. *)
Definition repr_int (z : Z) : string := NilZero.string_of_int (Z.to_int z).

(** The one-character string written backslash-n in the sources. *)
Definition nl : string := String (ascii_of_nat 10) EmptyString.

End Py.
Import Py.

Declare Scope result_scope.
Notation "x <- c ;; k" := (rbind c (fun x => k))
  (at level 61, c at next level, right associativity) : result_scope.
Delimit Scope result_scope with result.

(** ** Numbers and tables: what the sources take from numpy and pandas *)
Module Frame.

(** A float: a finite value, the two infinities and not-a-number.  The
    sums, quotients and means of the scores and of the z-score tests are
    exact rational arithmetic on the finite values; the deviations of
    [Series.std()] and the rounding of [np.round] are followed as floats
    further down. *)
Inductive xnum : Type :=
| Fin (q : Q)
| PInf
| NInf
| NaN.

Definition xneg (a : xnum) : xnum :=
  match a with
  | Fin q => Fin (- q)
  | PInf => NInf
  | NInf => PInf
  | NaN => NaN
  end.

Definition xadd (a b : xnum) : xnum :=
  match a, b with
  | NaN, _ | _, NaN => NaN
  | Fin x, Fin y => Fin (x + y)
  | PInf, NInf | NInf, PInf => NaN
  | PInf, _ | _, PInf => PInf
  | NInf, _ | _, NInf => NInf
  end.

Definition xsub (a b : xnum) : xnum := xadd a (xneg b).

Definition Qsign (q : Q) : comparison := (q ?= 0)%Q.

(** Division never raises on numpy scalars: a zero divisor gives an
    infinity, or not-a-number when the dividend is zero as well. *)
Definition xdiv (a b : xnum) : xnum :=
  match a, b with
  | NaN, _ | _, NaN => NaN
  | Fin x, Fin y =>
      match Qsign y with
      | Eq => match Qsign x with Eq => NaN | Gt => PInf | Lt => NInf end
      | _ => Fin (x / y)
      end
  | Fin _, (PInf | NInf) => Fin 0
  | (PInf | NInf), (PInf | NInf) => NaN
  | PInf, Fin y => match Qsign y with Lt => NInf | _ => PInf end
  | NInf, Fin y => match Qsign y with Lt => PInf | _ => NInf end
  end.

Definition xabs (a : xnum) : xnum :=
  match a with
  | Fin q => Fin (Qabs q)
  | PInf | NInf => PInf
  | NaN => NaN
  end.

(** [a < b]; every comparison with not-a-number is false. *)
Definition xltb (a b : xnum) : bool :=
  match a, b with
  | NaN, _ | _, NaN => false
  | Fin x, Fin y => match (x ?= y)%Q with Lt => true | _ => false end
  | NInf, (Fin _ | PInf) => true
  | Fin _, PInf => true
  | _, _ => false
  end.

(** [a <= b] *)
Definition xleb (a b : xnum) : bool :=
  match a, b with
  | NaN, _ | _, NaN => false
  | Fin x, Fin y => Qle_bool x y
  | NInf, _ => true
  | _, PInf => true
  | _, _ => false
  end.

Definition xgeb (a b : xnum) : bool := xleb b a.

Definition is_finite (a : xnum) : bool :=
  match a with Fin _ => true | _ => false end.

(** A column of a table: numeric cells ([None] is a missing value) or
    cells of another dtype. *)
Inductive column : Type :=
| NumCol (vals : list (option Q))
| ObjCol (vals : list string).

(** A [pandas.DataFrame] on the default index [0 .. nrows-1]. *)
Record DataFrame : Type := {
  nrows : nat;
  columns : list (string * column)
}.

Definition column_names (df : DataFrame) : list string :=
  map fst (columns df).

Definition is_numeric (c : column) : bool :=
  match c with NumCol _ => true | ObjCol _ => false end.

(** [df.select_dtypes(include=["number"]).columns] *)
Definition numeric_columns (df : DataFrame) : list string :=
  map fst (filter (fun nc => is_numeric (snd nc)) (columns df)).

Definition Qsum (l : list Q) : Q := fold_right Qplus 0%Q l.

(** The cells a reduction with [skipna=True] looks at. *)
Definition present (vals : list (option Q)) : list Q :=
  flat_map (fun o => match o with Some q => [q] | None => [] end) vals.

Definition Qlen (xs : list Q) : Q := inject_Z (Z.of_nat (List.length xs)).

Definition Qmean (xs : list Q) : Q := (Qsum xs / Qlen xs)%Q.

(** [Series.mean()] *)
Definition mean (vals : list (option Q)) : xnum :=
  match present vals with
  | [] => NaN
  | xs => Fin (Qmean xs)
  end.

(** The sample variance (one degree of freedom removed), as a number:
    the square of the deviation that [Series.std()] approximates. *)
Definition Qvar (xs : list Q) : Q :=
  (Qsum (map (fun x => (x - Qmean xs) * (x - Qmean xs)) xs)
     / (Qlen xs - 1))%Q.

(** Positional access with Python's negative positions. *)
Definition norm_pos (n : nat) (i : Z) : option nat :=
  let n' := Z.of_nat n in
  if ((0 <=? i) && (i <? n'))%Z then Some (Z.to_nat i)
  else if ((- n' <=? i) && (i <? 0))%Z then Some (Z.to_nat (n' + i))
  else None.

Definition positions (n : nat) (mask : list Z) : result (list nat) :=
  fold_right
    (fun i acc =>
       match norm_pos n i with
       | Some p => rbind acc (fun ps => Ok (p :: ps))
       | None => Raise IndexError
       end)
    (Ok []) mask.

Definition take_rows (c : column) (ps : list nat) : column :=
  match c with
  | NumCol vals => NumCol (map (fun p => nth p vals None) ps)
  | ObjCol vals => ObjCol (map (fun p => nth p vals EmptyString) ps)
  end.

(** [df.iloc[mask]] for a list of integer positions. *)
Definition iloc (df : DataFrame) (mask : list Z) : result DataFrame :=
  rbind (positions (nrows df) mask) (fun ps =>
  Ok {| nrows := List.length ps;
        columns := map (fun nc => (fst nc, take_rows (snd nc) ps))
                       (columns df) |}).

(** [df[cols]] for a list of labels: the columns carrying each label, in
    the order of [cols]. *)
Fixpoint select (df : DataFrame) (cols : list string)
  : result (list (string * column)) :=
  match cols with
  | [] => Ok []
  | c :: r =>
      match filter (fun nc => String.eqb (fst nc) c) (columns df) with
      | [] => Raise (KeyError (KStr c))
      | found => rbind (select df r) (fun rest => Ok (found ++ rest))
      end
  end.

Definition getitem_cols (df : DataFrame) (cols : list string)
  : result DataFrame :=
  rbind (select df cols) (fun cs => Ok {| nrows := nrows df; columns := cs |}).

(** [Series.std()] as pandas computes it, in float64: the float it returns
    for the cells of a column, [None] standing for not-a-number.  The
    value depends on the order in which pandas adds the cells up and on the
    rounding of every step, which differ from one installation to the next
    (numpy's pairwise sums, bottleneck when it is installed); columns whose
    exact deviations are equal, or zero, need not get the same float.  Here
    the computation is a parameter, and nothing is assumed of it. *)
Class Deviation : Type :=
  pandas_std : list (option Q) -> option Q.

(** [df.std(axis=0)]: one deviation per column. *)
Fixpoint std_axis0 {dev : Deviation} (cs : list (string * column))
  : result (list (option Q)) :=
  match cs with
  | [] => Ok []
  | (_, NumCol vals) :: r =>
      rbind (std_axis0 r) (fun rest => Ok (pandas_std vals :: rest))
  | (_, ObjCol _) :: r => Raise TypeError
  end.

(** The scan behind [Series.argmin()]: position and value of the first
    smallest cell among the cells that are numbers. *)
Fixpoint argmin_scan (l : list (option Q)) (i : Z) (best : option (Z * Q))
  : option (Z * Q) :=
  match l with
  | [] => best
  | None :: r => argmin_scan r (i + 1)%Z best
  | Some q :: r =>
      match best with
      | None => argmin_scan r (i + 1)%Z (Some (i, q))
      | Some (_, b) =>
          match (q ?= b)%Q with
          | Lt => argmin_scan r (i + 1)%Z (Some (i, q))
          | _ => argmin_scan r (i + 1)%Z best
          end
      end
  end.

(** [Series.argmin()] with [skipna=True]: [ValueError] on an empty
    series, [-1] when no cell is a number (pandas before 3.0). *)
Definition argmin (l : list (option Q)) : result Z :=
  match l with
  | [] => Raise ValueError
  | _ => match argmin_scan l 0%Z None with
         | Some (i, _) => Ok i
         | None => Ok (-1)%Z
         end
  end.

(** [index[i]] *)
Definition index_get (names : list string) (i : Z) : result string :=
  match norm_pos (List.length names) i with
  | Some p => match nth_error names p with
              | Some c => Ok c
              | None => Raise IndexError
              end
  | None => Raise IndexError
  end.

Fixpoint insert_uniq {A} (cmp : A -> A -> comparison) (x : A) (l : list A)
  : list A :=
  match l with
  | [] => [x]
  | y :: r =>
      match cmp x y with
      | Lt => x :: l
      | Eq => l
      | Gt => y :: insert_uniq cmp x r
      end
  end.

(** The distinct values, in increasing order. *)
Definition sort_uniq {A} (cmp : A -> A -> comparison) (l : list A) : list A :=
  fold_right (insert_uniq cmp) [] l.

(** [np.intersect1d(a, b)]: the sorted, unique values that are in both. *)
Definition np_intersect1d (a b : list string) : list string :=
  sort_uniq String.compare (filter (fun x => mem x b) a).

(** data_utils.py, [get_minimal_std] *)
Definition get_minimal_std {dev : Deviation} (df : DataFrame) (mask : list Z)
           (density_cols : option (list string)) : result string :=
  let density_cols :=
    match density_cols with
    | None => column_names df
    | Some cols => cols
    end in
  (rows <- iloc df mask ;;
   sub_df <- getitem_cols rows density_cols ;;
   stds <- std_axis0 (columns sub_df) ;;
   pos <- argmin stds ;;
   index_get (column_names sub_df) pos)%result.

(** data_utils.py, [error]; also the local [error] of
    [Model.target_matching], where [x] is a cell of the record and [mu] the
    result of [Series.mean()], both numpy scalars. *)
Definition error (x mu : xnum) : xnum := xabs (xdiv (xsub x mu) mu).

(** [np.rint]: the nearest integer, a tie going to the even one. *)
Definition rint (q : Q) : Z :=
  let n := Qnum q in
  let d := Zpos (Qden q) in
  let f := (n / d)%Z in
  match (2 * (n mod d) ?= d)%Z with
  | Lt => f
  | Gt => (f + 1)%Z
  | Eq => if Z.even f then f else (f + 1)%Z
  end.

(** The exponent of the last binary place of the float64 nearest to [q]:
    53 significant bits, and never below the last place of the subnormal
    numbers. *)
Definition float64_exponent (q : Q) : Z :=
  Z.max (Z.log2 (Qfloor (Qabs q * 2 ^ 1100)) - 1152) (-1074).

(** What one float64 operation returns when its exact result is [q]: the
    nearest float64, a tie going to the even mantissa.  The float is given
    by its value, a rational; overflow to an infinity is left out, the
    quotients and products below stay under 128. *)
Definition float64 (q : Q) : Q :=
  let e := float64_exponent q in
  Qred (inject_Z (rint (q / 2 ^ e)) * 2 ^ e).

(** The float64 nearest to the square root of [q], as [np.sqrt] returns
    it on a float [q] that is not negative. *)
Definition float64_sqrt (q : Q) : Q :=
  match Qnum q with
  | Zpos _ =>
      let l := (Z.log2 (Qfloor (q * 2 ^ 2200)) - 2200)%Z in
      let e := Z.max (l / 2 - 52) (-1074) in
      let m := Z.sqrt (Qfloor (q / 2 ^ (2 * e))) in
      let half := (inject_Z (2 * m + 1) / 2 * 2 ^ e)%Q in
      match (half * half ?= q)%Q with
      | Lt => Qred (inject_Z (m + 1) * 2 ^ e)
      | Gt => Qred (inject_Z m * 2 ^ e)
      | Eq => Qred (inject_Z (if Z.even m then m else m + 1) * 2 ^ e)
      end
  | _ => 0
  end.

(** [np.round(x, 2)] on a float [x]: numpy multiplies by 100, rounds to
    the nearest integer with [rint] and divides by 100, and each of the two
    operations rounds to float64. *)
Definition np_round2 (x : Q) : Q :=
  float64 (inject_Z (rint (float64 (x * 100))) / 100).

(** [abs(s.std() / s.mean()) <= t]: the quotient is an infinity or
    not-a-number when the mean is zero or either statistic is
    not-a-number, and the test is then false. *)
Definition rel_std_le {dev : Deviation} (vals : list (option Q)) (t : Q)
  : bool :=
  match pandas_std vals, mean vals with
  | Some sd, Fin m =>
      if Qeq_bool m 0 then false else Qle_bool (Qabs (sd / m)) t
  | _, _ => false
  end.

End Frame.
Import Frame.

(** ** Pickled artifacts and the file system *)
Module Store.

(** tupper.py, class [Tupper]: the instance attributes. *)
Record Tupper_t : Type := {
  _raw : string;
  _clean : string;
  _projection : string
}.

(** An entry of the complex: the node table (node id to the items the
    node covers), or one of the entries this code never opens. *)
Inductive centry : Type :=
| NodeTable (nodes : dict string (list Z))
| Opaque.

(** Modelled from the spec: class [JMapper] (module jmapper) is not among
    the sources.  The mapper artifact holds [components], a mapping from
    each connected component to its integer cluster id, [complex], and a
    back-reference to the data container; a component is given by the
    list [nodes()] returns for it, and the mapping by its items in
    iteration order. *)
Record JMapper_t : Type := {
  jm_tupper : Tupper_t;
  jm_complex : dict string centry;
  jm_components : list (list string * Z)
}.

(** The objects a pickle file of this project can hold. *)
Inductive pyval : Type :=
| PNone
| PStr (s : string)
| PNum (q : Q)
| PList (l : list pyval)
| PDict (d : list (string * pyval))
| PFrame (df : DataFrame)
| PSeries (c : column)
| PArray (rows : list (list Q))
| PMapper (jm : JMapper_t).

(** [v[k]] for a string [k]. *)
Definition subscript (v : pyval) (k : string) : result pyval :=
  match v with
  | PDict d => getitem d k
  | PFrame df =>
      match dict_get (columns df) k with
      | Some c => Ok (PSeries c)
      | None => Raise (KeyError (KStr k))
      end
  | PSeries _ => Raise (KeyError (KStr k))
  | PArray _ => Raise IndexError
  | PNone | PStr _ | PNum _ | PList _ | PMapper _ => Raise TypeError
  end.

(** [len(v)] *)
Definition py_len (v : pyval) : result nat :=
  match v with
  | PFrame df => Ok (nrows df)
  | PStr s => Ok (String.length s)
  | PList l => Ok (List.length l)
  | PDict d => Ok (List.length d)
  | PArray rows => Ok (List.length rows)
  | PSeries (NumCol vals) => Ok (List.length vals)
  | PSeries (ObjCol vals) => Ok (List.length vals)
  | PNone | PNum _ | PMapper _ => Raise TypeError
  end.

(** Truth value of an object. *)
Definition py_truthy (v : pyval) : bool :=
  match v with
  | PNone => false
  | PStr s => truthy s
  | PNum q => negb (Qeq_bool q 0)
  | PList l => negb (Nat.eqb (List.length l) 0)
  | PDict d => negb (Nat.eqb (List.length d) 0)
  | PFrame _ | PSeries _ | PArray _ | PMapper _ => true
  end.

Inductive file : Type :=
| Pickle (v : pyval)
| NotPickle.

(** The files that exist, by path. *)
Definition filesystem : Type := dict string file.

(** The file at [path]; the empty path names no file. *)
Definition lookup_file (fs : filesystem) (path : string) : option file :=
  if truthy path then dict_get fs path else None.

(** [os.path.isfile] *)
Definition isfile (fs : filesystem) (path : string) : bool :=
  match lookup_file fs path with
  | Some _ => true
  | None => false
  end.

(** [with open(path, "rb") as f: pickle.load(f)] *)
Definition load (fs : filesystem) (path : string) : result pyval :=
  match lookup_file fs path with
  | Some (Pickle v) => Ok v
  | Some NotPickle => Raise UnpicklingError
  | None => Raise (FileNotFoundError path)
  end.

(** What [print] wrote: a diagnostic followed by the exception, or a
    value. *)
Inductive print_event : Type :=
| PrintDiag (msg : string) (e : exn)
| PrintVal (v : pyval).

End Store.
Import Store.

(** ** tupper.py: the data container *)
Module Tupper.

(** What an accessor does: what it printed, and what it returned or
    raised. *)
Definition outcome : Type := (list print_event * result pyval)%type.

(** [try: ... except Exception as e: print(msg, e)]; falling off the end
    of the handler returns [None]. *)
Definition try_except (body : list print_event * result pyval) (msg : string)
  : outcome :=
  match body with
  | (out, Ok v) => (out, Ok v)
  | (out, Raise e) => (out ++ [PrintDiag msg e], Ok PNone)
  end.

Definition assert_path (path : string) (msg : string) (k : outcome) : outcome :=
  if truthy path then k else ([], Raise (AssertionError msg)).

Definition raw_diag : string :=
  ("There was an error opening your raw data. " ++ spaces 18
   ++ "Please make sure you have set your raw data reference to the correct pickle file."
   ++ nl)%string.

Definition clean_diag : string :=
  ("There was an error opening your clean data " ++ spaces 18
   ++ "Please make sure your have set your clean data reference to the correct pickle file."
   ++ nl)%string.

Definition dropped_diag : string :=
  ("There was an error opening your clean data. " ++ spaces 18
   ++ "Please make sure you have set your clean data reference to the correct pickle file."
   ++ nl)%string.

Definition projection_diag : string :=
  ("There was an error opening your projection data. " ++ spaces 17
   ++ "Please make sure you have set your projection data reference to the correct pickle file."
   ++ nl)%string.

Definition parameters_diag : string :=
  ("There was an error opening your hyperparameters. " ++ spaces 19
   ++ "Please make sure you have set your projection data reference to the correct pickle file."
   ++ nl)%string.

(** [Tupper.__init__] *)
Definition init (fs : filesystem) (raw clean projection : string)
  : result Tupper_t :=
  if negb (isfile fs raw) then
    Raise (AssertionError ("Invalid raw file path: " ++ raw)%string)
  else if negb (isfile fs clean) then
    Raise (AssertionError ("Invalid clean file path: " ++ clean)%string)
  else if negb (isfile fs projection) then
    Raise (AssertionError ("Invalid projection file path: " ++ projection)%string)
  else Ok {| _raw := raw; _clean := clean; _projection := projection |}.

(** [Tupper.raw] *)
Definition raw (fs : filesystem) (self : Tupper_t) : outcome :=
  assert_path (_raw self) "Please Specify a valid path to raw data"
    (try_except ([], load fs (_raw self)) raw_diag).

(** [Tupper.clean] *)
Definition clean (fs : filesystem) (self : Tupper_t) : outcome :=
  assert_path (_clean self) "Please Specify a valid path to clean data"
    (try_except
       match (reference <- load fs (_clean self) ;;
              subscript reference "clean_data")%result with
       | Ok clean_df => ([PrintVal clean_df], Ok clean_df)
       | Raise e => ([], Raise e)
       end
       clean_diag).

(** [Tupper.get_dropped_columns] *)
Definition get_dropped_columns (fs : filesystem) (self : Tupper_t) : outcome :=
  assert_path (_clean self) "Please Specify a valid path to projected data"
    (try_except
       ([], (reference <- load fs (_clean self) ;;
             subscript reference "dropped_columns")%result)
       dropped_diag).

(** [Tupper.projection] *)
Definition projection (fs : filesystem) (self : Tupper_t) : outcome :=
  assert_path (_projection self) "Please Specify a valid path to clean data"
    (try_except
       ([], (reference <- load fs (_projection self) ;;
             subscript reference "projection")%result)
       projection_diag).

(** [Tupper.get_projection_parameters] *)
Definition get_projection_parameters (fs : filesystem) (self : Tupper_t)
  : outcome :=
  assert_path (_projection self) "Please Specify a valid path to projected data"
    (try_except
       ([], (reference <- load fs (_projection self) ;;
             subscript reference "hyperparameters")%result)
       parameters_diag).

End Tupper.

(** ** model.py: the clustering model *)
Module Model.

(** The label [label_item_by_node] gives an item: the ids of the nodes
    that contain it, or the integer [-1] when no node does. *)
Inductive node_label : Type :=
| InNodes (ids : list string)
| NoNode.

(** [{"label": ..., "size": ...}] *)
Record node_desc : Type := {
  label : string;
  size : nat
}.

(** [{"density": ..., "size": ...}] *)
Record cluster_desc : Type := {
  density : dict string Q;
  cluster_size : nat
}.

(** The z-score table: the [cluster_IDs] column and the feature columns,
    row-aligned. *)
Record ztable : Type := {
  cluster_IDs : list Z;
  zcolumns : list (string * list (option Q))
}.

(** The attributes of a [Model] instance that the methods below read or
    write ([_tupper], [_complex] and [_cluster_positions] stay [None]
    throughout them). *)
Record Model_t : Type := {
  _mapper : option string;
  _hyper_parameters : option pyval;
  _node_ids : option (dict Z node_label);
  _node_description : option (dict string node_desc);
  _cluster_ids : option (list Z);
  _cluster_descriptions : option (dict Z cluster_desc);
  _cluster_sizes : option (dict Z nat);
  _unclustered_items : option (list Z);
  _zscores : option ztable;
  _items_dict : option (dict Z (list Z))
}.

Definition set_hyper_parameters v (s : Model_t) : Model_t :=
  {| _mapper := _mapper s; _hyper_parameters := v; _node_ids := _node_ids s;
     _node_description := _node_description s; _cluster_ids := _cluster_ids s;
     _cluster_descriptions := _cluster_descriptions s;
     _cluster_sizes := _cluster_sizes s;
     _unclustered_items := _unclustered_items s; _zscores := _zscores s;
     _items_dict := _items_dict s |}.

Definition set_node_ids v (s : Model_t) : Model_t :=
  {| _mapper := _mapper s; _hyper_parameters := _hyper_parameters s;
     _node_ids := v;
     _node_description := _node_description s; _cluster_ids := _cluster_ids s;
     _cluster_descriptions := _cluster_descriptions s;
     _cluster_sizes := _cluster_sizes s;
     _unclustered_items := _unclustered_items s; _zscores := _zscores s;
     _items_dict := _items_dict s |}.

Definition set_node_description v (s : Model_t) : Model_t :=
  {| _mapper := _mapper s; _hyper_parameters := _hyper_parameters s;
     _node_ids := _node_ids s;
     _node_description := v; _cluster_ids := _cluster_ids s;
     _cluster_descriptions := _cluster_descriptions s;
     _cluster_sizes := _cluster_sizes s;
     _unclustered_items := _unclustered_items s; _zscores := _zscores s;
     _items_dict := _items_dict s |}.

Definition set_cluster_ids v (s : Model_t) : Model_t :=
  {| _mapper := _mapper s; _hyper_parameters := _hyper_parameters s;
     _node_ids := _node_ids s;
     _node_description := _node_description s; _cluster_ids := v;
     _cluster_descriptions := _cluster_descriptions s;
     _cluster_sizes := _cluster_sizes s;
     _unclustered_items := _unclustered_items s; _zscores := _zscores s;
     _items_dict := _items_dict s |}.

Definition set_cluster_descriptions v (s : Model_t) : Model_t :=
  {| _mapper := _mapper s; _hyper_parameters := _hyper_parameters s;
     _node_ids := _node_ids s;
     _node_description := _node_description s; _cluster_ids := _cluster_ids s;
     _cluster_descriptions := v;
     _cluster_sizes := _cluster_sizes s;
     _unclustered_items := _unclustered_items s; _zscores := _zscores s;
     _items_dict := _items_dict s |}.

Definition set_cluster_sizes v (s : Model_t) : Model_t :=
  {| _mapper := _mapper s; _hyper_parameters := _hyper_parameters s;
     _node_ids := _node_ids s;
     _node_description := _node_description s; _cluster_ids := _cluster_ids s;
     _cluster_descriptions := _cluster_descriptions s;
     _cluster_sizes := v;
     _unclustered_items := _unclustered_items s; _zscores := _zscores s;
     _items_dict := _items_dict s |}.

Definition set_unclustered_items v (s : Model_t) : Model_t :=
  {| _mapper := _mapper s; _hyper_parameters := _hyper_parameters s;
     _node_ids := _node_ids s;
     _node_description := _node_description s; _cluster_ids := _cluster_ids s;
     _cluster_descriptions := _cluster_descriptions s;
     _cluster_sizes := _cluster_sizes s;
     _unclustered_items := v; _zscores := _zscores s;
     _items_dict := _items_dict s |}.

Definition set_zscores v (s : Model_t) : Model_t :=
  {| _mapper := _mapper s; _hyper_parameters := _hyper_parameters s;
     _node_ids := _node_ids s;
     _node_description := _node_description s; _cluster_ids := _cluster_ids s;
     _cluster_descriptions := _cluster_descriptions s;
     _cluster_sizes := _cluster_sizes s;
     _unclustered_items := _unclustered_items s; _zscores := v;
     _items_dict := _items_dict s |}.

Definition set_items_dict v (s : Model_t) : Model_t :=
  {| _mapper := _mapper s; _hyper_parameters := _hyper_parameters s;
     _node_ids := _node_ids s;
     _node_description := _node_description s; _cluster_ids := _cluster_ids s;
     _cluster_descriptions := _cluster_descriptions s;
     _cluster_sizes := _cluster_sizes s;
     _unclustered_items := _unclustered_items s; _zscores := _zscores s;
     _items_dict := v |}.

(** A method body: it reads and writes the attributes of [self], and
    returns or raises.  What was written before an exception stays. *)
Definition M (A : Type) : Type := Model_t -> result A * Model_t.

Definition ret {A} (a : A) : M A := fun self => (Ok a, self).

Definition raise {A} (e : exn) : M A := fun self => (Raise e, self).

Definition bind {A B} (c : M A) (k : A -> M B) : M B :=
  fun self =>
    match c self with
    | (Ok a, self') => k a self'
    | (Raise e, self') => (Raise e, self')
    end.

Definition lift {A} (r : result A) : M A := fun self => (r, self).

Definition get : M Model_t := fun self => (Ok self, self).

Definition modify (f : Model_t -> Model_t) : M unit :=
  fun self => (Ok tt, f self).

Definition assert (b : bool) (msg : string) : M unit :=
  if b then ret tt else raise (AssertionError msg).

(** A [for] loop whose body updates the local variables [s]. *)
Fixpoint for_each {A S} (xs : list A) (body : A -> S -> M S) (s : S) : M S :=
  match xs with
  | [] => ret s
  | x :: r => bind (body x s) (for_each r body)
  end.

(** A cached attribute that is still [None] reaches its reader as
    [None], and every reader below subscripts it or takes its length
    at once. *)
Definition cached {A} (field : Model_t -> option A) : M A :=
  fun self =>
    match field self with
    | Some a => (Ok a, self)
    | None => (Raise TypeError, self)
    end.

Declare Scope model_scope.
Delimit Scope model_scope with model.
Notation "x <- c ;; k" := (bind c (fun x => k))
  (at level 61, c at next level, right associativity) : model_scope.
Notation "c ;;; k" := (bind c (fun _ => k))
  (at level 61, right associativity) : model_scope.
Local Open Scope model_scope.

Definition mapper_msg : string :=
  "Please Specify a valid path to a mapper object".

Definition precondition_msg : string :=
  "You must first generate a Simplicial Complex with `fit()` before you perform clustering.".

(** [Model.__init__] *)
Definition init (fs : filesystem) (mapper : string) : result Model_t :=
  Ok {| _mapper := if isfile fs mapper then Some mapper else None;
        _hyper_parameters := None;
        _node_ids := None;
        _node_description := None;
        _cluster_ids := None;
        _cluster_descriptions := None;
        _cluster_sizes := None;
        _unclustered_items := None;
        _zscores := None;
        _items_dict := None |}.

(** [assert self._mapper, "Please Specify a valid path to a mapper object"] *)
Definition assert_mapper : M string :=
  self <- get ;;
  match _mapper self with
  | Some path =>
      if truthy path then ret path else raise (AssertionError mapper_msg)
  | None => raise (AssertionError mapper_msg)
  end.

(** [Model.mapper] *)
Definition mapper (fs : filesystem) : M pyval :=
  path <- assert_mapper ;;
  reference <- lift (load fs path) ;;
  lift (subscript reference "mapper").

Definition attr_tupper (m : pyval) : result Tupper_t :=
  match m with PMapper jm => Ok (jm_tupper jm) | _ => Raise AttributeError end.

Definition attr_complex (m : pyval) : result (dict string centry) :=
  match m with PMapper jm => Ok (jm_complex jm) | _ => Raise AttributeError end.

Definition attr_components (m : pyval) : result (list (list string * Z)) :=
  match m with PMapper jm => Ok (jm_components jm) | _ => Raise AttributeError end.

(** [Model.tupper] *)
Definition tupper (fs : filesystem) : M Tupper_t :=
  m <- mapper fs ;; lift (attr_tupper m).

(** [Model.hyper_parameters] *)
Definition hyper_parameters (fs : filesystem) : M pyval :=
  self <- get ;;
  let read :=
    path <- assert_mapper ;;
    reference <- lift (load fs path) ;;
    hp <- lift (subscript reference "hyperparameters") ;;
    modify (set_hyper_parameters (Some hp)) ;;;
    ret hp in
  match _hyper_parameters self with
  | Some hp => if py_truthy hp then ret hp else read
  | None => read
  end.

(** [Model.complex] *)
Definition complex (fs : filesystem) : M (dict string centry) :=
  m <- mapper fs ;; lift (attr_complex m).

(** [self.tupper.clean] and [self.tupper.raw]; what the container
    prints is not followed above this point. *)
Definition tupper_clean (fs : filesystem) : M pyval :=
  t <- tupper fs ;; lift (snd (Tupper.clean fs t)).

Definition tupper_raw (fs : filesystem) : M pyval :=
  t <- tupper fs ;; lift (snd (Tupper.raw fs t)).

(** The table behind an attribute access such as [.columns] or [.iloc]. *)
Definition as_frame (v : pyval) : result DataFrame :=
  match v with PFrame df => Ok df | _ => Raise AttributeError end.

(** [self.complex["nodes"]], then a use of it as a mapping. *)
Definition node_table (cx : dict string centry)
  : result (dict string (list Z)) :=
  rbind (getitem cx "nodes"%string) (fun e =>
  match e with
  | NodeTable nodes => Ok nodes
  | Opaque => Raise TypeError
  end).

(** The inner loop of [label_item_by_node]: the nodes containing [idx]. *)
Definition containing_nodes (nodes : dict string (list Z)) (idx : Z)
  : list string :=
  fold_left
    (fun place_holder node_id =>
       match dict_get nodes node_id with
       | Some items =>
           if mem idx items then place_holder ++ [node_id] else place_holder
       | None => place_holder
       end)
    (dict_keys nodes) [].

(** The outer loop of [label_item_by_node]. *)
Definition label_items (nodes : dict string (list Z)) (N : nat)
  : dict Z node_label * list Z :=
  fold_left
    (fun acc idx =>
       let '(labels, unclustered_items) := acc in
       match containing_nodes nodes idx with
       | [] => (dict_set labels idx NoNode, unclustered_items ++ [idx])
       | place_holder =>
           (dict_set labels idx (InNodes place_holder), unclustered_items)
       end)
    (range N) ([], []).

(** [Model.label_item_by_node] *)
Definition label_item_by_node (fs : filesystem) : M (dict Z node_label) :=
  clean <- tupper_clean fs ;;
  N <- lift (py_len clean) ;;
  cx <- complex fs ;;
  nodes <- lift (node_table cx) ;;
  let '(labels, unclustered_items) := label_items nodes N in
  modify (set_node_ids (Some labels)) ;;;
  modify (set_unclustered_items (Some unclustered_items)) ;;;
  ret labels.

(** [Model.node_ids] *)
Definition node_ids (fs : filesystem) : M (dict Z node_label) :=
  self <- get ;;
  match _node_ids self with
  | None => label_item_by_node fs ;;; cached _node_ids
  | Some v => ret v
  end.

(** [Model.unclustered_items] *)
Definition unclustered_items (fs : filesystem) : M (list Z) :=
  self <- get ;;
  match _unclustered_items self with
  | None => label_item_by_node fs ;;; cached _unclustered_items
  | Some v => ret v
  end.

Fixpoint list_set {A} (l : list A) (p : nat) (v : A) : list A :=
  match l, p with
  | [], _ => []
  | _ :: r, O => v :: r
  | x :: r, S p' => x :: list_set r p' v
  end.

(** [labels[indices] = v] on a numpy array: every index is checked, then
    the cells are written. *)
Definition np_put (labels : list Z) (indices : list Z) (v : Z)
  : result (list Z) :=
  rbind (positions (List.length labels) indices) (fun ps =>
  Ok (fold_left (fun ls p => list_set ls p v) ps labels)).

(** [self._items_dict[key] = value] *)
Definition items_dict_set (key : Z) (value : list Z) : M unit :=
  d <- cached _items_dict ;;
  modify (set_items_dict (Some (dict_set d key value))).

(** [self._cluster_sizes[key] = value] *)
Definition cluster_sizes_set (key : Z) (value : nat) : M unit :=
  d <- cached _cluster_sizes ;;
  modify (set_cluster_sizes (Some (dict_set d key value))).

(** The body of the component loop of [label_item_by_cluster]. *)
Definition label_component (fs : filesystem) (component : list string * Z)
           (labels : list Z) : M (list Z) :=
  let '(nodes, cluster_id) := component in
  elements <-
    for_each nodes
      (fun node elements =>
         cx <- complex fs ;;
         table <- lift (node_table cx) ;;
         items <- lift (getitem table node) ;;
         ret (elements ++ [items]))
      [] ;;
  let indices := to_set (List.concat elements) in
  items_dict_set cluster_id indices ;;;
  let size := List.length indices in
  labels' <- lift (np_put labels indices cluster_id) ;;
  cluster_sizes_set cluster_id size ;;;
  ret labels'.

(** [Model.label_item_by_cluster] *)
Definition label_item_by_cluster (fs : filesystem) : M unit :=
  cx <- complex fs ;;
  assert (0 <? List.length cx)%nat precondition_msg ;;;
  modify (set_cluster_sizes (Some [])) ;;;
  modify (set_items_dict (Some [])) ;;;
  clean <- tupper_clean fs ;;
  N <- lift (py_len clean) ;;
  let labels := repeat (-1)%Z N in
  m <- mapper fs ;;
  components <- lift (attr_components m) ;;
  labels <- for_each components (label_component fs) labels ;;
  modify (set_cluster_ids (Some labels)) ;;;
  unclustered <- unclustered_items fs ;;
  cluster_sizes_set (-1)%Z (List.length unclustered) ;;;
  (* [self.items_dict[-1] = ...] goes through the property, which finds
     the dictionary assigned above *)
  unclustered <- unclustered_items fs ;;
  items_dict_set (-1)%Z unclustered.

(** [Model.cluster_ids] *)
Definition cluster_ids (fs : filesystem) : M (list Z) :=
  self <- get ;;
  match _cluster_ids self with
  | None => label_item_by_cluster fs ;;; cached _cluster_ids
  | Some v => ret v
  end.

(** [Model.cluster_sizes] *)
Definition cluster_sizes (fs : filesystem) : M (dict Z nat) :=
  self <- get ;;
  match _cluster_sizes self with
  | None => label_item_by_cluster fs ;;; cached _cluster_sizes
  | Some v => ret v
  end.

(** [Model.items_dict] *)
Definition items_dict (fs : filesystem) : M (dict Z (list Z)) :=
  self <- get ;;
  match _items_dict self with
  | None => label_item_by_cluster fs ;;; cached _items_dict
  | Some v => ret v
  end.

(** The first loop of [get_items_in_multiple_groups]. *)
Definition count_values (lists : list (list Z)) : dict Z nat :=
  fold_left
    (fun value_counts values =>
       fold_left
         (fun vc value => dict_set vc value (get_default vc value 0 + 1)%nat)
         values value_counts)
    lists [].

(** [[key for key, values in items.items() if value in values]] *)
Definition groups_of (items : dict Z (list Z)) (value : Z) : list Z :=
  map fst (filter (fun kv => mem value (snd kv)) items).

(** [Model.get_items_in_multiple_groups] *)
Definition get_items_in_multiple_groups (fs : filesystem)
  : M (dict Z (list Z)) :=
  items <- items_dict fs ;;
  let value_counts := count_values (dict_values items) in
  for_each value_counts
    (fun vc overlapping_values =>
       let '(value, count) := vc in
       if (1 <? count)%nat then
         items <- items_dict fs ;;
         ret (dict_set overlapping_values value (groups_of items value))
       else ret overlapping_values)
    [].

(** The columns eligible as a description: numeric in the raw data and
    present in the clean data. *)
Definition density_columns (fs : filesystem) : M (list string) :=
  raw <- tupper_raw fs ;;
  raw_df <- lift (as_frame raw) ;;
  clean <- tupper_clean fs ;;
  clean_df <- lift (as_frame clean) ;;
  ret (np_intersect1d (numeric_columns raw_df) (column_names clean_df)).

(** [self._node_description[node] = value] *)
Definition node_description_set (node : string) (value : node_desc) : M unit :=
  d <- cached _node_description ;;
  modify (set_node_description (Some (dict_set d node value))).

(** [Model.compute_node_descriptions] *)
Definition compute_node_descriptions {dev : Deviation} (fs : filesystem)
  : M unit :=
  cx <- complex fs ;;
  nodes <- lift (node_table cx) ;;
  cols <- density_columns fs ;;
  modify (set_node_description (Some [])) ;;;
  for_each (dict_keys nodes)
    (fun node (_ : unit) =>
       mask <- lift (getitem nodes node) ;;
       clean <- tupper_clean fs ;;
       df <- lift (as_frame clean) ;;
       label <- lift (get_minimal_std df mask (Some cols)) ;;
       let size := List.length mask in
       node_description_set node {| label := label; size := size |})
    tt.

(** [Model.node_description] *)
Definition node_description {dev : Deviation} (fs : filesystem)
  : M (dict string node_desc) :=
  self <- get ;;
  match _node_description self with
  | None => compute_node_descriptions fs ;;; cached _node_description
  | Some v => ret v
  end.

(** The node loop of [compute_cluster_descriptions]: the accumulators
    [holder] and [N]. *)
Definition accumulate_nodes {dev : Deviation} (fs : filesystem)
           (nodes : list string) : M (dict string nat * nat) :=
  for_each nodes
    (fun node acc =>
       let '(holder, N) := acc in
       descriptions <- node_description fs ;;
       d <- lift (getitem descriptions node) ;;
       let label := label d in
       descriptions <- node_description fs ;;
       d <- lift (getitem descriptions node) ;;
       let size := size d in
       let N := (N + size)%nat in
       let size :=
         if mem label (dict_keys holder)
         then (size + get_default holder label 0)%nat else size in
       ret (dict_set holder label size, N))
    ([], 0%nat).

(** [size / N] on Python integers, a float64 quotient, then
    [np.round(_, 2)]. *)
Definition fraction (size N : nat) : result Q :=
  match N with
  | O => Raise ZeroDivisionError
  | _ =>
      Ok (np_round2 (float64 (inject_Z (Z.of_nat size) / inject_Z (Z.of_nat N))))
  end.

(** [{label: np.round(size / N, 2) for label, size in holder.items()}] *)
Definition densities (holder : dict string nat) (N : nat)
  : result (dict string Q) :=
  rfor_each holder
    (fun ls density =>
       rbind (fraction (snd ls) N) (fun v => Ok (dict_set density (fst ls) v)))
    [].

(** [self._cluster_descriptions[key] = value] *)
Definition cluster_descriptions_set (key : Z) (value : cluster_desc) : M unit :=
  d <- cached _cluster_descriptions ;;
  modify (set_cluster_descriptions (Some (dict_set d key value))).

(** The body of the component loop of [compute_cluster_descriptions]. *)
Definition describe_component {dev : Deviation} (fs : filesystem)
           (component : list string * Z) (_ : unit) : M unit :=
  let '(nodes, cluster_id) := component in
  acc <- accumulate_nodes fs nodes ;;
  let '(holder, N) := acc in
  density <- lift (densities holder N) ;;
  sizes <- cluster_sizes fs ;;
  size <- lift (getitem sizes cluster_id) ;;
  cluster_descriptions_set cluster_id
    {| density := density; cluster_size := size |}.

(** [Model.compute_cluster_descriptions] *)
Definition compute_cluster_descriptions {dev : Deviation} (fs : filesystem)
  : M unit :=
  modify (set_cluster_descriptions (Some [])) ;;;
  m <- mapper fs ;;
  components <- lift (attr_components m) ;;
  for_each components (describe_component fs) tt ;;;
  cols <- density_columns fs ;;
  clean <- tupper_clean fs ;;
  unclustered <- unclustered_items fs ;;
  df <- lift (as_frame clean) ;;
  unclustered_label <- lift (get_minimal_std df unclustered (Some cols)) ;;
  sizes <- cluster_sizes fs ;;
  size <- lift (getitem sizes (-1)%Z) ;;
  cluster_descriptions_set (-1)%Z
    {| density := [(unclustered_label, 1%Q)]; cluster_size := size |}.

(** [Model.cluster_descriptions] *)
Definition cluster_descriptions {dev : Deviation} (fs : filesystem)
  : M (dict Z cluster_desc) :=
  self <- get ;;
  match _cluster_descriptions self with
  | None => compute_cluster_descriptions fs ;;; cached _cluster_descriptions
  | Some v => ret v
  end.

(** *** The z-score table and the identifying columns *)
Section GroupIdentifier.

Context {dev : Deviation}.

(** model_helper's [_define_zscore_df(self)] is not among the sources:
    it is whatever computation hands back the table of z-scores, one
    row per item with the item's cluster id. *)
Variable _define_zscore_df : M ztable.

(** The cells of [vals] on the rows whose cluster id is [g]. *)
Definition rows_where (ids : list Z) (g : Z) (vals : list (option Q))
  : list (option Q) :=
  map snd (filter (fun iv => Z.eqb (fst iv) g) (combine ids vals)).

Definition to_cell (x : xnum) : option Q :=
  match x with Fin q => Some q | _ => None end.

(** [df.groupby(["cluster_IDs"]).mean().reset_index()]: one row per
    cluster id that occurs, in increasing order of the id. *)
Definition groupby_mean (z : ztable) : ztable :=
  let keys := sort_uniq Z.compare (cluster_IDs z) in
  {| cluster_IDs := keys;
     zcolumns :=
       map (fun nc =>
              (fst nc,
               map (fun g => to_cell (mean (rows_where (cluster_IDs z) g (snd nc))))
                   keys))
           (zcolumns z) |}.

(** [Model.zscores] *)
Definition zscores : M ztable :=
  self <- get ;;
  match _zscores self with
  | None =>
      z <- _define_zscore_df ;;
      modify (set_zscores (Some (groupby_mean z))) ;;;
      cached _zscores
  | Some v => ret v
  end.

(** [int(s.max())] *)
Definition int_max (ids : list Z) : result Z :=
  match ids with
  | [] => Raise ValueError
  | i :: r => Ok (fold_left Z.max r i)
  end.

(** [range(lo, hi)] *)
Definition range_from (lo hi : Z) : list Z :=
  map (fun k => (lo + Z.of_nat k)%Z) (seq 0 (Z.to_nat (hi - lo))).

(** [abs(value) >= threshold] on a cell. *)
Definition abs_ge (value : option Q) (threshold : Q) : bool :=
  match value with
  | Some v => Qle_bool threshold (Qabs v)
  | None => false
  end.

(** [pg_identifiers[counter].append(column)] *)
Definition append_identifier (pg : dict Z (list string)) (counter : Z)
           (column : string) : result (dict Z (list string)) :=
  rbind (getitem pg counter) (fun l => Ok (dict_set pg counter (l ++ [column]))).

(** The test on one cell of the z-score table. *)
Definition test_cell (zscore_threshold std_threshold : Q) (column : string)
           (value : option Q) (counter : Z) (pg : dict Z (list string))
  : M (dict Z (list string)) :=
  if negb (String.eqb column "cluster_IDs") then
    if abs_ge value zscore_threshold then
      outer <- _define_zscore_df ;;
      inner <- _define_zscore_df ;;
      test <- lift (getitem (zcolumns outer) column) ;;
      if rel_std_le (rows_where (cluster_IDs inner) counter test) std_threshold
      then lift (append_identifier pg counter column)
      else ret pg
    else ret pg
  else ret pg.

(** The columns of the z-score table, each with its cells. *)
Definition table_columns (z : ztable) : list (string * list (option Q)) :=
  ("cluster_IDs"%string, map (fun i => Some (inject_Z i)) (cluster_IDs z))
    :: zcolumns z.

(** [Model.group_identifiers] *)
Definition group_identifiers (zscore_threshold std_threshold : Q)
  : M (dict Z (list string)) :=
  z <- zscores ;;
  top <- lift (int_max (cluster_IDs z)) ;;
  let pg_identifiers :=
    map (fun key => (key, @nil string)) (range_from (-1) (top + 1)) in
  z <- zscores ;;
  for_each (map fst (table_columns z))
    (fun column pg =>
       z <- zscores ;;
       values <- lift (getitem (table_columns z) column) ;;
       acc <- for_each values
                (fun value acc =>
                   let '(pg, counter) := acc in
                   pg' <- test_cell zscore_threshold std_threshold
                                    column value counter pg ;;
                   ret (pg', (counter + 1)%Z))
                (pg, (-1)%Z) ;;
       ret (fst acc))
    pg_identifiers.

End GroupIdentifier.

(** *** Matching a record to a cluster *)

(** The rows [df.loc[indexes, "group"] = group_label] marks, in the
    order of the table. *)
Definition group_rows (clean : DataFrame) (indexes : list Z)
  : result (list nat) :=
  let known i := ((0 <=? i) && (i <? Z.of_nat (nrows clean)))%Z in
  match find (fun i => negb (known i)) indexes with
  | Some i => Raise (KeyError (KInt i))
  | None =>
      Ok (map Z.to_nat (filter (fun i => mem i indexes) (range (nrows clean))))
  end.

(** [pd.merge(sub_frame["group"], raw, left_index, right_index)]: the
    group column and the raw columns on the rows both tables have. *)
Definition merge_group (group_label : Z) (rows : list nat) (raw : DataFrame)
  : DataFrame :=
  let rows := filter (fun p => (p <? nrows raw)%nat) rows in
  {| nrows := List.length rows;
     columns :=
       ("group"%string, NumCol (map (fun _ => Some (inject_Z group_label)) rows))
         :: map (fun nc => (fst nc, take_rows (snd nc) rows)) (columns raw) |}.

(** A table handed to [pd.merge]. *)
Definition as_merge_operand (v : pyval) : result DataFrame :=
  match v with PFrame df => Ok df | _ => Raise TypeError end.

(** [Model.get_cluster_dfs] *)
Definition get_cluster_dfs (fs : filesystem) : M (dict string DataFrame) :=
  items <- items_dict fs ;;
  for_each items
    (fun entry group_dataframes =>
       let '(group_label, indexes) := entry in
       clean <- tupper_clean fs ;;
       df <- lift (as_frame clean) ;;
       rows <- lift (group_rows df indexes) ;;
       raw <- tupper_raw fs ;;
       raw_df <- lift (as_merge_operand raw) ;;
       ret (dict_set group_dataframes
                     ("group_" ++ repr_int group_label)%string
                     (merge_group group_label rows raw_df)))
    [].

Definition has_missing (c : column) : bool :=
  match c with
  | NumCol vals => existsb (fun o => match o with None => true | Some _ => false end) vals
  | ObjCol _ => false
  end.

(** [target.select_dtypes(include=np.number).dropna(axis=1).columns] *)
Definition target_columns (target : DataFrame) : list string :=
  map fst
      (filter (fun nc => is_numeric (snd nc) && negb (has_missing (snd nc)))
              (columns target)).

(** [target[col][0]] *)
Definition cell0 (target : DataFrame) (col : string) : result xnum :=
  match dict_get (columns target) col with
  | Some (NumCol (Some q :: _)) => Ok (Fin q)
  | Some (NumCol (None :: _)) => Ok NaN
  | Some (NumCol []) => Raise (KeyError (KInt 0))
  | Some (ObjCol _) => Raise TypeError
  | None => Raise (KeyError (KStr col))
  end.

(** [group_data[col].mean()] *)
Definition column_mean (group_data : DataFrame) (col : string) : result xnum :=
  match dict_get (columns group_data) col with
  | Some (NumCol vals) => Ok (mean vals)
  | Some (ObjCol _) => Raise TypeError
  | None => Raise (KeyError (KStr col))
  end.

(** The column loop of [target_matching]: the score of one group. *)
Definition score_group (target : DataFrame) (target_cols raw_cols : list string)
           (group_data : DataFrame) : result xnum :=
  rfor_each target_cols
    (fun col score =>
       if mem col raw_cols then
         (x <- cell0 target col ;;
          mu <- column_mean group_data col ;;
          Ok (xadd score (error x mu)))%result
       else Ok score)
    (Fin 0).

(** [min(scores, key=scores.get)]: the first key no later key beats. *)
Definition min_key (scores : dict string xnum) : result string :=
  match scores with
  | [] => Raise ValueError
  | first :: rest =>
      Ok (fst (fold_left
                 (fun best kv => if xltb (snd kv) (snd best) then kv else best)
                 rest first))
  end.

(** The columns [raw_cols] stands for. *)
Definition raw_columns (fs : filesystem) (col_filter : option (list string))
  : M (list string) :=
  match col_filter with
  | Some (c :: r) => ret (c :: r)
  | _ =>
      raw <- tupper_raw fs ;;
      raw_df <- lift (as_frame raw) ;;
      ret (numeric_columns raw_df)
  end.

(** [Model.target_matching]; [self.index_dict] is followed as a local
    variable, no other method reads it. *)
Definition target_matching (fs : filesystem) (target : DataFrame)
           (remove_unclustered : bool) (col_filter : option (list string))
  : M (dict string xnum * string) :=
  index_dict <- get_cluster_dfs fs ;;
  index_dict <-
    (if remove_unclustered then
       unclustered <- unclustered_items fs ;;
       if (0 <? List.length unclustered)%nat
       then lift (dict_pop index_dict "group_-1"%string)
       else ret index_dict
     else ret index_dict) ;;
  let target_cols := target_columns target in
  raw_cols <- raw_columns fs col_filter ;;
  scores <-
    lift (rfor_each index_dict
            (fun entry scores =>
               rbind (score_group target target_cols raw_cols (snd entry))
                     (fun score => Ok (dict_set scores (fst entry) score)))
            []) ;;
  min_index <- lift (min_key scores) ;;
  ret (scores, min_index).

(** The columns on which [target_matching] compares a record to a group:
    those for which the column loop evaluates [error]. *)
Definition compared_columns (target_cols raw_cols : list string) : list string :=
  filter (fun col => mem col raw_cols) target_cols.

(** *** The tables of the nodes of a component *)

(** [l[i]] on a list, with Python's negative positions. *)
Definition list_getitem {A} (l : list A) (i : Z) : result A :=
  match norm_pos (List.length l) i with
  | Some p => match nth_error l p with
              | Some a => Ok a
              | None => Raise IndexError
              end
  | None => Raise IndexError
  end.

(** The attribute [.loc]: tables and series have it. *)
Definition attr_loc (v : pyval) : result unit :=
  match v with
  | PFrame _ | PSeries _ => Ok tt
  | _ => Raise AttributeError
  end.

(** The first of the row labels that the index [0 .. n-1] does not have. *)
Definition missing_label (n : nat) (labels : list Z) : option Z :=
  find (fun i => negb ((0 <=? i) && (i <? Z.of_nat n))%Z) labels.

(** [v.loc[labels]] for a list of row labels: the rows carrying the
    labels, in the order of the list; a label the index does not have is
    a [KeyError]. *)
Definition loc_rows (v : pyval) (labels : list Z) : result pyval :=
  match v with
  | PFrame df =>
      match missing_label (nrows df) labels with
      | Some i => Raise (KeyError (KInt i))
      | None =>
          let ps := map Z.to_nat labels in
          Ok (PFrame {| nrows := List.length ps;
                        columns := map (fun nc => (fst nc, take_rows (snd nc) ps))
                                       (columns df) |})
      end
  | PSeries c =>
      let n := match c with
               | NumCol vals => List.length vals
               | ObjCol vals => List.length vals
               end in
      match missing_label n labels with
      | Some i => Raise (KeyError (KInt i))
      | None => Ok (PSeries (take_rows c (map Z.to_nat labels)))
      end
  | _ => Raise AttributeError
  end.

(** [Model._get_node_df]; [df.loc] is looked up before the subscript is
    evaluated. *)
Definition _get_node_df (fs : filesystem) (node : string) : M pyval :=
  df <- tupper_raw fs ;;
  lift (attr_loc df) ;;;
  m <- mapper fs ;;
  cx <- lift (attr_complex m) ;;
  table <- lift (node_table cx) ;;
  items <- lift (getitem table node) ;;
  lift (loc_rows df items).

(** [Model.get_node_dfs] *)
Definition get_node_dfs (fs : filesystem) (cc : Z) : M (dict string pyval) :=
  m <- mapper fs ;;
  components <- lift (attr_components m) ;;
  component <- lift (list_getitem components cc) ;;
  let '(nodes, key) := component in
  for_each nodes
    (fun node node_dict =>
       df <- _get_node_df fs node ;;
       ret (dict_set node_dict node df))
    [].

End Model.

(** ** Concrete artifacts, used to run the embedding *)
Module Examples.

Definition cells (l : list Q) : column := NumCol (map Some l).

(** A sum of floats, each addition rounded, in the order of the cells. *)
Definition float_sum (xs : list Q) : Q :=
  fold_left (fun acc x => float64 (acc + x)) xs 0%Q.

(** One float64 computation of the sample deviation, used to run the
    examples: the cells as floats, the two passes of pandas' [nanvar] (the
    mean, then the squared differences to it, divided by one less than the
    number of cells) and the square root, with the additions in the order
    of the cells.  On the small whole numbers of the tables below every step
    before the last division is exact, so that the order of the additions
    plays no part there. *)
Definition float_std : Deviation :=
  fun vals =>
    let xs := map float64 (present vals) in
    let n := List.length xs in
    if (n <=? 1)%nat then None
    else
      let avg := float64 (float_sum xs / inject_Z (Z.of_nat n)) in
      let sqr := map (fun x => let d := float64 (avg - x) in float64 (d * d)) xs in
      Some (float64_sqrt
              (float64 (float_sum sqr / inject_Z (Z.of_nat (n - 1))))).

Definition paths : Tupper_t :=
  {| _raw := "raw.pkl"; _clean := "clean.pkl"; _projection := "projection.pkl" |}.

(** A mapper artifact next to its three data artifacts. *)
Definition world (jm : JMapper_t) (raw clean : pyval) : filesystem :=
  [ ("mapper.pkl"%string,
     Pickle (PDict [("mapper"%string, PMapper jm);
                    ("hyperparameters"%string, PDict [])]));
    ("raw.pkl"%string, Pickle raw);
    ("clean.pkl"%string, Pickle clean);
    ("projection.pkl"%string,
     Pickle (PDict [("projection"%string, PArray []);
                    ("hyperparameters"%string, PDict [])])) ].

Definition fresh (fs : filesystem) : Model.Model_t :=
  match Model.init fs "mapper.pkl" with
  | Ok self => self
  | Raise _ =>
      {| Model._mapper := None; Model._hyper_parameters := None;
         Model._node_ids := None; Model._node_description := None;
         Model._cluster_ids := None; Model._cluster_descriptions := None;
         Model._cluster_sizes := None; Model._unclustered_items := None;
         Model._zscores := None; Model._items_dict := None |}
  end.

(** A clean artifact that was written without its [clean_data] entry. *)
Definition fs_no_clean_data : filesystem :=
  [ ("raw.pkl"%string, Pickle (PFrame {| nrows := 0; columns := [] |}));
    ("clean.pkl"%string, Pickle (PDict [("dropped_columns"%string, PList [])]));
    ("projection.pkl"%string, Pickle (PDict [])) ].

(** The same place after the raw artifact was removed. *)
Definition fs_raw_removed : filesystem :=
  [ ("clean.pkl"%string, Pickle (PDict [("dropped_columns"%string, PList [])]));
    ("projection.pkl"%string, Pickle (PDict [])) ].

(** A fitted complex that found no node: the node table is there and
    empty, and there is no component. *)
Definition jm_no_nodes : JMapper_t :=
  {| jm_tupper := paths;
     jm_complex := [("nodes"%string, NodeTable []); ("links"%string, Opaque)];
     jm_components := [] |}.

Definition two_rows : pyval :=
  PFrame {| nrows := 2; columns := [("a"%string, cells [1; 2]%Q)] |}.

Definition fs_no_nodes : filesystem :=
  world jm_no_nodes two_rows
        (PDict [("clean_data"%string, two_rows);
                ("dropped_columns"%string, PList [])]).

(** Two clusters of two items each; the record to match has the value 0
    in column [a], which is also the mean of cluster 0 in that column. *)
Definition raw_ab : DataFrame :=
  {| nrows := 4;
     columns := [("a"%string, cells [0; 0; 1; 1]%Q);
                 ("b"%string, cells [2; 4; 6; 8]%Q);
                 ("name"%string, ObjCol ["p"; "q"; "r"; "s"]%string)] |}.

Definition clean_ab : DataFrame :=
  {| nrows := 4;
     columns := [("b"%string, cells [2; 4; 6; 8]%Q);
                 ("a"%string, cells [0; 0; 1; 1]%Q)] |}.

Definition jm_two_clusters : JMapper_t :=
  {| jm_tupper := paths;
     jm_complex := [("nodes"%string,
                     NodeTable [("n0"%string, [0; 1]%Z); ("n1"%string, [2; 3]%Z)])];
     jm_components := [(["n0"%string], 0%Z); (["n1"%string], 1%Z)] |}.

Definition fs_two_clusters : filesystem :=
  world jm_two_clusters (PFrame raw_ab)
        (PDict [("clean_data"%string, PFrame clean_ab);
                ("dropped_columns"%string, PList [PStr "name"])]).

(** The same two clusters and a fifth row that no node contains. *)
Definition raw_outlier : DataFrame :=
  {| nrows := 5;
     columns := [("a"%string, cells [0; 0; 1; 1; 7]%Q);
                 ("b"%string, cells [2; 4; 6; 8; 9]%Q)] |}.

Definition fs_outlier : filesystem :=
  world jm_two_clusters (PFrame raw_outlier)
        (PDict [("clean_data"%string, PFrame raw_outlier);
                ("dropped_columns"%string, PList [])]).

Definition target_a0 : DataFrame :=
  {| nrows := 1; columns := [("a"%string, cells [0]%Q)] |}.

Definition target_az : DataFrame :=
  {| nrows := 1;
     columns := [("a"%string, cells [1]%Q); ("z"%string, cells [5]%Q)] |}.

(** Two columns whose deviation is the same number, the root of 7/3. *)
Definition clean_near : DataFrame :=
  {| nrows := 3;
     columns := [("a"%string, cells [0; 1; 3]%Q);
                 ("b"%string, cells [1; 2; 4]%Q)] |}.

(** Two columns that are equally spread on the rows of the only node; the
    clean table lists [b] before [a]. *)
Definition clean_tie : DataFrame :=
  {| nrows := 2;
     columns := [("b"%string, cells [1; 1]%Q); ("a"%string, cells [3; 3]%Q)] |}.

Definition jm_one_node : JMapper_t :=
  {| jm_tupper := paths;
     jm_complex := [("nodes"%string, NodeTable [("n0"%string, [0; 1]%Z)])];
     jm_components := [(["n0"%string], 0%Z)] |}.

Definition fs_tie : filesystem :=
  world jm_one_node (PFrame clean_tie)
        (PDict [("clean_data"%string, PFrame clean_tie);
                ("dropped_columns"%string, PList [])]).

(** Seven nodes of two items each, no item shared, all in one component,
    and two rows that no node contains.  Column [cj] is constant on the two
    rows of node [nj] and nowhere else, so each node gets a label of its
    own. *)
Definition seven_column (j : nat) : column :=
  cells (map (fun row => if Nat.eqb (Nat.div row 2) j then 0%Q
                         else inject_Z (Z.of_nat (S row)))
             (seq 0 16)).

Definition seven_names : list string :=
  ["c0"; "c1"; "c2"; "c3"; "c4"; "c5"; "c6"]%string.

Definition clean_seven : DataFrame :=
  {| nrows := 16;
     columns := combine seven_names (map seven_column (seq 0 7)) |}.

Definition seven_nodes : dict string (list Z) :=
  [("n0"%string, [0; 1]%Z); ("n1"%string, [2; 3]%Z); ("n2"%string, [4; 5]%Z);
   ("n3"%string, [6; 7]%Z); ("n4"%string, [8; 9]%Z); ("n5"%string, [10; 11]%Z);
   ("n6"%string, [12; 13]%Z)].

Definition jm_seven : JMapper_t :=
  {| jm_tupper := paths;
     jm_complex := [("nodes"%string, NodeTable seven_nodes)];
     jm_components := [(dict_keys seven_nodes, 0%Z)] |}.

Definition fs_seven : filesystem :=
  world jm_seven (PFrame clean_seven)
        (PDict [("clean_data"%string, PFrame clean_seven);
                ("dropped_columns"%string, PList [])]).

(** The model of [fs_two_clusters] once its nodes are described. *)
Definition described : Model.Model_t :=
  snd (Model.compute_node_descriptions (dev := float_std)
         fs_two_clusters (fresh fs_two_clusters)).

(** One row, contained in a node of each of two components. *)
Definition one_row : pyval :=
  PFrame {| nrows := 1; columns := [("a"%string, cells [1]%Q)] |}.

Definition jm_shared : JMapper_t :=
  {| jm_tupper := paths;
     jm_complex := [("nodes"%string,
                     NodeTable [("A"%string, [0]%Z); ("B"%string, [0]%Z)])];
     jm_components := [(["A"%string], 0%Z); (["B"%string], 1%Z)] |}.

Definition fs_shared : filesystem :=
  world jm_shared one_row
        (PDict [("clean_data"%string, one_row);
                ("dropped_columns"%string, PList [])]).

(** The two clusters again, with a clean artifact that was written
    without its [clean_data] entry. *)
Definition fs_clean_lost : filesystem :=
  world jm_two_clusters (PFrame raw_ab)
        (PDict [("dropped_columns"%string, PList [PStr "name"])]).

(** One component whose node lists the item 4, with a clean table of
    four rows. *)
Definition jm_beyond : JMapper_t :=
  {| jm_tupper := paths;
     jm_complex := [("nodes"%string, NodeTable [("n0"%string, [0; 4]%Z)])];
     jm_components := [(["n0"%string], 0%Z)] |}.

Definition fs_beyond : filesystem :=
  world jm_beyond (PFrame raw_ab)
        (PDict [("clean_data"%string, PFrame clean_ab);
                ("dropped_columns"%string, PList [PStr "name"])]).

(** Two nodes, the second of which lists the item 9, with a clean table
    of four rows. *)
Definition jm_stray : JMapper_t :=
  {| jm_tupper := paths;
     jm_complex := [("nodes"%string,
                     NodeTable [("n0"%string, [0; 1]%Z); ("n1"%string, [2; 9]%Z)])];
     jm_components := [(["n0"%string], 0%Z); (["n1"%string], 1%Z)] |}.

Definition fs_stray : filesystem :=
  world jm_stray (PFrame raw_ab)
        (PDict [("clean_data"%string, PFrame clean_ab);
                ("dropped_columns"%string, PList [PStr "name"])]).

(** A table of z-scores of four items, none of them unclustered. *)
Definition z_items : Model.ztable :=
  {| Model.cluster_IDs := [0; 0; 1; 1]%Z;
     Model.zcolumns := [("x"%string, map Some [1 # 10; 1 # 10; 5; 5]%Q)] |}.


End Examples.

(** ** Predicates the properties are stated with *)
Module Spec.

(** The method [c] does not end in the exception [bad]. *)
Definition other_than (bad : exn) {A} (c : Model.M A) : Prop :=
  forall self e self', c self = (Raise e, self') -> e <> bad.

Definition rother_than (bad : exn) {A} (r : result A) : Prop :=
  forall e, r = Raise e -> e <> bad.

(** The failure of the assertion that opens [label_item_by_cluster]. *)
Definition precondition_failure : exn :=
  AssertionError Model.precondition_msg.

(** The method [c] leaves the attributes of the model as they are. *)
Definition reads_only {A} (c : Model.M A) : Prop :=
  forall self, snd (c self) = self.

(** The cells of column [c] of [df] on the rows at positions [ps]. *)
Definition masked_cells (df : DataFrame) (ps : list nat) (c : string)
  : list (option Q) :=
  match dict_get (columns df) c with
  | Some (NumCol vals) => map (fun p => nth p vals None) ps
  | _ => []
  end.

(** The standard deviation pandas computes for column [c] of [df] over
    the rows of [mask]; [None] when it is not a number. *)
Definition masked_std {dev : Deviation} (df : DataFrame) (mask : list Z)
           (c : string) : option Q :=
  match positions (nrows df) mask with
  | Ok ps => pandas_std (masked_cells df ps c)
  | Raise _ => None
  end.

(** Every number among the cells [l] is above [v], strictly or not. *)
Definition all_above (v : Q) (strict : bool) (l : list (option Q)) : Prop :=
  forall v', In (Some v') l -> if strict then (v < v')%Q else (v <= v')%Q.

(** The size a node description gives a node. *)
Definition size_of (nd : dict string Model.node_desc) (node : string) : nat :=
  match dict_get nd node with
  | Some d => Model.size d
  | None => 0%nat
  end.

(** The node is described, with the label [l]. *)
Definition has_label (nd : dict string Model.node_desc) (l : string)
           (node : string) : bool :=
  match dict_get nd node with
  | Some d => String.eqb (Model.label d) l
  | None => false
  end.

(** N_total: the sizes of the nodes, added up node by node. *)
Definition total_size (nd : dict string Model.node_desc) (nodes : list string)
  : nat :=
  list_sum (map (size_of nd) nodes).

(** S_label: the sizes of the nodes whose label is [l], added up. *)
Definition label_size (nd : dict string Model.node_desc) (nodes : list string)
           (l : string) : nat :=
  list_sum (map (size_of nd) (filter (has_label nd l) nodes)).

(** One turn of the node loop of [compute_cluster_descriptions], when the
    description of the node is at hand. *)
Definition accumulate_step (nd : dict string Model.node_desc)
           (acc : dict string nat * nat) (node : string)
  : dict string nat * nat :=
  match dict_get nd node with
  | Some d =>
      let label := Model.label d in
      let size := Model.size d in
      (dict_set (fst acc) label
                (if mem label (dict_keys (fst acc))
                 then (size + get_default (fst acc) label 0)%nat else size),
       (snd acc + size)%nat)
  | None => acc
  end.

(** What the accumulators hold after the nodes [seen]. *)
Definition holder_ok (nd : dict string Model.node_desc) (seen : list string)
           (acc : dict string nat * nat) : Prop :=
  NoDup (dict_keys (fst acc))
  /\ snd acc = total_size nd seen
  /\ list_sum (dict_values (fst acc)) = snd acc
  /\ forall l,
      match dict_get (fst acc) l with
      | Some h => h = label_size nd seen l
                  /\ exists n, In n seen /\ has_label nd l n = true
      | None => forall n, In n seen -> has_label nd l n = false
      end.

(** The description [compute_node_descriptions] gives a node: the column
    [get_minimal_std] selects on the rows of the node, and the number of
    items of the node. *)
Definition description_of {dev : Deviation} (clean : DataFrame)
           (cols : list string) (nodes : dict string (list Z)) (node : string)
  : Model.node_desc :=
  let mask := get_default nodes node [] in
  {| Model.label :=
       match get_minimal_std clean mask (Some cols) with
       | Ok label => label
       | Raise _ => EmptyString
       end;
     Model.size := List.length mask |}.

(** The fraction of [N] that [h] is, before rounding. *)
Definition share (N h : nat) : Q :=
  (inject_Z (Z.of_nat h) / inject_Z (Z.of_nat N))%Q.

(** The items of the nodes of a component, node after node. *)
Definition items_of (nodes : dict string (list Z)) (component : list string * Z)
  : list Z :=
  List.concat (map (fun n => get_default nodes n []) (fst component)).

(** The members of a component: its distinct items. *)
Definition members (nodes : dict string (list Z)) (component : list string * Z)
  : list Z :=
  to_set (items_of nodes component).

(** Some node contains the item. *)
Definition covered (nodes : dict string (list Z)) (i : Z) : bool :=
  existsb (fun n => mem i (get_default nodes n [])) (dict_keys nodes).

(** The items of [0 .. N-1] that no node contains. *)
Definition unclustered (nodes : dict string (list Z)) (N : nat) : list Z :=
  filter (fun i => negb (covered nodes i)) (range N).

(** The mapper artifact of the model loads and holds [jm]; its clean
    table loads and has [N] rows; its complex has the node table [nodes]. *)
Definition loaded (fs : filesystem) (self : Model.Model_t) (jm : JMapper_t)
           (nodes : dict string (list Z)) (N : nat) : Prop :=
  fst (Model.mapper fs self) = Ok (PMapper jm)
  /\ Model.node_table (jm_complex jm) = Ok nodes
  /\ exists clean, snd (Tupper.clean fs (jm_tupper jm)) = Ok clean
                   /\ py_len clean = Ok N.

(** The components name nodes of the complex, and carry distinct cluster
    ids other than -1. *)
Definition components_ok (nodes : dict string (list Z))
           (components : list (list string * Z)) : Prop :=
  (forall c n, In c components -> In n (fst c) -> In n (dict_keys nodes))
  /\ NoDup (map snd components)
  /\ ~ In (-1)%Z (map snd components).

(** The items of the nodes are indices of rows. *)
Definition items_in_range (nodes : dict string (list Z)) (N : nat) : Prop :=
  forall n i, In n (dict_keys nodes) -> In i (get_default nodes n []) ->
              (0 <= i < Z.of_nat N)%Z.

(** Every node of the complex is in a component. *)
Definition nodes_grouped (nodes : dict string (list Z))
           (components : list (list string * Z)) : Prop :=
  forall n, In n (dict_keys nodes) ->
            exists c, In c components /\ In n (fst c).

(** Some item is in nodes of two components. *)
Definition shared_item (nodes : dict string (list Z))
           (components : list (list string * Z)) : Prop :=
  exists c1 c2 i,
    In c1 components /\ In c2 components /\ snd c1 <> snd c2
    /\ In i (items_of nodes c1) /\ In i (items_of nodes c2).

(** The unclustered items are not cached, or cached as computed. *)
Definition unclustered_cache_ok (self : Model.Model_t)
           (nodes : dict string (list Z)) (N : nat) : Prop :=
  Model._unclustered_items self = None
  \/ Model._unclustered_items self = Some (unclustered nodes N).

(** The per-cluster item lists [label_item_by_cluster] leaves: the members
    of each component under its cluster id, then the unclustered items
    under -1. *)
Definition item_lists (nodes : dict string (list Z))
           (components : list (list string * Z)) (N : nat) : dict Z (list Z) :=
  map (fun c => (snd c, members nodes c)) components
      ++ [((-1)%Z, unclustered nodes N)].

(** The model was not labelled by cluster yet, or holds the item lists of
    its complex. *)
Definition labelling_ok (self : Model.Model_t) (nodes : dict string (list Z))
           (components : list (list string * Z)) (N : nat) : Prop :=
  (Model._items_dict self = None /\ unclustered_cache_ok self nodes N)
  \/ Model._items_dict self = Some (item_lists nodes components N).

(** One turn of the second loop of [get_items_in_multiple_groups]. *)
Definition overlap_step (items : dict Z (list Z)) (overlapping : dict Z (list Z))
           (vc : Z * nat) : dict Z (list Z) :=
  if (1 <? snd vc)%nat
  then dict_set overlapping (fst vc) (Model.groups_of items (fst vc))
  else overlapping.

(** How often [v] occurs in the lists. *)
Definition occurrences (lists : list (list Z)) (v : Z) : nat :=
  list_sum (map (fun l => count_occ Z.eq_dec l v) lists).

(** Strictly before, in the order of strings. *)
Definition str_lt (a b : string) : Prop := String.compare a b = Lt.

(** The nodes that contain the item, in the order of the node table. *)
Definition nodes_with (nodes : dict string (list Z)) (idx : Z) : list string :=
  filter (fun n => mem idx (get_default nodes n [])) (dict_keys nodes).

(** The label of an item: the nodes that contain it, or -1 when there is
    none. *)
Definition label_of (nodes : dict string (list Z)) (idx : Z)
  : Model.node_label :=
  match nodes_with nodes idx with
  | [] => Model.NoNode
  | ids => Model.InNodes ids
  end.

(** The clean table of the container cannot be read: its artifact does
    not load, or lacks the entry [clean_data]. *)
Definition clean_unreadable (fs : filesystem) (t : Tupper_t) : Prop :=
  truthy (_clean t) = true
  /\ exists e,
      rbind (load fs (_clean t)) (fun ref => subscript ref "clean_data")
      = Raise e.

(** The rows of [raw] that carry the labels [items], in the order of
    [items], as a table. *)
Definition rows_at (raw : DataFrame) (items : list Z) : DataFrame :=
  {| nrows := List.length (map Z.to_nat items);
     columns := map (fun nc => (fst nc, take_rows (snd nc) (map Z.to_nat items)))
                    (columns raw) |}.

(** An object whose truth value Python takes without more ado: not a
    table, a series or an array. *)
Definition plain_value (v : pyval) : bool :=
  match v with
  | PFrame _ | PSeries _ | PArray _ => false
  | _ => true
  end.

(** The rows of the items [idxs] among the [N] rows of the clean table,
    as positions in increasing order. *)
Definition rows_of (N : nat) (idxs : list Z) : list nat :=
  map Z.to_nat (filter (fun i => mem i idxs) (range N)).

(** The key of a cluster in the dictionary of the cluster tables. *)
Definition group_key (k : Z) : string := ("group_" ++ repr_int k)%string.

(** The tables [get_cluster_dfs] makes of the item lists: for each
    cluster the rows of its items, merged with the raw table. *)
Definition cluster_tables (raw : DataFrame) (N : nat) (items : dict Z (list Z))
  : dict string DataFrame :=
  map (fun kl => (group_key (fst kl),
                  Model.merge_group (fst kl) (rows_of N (snd kl)) raw))
      items.

(** The model was not labelled by cluster yet, or holds the item lists
    and the unclustered items of its complex. *)
Definition labelled_or_new (self : Model.Model_t) (nodes : dict string (list Z))
           (components : list (list string * Z)) (N : nat) : Prop :=
  (Model._items_dict self = None /\ unclustered_cache_ok self nodes N)
  \/ (Model._items_dict self = Some (item_lists nodes components N)
      /\ Model._unclustered_items self = Some (unclustered nodes N)).

(** The scores of the tables [tables] for the record [target]. *)
Definition scores_of (target : DataFrame) (raw_cols : list string)
           (tables : dict string DataFrame) : result (dict string xnum) :=
  rfor_each tables
    (fun entry scores =>
       rbind (Model.score_group target (Model.target_columns target) raw_cols
                                (snd entry))
             (fun score => Ok (dict_set scores (fst entry) score)))
    [].

(** The item lists whose tables [target_matching] scores: those of the
    components, and that of the unclustered items unless it is removed,
    which it is only when there are unclustered items. *)
Definition kept_items (nodes : dict string (list Z))
           (components : list (list string * Z)) (N : nat)
           (remove_unclustered : bool) : dict Z (list Z) :=
  if (remove_unclustered && (0 <? List.length (unclustered nodes N))%nat)%bool
  then map (fun c => (snd c, members nodes c)) components
  else item_lists nodes components N.

(** What [raw_cols] is in [target_matching], given the raw table. *)
Definition raw_cols_of (raw : DataFrame) (col_filter : option (list string))
  : list string :=
  match col_filter with
  | Some (c :: r) => c :: r
  | _ => numeric_columns raw
  end.

(** The first cell of column [c] of the record. *)
Definition first_cell (target : DataFrame) (c : string) : xnum :=
  match dict_get (columns target) c with
  | Some (NumCol (Some q :: _)) => Fin q
  | _ => NaN
  end.

(** The score of the rows [rows] of the raw table for the record: the
    errors of the record against the means of the rows, added up over the
    compared columns. *)
Definition score_formula (target raw : DataFrame) (rows : list nat)
           (compared : list string) : xnum :=
  fold_left
    (fun acc c =>
       xadd acc (error (first_cell target c) (mean (masked_cells raw rows c))))
    compared (Fin 0).




(** A float that is not below zero: not-a-number counts as such. *)
Definition not_negative (s : xnum) : Prop :=
  match s with
  | Fin q => (0 <= q)%Q
  | PInf | NaN => True
  | NInf => False
  end.

(** The position is outside the array of length [n], negative positions
    counted from the end. *)
Definition out_of_bounds (n : nat) (i : Z) : Prop :=
  (i < - Z.of_nat n \/ Z.of_nat n <= i)%Z.

(** The cluster id [label_item_by_cluster] leaves on the item: the id of
    the last component that has it, -1 when none has. *)
Definition cluster_of (nodes : dict string (list Z))
           (components : list (list string * Z)) (i : Z) : Z :=
  fold_left (fun acc c => if mem i (members nodes c) then snd c else acc)
            components (-1)%Z.

(** The method [c] leaves the attribute [field] of the model as it is,
    whether it returns or raises. *)
Definition leaves {F A} (field : Model.Model_t -> F) (c : Model.M A) : Prop :=
  forall s r s', c s = (r, s') -> field s' = field s.

(** Whatever [c] does, [P] holds of the model afterwards when it held
    before. *)
Definition keeps (P : Model.Model_t -> Prop) {A} (c : Model.M A) : Prop :=
  forall s r s', c s = (r, s') -> P s -> P s'.

(** When [c] raises, [P] holds of the model it leaves behind when it held
    before. *)
Definition keeps_on_failure (P : Model.Model_t -> Prop) {A} (c : Model.M A)
  : Prop :=
  forall s e s', c s = (Raise e, s') -> P s -> P s'.

(** Cluster descriptions are stored, and have no entry for [k]. *)
Definition described_without (k : Z) (s : Model.Model_t) : Prop :=
  exists d, Model._cluster_descriptions s = Some d /\ dict_get d k = None.

End Spec.

(* ================================================================== *)
(** * Part II: properties *)
(* ================================================================== *)

(** ** The data container *)

Lemma try_except_returns body msg :
  exists out v, Tupper.try_except body msg = (out, Ok v).
Proof.
  destruct body as [out [v | e]]; simpl; eauto.
Qed.

Lemma init_paths fs r c p t :
  Tupper.init fs r c p = Ok t ->
  _raw t = r /\ _clean t = c /\ _projection t = p /\
  truthy r = true /\ truthy c = true /\ truthy p = true.
Proof.
  unfold Tupper.init, isfile, lookup_file.
  destruct (truthy r), (truthy c), (truthy p); simpl;
    repeat match goal with
           | |- context [match ?x with Some _ => _ | None => _ end] => destruct x; simpl
           end; intros H; try discriminate H; inversion H; subst; simpl;
    repeat split; reflexivity.
Qed.

(** C9 (as the code has it): an accessor of a container that was
    constructed never raises, whatever became of the files since.  When
    the artifact cannot be loaded, or (for the four accessors that open an
    entry) lacks the entry, the accessor prints its diagnostic followed by
    the exception and returns [None]; otherwise it returns what it loaded. *)
Theorem tupper_accessors_swallow_failures :
  forall (fs0 fs : filesystem) (r c p : string) (t : Tupper_t),
    Tupper.init fs0 r c p = Ok t ->
    Tupper.raw fs t =
      match load fs r with
      | Ok v => ([], Ok v)
      | Raise e => ([PrintDiag Tupper.raw_diag e], Ok PNone)
      end
    /\ Tupper.clean fs t =
      match rbind (load fs c) (fun ref => subscript ref "clean_data") with
      | Ok v => ([PrintVal v], Ok v)
      | Raise e => ([PrintDiag Tupper.clean_diag e], Ok PNone)
      end
    /\ Tupper.get_dropped_columns fs t =
      match rbind (load fs c) (fun ref => subscript ref "dropped_columns") with
      | Ok v => ([], Ok v)
      | Raise e => ([PrintDiag Tupper.dropped_diag e], Ok PNone)
      end
    /\ Tupper.projection fs t =
      match rbind (load fs p) (fun ref => subscript ref "projection") with
      | Ok v => ([], Ok v)
      | Raise e => ([PrintDiag Tupper.projection_diag e], Ok PNone)
      end
    /\ Tupper.get_projection_parameters fs t =
      match rbind (load fs p) (fun ref => subscript ref "hyperparameters") with
      | Ok v => ([], Ok v)
      | Raise e => ([PrintDiag Tupper.parameters_diag e], Ok PNone)
      end.
Proof.
  intros fs0 fs r c p t Hinit.
  destruct (init_paths _ _ _ _ Hinit) as (Hr & Hc & Hp & Tr & Tc & Tp).
  unfold Tupper.raw, Tupper.clean, Tupper.get_dropped_columns,
    Tupper.projection, Tupper.get_projection_parameters, Tupper.assert_path.
  rewrite Hr, Hc, Hp, Tr, Tc, Tp.
  repeat apply conj.
  - destruct (load fs r); reflexivity.
  - destruct (load fs c) as [v | e]; simpl; [destruct (subscript v _) |]; reflexivity.
  - destruct (load fs c) as [v | e]; simpl; [destruct (subscript v _) |]; reflexivity.
  - destruct (load fs p) as [v | e]; simpl; [destruct (subscript v _) |]; reflexivity.
  - destruct (load fs p) as [v | e]; simpl; [destruct (subscript v _) |]; reflexivity.
Qed.

Lemma tupper_accessors_swallow_failures_witness :
  Tupper.init Examples.fs_no_clean_data "raw.pkl" "clean.pkl" "projection.pkl"
    = Ok Examples.paths
  /\ Tupper.get_dropped_columns Examples.fs_raw_removed Examples.paths
     = ([], Ok (PList [])).
Proof.
  split; [reflexivity|].
  destruct (tupper_accessors_swallow_failures
              Examples.fs_no_clean_data Examples.fs_raw_removed
              "raw.pkl" "clean.pkl" "projection.pkl" eq_refl)
    as (_ & _ & H & _).
  exact H.
Defined.

(** C9 (as stated) fails: the clean artifact loads but has no
    [clean_data] entry, and the raw artifact is gone; both accessors
    return [None] after printing, neither raises. *)
Lemma tupper_accessors_fail_counterexample :
  Tupper.init Examples.fs_no_clean_data "raw.pkl" "clean.pkl" "projection.pkl"
    = Ok Examples.paths
  /\ Tupper.clean Examples.fs_no_clean_data Examples.paths
     = ([PrintDiag Tupper.clean_diag (KeyError (KStr "clean_data"))], Ok PNone)
  /\ isfile Examples.fs_raw_removed (_raw Examples.paths) = false
  /\ Tupper.raw Examples.fs_raw_removed Examples.paths
     = ([PrintDiag Tupper.raw_diag (FileNotFoundError "raw.pkl")], Ok PNone)
  /\ ~ (forall fs t, isfile fs (_raw t) = false ->
                     exists e, snd (Tupper.raw fs t) = Raise e).
Proof.
  repeat split.
  intros H.
  destruct (H Examples.fs_raw_removed Examples.paths eq_refl) as [e He].
  discriminate He.
Qed.

(** ** Construction of a model and its first use *)

(** C10: constructing a [Model] on a path that is not an existing file
    succeeds; each accessor that reads the mapper artifact, and each
    method built on them, then fails with the assertion message
    "Please Specify a valid path to a mapper object". *)
Theorem model_invalid_path_fails_on_first_use :
  forall (dev : Deviation) (fs : filesystem) (path : string),
    isfile fs path = false ->
    exists self : Model.Model_t,
      Model.init fs path = Ok self
      /\ let failure {A} (c : Model.M A) :=
           fst (c self)
           = Raise (AssertionError "Please Specify a valid path to a mapper object") in
         failure (Model.mapper fs)
         /\ failure (Model.complex fs)
         /\ failure (Model.tupper fs)
         /\ failure (Model.hyper_parameters fs)
         /\ failure (Model.label_item_by_node fs)
         /\ failure (Model.node_ids fs)
         /\ failure (Model.unclustered_items fs)
         /\ failure (Model.label_item_by_cluster fs)
         /\ failure (Model.cluster_ids fs)
         /\ failure (Model.cluster_sizes fs)
         /\ failure (Model.items_dict fs)
         /\ failure (Model.get_items_in_multiple_groups fs)
         /\ failure (Model.compute_node_descriptions fs)
         /\ failure (Model.node_description fs)
         /\ failure (Model.compute_cluster_descriptions fs)
         /\ failure (Model.cluster_descriptions fs)
         /\ failure (Model.get_cluster_dfs fs)
         /\ (forall target remove_unclustered col_filter,
                failure (Model.target_matching fs target remove_unclustered col_filter)).
Proof.
  intros dev fs path Hfile.
  eexists. split; [reflexivity|].
  rewrite Hfile. cbv zeta.
  repeat apply conj; reflexivity.
Qed.

Lemma model_invalid_path_fails_on_first_use_witness :
  isfile [] "missing.pkl" = false
  /\ exists self : Model.Model_t,
      Model.init [] "missing.pkl" = Ok self
      /\ fst (Model.label_item_by_cluster [] self)
         = Raise (AssertionError "Please Specify a valid path to a mapper object").
Proof.
  split; [reflexivity|].
  destruct (model_invalid_path_fails_on_first_use
              Examples.float_std [] "missing.pkl" eq_refl)
    as (self & Hinit & H).
  exists self. split; [exact Hinit|].
  cbv zeta in H. tauto.
Defined.

(** ** The precondition of [label_item_by_cluster] *)

Section Precondition.

Import Model.
Local Open Scope model_scope.

Ltac ne_bad := unfold Spec.precondition_failure; discriminate.

Lemma ot_ret A (a : A) : Spec.other_than Spec.precondition_failure (ret a).
Proof. intros self e self' H. discriminate H. Qed.

Lemma ot_lift A (r : result A) :
  Spec.rother_than Spec.precondition_failure r -> Spec.other_than Spec.precondition_failure (lift r).
Proof.
  intros Hr self e self' H. unfold lift in H. inversion H; subst.
  now apply Hr.
Qed.

Lemma ot_bind A B (c : M A) (k : A -> M B) :
  Spec.other_than Spec.precondition_failure c -> (forall a, Spec.other_than Spec.precondition_failure (k a)) ->
  Spec.other_than Spec.precondition_failure (bind c k).
Proof.
  intros Hc Hk self e self' H. unfold bind in H.
  destruct (c self) as [[a | e0] s0] eqn:E.
  - eapply Hk; eauto.
  - inversion H; subst. eapply Hc; eauto.
Qed.

Lemma ot_get : Spec.other_than Spec.precondition_failure get.
Proof. intros self e self' H. discriminate H. Qed.

Lemma ot_modify f : Spec.other_than Spec.precondition_failure (modify f).
Proof. intros self e self' H. discriminate H. Qed.

Lemma ot_cached A (field : Model_t -> option A) :
  Spec.other_than Spec.precondition_failure (cached field).
Proof.
  intros self e self' H. unfold cached in H.
  destruct (field self); inversion H; subst. ne_bad.
Qed.

Lemma ot_for_each A S (xs : list A) (body : A -> S -> M S) :
  (forall x s, Spec.other_than Spec.precondition_failure (body x s)) ->
  forall s, Spec.other_than Spec.precondition_failure (for_each xs body s).
Proof.
  intros Hbody. induction xs as [| x r IH]; intros s; simpl.
  - apply ot_ret.
  - apply ot_bind; auto.
Qed.

Lemma rot_getitem K V `{Key K} (d : dict K V) k :
  Spec.rother_than Spec.precondition_failure (getitem d k).
Proof.
  intros e He. unfold getitem in He.
  destruct (dict_get d k); inversion He; subst. ne_bad.
Qed.

Lemma rot_load fs path : Spec.rother_than Spec.precondition_failure (load fs path).
Proof.
  intros e He. unfold load in He.
  destruct (lookup_file fs path) as [[v |] |]; inversion He; subst; ne_bad.
Qed.

Lemma rot_subscript v k : Spec.rother_than Spec.precondition_failure (subscript v k).
Proof.
  intros e He. destruct v; simpl in He;
    try (inversion He; subst; ne_bad).
  - exact (rot_getitem _ _ He).
  - destruct (dict_get (columns df) k); inversion He; subst; ne_bad.
Qed.

Lemma rot_py_len v : Spec.rother_than Spec.precondition_failure (py_len v).
Proof.
  intros e He. destruct v as [| | | | | | [|] | |]; simpl in He;
    inversion He; subst; ne_bad.
Qed.

Lemma rot_attr_tupper m : Spec.rother_than Spec.precondition_failure (attr_tupper m).
Proof. intros e He. destruct m; inversion He; subst; ne_bad. Qed.

Lemma rot_attr_complex m : Spec.rother_than Spec.precondition_failure (attr_complex m).
Proof. intros e He. destruct m; inversion He; subst; ne_bad. Qed.

Lemma rot_attr_components m : Spec.rother_than Spec.precondition_failure (attr_components m).
Proof. intros e He. destruct m; inversion He; subst; ne_bad. Qed.

Lemma rot_node_table cx : Spec.rother_than Spec.precondition_failure (node_table cx).
Proof.
  intros e He. unfold node_table in He.
  destruct (getitem cx "nodes"%string) as [[nodes |] | e0] eqn:E; simpl in He.
  - discriminate He.
  - inversion He; subst; ne_bad.
  - inversion He; subst. exact (rot_getitem _ _ E).
Qed.

Lemma rot_positions n mask : Spec.rother_than Spec.precondition_failure (positions n mask).
Proof.
  induction mask as [| i r IH]; intros e He; simpl in He.
  - discriminate He.
  - destruct (norm_pos n i).
    + destruct (positions n r) eqn:E; simpl in He; inversion He; subst.
      now apply IH.
    + inversion He; subst. ne_bad.
Qed.

Lemma rot_np_put labels indices v :
  Spec.rother_than Spec.precondition_failure (np_put labels indices v).
Proof.
  intros e He. unfold np_put in He.
  destruct (positions (List.length labels) indices) eqn:E; simpl in He;
    inversion He; subst.
  eapply rot_positions; eauto.
Qed.

Lemma rot_tupper_clean fs t : Spec.rother_than Spec.precondition_failure (snd (Tupper.clean fs t)).
Proof.
  intros e He. unfold Tupper.clean, Tupper.assert_path in He.
  destruct (truthy (_clean t)).
  - match type of He with
    | snd (Tupper.try_except ?b ?m) = _ =>
        destruct (try_except_returns b m) as (out & v & Hv); rewrite Hv in He
    end.
    discriminate He.
  - simpl in He. inversion He; subst. ne_bad.
Qed.

Lemma ot_assert_mapper : Spec.other_than Spec.precondition_failure assert_mapper.
Proof.
  intros self e self' H. unfold assert_mapper, bind, get in H.
  destruct (_mapper self) as [path |]; [destruct (truthy path) |];
    inversion H; subst; ne_bad.
Qed.

Create HintDb other_than.
Hint Resolve ot_ret ot_get ot_modify ot_cached ot_assert_mapper
  rot_getitem rot_load rot_subscript rot_py_len rot_attr_tupper
  rot_attr_complex rot_attr_components rot_node_table rot_np_put
  rot_tupper_clean : other_than.

Ltac ot_steps :=
  repeat first
    [ progress eauto with other_than
    | apply ot_lift
    | apply ot_bind; [| intros ? ]
    | apply ot_for_each; intros ? ? ].

Lemma ot_mapper fs : Spec.other_than Spec.precondition_failure (mapper fs).
Proof. unfold mapper. ot_steps. Qed.

Lemma ot_complex fs : Spec.other_than Spec.precondition_failure (complex fs).
Proof. unfold complex. pose proof (ot_mapper fs). ot_steps. Qed.

Lemma ot_tupper_clean fs : Spec.other_than Spec.precondition_failure (tupper_clean fs).
Proof. unfold tupper_clean, tupper. pose proof (ot_mapper fs). ot_steps. Qed.

Lemma ot_label_item_by_node fs : Spec.other_than Spec.precondition_failure (label_item_by_node fs).
Proof.
  unfold label_item_by_node.
  pose proof (ot_complex fs). pose proof (ot_tupper_clean fs).
  ot_steps.
  destruct (label_items _ _). ot_steps.
Qed.

Lemma ot_unclustered_items fs : Spec.other_than Spec.precondition_failure (unclustered_items fs).
Proof.
  unfold unclustered_items. pose proof (ot_label_item_by_node fs).
  ot_steps. destruct (_unclustered_items _); ot_steps.
Qed.

Lemma ot_label_component fs component labels :
  Spec.other_than Spec.precondition_failure (label_component fs component labels).
Proof.
  unfold label_component, items_dict_set, cluster_sizes_set.
  destruct component as [nodes cluster_id].
  pose proof (ot_complex fs). ot_steps.
Qed.

(** What [label_item_by_cluster] does once its assertion has passed. *)
Lemma label_item_by_cluster_passed fs self cx :
  complex fs self = (Ok cx, self) ->
  cx <> [] ->
  fst (label_item_by_cluster fs self) <> Raise Spec.precondition_failure.
Proof.
  intros Hcx Hne Hres.
  assert (Hrest : forall (c : M unit),
             Spec.other_than Spec.precondition_failure c ->
             fst (c self) <> Raise Spec.precondition_failure).
  { intros c Hc E. destruct (c self) as [r s'] eqn:Ec. simpl in E. subst r.
    eapply Hc; eauto. }
  unfold label_item_by_cluster, bind at 1 in Hres. rewrite Hcx in Hres.
  destruct cx as [| entry cx']; [congruence |].
  simpl List.length in Hres. simpl Nat.ltb in Hres.
  unfold assert, bind at 1, ret in Hres.
  revert Hres. apply Hrest.
  unfold items_dict_set, cluster_sizes_set.
  pose proof (ot_mapper fs). pose proof (ot_tupper_clean fs).
  pose proof (ot_unclustered_items fs).
  pose proof (ot_label_component fs).
  ot_steps.
Qed.

End Precondition.

Lemma mapper_reads_only fs : Spec.reads_only (Model.mapper fs).
Proof.
  intros self. unfold Model.mapper, Model.assert_mapper, Model.bind, Model.get.
  destruct (Model._mapper self) as [path |]; [destruct (truthy path) |];
    simpl; try reflexivity.
  unfold Model.lift. destruct (load fs path); reflexivity.
Qed.

Lemma mapper_run fs self v :
  fst (Model.mapper fs self) = Ok v -> Model.mapper fs self = (Ok v, self).
Proof.
  intros H. pose proof (mapper_reads_only fs self) as Hs.
  destruct (Model.mapper fs self); simpl in *; congruence.
Qed.

Lemma complex_run fs self jm :
  fst (Model.mapper fs self) = Ok (PMapper jm) ->
  Model.complex fs self = (Ok (jm_complex jm), self).
Proof.
  intros H. unfold Model.complex, Model.bind.
  rewrite (mapper_run _ _ H). reflexivity.
Qed.

(** C7 (as the code has it): once the mapper artifact is loaded,
    [label_item_by_cluster] fails with its precondition assertion exactly
    when the complex is a mapping without any entry.  (A fitted complex
    carries its node table under the entry "nodes", so it passes the
    assertion whether or not the table has a node.) *)
Theorem label_item_by_cluster_precondition :
  forall (fs : filesystem) (self : Model.Model_t) (jm : JMapper_t),
    fst (Model.mapper fs self) = Ok (PMapper jm) ->
    (fst (Model.label_item_by_cluster fs self)
     = Raise (AssertionError
                "You must first generate a Simplicial Complex with `fit()` before you perform clustering.")
     <-> jm_complex jm = []).
Proof.
  intros fs self jm Hm. pose proof (complex_run _ _ Hm) as Hcx. split.
  - intros Hres. destruct (jm_complex jm) as [| entry cx'] eqn:E; [reflexivity |].
    exfalso. eapply label_item_by_cluster_passed; eauto. congruence.
  - intros E. unfold Model.label_item_by_cluster, Model.bind at 1.
    rewrite Hcx, E. reflexivity.
Qed.

Lemma label_item_by_cluster_precondition_witness :
  fst (Model.mapper Examples.fs_no_nodes (Examples.fresh Examples.fs_no_nodes))
  = Ok (PMapper Examples.jm_no_nodes)
  /\ (fst (Model.label_item_by_cluster Examples.fs_no_nodes
             (Examples.fresh Examples.fs_no_nodes))
      = Raise (AssertionError
                 "You must first generate a Simplicial Complex with `fit()` before you perform clustering.")
      <-> jm_complex Examples.jm_no_nodes = []).
Proof.
  split; [reflexivity |].
  apply (@label_item_by_cluster_precondition
           Examples.fs_no_nodes (Examples.fresh Examples.fs_no_nodes)
           Examples.jm_no_nodes).
  reflexivity.
Defined.

(** C7 (as stated) fails: the complex below contains no node, and
    [label_item_by_cluster] runs to its end. *)
Lemma label_item_by_cluster_no_nodes_counterexample :
  fst (Model.complex Examples.fs_no_nodes (Examples.fresh Examples.fs_no_nodes))
  = Ok (jm_complex Examples.jm_no_nodes)
  /\ Model.node_table (jm_complex Examples.jm_no_nodes) = Ok []
  /\ fst (Model.label_item_by_cluster Examples.fs_no_nodes
            (Examples.fresh Examples.fs_no_nodes))
     = Ok tt
  /\ fst (Model.label_item_by_cluster Examples.fs_no_nodes
            (Examples.fresh Examples.fs_no_nodes))
     <> Raise (AssertionError Model.precondition_msg).
Proof.
  repeat apply conj; try reflexivity. discriminate.
Qed.


(** ** Dictionaries and membership *)

Lemma mem_In K `{Key K} (x : K) (xs : list K) : mem x xs = true <-> In x xs.
Proof.
  unfold mem. rewrite existsb_exists. split.
  - intros (y & Hy & E). destruct (keqb_spec x y); [subst; assumption | discriminate].
  - intros Hx. exists x. split; [assumption |].
    destruct (keqb_spec x x); [reflexivity | congruence].
Qed.

Lemma mem_false K `{Key K} (x : K) (xs : list K) : mem x xs = false <-> ~ In x xs.
Proof.
  split.
  - intros E Hin. pose proof (proj2 (mem_In x xs) Hin). congruence.
  - intros Hn. destruct (mem x xs) eqn:E; [| reflexivity].
    pose proof (proj1 (mem_In x xs) E). contradiction.
Qed.

Lemma dict_get_In K V `{Key K} (d : dict K V) k v :
  dict_get d k = Some v -> In (k, v) d.
Proof.
  induction d as [| [k' v'] r IH]; simpl; [discriminate |].
  destruct (keqb_spec k' k).
  - intros E. inversion E; subst. now left.
  - intros E. right. auto.
Qed.

Lemma dict_get_NoDup K V `{Key K} (d : dict K V) k v :
  NoDup (dict_keys d) -> In (k, v) d -> dict_get d k = Some v.
Proof.
  induction d as [| [k' v'] r IH]; simpl; [tauto |].
  intros Hnd [E | Hin].
  - destruct (keqb_spec k' k); congruence.
  - inversion Hnd as [| ? ? Hnotin Hnd']; subst.
    destruct (keqb_spec k' k).
    + subst. exfalso. apply Hnotin. unfold dict_keys.
      change k with (fst (k, v)). now apply in_map.
    + auto.
Qed.

Lemma dict_get_None K V `{Key K} (d : dict K V) k :
  dict_get d k = None <-> ~ In k (dict_keys d).
Proof.
  induction d as [| [k' v'] r IH]; simpl; [tauto |].
  destruct (keqb_spec k' k).
  - subst. split; [discriminate | intros Hn; exfalso; apply Hn; now left].
  - rewrite IH. tauto.
Qed.

(** ** Matching a record: the compared columns *)

Lemma target_columns_In target col :
  In col (Model.target_columns target) <->
  exists c, In (col, c) (columns target)
            /\ is_numeric c = true /\ Model.has_missing c = false.
Proof.
  unfold Model.target_columns. rewrite in_map_iff. split.
  - intros ([n c] & E & Hin). simpl in E. subst n.
    apply filter_In in Hin. destruct Hin as [Hin Hb]. simpl in Hb.
    apply andb_true_iff in Hb. destruct Hb as [Hn Hm].
    apply negb_true_iff in Hm. eauto.
  - intros (c & Hin & Hn & Hm). exists (col, c). split; [reflexivity |].
    apply filter_In. split; [assumption |]. simpl. now rewrite Hn, Hm.
Qed.

Lemma score_group_compared target target_cols raw_cols group_data score :
  rfor_each target_cols
    (fun col score =>
       if mem col raw_cols then
         rbind (Model.cell0 target col) (fun x =>
         rbind (Model.column_mean group_data col) (fun mu =>
         Ok (xadd score (error x mu))))
       else Ok score)
    score
  = rfor_each (Model.compared_columns target_cols raw_cols)
      (fun col score =>
         rbind (Model.cell0 target col) (fun x =>
         rbind (Model.column_mean group_data col) (fun mu =>
         Ok (xadd score (error x mu)))))
      score.
Proof.
  revert score. induction target_cols as [| c r IH]; intros score; simpl.
  - reflexivity.
  - destruct (mem c raw_cols); simpl.
    + destruct (Model.cell0 target c); simpl; [| reflexivity].
      destruct (Model.column_mean group_data c); simpl; [| reflexivity].
      apply IH.
    + apply IH.
Qed.


(** ** Matching a record: a cluster mean that is zero *)

Lemma error_zero_mean (x mu : Q) :
  (mu == 0)%Q ->
  error (Fin x) (Fin mu) = if Qeq_bool x 0 then NaN else PInf.
Proof.
  intros Hmu. unfold error, xsub, xadd, xneg, xdiv, Qsign.
  assert (E : (mu ?= 0)%Q = Eq) by now apply Qeq_alt.
  rewrite E.
  assert (Hx : (x + - mu == x)%Q) by (rewrite Hmu; ring).
  destruct (Qeq_bool x 0) eqn:Ex.
  - apply Qeq_bool_iff in Ex.
    assert (E0 : (x + - mu ?= 0)%Q = Eq) by (apply Qeq_alt; rewrite Hx; exact Ex).
    now rewrite E0.
  - destruct (x + - mu ?= 0)%Q eqn:E0; try reflexivity.
    apply Qeq_alt in E0. rewrite Hx in E0.
    apply Qeq_bool_iff in E0. congruence.
Qed.

Lemma xadd_not_finite_l s t : is_finite s = false -> is_finite (xadd s t) = false.
Proof. destruct s, t; simpl; congruence. Qed.

Lemma xadd_not_finite_r s t : is_finite t = false -> is_finite (xadd s t) = false.
Proof. destruct s, t; simpl; congruence. Qed.

Lemma score_loop_returns target group_data cols :
  (forall c, In c cols ->
             exists xc mc, Model.cell0 target c = Ok xc
                           /\ Model.column_mean group_data c = Ok mc) ->
  forall s,
  exists s',
    rfor_each cols
      (fun col score =>
         rbind (Model.cell0 target col) (fun x =>
         rbind (Model.column_mean group_data col) (fun mu =>
         Ok (xadd score (error x mu)))))
      s = Ok s'
    /\ (is_finite s = false -> is_finite s' = false).
Proof.
  induction cols as [| c r IH]; intros Hok s; simpl.
  - eauto.
  - destruct (Hok c (or_introl eq_refl)) as (xc & mc & Hx & Hm).
    rewrite Hx, Hm. simpl.
    destruct (IH (fun c' H => Hok c' (or_intror H)) (xadd s (error xc mc)))
      as (s' & Hs' & Hfin).
    exists s'. split; [assumption |].
    intros Hs. apply Hfin. now apply xadd_not_finite_l.
Qed.

Lemma score_loop_not_finite target group_data cols col x mu :
  (forall c, In c cols ->
             exists xc mc, Model.cell0 target c = Ok xc
                           /\ Model.column_mean group_data c = Ok mc) ->
  In col cols ->
  Model.cell0 target col = Ok x ->
  Model.column_mean group_data col = Ok mu ->
  is_finite (error x mu) = false ->
  forall s,
  exists s',
    rfor_each cols
      (fun col score =>
         rbind (Model.cell0 target col) (fun x =>
         rbind (Model.column_mean group_data col) (fun mu =>
         Ok (xadd score (error x mu)))))
      s = Ok s'
    /\ is_finite s' = false.
Proof.
  induction cols as [| c r IH]; intros Hok Hin Hx Hmu Herr s; [contradiction |].
  simpl. destruct (Hok c (or_introl eq_refl)) as (xc & mc & Hxc & Hmc).
  rewrite Hxc, Hmc. simpl.
  assert (Hok' : forall c', In c' r ->
                   exists xc mc, Model.cell0 target c' = Ok xc
                                 /\ Model.column_mean group_data c' = Ok mc)
    by (intros c' H; exact (Hok c' (or_intror H))).
  destruct (string_dec c col) as [-> | Hne].
  - assert (xc = x) by congruence. assert (mc = mu) by congruence. subst.
    destruct (score_loop_returns target group_data r Hok' (xadd s (error x mu)))
      as (s' & Hs' & Hfin).
    exists s'. split; [assumption |].
    apply Hfin. now apply xadd_not_finite_r.
  - destruct Hin as [E | Hin]; [contradiction |].
    apply IH; assumption.
Qed.

Lemma xltb_trans a b c : xltb a b = true -> xltb b c = true -> xltb a c = true.
Proof.
  destruct a as [x | | |], b as [y | | |], c as [z | | |]; unfold xltb;
    try discriminate; try reflexivity.
  destruct (x ?= y)%Q eqn:Exy; try discriminate.
  destruct (y ?= z)%Q eqn:Eyz; try discriminate.
  intros _ _.
  pose proof (proj2 (Qlt_alt x y) Exy) as Hxy.
  pose proof (proj2 (Qlt_alt y z) Eyz) as Hyz.
  pose proof (proj1 (Qlt_alt x z) (Qlt_trans _ _ _ Hxy Hyz)) as Hxz.
  now rewrite Hxz.
Qed.

Lemma xltb_irrefl a : xltb a a = false.
Proof.
  destruct a as [x | | |]; unfold xltb; try reflexivity.
  assert (E : (x ?= x)%Q = Eq) by (apply Qeq_alt; reflexivity).
  now rewrite E.
Qed.

(** The entry [min(scores, key=scores.get)] settles on is an entry of
    [scores] that no entry beats. *)
Lemma min_scan_unbeaten (rest : dict string xnum) :
  forall (first : string * xnum) (seen : list (string * xnum)),
    In first seen ->
    (forall e, In e seen -> xltb (snd e) (snd first) = false) ->
    let best :=
      fold_left (fun best kv => if xltb (snd kv) (snd best) then kv else best)
                rest first in
    In best (seen ++ rest)
    /\ forall e, In e (seen ++ rest) -> xltb (snd e) (snd best) = false.
Proof.
  induction rest as [| kv r IH]; intros first seen Hin Hseen; simpl.
  - rewrite app_nil_r. auto.
  - replace (seen ++ kv :: r) with ((seen ++ [kv]) ++ r)
      by (rewrite <- app_assoc; reflexivity).
    destruct (xltb (snd kv) (snd first)) eqn:E.
    + apply IH.
      * apply in_or_app. right. now left.
      * intros e He. apply in_app_or in He. destruct He as [He | [<- | []]].
        -- destruct (xltb (snd e) (snd kv)) eqn:E'; [| reflexivity].
           specialize (Hseen e He). rewrite (xltb_trans _ _ _ E' E) in Hseen.
           discriminate.
        -- apply xltb_irrefl.
    + apply IH.
      * apply in_or_app. now left.
      * intros e He. apply in_app_or in He. destruct He as [He | [<- | []]]; auto.
Qed.

(** C6 (as the code has it): a cluster mean of zero in a compared column
    raises nothing.  The column contributes plus infinity when the value of
    the record in that column is not zero, and not-a-number when it is zero
    as well; either way the score of the cluster is not finite.  A cluster
    whose score is plus infinity is not the one returned when some cluster
    has a finite score. *)
Theorem zero_mean_contribution :
  forall (target group_data : DataFrame) (target_cols raw_cols : list string)
         (col : string) (x mu : Q),
    In col (Model.compared_columns target_cols raw_cols) ->
    (forall c, In c (Model.compared_columns target_cols raw_cols) ->
               exists xc mc, Model.cell0 target c = Ok xc
                             /\ Model.column_mean group_data c = Ok mc) ->
    Model.cell0 target col = Ok (Fin x) ->
    Model.column_mean group_data col = Ok (Fin mu) ->
    (mu == 0)%Q ->
    error (Fin x) (Fin mu) = (if Qeq_bool x 0 then NaN else PInf)
    /\ (exists s, Model.score_group target target_cols raw_cols group_data = Ok s
                  /\ is_finite s = false)
    /\ (forall (scores : dict string xnum) (group : string),
           NoDup (dict_keys scores) ->
           dict_get scores group = Some PInf ->
           (exists g q, dict_get scores g = Some (Fin q)) ->
           exists k, Model.min_key scores = Ok k /\ k <> group).
Proof.
  intros target group_data target_cols raw_cols col x mu Hin Hok Hx Hmu Hzero.
  pose proof (error_zero_mean x Hzero) as Herr.
  split; [exact Herr |]. split.
  - unfold Model.score_group. rewrite score_group_compared.
    eapply score_loop_not_finite; eauto.
    rewrite Herr. destruct (Qeq_bool x 0); reflexivity.
  - intros scores group Hnd Hgroup (g & q & Hg).
    destruct scores as [| first rest]; [discriminate Hgroup |].
    unfold Model.min_key.
    destruct (@min_scan_unbeaten rest first [first] (or_introl eq_refl)) as [Hbest Hmin].
    { intros e [<- | []]. apply xltb_irrefl. }
    simpl app in Hbest, Hmin.
    eexists. split; [reflexivity |].
    intros Ek.
    set (best := fold_left _ rest first) in *.
    assert (Hb : dict_get (first :: rest) (fst best) = Some (snd best)).
    { apply dict_get_NoDup; [assumption |]. now destruct best. }
    rewrite Ek, Hgroup in Hb.
    apply dict_get_In in Hg. specialize (Hmin _ Hg). simpl in Hmin.
    inversion Hb as [Hb']. rewrite <- Hb' in Hmin. discriminate Hmin.
Qed.

Lemma zero_mean_contribution_witness :
  error (Fin 1) (Fin (Qmean [0; 0]%Q)) = PInf
  /\ exists s,
      Model.score_group Examples.target_az ["a"; "z"]%string ["a"; "b"]%string
        (Model.merge_group 0 [0; 1]%nat Examples.raw_ab) = Ok s
      /\ is_finite s = false.
Proof.
  destruct (@zero_mean_contribution
              Examples.target_az (Model.merge_group 0 [0; 1]%nat Examples.raw_ab)
              ["a"; "z"]%string ["a"; "b"]%string "a"%string 1%Q (Qmean [0; 0]%Q))
    as (He & Hs & _).
  - simpl. left. reflexivity.
  - intros c [<- | []]. eexists. eexists. split; reflexivity.
  - reflexivity.
  - reflexivity.
  - reflexivity.
  - split; [exact He | exact Hs].
Defined.

(** C6 (as stated) fails: the record has the value 0 in column [a] and so
    has cluster 0 as its mean; the column contributes not-a-number, not
    plus infinity, and cluster 0 is returned as the best match although
    cluster 1 has the finite score 1. *)
Lemma zero_mean_counterexample :
  Model.column_mean (Model.merge_group 0 [0; 1]%nat Examples.raw_outlier) "a"
  = Ok (Fin (Qmean [0; 0]%Q))
  /\ (Qmean [0; 0] == 0)%Q
  /\ Model.cell0 Examples.target_a0 "a" = Ok (Fin 0)
  /\ error (Fin 0) (Fin (Qmean [0; 0]%Q)) = NaN
  /\ error (Fin 0) (Fin (Qmean [0; 0]%Q)) <> PInf
  /\ fst (Model.target_matching Examples.fs_outlier Examples.target_a0
            true None (Examples.fresh Examples.fs_outlier))
     = Ok ([("group_0"%string, NaN); ("group_1"%string, Fin (4 # 4))],
           "group_0"%string).
Proof.
  repeat apply conj; try reflexivity. discriminate.
Qed.

(** ** Group identifiers *)

(** C4, the code at an input without unclustered items: the z-score table
    has the rows of clusters 0 and 1, the row counter starts at -1, and
    column [x] is recorded for cluster 0 (whose mean z-score 1/10 is below
    the threshold) because of the z-score 5 of cluster 1, which itself
    gets nothing. *)
Lemma group_identifiers_misaligned :
  let self := Examples.fresh Examples.fs_two_clusters in
  let helper := Model.ret Examples.z_items in
  fst (Model.zscores helper self)
  = Ok {| Model.cluster_IDs := [0; 1]%Z;
          Model.zcolumns := [("x"%string, [Some (20 # 200); Some (10 # 2)])] |}
  /\ Model.abs_ge (Some (20 # 200)) 1 = false
  /\ Model.abs_ge (Some (10 # 2)) 1 = true
  /\ rel_std_le (dev := Examples.float_std)
                (Model.rows_where [0; 0; 1; 1]%Z 1
                   (map Some [1 # 10; 1 # 10; 5; 5]%Q)) 1 = true
  /\ fst (Model.group_identifiers (dev := Examples.float_std) helper 1 1 self)
     = Ok [((-1)%Z, []); (0%Z, ["x"%string]); (1%Z, [])].
Proof.
  repeat apply conj; vm_compute; reflexivity.
Qed.

(** ** The eligible columns: [np.intersect1d] *)

Lemma str_lt_trans a b c : Spec.str_lt a b -> Spec.str_lt b c -> Spec.str_lt a c.
Proof.
  unfold Spec.str_lt. intros Hab Hbc.
  apply String_as_OT.cmp_lt in Hab, Hbc. apply String_as_OT.cmp_lt.
  eapply String_as_OT.lt_trans; eauto.
Qed.

Lemma str_lt_irrefl a : ~ Spec.str_lt a a.
Proof.
  unfold Spec.str_lt. intros H.
  assert (E : String.compare a a = Eq) by now apply String_as_OT.cmp_eq.
  congruence.
Qed.

Lemma str_compare_Gt a b : String.compare a b = Gt -> Spec.str_lt b a.
Proof.
  unfold Spec.str_lt. intros H.
  pose proof (String_as_OT.cmp_antisym b a) as E. unfold String_as_OT.cmp in E.
  rewrite H in E. exact E.
Qed.

Lemma insert_uniq_In x a l :
  In x (insert_uniq String.compare a l) <-> x = a \/ In x l.
Proof.
  induction l as [| y r IH]; simpl.
  - intuition.
  - destruct (String.compare a y) eqn:E; simpl.
    + apply String_as_OT.cmp_eq in E. subst. intuition.
    + intuition.
    + rewrite IH. intuition.
Qed.

Lemma insert_uniq_sorted a l :
  StronglySorted Spec.str_lt l ->
  StronglySorted Spec.str_lt (insert_uniq String.compare a l).
Proof.
  induction 1 as [| y r Hr IH Hy]; simpl.
  - constructor; constructor.
  - destruct (String.compare a y) eqn:E.
    + constructor; assumption.
    + constructor; [constructor; assumption |].
      constructor; [exact E |].
      eapply Forall_impl; [| exact Hy].
      intros z Hz. eapply str_lt_trans; eauto.
    + constructor; [assumption |].
      apply Forall_forall. intros z Hz. apply insert_uniq_In in Hz.
      destruct Hz as [-> | Hz].
      * now apply str_compare_Gt.
      * rewrite Forall_forall in Hy. auto.
Qed.

Lemma sort_uniq_In x l : In x (sort_uniq String.compare l) <-> In x l.
Proof.
  induction l as [| a r IH]; simpl; [tauto |].
  rewrite insert_uniq_In, IH. intuition.
Qed.

Lemma sort_uniq_sorted l : StronglySorted Spec.str_lt (sort_uniq String.compare l).
Proof.
  induction l as [| a r IH]; simpl; [constructor |].
  now apply insert_uniq_sorted.
Qed.

(** The eligible columns are the labels found on both sides, each once,
    in the increasing order of strings. *)
Lemma np_intersect1d_spec a b :
  StronglySorted Spec.str_lt (np_intersect1d a b)
  /\ forall x, In x (np_intersect1d a b) <-> In x a /\ In x b.
Proof.
  unfold np_intersect1d. split; [apply sort_uniq_sorted |].
  intros x. rewrite sort_uniq_In, filter_In, mem_In. tauto.
Qed.

Lemma sorted_after pre x post :
  StronglySorted Spec.str_lt (pre ++ x :: post) -> Forall (Spec.str_lt x) post.
Proof.
  induction pre as [| y r IH]; simpl; intros H; inversion H; subst; auto.
Qed.

Lemma sorted_NoDup l : StronglySorted Spec.str_lt l -> NoDup l.
Proof.
  induction 1 as [| y r Hr IH Hy]; constructor; [| assumption].
  intros Hin. rewrite Forall_forall in Hy.
  exact (str_lt_irrefl (Hy _ Hin)).
Qed.

(** ** The first smallest cell: [argmin] *)

Lemma all_above_cons v strict o l :
  Spec.all_above v strict (o :: l) <->
  (forall v', o = Some v' -> if strict then (v < v')%Q else (v <= v')%Q)
  /\ Spec.all_above v strict l.
Proof.
  unfold Spec.all_above. simpl. split.
  - intros H. split.
    + intros v' E. apply H. left. exact E.
    + intros v' Hin. apply H. right. exact Hin.
  - intros [H1 H2] v' [E | Hin]; [apply H1; exact E | apply H2; exact Hin].
Qed.

Lemma all_above_weaken v w strict l :
  (v < w)%Q -> Spec.all_above w false l -> Spec.all_above v strict l.
Proof.
  intros Hvw H v' Hin. specialize (H v' Hin). simpl in H.
  assert (v < v')%Q by (eapply Qlt_le_trans; eauto).
  destruct strict; [assumption | now apply Qlt_le_weak].
Qed.

Lemma argmin_scan_some l :
  forall i0 ib b,
    (argmin_scan l i0 (Some (ib, b)) = Some (ib, b) /\ Spec.all_above b false l)
    \/ exists pre v post,
        l = pre ++ Some v :: post
        /\ argmin_scan l i0 (Some (ib, b))
           = Some ((i0 + Z.of_nat (List.length pre))%Z, v)
        /\ (v < b)%Q
        /\ Spec.all_above v true pre
        /\ Spec.all_above v false post.
Proof.
  induction l as [| [q |] r IH]; intros i0 ib b; simpl.
  - left. split; [reflexivity |]. intros v' [].
  - destruct (q ?= b)%Q eqn:E.
    + (* equal: the earlier cell stays *)
      apply Qeq_alt in E.
      destruct (IH (i0 + 1)%Z ib b) as [[Hres Hab] | (pre & v & post & -> & Hres & Hlt & Hpre & Hpost)].
      * left. split; [assumption |]. apply all_above_cons. split; [| assumption].
        intros v' Ev. inversion Ev; subst. rewrite E. apply Qle_refl.
      * right. exists (Some q :: pre), v, post. repeat split; try assumption.
        -- rewrite Hres. simpl List.length. f_equal. f_equal. lia.
        -- apply all_above_cons. split; [| assumption].
           intros v' Ev. inversion Ev; subst. now rewrite E.
    + (* smaller: the new cell is the best so far *)
      apply Qlt_alt in E. right.
      destruct (IH (i0 + 1)%Z i0 q) as [[Hres Hab] | (pre & v & post & -> & Hres & Hlt & Hpre & Hpost)].
      * exists [], q, r. repeat split; try assumption.
        -- rewrite Hres. simpl. f_equal. f_equal. lia.
        -- intros v' [].
      * exists (Some q :: pre), v, post. repeat split; try assumption.
        -- rewrite Hres. simpl List.length. f_equal. f_equal. lia.
        -- eapply Qlt_trans; eauto.
        -- apply all_above_cons. split; [| assumption].
           intros v' Ev. inversion Ev; subst. assumption.
    + (* larger: the earlier cell stays *)
      apply Qgt_alt in E.
      destruct (IH (i0 + 1)%Z ib b) as [[Hres Hab] | (pre & v & post & -> & Hres & Hlt & Hpre & Hpost)].
      * left. split; [assumption |]. apply all_above_cons. split; [| assumption].
        intros v' Ev. inversion Ev; subst. now apply Qlt_le_weak.
      * right. exists (Some q :: pre), v, post. repeat split; try assumption.
        -- rewrite Hres. simpl List.length. f_equal. f_equal. lia.
        -- apply all_above_cons. split; [| assumption].
           intros v' Ev. inversion Ev; subst. eapply Qlt_trans; eauto.
  - destruct (IH (i0 + 1)%Z ib b) as [[Hres Hab] | (pre & v & post & -> & Hres & Hlt & Hpre & Hpost)].
    + left. split; [assumption |]. apply all_above_cons. split; [discriminate | assumption].
    + right. exists (None :: pre), v, post. repeat split; try assumption.
      * rewrite Hres. simpl List.length. f_equal. f_equal. lia.
      * apply all_above_cons. split; [discriminate | assumption].
Qed.

Lemma argmin_scan_none l :
  forall i0,
    (argmin_scan l i0 None = None /\ forall o, In o l -> o = None)
    \/ exists pre v post,
        l = pre ++ Some v :: post
        /\ argmin_scan l i0 None = Some ((i0 + Z.of_nat (List.length pre))%Z, v)
        /\ Spec.all_above v true pre
        /\ Spec.all_above v false post.
Proof.
  induction l as [| [q |] r IH]; intros i0; simpl.
  - left. split; [reflexivity |]. intros o [].
  - right.
    destruct (argmin_scan_some r (i0 + 1)%Z i0 q)
      as [[Hres Hab] | (pre & v & post & -> & Hres & Hlt & Hpre & Hpost)].
    + exists [], q, r. repeat split; try assumption.
      * rewrite Hres. simpl. f_equal. f_equal. lia.
      * intros v' [].
    + exists (Some q :: pre), v, post. repeat split; try assumption.
      * rewrite Hres. simpl List.length. f_equal. f_equal. lia.
      * apply all_above_cons. split; [| assumption].
        intros v' Ev. inversion Ev; subst. assumption.
  - destruct (IH (i0 + 1)%Z) as [[Hres Hall] | (pre & v & post & -> & Hres & Hpre & Hpost)].
    + left. split; [assumption |]. intros o [<- | Hin]; auto.
    + right. exists (None :: pre), v, post. repeat split; try assumption.
      * rewrite Hres. simpl List.length. f_equal. f_equal. lia.
      * apply all_above_cons. split; [discriminate | assumption].
Qed.

(** [argmin] on cells of which one at least is a number: the position of
    the first cell that holds the smallest number. *)
Lemma argmin_first_smallest l :
  (exists v0, In (Some v0) l) ->
  exists pre v post,
    l = pre ++ Some v :: post
    /\ argmin l = Ok (Z.of_nat (List.length pre))
    /\ Spec.all_above v true pre
    /\ Spec.all_above v false post.
Proof.
  intros (v0 & Hv0).
  destruct (argmin_scan_none l 0) as [[_ Hall] | (pre & v & post & E & Hres & Hpre & Hpost)].
  - specialize (Hall _ Hv0). discriminate.
  - exists pre, v, post. repeat split; try assumption.
    unfold argmin. rewrite Hres. subst l. destruct pre; reflexivity.
Qed.

(** ** The column of minimal deviation: [get_minimal_std] *)

Lemma filter_absent (l : list (string * column)) c :
  ~ In c (map fst l) -> filter (fun nc => String.eqb (fst nc) c) l = [].
Proof.
  induction l as [| [k v] r IH]; simpl; [reflexivity |].
  intros Hn. destruct (String.eqb_spec k c).
  - exfalso. apply Hn. now left.
  - apply IH. intros H. apply Hn. now right.
Qed.

Lemma filter_unique (l : list (string * column)) c v :
  NoDup (map fst l) -> dict_get l c = Some v ->
  filter (fun nc => String.eqb (fst nc) c) l = [(c, v)].
Proof.
  induction l as [| [k w] r IH]; simpl; [discriminate |].
  intros Hnd Hget. inversion Hnd as [| ? ? Hk Hr]; subst.
  destruct (String.eqb_spec k c).
  - subst. inversion Hget; subst. f_equal. now apply filter_absent.
  - now apply IH.
Qed.

Lemma dict_get_map_values (l : list (string * column)) (g : column -> column) c :
  dict_get (map (fun nc => (fst nc, g (snd nc))) l) c
  = option_map g (dict_get l c).
Proof.
  induction l as [| [k w] r IH]; simpl; [reflexivity |].
  destruct (String.eqb k c); [reflexivity | exact IH].
Qed.

Lemma select_numeric df ps cols :
  NoDup (column_names df) ->
  (forall c, In c cols -> exists vals, dict_get (columns df) c = Some (NumCol vals)) ->
  select {| nrows := List.length ps;
            columns := map (fun nc => (fst nc, take_rows (snd nc) ps)) (columns df) |}
         cols
  = Ok (map (fun c => (c, NumCol (Spec.masked_cells df ps c))) cols).
Proof.
  intros Hnd. induction cols as [| c r IH]; intros Hnum; simpl; [reflexivity |].
  destruct (Hnum c (or_introl eq_refl)) as (vals & Hget).
  rewrite (@filter_unique _ c (take_rows (NumCol vals) ps)).
  - rewrite IH by (intros c' H; apply Hnum; now right). simpl.
    unfold Spec.masked_cells. now rewrite Hget.
  - simpl columns. rewrite map_map. simpl. exact Hnd.
  - simpl columns.
    rewrite (dict_get_map_values (columns df) (fun col => take_rows col ps) c).
    now rewrite Hget.
Qed.

Lemma std_axis0_numeric {dev : Deviation} (cells : string -> list (option Q))
      cols :
  std_axis0 (map (fun c => (c, NumCol (cells c))) cols)
  = Ok (map (fun c => pandas_std (cells c)) cols).
Proof.
  induction cols as [| c r IH]; simpl; [reflexivity |]. now rewrite IH.
Qed.

Lemma index_get_middle (pre : list string) x post :
  index_get (pre ++ x :: post) (Z.of_nat (List.length pre)) = Ok x.
Proof.
  unfold index_get, norm_pos.
  rewrite length_app. simpl List.length.
  replace ((0 <=? Z.of_nat (List.length pre))%Z
           && (Z.of_nat (List.length pre)
               <? Z.of_nat (List.length pre + S (List.length post)))%Z)
    with true
    by (symmetry; apply andb_true_iff; split;
        [apply Z.leb_le | apply Z.ltb_lt]; lia).
  rewrite Nat2Z.id, nth_error_app2 by lia.
  now rewrite Nat.sub_diag.
Qed.

Lemma masked_std_at {dev : Deviation} df mask ps c :
  positions (nrows df) mask = Ok ps ->
  Spec.masked_std df mask c = pandas_std (Spec.masked_cells df ps c).
Proof.
  intros H. unfold Spec.masked_std. now rewrite H.
Qed.

(** C2 (as the code has it): the eligible columns are the labels that are
    both numeric columns of the raw data and columns of the clean data, in
    the increasing order of strings.  The deviations compared are the
    floats pandas computes, whatever its way of computing them.  When the
    mask is in range and the computed deviation over the mask is a number
    for one eligible column at least, [get_minimal_std] returns an eligible
    column whose computed deviation is the smallest, and every other
    eligible column with the same computed deviation comes later in the
    order of strings.  Computed deviations being never negative, a column
    whose computed deviation is zero forces the choice of a column whose
    computed deviation is zero. *)
Theorem get_minimal_std_first_smallest :
  forall (dev : Deviation) (raw_numeric : list string) (df : DataFrame)
         (mask : list Z) (ps : list nat),
    let cols := np_intersect1d raw_numeric (column_names df) in
    NoDup (column_names df) ->
    (forall c, In c cols ->
               exists vals, dict_get (columns df) c = Some (NumCol vals)) ->
    positions (nrows df) mask = Ok ps ->
    (exists c v, In c cols /\ Spec.masked_std df mask c = Some v) ->
    exists label v,
      get_minimal_std df mask (Some cols) = Ok label
      /\ (In label raw_numeric /\ In label (column_names df))
      /\ Spec.masked_std df mask label = Some v
      /\ (forall c v',
             In c cols -> Spec.masked_std df mask c = Some v' ->
             (v <= v')%Q /\ ((v' == v)%Q -> label = c \/ Spec.str_lt label c))
      /\ ((forall cells z, pandas_std cells = Some z -> (0 <= z)%Q) ->
          (exists c z, In c cols /\ Spec.masked_std df mask c = Some z
                       /\ (z == 0)%Q) ->
          (v == 0)%Q)
      /\ StronglySorted Spec.str_lt cols
      /\ (forall c, In c cols <-> In c raw_numeric /\ In c (column_names df)).
Proof.
  intros dev raw_numeric df mask ps cols Hnd Hnum Hpos (c0 & v0 & Hc0 & Hv0).
  destruct (np_intersect1d_spec raw_numeric (column_names df)) as [Hsorted Hmem].
  fold cols in Hsorted, Hmem.
  set (f := fun c => pandas_std (Spec.masked_cells df ps c)).
  assert (Hf : forall c, Spec.masked_std df mask c = f c)
    by (intros c; now apply masked_std_at).
  destruct (@argmin_first_smallest (map f cols))
    as (pre & v & post & Esplit & Harg & Hpre & Hpost).
  { exists v0. rewrite <- Hv0, Hf. now apply in_map. }
  apply map_eq_app in Esplit.
  destruct Esplit as (cpre & crest & Ecols & Epre & Erest).
  apply map_eq_cons in Erest.
  destruct Erest as (label & cpost & -> & Elabel & Epost).
  assert (Hlen : List.length pre = List.length cpre)
    by (rewrite <- Epre; apply length_map).
  exists label, v.
  assert (Hlabel : In label cols)
    by (rewrite Ecols; apply in_or_app; right; now left).
  assert (Hsmallest :
            forall c v', In c cols -> Spec.masked_std df mask c = Some v' ->
                         (v <= v')%Q
                         /\ ((v' == v)%Q -> label = c \/ Spec.str_lt label c)).
  { intros c v' Hc Hv'. rewrite Hf in Hv'. rewrite Ecols in Hc.
    apply in_app_or in Hc. destruct Hc as [Hc | [<- | Hc]].
    - assert (Hin : In (Some v') pre)
        by (rewrite <- Epre, <- Hv'; now apply in_map).
      specialize (Hpre _ Hin). simpl in Hpre. split.
      + now apply Qlt_le_weak.
      + intros E. rewrite E in Hpre. exfalso. exact (Qlt_irrefl _ Hpre).
    - assert (v' = v) by congruence. subst v'. split; [apply Qle_refl | auto].
    - assert (Hin : In (Some v') post)
        by (rewrite <- Epost, <- Hv'; now apply in_map).
      specialize (Hpost _ Hin). simpl in Hpost. split; [assumption |].
      intros _. right. rewrite Ecols in Hsorted.
      apply sorted_after in Hsorted. rewrite Forall_forall in Hsorted. auto. }
  repeat apply conj.
  - unfold get_minimal_std, iloc. rewrite Hpos. simpl rbind.
    unfold getitem_cols. simpl nrows.
    rewrite (select_numeric df ps cols Hnd Hnum). simpl rbind. simpl columns.
    rewrite (std_axis0_numeric (Spec.masked_cells df ps) cols). simpl rbind.
    fold f. rewrite Harg. simpl rbind.
    unfold column_names. simpl columns. rewrite map_map. simpl.
    rewrite map_id, Ecols, Hlen. apply index_get_middle.
  - now apply Hmem.
  - now apply Hmem.
  - now rewrite Hf.
  - exact Hsmallest.
  - intros Hnonneg (c & z & Hc & Hz & Hzero).
    destruct (Hsmallest c z Hc Hz) as [Hle _].
    assert (0 <= v)%Q by (eapply Hnonneg; exact Elabel).
    lra.
  - exact Hsorted.
  - exact Hmem.
Qed.

Lemma get_minimal_std_first_smallest_witness :
  exists label v,
    get_minimal_std (dev := Examples.float_std) Examples.clean_ab [0; 1]%Z
      (Some (np_intersect1d (numeric_columns Examples.raw_ab)
                            (column_names Examples.clean_ab)))
    = Ok label
    /\ Spec.masked_std (dev := Examples.float_std)
                       Examples.clean_ab [0; 1]%Z label = Some v
    /\ (forall c v',
           In c (np_intersect1d (numeric_columns Examples.raw_ab)
                                (column_names Examples.clean_ab)) ->
           Spec.masked_std (dev := Examples.float_std)
                           Examples.clean_ab [0; 1]%Z c = Some v' ->
           (v <= v')%Q).
Proof.
  destruct (@get_minimal_std_first_smallest Examples.float_std
              (numeric_columns Examples.raw_ab) Examples.clean_ab
              [0; 1]%Z [0; 1]%nat)
    as (label & v & Hres & _ & Hv & Hmin & _).
  - repeat constructor; simpl; intuition discriminate.
  - intros c [<- | [<- | []]]; eexists; reflexivity.
  - reflexivity.
  - exists "a"%string. eexists. split; [left; reflexivity |].
    vm_compute. reflexivity.
  - exists label, v. repeat apply conj; try assumption.
    intros c v' Hc Hv'. exact (proj1 (Hmin c v' Hc Hv')).
Defined.

(** C2 (as stated) fails: columns [b] and [a] are constant on the rows of
    the node, pandas computes the deviation 0 for both, the clean table
    lists [b] first, and the label of the node is [a], the first in the
    order of strings.  So it is for any two columns that get the same
    float for a deviation. *)
Lemma get_minimal_std_tie_counterexample :
  filter (fun c => mem c (numeric_columns Examples.clean_tie))
         (column_names Examples.clean_tie)
  = ["b"; "a"]%string
  /\ Spec.masked_std (dev := Examples.float_std) Examples.clean_tie [0; 1]%Z "b"
     = Some 0%Q
  /\ Spec.masked_std (dev := Examples.float_std) Examples.clean_tie [0; 1]%Z "a"
     = Some 0%Q
  /\ np_intersect1d (numeric_columns Examples.clean_tie)
                    (column_names Examples.clean_tie)
     = ["a"; "b"]%string
  /\ get_minimal_std (dev := Examples.float_std)
       Examples.clean_tie [0; 1]%Z (Some ["a"; "b"]%string)
     = Ok "a"%string
  /\ get_minimal_std (dev := Examples.float_std)
       Examples.clean_tie [0; 1]%Z (Some ["a"; "b"]%string)
     <> Ok "b"%string
  /\ fst (Model.node_description (dev := Examples.float_std)
            Examples.fs_tie (Examples.fresh Examples.fs_tie))
     = Ok [("n0"%string, {| Model.label := "a"; Model.size := 2 |})]
  /\ (forall (dev : Deviation) (v : Q),
         pandas_std [Some 1; Some 1]%Q = Some v ->
         pandas_std [Some 3; Some 3]%Q = Some v ->
         get_minimal_std Examples.clean_tie [0; 1]%Z (Some ["a"; "b"]%string)
         = Ok "a"%string).
Proof.
  do 5 (split; [vm_compute; reflexivity |]).
  split; [intros H; vm_compute in H; discriminate H |].
  split; [vm_compute; reflexivity |].
  intros dev v Hb Ha. unfold get_minimal_std, iloc.
  change (positions (nrows Examples.clean_tie) [0; 1]%Z) with (Ok [0; 1]%nat).
  cbv [rbind]. unfold getitem_cols.
  cbn [select columns nrows Examples.clean_tie map fst snd take_rows
       Examples.cells filter String.eqb Ascii.eqb Bool.eqb nth app rbind
       std_axis0 List.length].
  rewrite Ha, Hb. unfold argmin. cbn [argmin_scan].
  assert (E : (v ?= v)%Q = Eq) by (apply Qeq_alt; reflexivity).
  rewrite E. reflexivity.
Qed.

(** The deviations of [a] and [b] are the same number, and the floats
    computed for them differ in the last place: a tie of the exact
    deviations need not be a tie for [get_minimal_std], which returns [b]
    here; and a constant column need not get the deviation zero. *)
Lemma exact_ties_need_not_tie :
  (Qvar [0; 1; 3] == Qvar [1; 2; 4])%Q
  /\ Examples.float_std (map Some [0; 1; 3]%Q)
     = Some (3439681032033369 # 2251799813685248)
  /\ Examples.float_std (map Some [1; 2; 4]%Q)
     = Some (6879362064066737 # 4503599627370496)
  /\ get_minimal_std (dev := Examples.float_std)
       Examples.clean_near [0; 1; 2]%Z None
     = Ok "b"%string
  /\ Examples.float_std (map Some [1 # 10; 1 # 10; 1 # 10]%Q) <> Some 0%Q.
Proof.
  split; [reflexivity |].
  do 3 (split; [vm_compute; reflexivity |]).
  intros H. vm_compute in H. discriminate H.
Qed.

(** ** Assignment into a dictionary *)

Section DictSet.

Context {K V : Type} `{Key K}.

Lemma keqb_refl (k : K) : keqb k k = true.
Proof. destruct (keqb_spec k k); congruence. Qed.

Lemma keqb_neq (k k' : K) : k <> k' -> keqb k k' = false.
Proof. intros Hn. destruct (keqb_spec k k'); congruence. Qed.

Lemma dict_get_set_eq (d : dict K V) k v : dict_get (dict_set d k v) k = Some v.
Proof.
  induction d as [| [k' v'] r IH]; simpl.
  - now rewrite keqb_refl.
  - destruct (keqb k' k) eqn:E; simpl; rewrite E; auto.
Qed.

Lemma dict_get_set_neq (d : dict K V) k v k' :
  k <> k' -> dict_get (dict_set d k v) k' = dict_get d k'.
Proof.
  intros Hn. induction d as [| [k0 v0] r IH]; simpl.
  - now rewrite keqb_neq.
  - destruct (keqb_spec k0 k); simpl.
    + subst. now rewrite keqb_neq.
    + now rewrite IH.
Qed.

Lemma dict_set_absent (d : dict K V) k v :
  ~ In k (dict_keys d) -> dict_set d k v = d ++ [(k, v)].
Proof.
  induction d as [| [k' v'] r IH]; simpl; intros Hn; [reflexivity |].
  destruct (keqb_spec k' k).
  - exfalso. apply Hn. now left.
  - f_equal. apply IH. intros Hin. apply Hn. now right.
Qed.

Lemma dict_set_present_keys (d : dict K V) k v :
  In k (dict_keys d) -> dict_keys (dict_set d k v) = dict_keys d.
Proof.
  induction d as [| [k' v'] r IH]; simpl; intros Hin; [contradiction |].
  destruct (keqb_spec k' k); simpl.
  - reflexivity.
  - f_equal. apply IH. destruct Hin; [contradiction | assumption].
Qed.

Lemma dict_set_keys_In (d : dict K V) k v k' :
  In k' (dict_keys (dict_set d k v)) <-> k' = k \/ In k' (dict_keys d).
Proof.
  induction d as [| [k0 v0] r IH]; simpl.
  - intuition.
  - destruct (keqb_spec k0 k); simpl.
    + subst. intuition.
    + rewrite IH. intuition.
Qed.

Lemma dict_set_NoDup (d : dict K V) k v :
  NoDup (dict_keys d) -> NoDup (dict_keys (dict_set d k v)).
Proof.
  induction d as [| [k0 v0] r IH]; simpl; intros Hnd.
  - constructor; [intros [] | constructor].
  - inversion Hnd as [| ? ? Hk Hr]; subst.
    destruct (keqb_spec k0 k); simpl.
    + constructor; assumption.
    + constructor; [| now apply IH].
      intros Hin. apply dict_set_keys_In in Hin.
      destruct Hin as [-> | Hin]; [congruence | contradiction].
Qed.

Lemma mem_keys_get (d : dict K V) k :
  mem k (dict_keys d) = match dict_get d k with Some _ => true | None => false end.
Proof.
  induction d as [| [k0 v0] r IH]; simpl; [reflexivity |].
  destruct (keqb_spec k k0), (keqb_spec k0 k); subst; simpl; congruence.
Qed.

End DictSet.

Lemma dict_set_sum_new (d : dict string nat) k s :
  dict_get d k = None ->
  list_sum (dict_values (dict_set d k s)) = (s + list_sum (dict_values d))%nat.
Proof.
  induction d as [| [k' v'] r IH]; simpl; intros Hget; [lia |].
  destruct (String.eqb k' k); [discriminate |].
  simpl. rewrite IH by assumption. lia.
Qed.

Lemma dict_set_sum_add (d : dict string nat) k s old :
  dict_get d k = Some old ->
  list_sum (dict_values (dict_set d k (s + old)%nat))
  = (s + list_sum (dict_values d))%nat.
Proof.
  induction d as [| [k' v'] r IH]; simpl; intros Hget; [discriminate |].
  destruct (String.eqb k' k).
  - inversion Hget; subst. simpl. lia.
  - simpl. rewrite IH by assumption. lia.
Qed.


(** ** Cluster descriptions: the accumulators of the node loop *)

Lemma node_description_cached {dev : Deviation} fs self nd :
  Model._node_description self = Some nd ->
  Model.node_description fs self = (Ok nd, self).
Proof.
  intros H. unfold Model.node_description, Model.bind, Model.get. now rewrite H.
Qed.

Lemma accumulate_nodes_run {dev : Deviation} fs self nd nodes :
  Model._node_description self = Some nd ->
  (forall n, In n nodes -> exists d, dict_get nd n = Some d) ->
  forall acc,
    Model.for_each nodes
      (fun node acc =>
         let '(holder, N) := acc in
         Model.bind (Model.node_description fs) (fun descriptions =>
         Model.bind (Model.lift (getitem descriptions node)) (fun d =>
         let label := Model.label d in
         Model.bind (Model.node_description fs) (fun descriptions =>
         Model.bind (Model.lift (getitem descriptions node)) (fun d =>
         let size := Model.size d in
         let N := (N + size)%nat in
         let size :=
           if mem label (dict_keys holder)
           then (size + get_default holder label 0)%nat else size in
         Model.ret (dict_set holder label size, N))))))
      acc self
    = (Ok (fold_left (Spec.accumulate_step nd) nodes acc), self).
Proof.
  intros Hnd. induction nodes as [| n r IH]; intros Hall acc; simpl.
  - reflexivity.
  - destruct (Hall n (or_introl eq_refl)) as (d & Hd).
    destruct acc as [holder N].
    unfold Model.bind at 1. unfold Model.bind at 1.
    rewrite (node_description_cached fs _ Hnd).
    unfold Model.bind at 1, Model.lift at 1, getitem at 1. rewrite Hd.
    unfold Model.bind at 1. rewrite (node_description_cached fs _ Hnd).
    unfold Model.bind at 1, Model.lift at 1, getitem at 1. rewrite Hd.
    unfold Model.ret at 1.
    rewrite IH by (intros n' H; apply Hall; now right).
    f_equal. f_equal. f_equal.
    unfold Spec.accumulate_step. rewrite Hd. reflexivity.
Qed.

Lemma label_size_snoc nd nodes n l :
  Spec.label_size nd (nodes ++ [n]) l
  = (Spec.label_size nd nodes l
     + if Spec.has_label nd l n then Spec.size_of nd n else 0)%nat.
Proof.
  unfold Spec.label_size. rewrite filter_app, map_app, list_sum_app. simpl.
  destruct (Spec.has_label nd l n); simpl; lia.
Qed.

Lemma total_size_snoc nd nodes n :
  Spec.total_size nd (nodes ++ [n])
  = (Spec.total_size nd nodes + Spec.size_of nd n)%nat.
Proof.
  unfold Spec.total_size. rewrite map_app, list_sum_app. simpl. lia.
Qed.

Lemma label_size_none nd nodes l :
  (forall n, In n nodes -> Spec.has_label nd l n = false) ->
  Spec.label_size nd nodes l = 0%nat.
Proof.
  intros Hn. unfold Spec.label_size.
  replace (filter (Spec.has_label nd l) nodes) with (@nil string); [reflexivity |].
  symmetry. induction nodes as [| n r IH]; simpl; [reflexivity |].
  rewrite (Hn n (or_introl eq_refl)). apply IH. intros n' H. apply Hn. now right.
Qed.

Lemma has_label_described nd l n d :
  dict_get nd n = Some d ->
  Spec.has_label nd l n = String.eqb (Model.label d) l
  /\ Spec.size_of nd n = Model.size d.
Proof.
  intros H. unfold Spec.has_label, Spec.size_of. now rewrite H.
Qed.

Lemma holder_ok_step nd seen acc n d :
  dict_get nd n = Some d ->
  Spec.holder_ok nd seen acc ->
  Spec.holder_ok nd (seen ++ [n]) (Spec.accumulate_step nd acc n).
Proof.
  intros Hd (Hnd & HN & Hsum & Hl).
  destruct acc as [holder N]. simpl in *.
  unfold Spec.accumulate_step. rewrite Hd. simpl fst. simpl snd.
  set (ln := Model.label d). set (sn := Model.size d).
  assert (Hsize : Spec.size_of nd n = sn)
    by (unfold Spec.size_of; now rewrite Hd).
  rewrite mem_keys_get.
  repeat apply conj.
  - now apply dict_set_NoDup.
  - rewrite total_size_snoc, Hsize. simpl. lia.
  - simpl snd. pose proof (Hl ln) as Hln. unfold get_default.
    destruct (dict_get holder ln) as [h |] eqn:Eh.
    + cbn [fst snd]. rewrite (@dict_set_sum_add holder ln sn h Eh). lia.
    + cbn [fst snd]. rewrite (@dict_set_sum_new holder ln sn Eh). lia.
  - intros l. simpl fst.
    destruct (string_dec ln l) as [<- | Hne].
    + rewrite dict_get_set_eq. pose proof (Hl ln) as Hln. unfold get_default.
      assert (Hhas : Spec.has_label nd ln n = true).
      { unfold Spec.has_label. rewrite Hd. apply String.eqb_refl. }
      split.
      * rewrite label_size_snoc, Hhas, Hsize.
        destruct (dict_get holder ln) as [h |]; cbv beta iota.
        -- destruct Hln as [-> _]. lia.
        -- rewrite (@label_size_none nd seen ln Hln). lia.
      * exists n. split; [apply in_or_app; right; now left | assumption].
    + rewrite dict_get_set_neq by assumption.
      assert (Hhas : Spec.has_label nd l n = false).
      { unfold Spec.has_label. rewrite Hd. now apply String.eqb_neq. }
      pose proof (Hl l) as Hll.
      destruct (dict_get holder l) as [h |].
      * destruct Hll as [-> (n' & Hn' & Hlab)]. split.
        -- rewrite label_size_snoc, Hhas. lia.
        -- exists n'. split; [apply in_or_app; now left | assumption].
      * intros n' Hn'. apply in_app_or in Hn'.
        destruct Hn' as [Hn' | [<- | []]]; auto.
Qed.

Lemma holder_ok_fold nd rest :
  (forall n, In n rest -> exists d, dict_get nd n = Some d) ->
  forall seen acc,
    Spec.holder_ok nd seen acc ->
    Spec.holder_ok nd (seen ++ rest) (fold_left (Spec.accumulate_step nd) rest acc).
Proof.
  induction rest as [| n r IH]; intros Hall seen acc Hok; simpl.
  - now rewrite app_nil_r.
  - destruct (Hall n (or_introl eq_refl)) as (d & Hd).
    replace (seen ++ n :: r) with ((seen ++ [n]) ++ r)
      by (rewrite <- app_assoc; reflexivity).
    apply IH.
    + intros n' H. apply Hall. now right.
    + eapply holder_ok_step; eauto.
Qed.

Lemma holder_ok_start nd : Spec.holder_ok nd [] ([], 0%nat).
Proof.
  repeat split; simpl; try constructor. intros l n [].
Qed.

(** ** Cluster descriptions: rounding the densities *)

Lemma densities_loop N (rest : dict string nat) :
  N <> 0%nat ->
  forall acc : dict string Q,
    NoDup (dict_keys acc ++ dict_keys rest) ->
    rfor_each rest
      (fun ls density =>
         rbind (Model.fraction (snd ls) N) (fun v => Ok (dict_set density (fst ls) v)))
      acc
    = Ok (acc ++ map (fun ls => (fst ls, np_round2 (float64 (Spec.share N (snd ls))))) rest).
Proof.
  intros HN. induction rest as [| [l h] r IH]; intros acc Hnd; simpl.
  - now rewrite app_nil_r.
  - unfold Model.fraction at 1. destruct N as [| N']; [congruence |].
    simpl rbind. simpl dict_keys in Hnd.
    rewrite dict_set_absent.
    + rewrite IH.
      * rewrite <- app_assoc. reflexivity.
      * unfold dict_keys. rewrite map_app. simpl. rewrite <- app_assoc. exact Hnd.
    + apply NoDup_remove_2 in Hnd. intros Hin. apply Hnd.
      apply in_or_app. now left.
Qed.

Lemma densities_run (holder : dict string nat) N :
  NoDup (dict_keys holder) -> N <> 0%nat ->
  Model.densities holder N
  = Ok (map (fun ls => (fst ls, np_round2 (float64 (Spec.share N (snd ls))))) holder).
Proof.
  intros Hnd HN. unfold Model.densities.
  now rewrite densities_loop.
Qed.

(** [np.rint] moves a number by a half at most. *)
Lemma rint_close (q : Q) : (Qabs (inject_Z (rint q) - q) <= 1 # 2)%Q.
Proof.
  destruct q as [n d]. unfold rint. simpl Qnum. simpl Qden.
  pose proof (Z.div_mod n (Zpos d) ltac:(lia)) as Hdm.
  pose proof (Z.mod_pos_bound n (Zpos d) ltac:(lia)) as Hr.
  set (f := (n / Zpos d)%Z) in *. set (r := (n mod Zpos d)%Z) in *.
  assert (Hz : forall z : Z,
             (z = f /\ 2 * r <= Zpos d)%Z \/ (z = (f + 1)%Z /\ Zpos d <= 2 * r)%Z ->
             (Qabs (inject_Z z - (n # d)) <= 1 # 2)%Q).
  { intros z Hz. apply Qabs_Qle_condition.
    unfold Qle, Qminus, Qplus, Qopp, inject_Z. simpl.
    split; destruct Hz as [[Hz Hle] | [Hz Hle]]; rewrite Hz; nia. }
  destruct (2 * r ?= Zpos d)%Z eqn:E.
  - apply Z.compare_eq in E. destruct (Z.even f); apply Hz; lia.
  - rewrite Z.compare_lt_iff in E. apply Hz. lia.
  - rewrite Z.compare_gt_iff in E. apply Hz. lia.
Qed.

(** Below 128 the last binary place of a float64 is 2^-46 at most. *)
Lemma float64_exponent_small (q : Q) :
  (Qabs q <= 127)%Q -> (float64_exponent q <= -46)%Z.
Proof.
  intros Hq. unfold float64_exponent. apply Z.max_lub; [| lia].
  set (F := Qfloor (Qabs q * 2 ^ 1100)).
  destruct (Z_lt_le_dec 0 F) as [Hpos | Hneg].
  - assert (HF : (F <= Qfloor (127 * 2 ^ 1100))%Z).
    { apply Qfloor_resp_le. apply Qmult_le_compat_r; [exact Hq |].
      apply Qpower_0_le. discriminate. }
    assert (Hc : (Qfloor (127 * 2 ^ 1100) < 2 ^ 1107)%Z)
      by (vm_compute; reflexivity).
    assert (Hl : (Z.log2 F < 1107)%Z) by (apply Z.log2_lt_pow2; lia).
    lia.
  - rewrite Z.log2_nonpos by exact Hneg. lia.
Qed.

(** Rounding to float64 moves a number below 128 by 2^-47 at most. *)
Lemma float64_close (q : Q) :
  (Qabs q <= 127)%Q -> (Qabs (float64 q - q) <= 1 # 140737488355328)%Q.
Proof.
  intros Hq. pose proof (float64_exponent_small q Hq) as He.
  unfold float64. rewrite Qred_correct.
  set (e := float64_exponent q) in *.
  assert (HP : (0 < 2 ^ e)%Q) by (apply Qpower_0_lt; reflexivity).
  assert (HPle : (2 ^ e <= 2 ^ (-46))%Q)
    by (apply Qpower_le_compat_l; [exact He | discriminate]).
  change (2 ^ (-46))%Q with (1 # 70368744177664)%Q in HPle.
  set (P := (2 ^ e)%Q) in *.
  pose proof (rint_close (q / P)) as Hr.
  set (k := inject_Z (rint (q / P))) in *.
  assert (E : (k * P - q == (k - q / P) * P)%Q).
  { field. intros H0. rewrite H0 in HP. discriminate HP. }
  rewrite E, Qabs_Qmult, (Qabs_pos P) by (apply Qlt_le_weak; exact HP).
  apply Qle_trans with ((1 # 2) * P)%Q.
  - apply Qmult_le_compat_r; [exact Hr | apply Qlt_le_weak; exact HP].
  - lra.
Qed.

Unset Implicit Arguments.

(** [np.round(_, 2)] of the float64 nearest to a number between 0 and 1
    is within half a hundredth of the number, up to the rounding of the
    three float operations, 2^-45 at most. *)
Lemma np_round2_close (q : Q) :
  (0 <= q <= 1)%Q ->
  (Qabs (np_round2 (float64 q) - q) <= (1 # 200) + (1 # 35184372088832))%Q.
Proof.
  intros [H0 H1].
  assert (Hx : (Qabs (float64 q - q) <= 1 # 140737488355328)%Q).
  { apply float64_close. rewrite Qabs_pos by exact H0. lra. }
  apply Qabs_Qle_condition in Hx. destruct Hx as [Hx1 Hx2].
  set (x := float64 q) in *.
  assert (Hy : (Qabs (float64 (x * 100) - x * 100) <= 1 # 140737488355328)%Q).
  { apply float64_close. apply Qabs_Qle_condition. split; lra. }
  apply Qabs_Qle_condition in Hy. destruct Hy as [Hy1 Hy2].
  unfold np_round2. fold x. set (y := float64 (x * 100)) in *.
  pose proof (rint_close y) as Hk.
  apply Qabs_Qle_condition in Hk. destruct Hk as [Hk1 Hk2].
  set (k := inject_Z (rint y)) in *.
  set (z := (k / 100)%Q).
  assert (Ez : (z * 100 == k)%Q) by (unfold z; field).
  assert (Hr : (Qabs (float64 z - z) <= 1 # 140737488355328)%Q).
  { apply float64_close. apply Qabs_Qle_condition. split; lra. }
  apply Qabs_Qle_condition in Hr. destruct Hr as [Hr1 Hr2].
  apply Qabs_Qle_condition. split; lra.
Qed.

Set Implicit Arguments.

Lemma share_bounds (N h : nat) :
  N <> 0%nat -> (h <= N)%nat -> (0 <= Spec.share N h <= 1)%Q.
Proof.
  intros HN Hh. unfold Spec.share.
  assert (HNpos : (0 < inject_Z (Z.of_nat N))%Q).
  { change 0%Q with (inject_Z 0). rewrite <- Zlt_Qlt. lia. }
  split.
  - apply Qle_shift_div_l; [exact HNpos |]. rewrite Qmult_0_l.
    change 0%Q with (inject_Z 0). rewrite <- Zle_Qle. lia.
  - apply Qle_shift_div_r; [exact HNpos |]. rewrite Qmult_1_l.
    rewrite <- Zle_Qle. lia.
Qed.

Lemma In_le_list_sum (h : nat) (l : list nat) :
  In h l -> (h <= list_sum l)%nat.
Proof.
  induction l as [| x r IH]; simpl; [tauto |].
  intros [-> | Hin]; [lia |]. specialize (IH Hin). lia.
Qed.

(** 23 of 40: the quotient is the float just below 0.575, its product by
    100 the float just below 57.5, and the density 0.57; rounding the exact
    57.5 would give 0.58. *)
Lemma fraction_23_of_40 :
  Model.fraction 23 40 = Ok (float64 (57 # 100))
  /\ (float64 (float64 (23 # 40) * 100) < 575 # 10)%Q
  /\ rint ((23 # 40) * 100) = 58%Z.
Proof.
  split; [vm_compute; reflexivity |].
  split; [| vm_compute; reflexivity].
  apply Qlt_alt. vm_compute. reflexivity.
Qed.

Lemma inject_nat_succ (n : nat) :
  (inject_Z (Z.of_nat (S n)) == inject_Z (Z.of_nat n) + 1)%Q.
Proof.
  rewrite Nat2Z.inj_succ. unfold Z.succ. rewrite inject_Z_plus. reflexivity.
Qed.

Lemma rounded_sum_close (N : nat) (hs : list nat) :
  N <> 0%nat ->
  (forall h, In h hs -> (h <= N)%nat) ->
  (Qabs (Qsum (map (fun h => np_round2 (float64 (Spec.share N h))) hs)
         - Qsum (map (Spec.share N) hs))
   <= inject_Z (Z.of_nat (List.length hs))
      * ((1 # 200) + (1 # 35184372088832)))%Q.
Proof.
  intros HN. induction hs as [| h r IH]; intros Hle.
  - unfold Qle. simpl. lia.
  - simpl map. simpl Qsum. simpl List.length. rewrite inject_nat_succ.
    pose proof (np_round2_close (Spec.share N h)
                  (share_bounds HN (Hle h (or_introl eq_refl)))) as Hh.
    specialize (IH (fun h' H => Hle h' (or_intror H))).
    apply Qabs_Qle_condition in Hh, IH. apply Qabs_Qle_condition.
    destruct Hh, IH. split; lra.
Qed.

Lemma share_sum (N : nat) (hs : list nat) :
  N <> 0%nat ->
  (Qsum (map (Spec.share N) hs)
   == inject_Z (Z.of_nat (list_sum hs)) / inject_Z (Z.of_nat N))%Q.
Proof.
  intros HN.
  assert (Hne : ~ (inject_Z (Z.of_nat N) == 0)%Q).
  { intros E. unfold Qeq in E. simpl in E. lia. }
  induction hs as [| h r IH]; simpl.
  - field. exact Hne.
  - rewrite IH. unfold Spec.share.
    rewrite Nat2Z.inj_add, inject_Z_plus. field. exact Hne.
Qed.

Lemma cluster_sizes_cached fs self sizes :
  Model._cluster_sizes self = Some sizes ->
  Model.cluster_sizes fs self = (Ok sizes, self).
Proof.
  intros H. unfold Model.cluster_sizes, Model.bind, Model.get. now rewrite H.
Qed.

(** C3 (as the code has it): in the description of a cluster whose nodes
    are described and not all empty, the labels are those of its nodes and
    the density of a label is [np.round(S_label / N_total, 2)] as it is
    computed in float64 (the quotient rounded to a float, multiplied by
    100, rounded to the nearest integer and divided by 100), with N_total
    the sum of the sizes of the nodes, shared items counted once per node.
    Whether or not the nodes share items, the densities add up to 1 within
    half a hundredth and 2^-45 per label. *)
Theorem cluster_density_by_label :
  forall (dev : Deviation) (fs : filesystem) (self : Model.Model_t)
         (nd : dict string Model.node_desc) (nodes : list string),
    Model._node_description self = Some nd ->
    (forall n, In n nodes -> exists d, dict_get nd n = Some d) ->
    (0 < Spec.total_size nd nodes)%nat ->
    exists holder density,
      Model.accumulate_nodes fs nodes self
      = (Ok (holder, Spec.total_size nd nodes), self)
      /\ Model.densities holder (Spec.total_size nd nodes) = Ok density
      /\ (forall cluster_id sizes size descriptions,
             Model._cluster_sizes self = Some sizes ->
             dict_get sizes cluster_id = Some size ->
             Model._cluster_descriptions self = Some descriptions ->
             Model.describe_component fs (nodes, cluster_id) tt self
             = (Ok tt,
                Model.set_cluster_descriptions
                  (Some (dict_set descriptions cluster_id
                           {| Model.density := density;
                              Model.cluster_size := size |}))
                  self))
      /\ NoDup (dict_keys density)
      /\ (forall l, In l (dict_keys density) <->
                    exists n, In n nodes /\ Spec.has_label nd l n = true)
      /\ (forall l v,
             dict_get density l = Some v ->
             v = np_round2
                   (float64 (inject_Z (Z.of_nat (Spec.label_size nd nodes l))
                             / inject_Z (Z.of_nat (Spec.total_size nd nodes)))))
      /\ (Qabs (Qsum (dict_values density) - 1)
          <= inject_Z (Z.of_nat (List.length density))
             * ((1 # 200) + 2 ^ (-45)))%Q.
Proof.
  intros dev fs self nd nodes Hnd Hall Hpos.
  set (N := Spec.total_size nd nodes) in *.
  pose proof (@holder_ok_fold nd nodes Hall [] _ (holder_ok_start nd)) as Hok.
  simpl app in Hok.
  destruct (fold_left (Spec.accumulate_step nd) nodes ([], 0%nat))
    as [holder N'] eqn:Efold.
  destruct Hok as (Hkeys & HN & Hsum & Hl). simpl in Hkeys, HN, Hsum, Hl.
  fold N in HN. subst N'.
  set (density := map (fun ls => (fst ls, np_round2 (float64 (Spec.share N (snd ls))))) holder).
  assert (Hacc : Model.accumulate_nodes fs nodes self = (Ok (holder, N), self)).
  { unfold Model.accumulate_nodes.
    rewrite (@accumulate_nodes_run dev fs self nd nodes Hnd Hall). now rewrite Efold. }
  assert (Hdens : Model.densities holder N = Ok density)
    by (apply densities_run; [assumption | lia]).
  assert (Hdk : dict_keys density = dict_keys holder).
  { unfold density, dict_keys. rewrite map_map. reflexivity. }
  exists holder, density. repeat apply conj.
  - exact Hacc.
  - exact Hdens.
  - intros cluster_id sizes size descriptions Hsizes Hsize Hdesc.
    unfold Model.describe_component, Model.bind at 1. rewrite Hacc.
    unfold Model.bind at 1, Model.lift at 1. rewrite Hdens.
    unfold Model.bind at 1. rewrite (@cluster_sizes_cached fs self sizes Hsizes).
    unfold Model.bind at 1, Model.lift at 1, getitem. rewrite Hsize.
    unfold Model.cluster_descriptions_set, Model.bind, Model.cached.
    rewrite Hdesc. reflexivity.
  - now rewrite Hdk.
  - intros l. rewrite Hdk. specialize (Hl l). split.
    + intros Hin. destruct (dict_get holder l) as [h |] eqn:E.
      * tauto.
      * apply dict_get_None in E. contradiction.
    + intros (n & Hn & Hlab). destruct (dict_get holder l) as [h |] eqn:E.
      * apply dict_get_In in E. unfold dict_keys.
        change l with (fst (l, h)). now apply in_map.
      * rewrite (Hl n Hn) in Hlab. discriminate.
  - intros l v Hget. apply dict_get_In in Hget. unfold density in Hget.
    apply in_map_iff in Hget. destruct Hget as ([l' h] & E & Hin).
    simpl in E. inversion E; subst l' v.
    pose proof (@dict_get_NoDup _ _ _ _ _ _ Hkeys Hin) as Hh.
    specialize (Hl l). rewrite Hh in Hl. destruct Hl as [-> _]. reflexivity.
  - assert (Evals : dict_values density
                    = map (fun h => np_round2 (float64 (Spec.share N h)))
                          (dict_values holder)).
    { unfold density, dict_values. rewrite !map_map. reflexivity. }
    assert (Elen : List.length density = List.length (dict_values holder)).
    { unfold density, dict_values. now rewrite !length_map. }
    rewrite Evals, Elen.
    assert (Hone : (Qsum (map (Spec.share N) (dict_values holder)) == 1)%Q).
    { rewrite share_sum by lia. rewrite Hsum. field.
      intros E. unfold Qeq in E. simpl in E. lia. }
    rewrite <- Hone. change (2 ^ (-45))%Q with (1 # 35184372088832)%Q.
    apply rounded_sum_close; [lia |].
    intros h Hh. rewrite <- Hsum. now apply In_le_list_sum.
Qed.

Lemma cluster_density_by_label_witness :
  exists holder density,
    Model.accumulate_nodes (dev := Examples.float_std)
      Examples.fs_two_clusters ["n0"; "n1"]%string Examples.described
    = (Ok (holder, 4%nat), Examples.described)
    /\ Model.densities holder 4 = Ok density
    /\ (forall l v,
           dict_get density l = Some v ->
           v = np_round2
                 (float64
                    (inject_Z
                       (Z.of_nat
                          (Spec.label_size
                             [("n0"%string,
                               {| Model.label := "a"; Model.size := 2 |});
                              ("n1"%string,
                               {| Model.label := "a"; Model.size := 2 |})]
                             ["n0"; "n1"]%string l))
                     / inject_Z (Z.of_nat 4)))).
Proof.
  destruct (@cluster_density_by_label Examples.float_std
              Examples.fs_two_clusters Examples.described
              [("n0"%string, {| Model.label := "a"; Model.size := 2 |});
               ("n1"%string, {| Model.label := "a"; Model.size := 2 |})]
              ["n0"; "n1"]%string)
    as (holder & density & Hacc & Hdens & _ & _ & _ & Hval & _).
  - reflexivity.
  - intros n [<- | [<- | []]]; eexists; reflexivity.
  - apply Nat.ltb_lt. reflexivity.
  - exists holder, density. repeat apply conj; assumption.
Defined.

(** C3 (as stated) fails in its second half: the seven nodes of the
    cluster share no item, each label gets [round(2/14, 2)], the float64
    nearest to 0.14, and the densities add up to 0.98 (and seven times the
    rounding of 0.14 to a float). *)
Lemma density_sum_counterexample :
  NoDup (List.concat (dict_values Examples.seven_nodes))
  /\ exists density,
      fst (Model.cluster_descriptions (dev := Examples.float_std)
             Examples.fs_seven (Examples.fresh Examples.fs_seven))
      = Ok [(0%Z, {| Model.density := density; Model.cluster_size := 14 |});
            ((-1)%Z, {| Model.density := [("c0"%string, 1%Q)];
                        Model.cluster_size := 2 |})]
      /\ dict_keys density = Examples.seven_names
      /\ dict_values density = repeat (float64 (14 # 100)) 7
      /\ (Qsum (dict_values density) <= 981 # 1000)%Q
      /\ ~ (Qabs (Qsum (dict_values density) - 1) <= 1 # 100)%Q.
Proof.
  split.
  - repeat constructor; simpl; intuition discriminate.
  - eexists. repeat apply conj.
    + vm_compute. reflexivity.
    + reflexivity.
    + vm_compute. reflexivity.
    + apply Qle_bool_imp_le. vm_compute. reflexivity.
    + intros H. vm_compute in H. apply H. reflexivity.
Qed.


(** ** Labelling items by node *)

Lemma containing_nodes_filter nodes idx :
  Model.containing_nodes nodes idx
  = filter (fun n => mem idx (get_default nodes n [])) (dict_keys nodes).
Proof.
  unfold Model.containing_nodes.
  assert (H : forall ks acc,
             fold_left
               (fun place_holder node_id =>
                  match dict_get nodes node_id with
                  | Some items =>
                      if mem idx items then place_holder ++ [node_id]
                      else place_holder
                  | None => place_holder
                  end) ks acc
             = acc ++ filter (fun n => mem idx (get_default nodes n [])) ks).
  { induction ks as [| k r IH]; intros acc; simpl.
    - now rewrite app_nil_r.
    - rewrite IH. unfold get_default.
      destruct (dict_get nodes k) as [items |]; simpl.
      + destruct (mem idx items); [now rewrite <- app_assoc | reflexivity].
      + reflexivity. }
  now rewrite H.
Qed.

Lemma containing_nodes_nil nodes idx :
  Model.containing_nodes nodes idx = [] <-> Spec.covered nodes idx = false.
Proof.
  rewrite containing_nodes_filter. unfold Spec.covered.
  induction (dict_keys nodes) as [| k r IH]; simpl; [tauto |].
  destruct (mem idx (get_default nodes k [])); simpl; [split; discriminate | exact IH].
Qed.

Lemma label_items_unclustered nodes N :
  snd (Model.label_items nodes N) = Spec.unclustered nodes N.
Proof.
  unfold Model.label_items, Spec.unclustered.
  assert (H : forall l labels acc,
             snd (fold_left
                    (fun acc idx =>
                       let '(labels, unclustered_items) := acc in
                       match Model.containing_nodes nodes idx with
                       | [] => (dict_set labels idx Model.NoNode,
                                unclustered_items ++ [idx])
                       | place_holder =>
                           (dict_set labels idx (Model.InNodes place_holder),
                            unclustered_items)
                       end) l (labels, acc))
             = acc ++ filter (fun i => negb (Spec.covered nodes i)) l).
  { induction l as [| i r IH]; intros labels acc; simpl.
    - now rewrite app_nil_r.
    - destruct (Model.containing_nodes nodes i) as [| n ns] eqn:E.
      + apply containing_nodes_nil in E. rewrite E, IH. simpl.
        now rewrite <- app_assoc.
      + assert (Hc : Spec.covered nodes i = true).
        { destruct (Spec.covered nodes i) eqn:Ec; [reflexivity |].
          apply containing_nodes_nil in Ec. congruence. }
        rewrite Hc, IH. reflexivity. }
  apply (H (range N) [] []).
Qed.

(** ** Running the methods on a loaded model *)

Unset Implicit Arguments.

Lemma bind_run A B (c : Model.M A) (k : A -> Model.M B) s a s' :
  c s = (Ok a, s') -> Model.bind c k s = k a s'.
Proof. intros H. unfold Model.bind. now rewrite H. Qed.

Lemma mapper_same_path fs s1 s2 :
  Model._mapper s1 = Model._mapper s2 ->
  fst (Model.mapper fs s1) = fst (Model.mapper fs s2).
Proof.
  intros E. unfold Model.mapper, Model.assert_mapper, Model.bind, Model.get.
  rewrite E. destruct (Model._mapper s2) as [path |]; [| reflexivity].
  destruct (truthy path); [| reflexivity].
  unfold Model.ret, Model.lift. destruct (load fs path); reflexivity.
Qed.

Section Loaded.

Variable fs : filesystem.
Variable self0 : Model.Model_t.
Variable jm : JMapper_t.
Variable nodes : dict string (list Z).
Variable N : nat.
Hypothesis Hloaded : Spec.loaded fs self0 jm nodes N.

Lemma mapper_at s :
  Model._mapper s = Model._mapper self0 ->
  Model.mapper fs s = (Ok (PMapper jm), s).
Proof.
  intros E. apply mapper_run.
  rewrite (mapper_same_path fs _ _ E). exact (proj1 Hloaded).
Qed.

Lemma complex_at s :
  Model._mapper s = Model._mapper self0 ->
  Model.complex fs s = (Ok (jm_complex jm), s).
Proof.
  intros E. unfold Model.complex. now rewrite (bind_run _ _ _ _ _ _ _ (mapper_at _ E)).
Qed.

Lemma node_table_at : Model.node_table (jm_complex jm) = Ok nodes.
Proof. exact (proj1 (proj2 Hloaded)). Qed.

Lemma tupper_clean_at s :
  Model._mapper s = Model._mapper self0 ->
  exists clean,
    Model.tupper_clean fs s = (Ok clean, s) /\ py_len clean = Ok N.
Proof.
  intros E. destruct Hloaded as (_ & _ & clean & Hclean & Hlen).
  exists clean. split; [| exact Hlen].
  unfold Model.tupper_clean, Model.tupper.
  rewrite (bind_run _ _ _ _ _ _ _ (bind_run _ _ _ _ _ _ _ (mapper_at _ E))).
  unfold Model.lift. simpl. now rewrite Hclean.
Qed.

Lemma label_item_by_node_at s :
  Model._mapper s = Model._mapper self0 ->
  Model.label_item_by_node fs s
  = (Ok (fst (Model.label_items nodes N)),
     Model.set_unclustered_items (Some (Spec.unclustered nodes N))
       (Model.set_node_ids (Some (fst (Model.label_items nodes N))) s)).
Proof.
  intros E. unfold Model.label_item_by_node.
  destruct (tupper_clean_at _ E) as (clean & Hclean & Hlen).
  rewrite (bind_run _ _ _ _ _ _ _ Hclean).
  unfold Model.lift at 1. rewrite Hlen. unfold Model.bind at 1.
  rewrite (bind_run _ _ _ _ _ _ _ (complex_at _ E)).
  unfold Model.lift at 1. rewrite node_table_at. unfold Model.bind at 1.
  rewrite <- label_items_unclustered.
  destruct (Model.label_items nodes N) as [labels unclustered]. reflexivity.
Qed.

(** Reading [self.unclustered_items]: the items no node contains, which
    the read leaves in the cache. *)
Lemma unclustered_items_at s :
  Model._mapper s = Model._mapper self0 ->
  Spec.unclustered_cache_ok s nodes N ->
  exists s',
    Model.unclustered_items fs s = (Ok (Spec.unclustered nodes N), s')
    /\ Model._mapper s' = Model._mapper s
    /\ Model._unclustered_items s' = Some (Spec.unclustered nodes N)
    /\ Model._cluster_sizes s' = Model._cluster_sizes s
    /\ Model._items_dict s' = Model._items_dict s.
Proof.
  intros E [Hnone | Hsome]; unfold Model.unclustered_items, Model.bind at 1, Model.get.
  - rewrite Hnone. rewrite (bind_run _ _ _ _ _ _ _ (label_item_by_node_at _ E)).
    eexists. split; [reflexivity |]. repeat split.
  - rewrite Hsome. exists s. repeat split; assumption.
Qed.

Lemma getitem_key (n : string) :
  In n (dict_keys nodes) -> getitem nodes n = Ok (get_default nodes n []).
Proof.
  intros Hin. unfold getitem, get_default.
  destruct (dict_get nodes n) eqn:E; [reflexivity |].
  apply dict_get_None in E. contradiction.
Qed.

Lemma collect_elements_at s ns :
  Model._mapper s = Model._mapper self0 ->
  (forall n, In n ns -> In n (dict_keys nodes)) ->
  forall acc,
    Model.for_each ns
      (fun node elements =>
         Model.bind (Model.complex fs) (fun cx =>
         Model.bind (Model.lift (Model.node_table cx)) (fun table =>
         Model.bind (Model.lift (getitem table node)) (fun items =>
         Model.ret (elements ++ [items])))))
      acc s
    = (Ok (acc ++ map (fun n => get_default nodes n []) ns), s).
Proof.
  intros E. induction ns as [| n r IH]; intros Hkeys acc; simpl.
  - now rewrite app_nil_r.
  - unfold Model.bind at 1.
    rewrite (bind_run _ _ _ _ _ _ _ (complex_at _ E)).
    unfold Model.lift at 1. rewrite node_table_at. unfold Model.bind at 1.
    unfold Model.lift at 1. rewrite (getitem_key n (Hkeys n (or_introl eq_refl))).
    unfold Model.bind at 1, Model.ret at 1.
    rewrite IH by (intros n' H; apply Hkeys; now right).
    now rewrite <- app_assoc.
Qed.

Lemma positions_in_range n idxs :
  (forall i, In i idxs -> (0 <= i < Z.of_nat n)%Z) ->
  positions n idxs = Ok (map Z.to_nat idxs).
Proof.
  induction idxs as [| i r IH]; intros Hr; simpl; [reflexivity |].
  unfold norm_pos.
  destruct (Hr i (or_introl eq_refl)) as [H0 Hn].
  apply Z.leb_le in H0. apply Z.ltb_lt in Hn. rewrite H0, Hn. simpl.
  rewrite IH by (intros i' H; apply Hr; now right). reflexivity.
Qed.

Lemma list_set_length {A} (l : list A) p v :
  List.length (Model.list_set l p v) = List.length l.
Proof.
  revert p. induction l as [| x r IH]; intros p; simpl; [reflexivity |].
  destruct p; simpl; [reflexivity | now rewrite IH].
Qed.

Lemma np_put_in_range labels indices v :
  (forall i, In i indices -> (0 <= i < Z.of_nat (List.length labels))%Z) ->
  exists labels',
    Model.np_put labels indices v = Ok labels'
    /\ List.length labels' = List.length labels.
Proof.
  intros Hr. unfold Model.np_put. rewrite (positions_in_range _ _ Hr). simpl.
  eexists. split; [reflexivity |].
  generalize (map Z.to_nat indices) as ps. intros ps. revert labels Hr.
  induction ps as [| p r IH]; intros labels Hr; simpl; [reflexivity |].
  rewrite IH.
  - apply list_set_length.
  - intros i Hi. rewrite list_set_length. auto.
Qed.

Lemma items_of_In c i :
  In i (Spec.items_of nodes c) <->
  exists n, In n (fst c) /\ In i (get_default nodes n []).
Proof.
  unfold Spec.items_of. rewrite in_concat. split.
  - intros (l & Hl & Hi). apply in_map_iff in Hl.
    destruct Hl as (n & <- & Hn). eauto.
  - intros (n & Hn & Hi). exists (get_default nodes n []). split; [| assumption].
    apply in_map_iff. eauto.
Qed.

Lemma members_In c i : In i (Spec.members nodes c) <-> In i (Spec.items_of nodes c).
Proof. unfold Spec.members, to_set. apply nodup_In. Qed.

Lemma members_NoDup c : NoDup (Spec.members nodes c).
Proof. unfold Spec.members, to_set. apply NoDup_nodup. Qed.

Lemma label_component_at s c labels idict sdict :
  Model._mapper s = Model._mapper self0 ->
  Model._items_dict s = Some idict ->
  Model._cluster_sizes s = Some sdict ->
  List.length labels = N ->
  (forall n, In n (fst c) -> In n (dict_keys nodes)) ->
  Spec.items_in_range nodes N ->
  exists labels' s',
    Model.label_component fs c labels s = (Ok labels', s')
    /\ List.length labels' = N
    /\ Model._mapper s' = Model._mapper s
    /\ Model._unclustered_items s' = Model._unclustered_items s
    /\ Model._items_dict s' = Some (dict_set idict (snd c) (Spec.members nodes c))
    /\ Model._cluster_sizes s'
       = Some (dict_set sdict (snd c) (List.length (Spec.members nodes c))).
Proof.
  intros E Hitems Hsizes Hlen Hkeys Hrange.
  destruct c as [ns cluster_id]. simpl fst in *. simpl snd in *.
  destruct (np_put_in_range labels (Spec.members nodes (ns, cluster_id)) cluster_id)
    as (labels' & Hput & Hlen').
  { intros i Hi. rewrite Hlen. apply members_In, items_of_In in Hi.
    destruct Hi as (n & Hn & Hi). eapply Hrange; eauto. }
  exists labels'. eexists. split.
  - unfold Model.label_component.
    rewrite (bind_run _ _ _ _ _ _ _ (collect_elements_at s ns E Hkeys [])).
    simpl app.
    change (to_set (List.concat (map (fun n => get_default nodes n []) ns)))
      with (Spec.members nodes (ns, cluster_id)).
    unfold Model.items_dict_set, Model.cluster_sizes_set.
    unfold Model.bind at 1. unfold Model.bind at 1. unfold Model.cached at 1.
    rewrite Hitems. unfold Model.modify at 1.
    unfold Model.bind at 1. unfold Model.lift at 1. rewrite Hput.
    unfold Model.bind at 1. unfold Model.bind at 1. unfold Model.cached at 1.
    simpl Model._cluster_sizes. rewrite Hsizes. unfold Model.modify at 1.
    unfold Model.ret. reflexivity.
  - simpl. repeat split; congruence.
Qed.

Lemma component_loop_at cs :
  (forall c n, In c cs -> In n (fst c) -> In n (dict_keys nodes)) ->
  Spec.items_in_range nodes N ->
  forall s labels idict sdict,
    Model._mapper s = Model._mapper self0 ->
    Model._items_dict s = Some idict ->
    Model._cluster_sizes s = Some sdict ->
    List.length labels = N ->
    exists labels' s',
      Model.for_each cs (Model.label_component fs) labels s = (Ok labels', s')
      /\ List.length labels' = N
      /\ Model._mapper s' = Model._mapper s
      /\ Model._unclustered_items s' = Model._unclustered_items s
      /\ Model._items_dict s'
         = Some (fold_left (fun d c => dict_set d (snd c) (Spec.members nodes c))
                           cs idict)
      /\ Model._cluster_sizes s'
         = Some (fold_left
                   (fun d c => dict_set d (snd c) (List.length (Spec.members nodes c)))
                   cs sdict).
Proof.
  intros Hkeys Hrange. induction cs as [| c r IH];
    intros s labels idict sdict E Hitems Hsizes Hlen; simpl.
  - exists labels, s. repeat split; assumption.
  - destruct (label_component_at s c labels idict sdict E Hitems Hsizes Hlen
                (fun n H => Hkeys c n (or_introl eq_refl) H) Hrange)
      as (labels1 & s1 & Hrun & Hlen1 & Em & Eu & Ei & Es).
    rewrite (bind_run _ _ _ _ _ _ _ Hrun).
    destruct (IH (fun c' n H => Hkeys c' n (or_intror H)) s1 labels1 _ _
                 (eq_trans Em E) Ei Es Hlen1)
      as (labels' & s' & Hrun' & Hlen' & Em' & Eu' & Ei' & Es').
    exists labels', s'. repeat split; try assumption; congruence.
Qed.

Lemma complex_not_empty : jm_complex jm <> [].
Proof.
  intros E. pose proof node_table_at as H. rewrite E in H. discriminate H.
Qed.

Lemma unclustered_items_cached s u :
  Model._unclustered_items s = Some u ->
  Model.unclustered_items fs s = (Ok u, s).
Proof.
  intros H. unfold Model.unclustered_items, Model.bind, Model.get. now rewrite H.
Qed.

(** [label_item_by_cluster] on a loaded model whose components name nodes
    of the complex and whose items are rows: it returns, and leaves the
    members and the size of each component, then the unclustered items and
    their number, under the cluster ids. *)
Lemma label_item_by_cluster_at s :
  Model._mapper s = Model._mapper self0 ->
  Spec.unclustered_cache_ok s nodes N ->
  (forall c n, In c (jm_components jm) -> In n (fst c) -> In n (dict_keys nodes)) ->
  Spec.items_in_range nodes N ->
  exists s',
    Model.label_item_by_cluster fs s = (Ok tt, s')
    /\ Model._mapper s' = Model._mapper s
    /\ Model._unclustered_items s' = Some (Spec.unclustered nodes N)
    /\ Model._items_dict s'
       = Some (dict_set
                 (fold_left (fun d c => dict_set d (snd c) (Spec.members nodes c))
                            (jm_components jm) [])
                 (-1)%Z (Spec.unclustered nodes N))
    /\ Model._cluster_sizes s'
       = Some (dict_set
                 (fold_left
                    (fun d c => dict_set d (snd c) (List.length (Spec.members nodes c)))
                    (jm_components jm) [])
                 (-1)%Z (List.length (Spec.unclustered nodes N))).
Proof.
  intros E Hcache Hkeys Hrange.
  unfold Model.label_item_by_cluster.
  rewrite (bind_run _ _ _ _ _ _ _ (complex_at _ E)).
  pose proof complex_not_empty as Hne.
  destruct (jm_complex jm) as [| entry cx] eqn:Ecx; [congruence |].
  simpl List.length. change (0 <? S (List.length cx))%nat with true.
  unfold Model.assert. cbv iota.
  rewrite (bind_run _ _ (Model.ret tt) _ s tt s eq_refl).
  rewrite (bind_run _ _ (Model.modify (Model.set_cluster_sizes (Some []))) _
             s tt (Model.set_cluster_sizes (Some []) s) eq_refl).
  set (s1 := Model.set_items_dict (Some []) (Model.set_cluster_sizes (Some []) s)).
  rewrite (bind_run _ _ (Model.modify (Model.set_items_dict (Some []))) _
             _ tt s1 eq_refl).
  assert (E1 : Model._mapper s1 = Model._mapper self0) by exact E.
  destruct (tupper_clean_at s1 E1) as (clean & Hclean & Hlen).
  rewrite (bind_run _ _ _ _ _ _ _ Hclean).
  unfold Model.lift at 1. rewrite Hlen. unfold Model.bind at 1.
  rewrite (bind_run _ _ _ _ _ _ _ (mapper_at s1 E1)).
  unfold Model.lift at 1. simpl Model.attr_components. unfold Model.bind at 1.
  destruct (component_loop_at (jm_components jm) Hkeys Hrange s1
              (repeat (-1)%Z N) [] [] E1 eq_refl eq_refl (repeat_length _ _))
    as (labels & s2 & Hloop & Hlabels & Em2 & Eu2 & Ei2 & Es2).
  rewrite (bind_run _ _ _ _ _ _ _ Hloop).
  unfold Model.bind at 1, Model.modify at 1.
  set (s3 := Model.set_cluster_ids (Some labels) s2).
  assert (E3 : Model._mapper s3 = Model._mapper self0)
    by (simpl; congruence).
  assert (Hcache3 : Spec.unclustered_cache_ok s3 nodes N).
  { unfold Spec.unclustered_cache_ok in *. simpl. rewrite Eu2. exact Hcache. }
  destruct (unclustered_items_at s3 E3 Hcache3)
    as (s4 & Hu & Em4 & Eu4 & Es4 & Ei4).
  rewrite (bind_run _ _ _ _ _ _ _ Hu).
  unfold Model.cluster_sizes_set at 1.
  unfold Model.bind at 1. unfold Model.bind at 1. unfold Model.cached at 1.
  rewrite Es4. simpl Model._cluster_sizes. rewrite Es2.
  unfold Model.modify at 1.
  match goal with
  | |- context [Model.set_cluster_sizes ?v s4] =>
      set (s5 := Model.set_cluster_sizes v s4)
  end.
  rewrite (bind_run _ _ _ _ _ _ _
             (unclustered_items_cached s5 (Spec.unclustered nodes N) Eu4)).
  unfold Model.items_dict_set, Model.bind, Model.cached, Model.modify.
  simpl Model._items_dict. rewrite Ei4. simpl Model._items_dict. rewrite Ei2.
  eexists. split; [reflexivity |].
  simpl. repeat split; try congruence.
Qed.

End Loaded.

(** ** Cluster sizes *)

Lemma fold_dict_set_fresh {V} (g : list string * Z -> V) cs :
  forall d : dict Z V,
    NoDup (dict_keys d ++ map snd cs) ->
    fold_left (fun d c => dict_set d (snd c) (g c)) cs d
    = d ++ map (fun c => (snd c, g c)) cs.
Proof.
  induction cs as [| c r IH]; intros d Hnd; simpl.
  - now rewrite app_nil_r.
  - simpl in Hnd. rewrite dict_set_absent.
    + rewrite IH.
      * now rewrite <- app_assoc.
      * unfold dict_keys. rewrite map_app. simpl. now rewrite <- app_assoc.
    + apply NoDup_remove_2 in Hnd. intros Hin. apply Hnd.
      apply in_or_app. now left.
Qed.

(** The dictionaries [label_item_by_cluster] leaves when the cluster ids
    are distinct and none is -1: one entry per component, in order, then
    the entry of the unclustered items. *)
Lemma final_dict {V} (g : list string * Z -> V) (u : V) cs :
  NoDup (map snd cs) -> ~ In (-1)%Z (map snd cs) ->
  dict_set (fold_left (fun d c => dict_set d (snd c) (g c)) cs []) (-1)%Z u
  = map (fun c => (snd c, g c)) cs ++ [((-1)%Z, u)].
Proof.
  intros Hnd Hneg. rewrite fold_dict_set_fresh by exact Hnd. simpl.
  apply dict_set_absent. unfold dict_keys. rewrite map_map. exact Hneg.
Qed.

Lemma range_In N i : In i (range N) <-> (0 <= i < Z.of_nat N)%Z.
Proof.
  unfold range. rewrite in_map_iff. split.
  - intros (k & <- & Hk). apply in_seq in Hk. lia.
  - intros Hi. exists (Z.to_nat i). split; [lia |]. apply in_seq. lia.
Qed.

Lemma range_NoDup N : NoDup (range N).
Proof.
  unfold range. apply NoDup_map_NoDup_ForallPairs; [| apply seq_NoDup].
  intros x y _ _ E. lia.
Qed.

Lemma range_length N : List.length (range N) = N.
Proof. unfold range. now rewrite length_map, length_seq. Qed.

Lemma covered_true nodes i :
  Spec.covered nodes i = true <->
  exists n, In n (dict_keys nodes) /\ In i (get_default nodes n []).
Proof.
  unfold Spec.covered. rewrite existsb_exists. split.
  - intros (n & Hn & Hi). apply mem_In in Hi. eauto.
  - intros (n & Hn & Hi). exists n. split; [assumption |]. now apply mem_In.
Qed.

Lemma unclustered_In nodes N i :
  In i (Spec.unclustered nodes N) <->
  (0 <= i < Z.of_nat N)%Z /\ Spec.covered nodes i = false.
Proof.
  unfold Spec.unclustered. rewrite filter_In, range_In, negb_true_iff. tauto.
Qed.

Lemma members_NoDup_concat nodes cs :
  NoDup (map snd cs) ->
  ~ Spec.shared_item nodes cs ->
  NoDup (List.concat (map (Spec.members nodes) cs)).
Proof.
  induction cs as [| c r IH]; intros Hnd Hshare; simpl; [constructor |].
  inversion Hnd as [| ? ? Hc Hr]; subst.
  apply NoDup_app.
  - apply members_NoDup.
  - apply IH; [assumption |].
    intros (c1 & c2 & i & H1 & H2 & Hne & Hi1 & Hi2). apply Hshare.
    exists c1, c2, i. repeat split; try assumption; now right.
  - intros i Hi Hin. apply in_concat in Hin. destruct Hin as (l & Hl & Hil).
    apply in_map_iff in Hl. destruct Hl as (c' & <- & Hc').
    apply Hshare. exists c, c', i. repeat split.
    + now left.
    + now right.
    + intros E. apply Hc. rewrite E. now apply in_map.
    + now apply members_In.
    + now apply members_In.
Qed.

(** Without an item shared between components, the component sizes and
    the number of unclustered items add up to the number of items. *)
Lemma sizes_add_up nodes cs N :
  Spec.components_ok nodes cs ->
  Spec.items_in_range nodes N ->
  Spec.nodes_grouped nodes cs ->
  ~ Spec.shared_item nodes cs ->
  (list_sum (map (fun c => List.length (Spec.members nodes c)) cs)
   + List.length (Spec.unclustered nodes N))%nat = N.
Proof.
  intros (Hkeys & Hnd & Hneg) Hrange Hgrouped Hshare.
  rewrite <- (range_length N) at 2.
  rewrite <- (filter_length (Spec.covered nodes) (range N)).
  fold (Spec.unclustered nodes N). f_equal.
  replace (map (fun c => List.length (Spec.members nodes c)) cs)
    with (map (@List.length Z) (map (Spec.members nodes) cs))
    by (rewrite map_map; reflexivity).
  rewrite <- length_concat.
  apply Permutation_length. apply NoDup_Permutation.
  - now apply members_NoDup_concat.
  - apply NoDup_filter, range_NoDup.
  - intros i. rewrite filter_In, range_In, covered_true, in_concat. split.
    + intros (l & Hl & Hi). apply in_map_iff in Hl.
      destruct Hl as (c & <- & Hc).
      apply members_In, items_of_In in Hi. destruct Hi as (n & Hn & Hi).
      split; [eapply Hrange | exists n]; eauto.
    + intros (_ & n & Hn & Hi). destruct (Hgrouped n Hn) as (c & Hc & Hnc).
      exists (Spec.members nodes c). split; [now apply in_map |].
      apply members_In, items_of_In. eauto.
Qed.


(** C1 (as the code has it): on a loaded model whose components name
    nodes of the complex under distinct cluster ids other than -1, whose
    nodes each belong to a component and hold row indices, and where no
    item is shared between nodes of two components,
    [label_item_by_cluster] returns and the cluster sizes it leaves,
    the size of the unclustered cluster -1 included, add up to the number
    of items. *)
Theorem cluster_sizes_sum :
  forall (fs : filesystem) (self : Model.Model_t) (jm : JMapper_t)
         (nodes : dict string (list Z)) (N : nat),
    Spec.loaded fs self jm nodes N ->
    Spec.unclustered_cache_ok self nodes N ->
    Spec.components_ok nodes (jm_components jm) ->
    Spec.items_in_range nodes N ->
    Spec.nodes_grouped nodes (jm_components jm) ->
    ~ Spec.shared_item nodes (jm_components jm) ->
    exists self' sizes,
      Model.label_item_by_cluster fs self = (Ok tt, self')
      /\ Model._cluster_sizes self' = Some sizes
      /\ dict_keys sizes = map snd (jm_components jm) ++ [(-1)%Z]
      /\ list_sum (dict_values sizes) = N.
Proof.
  intros fs self jm nodes N Hloaded Hcache Hok Hrange Hgrouped Hshare.
  destruct (label_item_by_cluster_at fs self jm nodes N Hloaded self eq_refl
              Hcache (proj1 Hok) Hrange)
    as (self' & Hrun & _ & _ & _ & Hsizes).
  destruct Hok as (Hkeys & Hnd & Hneg).
  rewrite (final_dict _ _ _ Hnd Hneg) in Hsizes.
  exists self'. eexists. repeat apply conj.
  - exact Hrun.
  - exact Hsizes.
  - unfold dict_keys. rewrite map_app, map_map. reflexivity.
  - unfold dict_values. rewrite map_app, map_map, list_sum_app. simpl.
    rewrite Nat.add_0_r.
    apply sizes_add_up; try assumption. repeat split; assumption.
Qed.

Lemma cluster_sizes_sum_witness :
  exists self' sizes,
    Model.label_item_by_cluster Examples.fs_two_clusters
      (Examples.fresh Examples.fs_two_clusters)
    = (Ok tt, self')
    /\ Model._cluster_sizes self' = Some sizes
    /\ dict_keys sizes = [0; 1; -1]%Z
    /\ list_sum (dict_values sizes) = 4%nat.
Proof.
  apply (cluster_sizes_sum Examples.fs_two_clusters
           (Examples.fresh Examples.fs_two_clusters) Examples.jm_two_clusters
           [("n0"%string, [0; 1]%Z); ("n1"%string, [2; 3]%Z)] 4).
  - split; [reflexivity |]. split; [reflexivity |].
    eexists. split; reflexivity.
  - left. reflexivity.
  - split; [| split]; simpl.
    + intros c n [<- | [<- | []]] [<- | []]; simpl; auto.
    + repeat constructor; simpl; intuition discriminate.
    + intuition discriminate.
  - intros n i [<- | [<- | []]]; simpl; intros [<- | [<- | []]]; lia.
  - intros n [<- | [<- | []]]; simpl.
    + exists (["n0"%string], 0%Z). simpl. auto.
    + exists (["n1"%string], 1%Z). simpl. auto.
  - intros (c1 & c2 & i & H1 & H2 & Hne & Hi1 & Hi2). simpl in H1, H2.
    destruct H1 as [<- | [<- | []]], H2 as [<- | [<- | []]];
      simpl in Hne, Hi1, Hi2; try congruence;
      repeat match goal with
             | H : _ \/ _ |- _ => destruct H
             | H : False |- _ => destruct H
             end; lia.
Defined.

(** C1 (as stated) fails: item 0 lies in node [A] of cluster 0 and in node
    [B] of cluster 1; there is one item, and the sizes of clusters 0, 1
    and -1 are 1, 1 and 0. *)
Lemma cluster_sizes_sum_counterexample :
  let run :=
    Model.label_item_by_cluster Examples.fs_shared
      (Examples.fresh Examples.fs_shared) in
  Tupper.clean Examples.fs_shared Examples.paths
  = ([PrintVal Examples.one_row], Ok Examples.one_row)
  /\ py_len Examples.one_row = Ok 1%nat
  /\ fst run = Ok tt
  /\ Model._cluster_sizes (snd run)
     = Some [(0%Z, 1%nat); (1%Z, 1%nat); ((-1)%Z, 0%nat)]
  /\ Model._cluster_ids (snd run) = Some [1%Z]
  /\ list_sum (dict_values [(0%Z, 1%nat); (1%Z, 1%nat); ((-1)%Z, 0%nat)])
     = 2%nat
  /\ ~ (exists sizes N,
          Model._cluster_sizes (snd run) = Some sizes
          /\ py_len Examples.one_row = Ok N
          /\ list_sum (dict_values sizes) = N).
Proof.
  repeat apply conj; try reflexivity.
  intros (sizes & N & Hsizes & HN & Hsum).
  vm_compute in Hsizes, HN.
  injection Hsizes as <-. injection HN as <-. discriminate Hsum.
Qed.


(** ** Items in several groups *)

Lemma count_inner values :
  forall (vc : dict Z nat) v,
    get_default
      (fold_left (fun vc value => dict_set vc value (get_default vc value 0 + 1)%nat)
                 values vc)
      v 0%nat
    = (get_default vc v 0 + count_occ Z.eq_dec values v)%nat.
Proof.
  induction values as [| x r IH]; intros vc v; simpl; [lia |].
  rewrite IH. unfold get_default at 1.
  destruct (Z.eq_dec x v) as [-> | Hne].
  - rewrite dict_get_set_eq. lia.
  - rewrite dict_get_set_neq by assumption. unfold get_default. lia.
Qed.

Lemma count_inner_keys values :
  forall (vc : dict Z nat),
    NoDup (dict_keys vc) ->
    (forall v k, dict_get vc v = Some k -> (0 < k)%nat) ->
    let vc' :=
      fold_left (fun vc value => dict_set vc value (get_default vc value 0 + 1)%nat)
                values vc in
    NoDup (dict_keys vc')
    /\ (forall v k, dict_get vc' v = Some k -> (0 < k)%nat).
Proof.
  induction values as [| x r IH]; intros vc Hnd Hpos; simpl; [auto |].
  apply IH.
  - now apply dict_set_NoDup.
  - intros v k. destruct (Z.eq_dec x v) as [-> | Hne].
    + rewrite dict_get_set_eq. intros E. inversion E. lia.
    + rewrite dict_get_set_neq by assumption. apply Hpos.
Qed.

Lemma count_values_spec lists :
  NoDup (dict_keys (Model.count_values lists))
  /\ forall v,
      dict_get (Model.count_values lists) v
      = if Nat.eqb (Spec.occurrences lists v) 0 then None
        else Some (Spec.occurrences lists v).
Proof.
  unfold Model.count_values.
  assert (H : forall ls (vc : dict Z nat),
             NoDup (dict_keys vc) ->
             (forall v k, dict_get vc v = Some k -> (0 < k)%nat) ->
             let vc' :=
               fold_left
                 (fun value_counts values =>
                    fold_left
                      (fun vc value =>
                         dict_set vc value (get_default vc value 0 + 1)%nat)
                      values value_counts) ls vc in
             NoDup (dict_keys vc')
             /\ (forall v k, dict_get vc' v = Some k -> (0 < k)%nat)
             /\ forall v, get_default vc' v 0%nat
                          = (get_default vc v 0 + Spec.occurrences ls v)%nat).
  { induction ls as [| l r IH]; intros vc Hnd Hpos; simpl.
    - split; [assumption |]. split; [assumption |].
      intros v. unfold Spec.occurrences. simpl. lia.
    - destruct (count_inner_keys l vc Hnd Hpos) as [Hnd' Hpos'].
      destruct (IH _ Hnd' Hpos') as (Hnd2 & Hpos2 & Hget2).
      split; [assumption |]. split; [assumption |].
      intros v. rewrite Hget2, count_inner. unfold Spec.occurrences. simpl. lia. }
  destruct (H lists [] (NoDup_nil _)) as (Hnd & Hpos & Hget).
  { intros v k E. discriminate E. }
  split; [exact Hnd |].
  intros v. specialize (Hget v). unfold get_default in Hget. simpl in Hget.
  destruct (dict_get _ v) as [k |] eqn:E.
  - specialize (Hpos v k E). subst k.
    destruct (Nat.eqb_spec (Spec.occurrences lists v) 0); [lia | reflexivity].
  - rewrite <- Hget. reflexivity.
Qed.

Lemma overlap_fold_nil items vcs :
  forall acc,
    fold_left (Spec.overlap_step items) vcs acc = [] <->
    acc = [] /\ forall vc, In vc vcs -> (snd vc <= 1)%nat.
Proof.
  induction vcs as [| vc r IH]; intros acc; simpl.
  - intuition.
  - rewrite IH. unfold Spec.overlap_step.
    destruct (Nat.ltb_spec 1 (snd vc)) as [Hgt | Hle].
    + split.
      * intros [E _]. destruct acc as [| [k w] acc']; simpl in E;
          [discriminate E |].
        destruct (Z.eqb k (fst vc)); discriminate E.
      * intros [_ H]. specialize (H vc (or_introl eq_refl)). lia.
    + split.
      * intros [E H]. split; [assumption |]. intros vc' [<- | Hin]; auto.
      * intros [E H]. split; [assumption |]. intros vc' Hin. apply H. now right.
Qed.

Lemma dict_set_In {K V} `{Key K} (d : dict K V) k v k' v' :
  In (k', v') (dict_set d k v) -> (k' = k /\ v' = v) \/ In (k', v') d.
Proof.
  induction d as [| [k0 v0] r IH]; simpl.
  - intros [E | []]. inversion E. auto.
  - destruct (keqb_spec k0 k); simpl.
    + intros [E | Hin]; [inversion E; subst; auto | auto].
    + intros [E | Hin]; [auto |]. destruct (IH Hin); auto.
Qed.

Lemma overlap_fold_entries items vcs :
  forall acc,
    (forall v gs, In (v, gs) acc -> gs = Model.groups_of items v) ->
    forall v gs,
      In (v, gs) (fold_left (Spec.overlap_step items) vcs acc) ->
      gs = Model.groups_of items v.
Proof.
  induction vcs as [| vc r IH]; intros acc Hacc v gs; simpl; [apply Hacc |].
  apply IH. intros v' gs' Hin. unfold Spec.overlap_step in Hin.
  destruct (1 <? snd vc)%nat; [| now apply Hacc].
  apply dict_set_In in Hin. destruct Hin as [[-> ->] | Hin]; [reflexivity |].
  now apply Hacc.
Qed.

Lemma sum_one {A} (g : A -> nat) l a :
  In a l -> (g a <= list_sum (map g l))%nat.
Proof.
  induction l as [| x r IH]; simpl; [contradiction |].
  intros [-> | Hin]; [lia |]. specialize (IH Hin). lia.
Qed.

Lemma sum_two {A} (g : A -> nat) l a b :
  a <> b -> In a l -> In b l -> (g a + g b <= list_sum (map g l))%nat.
Proof.
  intros Hne. induction l as [| x r IH]; simpl; [contradiction |].
  intros [-> | Ha] [-> | Hb].
  - congruence.
  - pose proof (sum_one g r b Hb). lia.
  - pose proof (sum_one g r a Ha). lia.
  - specialize (IH Ha Hb). lia.
Qed.

Lemma one_of_sum {A} (g : A -> nat) l :
  (1 <= list_sum (map g l))%nat -> exists a, In a l /\ (1 <= g a)%nat.
Proof.
  induction l as [| x r IH]; simpl; [lia |].
  intros H. destruct (g x) as [| k] eqn:E.
  - destruct (IH H) as (a & Ha & Hg). exists a. auto.
  - exists x. split; [now left | lia].
Qed.

Lemma two_of_sum {A} (g : A -> nat) l :
  NoDup l -> (forall x, In x l -> (g x <= 1)%nat) ->
  (2 <= list_sum (map g l))%nat ->
  exists a b, In a l /\ In b l /\ a <> b /\ g a = 1%nat /\ g b = 1%nat.
Proof.
  induction l as [| x r IH]; simpl; [lia |].
  intros Hnd Hle H. inversion Hnd as [| ? ? Hx Hr]; subst.
  pose proof (Hle x (or_introl eq_refl)) as Hgx.
  destruct (g x) as [| k] eqn:E.
  - destruct (IH Hr (fun y Hy => Hle y (or_intror Hy)) H)
      as (a & b & Ha & Hb & Hne & Hga & Hgb).
    exists a, b. auto 10.
  - assert (k = 0%nat) by lia. subst k.
    destruct (one_of_sum g r ltac:(lia)) as (b & Hb & Hgb).
    pose proof (Hle b (or_intror Hb)).
    exists x, b. repeat split; auto; [congruence | lia].
Qed.

Lemma occurrences_item_lists nodes comps N v :
  Spec.occurrences (dict_values (Spec.item_lists nodes comps N)) v
  = (list_sum (map (fun c => count_occ Z.eq_dec (Spec.members nodes c) v) comps)
     + count_occ Z.eq_dec (Spec.unclustered nodes N) v)%nat.
Proof.
  unfold Spec.occurrences, Spec.item_lists, dict_values.
  rewrite !map_app, !map_map, list_sum_app. simpl. lia.
Qed.

Lemma count_occ_NoDup_1 (l : list Z) v :
  NoDup l -> In v l -> count_occ Z.eq_dec l v = 1%nat.
Proof.
  intros Hnd Hin.
  pose proof (proj1 (NoDup_count_occ Z.eq_dec l) Hnd v).
  pose proof (proj1 (count_occ_In Z.eq_dec l v) Hin). lia.
Qed.

Lemma unclustered_NoDup nodes N : NoDup (Spec.unclustered nodes N).
Proof. apply NoDup_filter, range_NoDup. Qed.

(** An item is counted twice over the per-cluster item lists exactly when
    it lies in nodes of two components. *)
Lemma occurs_twice_iff_shared nodes comps N :
  Spec.components_ok nodes comps ->
  (exists v, (2 <= Spec.occurrences
                     (dict_values (Spec.item_lists nodes comps N)) v)%nat)
  <-> Spec.shared_item nodes comps.
Proof.
  intros (Hkeys & Hnd & Hneg). split.
  - intros (v & Hv). rewrite occurrences_item_lists in Hv.
    set (g := fun c => count_occ Z.eq_dec (Spec.members nodes c) v) in *.
    assert (Hg : forall c, In c comps -> (g c <= 1)%nat).
    { intros c _. apply (proj1 (NoDup_count_occ Z.eq_dec _) (members_NoDup nodes c)). }
    assert (Hu : (count_occ Z.eq_dec (Spec.unclustered nodes N) v <= 1)%nat)
      by apply (proj1 (NoDup_count_occ Z.eq_dec _) (unclustered_NoDup nodes N)).
    assert (Hsum : (2 <= list_sum (map g comps))%nat).
    { destruct (count_occ Z.eq_dec (Spec.unclustered nodes N) v) as [| k] eqn:Eu;
        [lia |].
      assert (Hin : In v (Spec.unclustered nodes N))
        by (apply (count_occ_In Z.eq_dec); lia).
      apply unclustered_In in Hin. destruct Hin as [_ Hcov].
      destruct (one_of_sum g comps ltac:(lia)) as (c & Hc & Hgc).
      assert (Hvc : In v (Spec.members nodes c))
        by (apply (count_occ_In Z.eq_dec); unfold g in Hgc; lia).
      apply members_In, items_of_In in Hvc. destruct Hvc as (n & Hn & Hvn).
      assert (Hcov' : Spec.covered nodes v = true)
        by (apply covered_true; exists n; split; [eapply Hkeys; eauto | assumption]).
      congruence. }
    destruct (two_of_sum g comps (NoDup_map_inv _ _ Hnd) Hg Hsum)
      as (c1 & c2 & H1 & H2 & Hne & Hg1 & Hg2).
    exists c1, c2, v. repeat split; try assumption.
    + intros E. apply Hne.
      clear - Hnd H1 H2 E. induction comps as [| c r IH]; [contradiction |].
      simpl in Hnd. inversion Hnd as [| ? ? Hc Hr]; subst.
      destruct H1 as [-> | H1], H2 as [-> | H2]; auto.
      * exfalso. apply Hc. rewrite E. now apply in_map.
      * exfalso. apply Hc. rewrite <- E. now apply in_map.
    + apply members_In, (count_occ_In Z.eq_dec). unfold g in Hg1. lia.
    + apply members_In, (count_occ_In Z.eq_dec). unfold g in Hg2. lia.
  - intros (c1 & c2 & i & H1 & H2 & Hne & Hi1 & Hi2). exists i.
    rewrite occurrences_item_lists.
    set (g := fun c => count_occ Z.eq_dec (Spec.members nodes c) i).
    assert (Hc : c1 <> c2) by congruence.
    pose proof (sum_two g comps c1 c2 Hc H1 H2) as Hsum.
    unfold g in Hsum at 1 2.
    rewrite (count_occ_NoDup_1 _ _ (members_NoDup nodes c1)) in Hsum
      by now apply members_In.
    rewrite (count_occ_NoDup_1 _ _ (members_NoDup nodes c2)) in Hsum
      by now apply members_In.
    lia.
Qed.

Lemma items_dict_at fs self jm nodes N :
  Spec.loaded fs self jm nodes N ->
  Spec.labelling_ok self nodes (jm_components jm) N ->
  Spec.components_ok nodes (jm_components jm) ->
  Spec.items_in_range nodes N ->
  exists self',
    Model.items_dict fs self
    = (Ok (Spec.item_lists nodes (jm_components jm) N), self')
    /\ Model._items_dict self' = Some (Spec.item_lists nodes (jm_components jm) N).
Proof.
  intros Hloaded Hlab (Hkeys & Hnd & Hneg) Hrange.
  unfold Model.items_dict, Model.bind at 1, Model.get.
  destruct Hlab as [[Hnone Hcache] | Hsome].
  - rewrite Hnone.
    destruct (label_item_by_cluster_at fs self jm nodes N Hloaded self eq_refl
                Hcache Hkeys Hrange)
      as (self' & Hrun & _ & _ & Hitems & _).
    rewrite (final_dict _ _ _ Hnd Hneg) in Hitems.
    exists self'. rewrite (bind_run _ _ _ _ _ _ _ Hrun).
    unfold Model.cached. rewrite Hitems. split; reflexivity.
  - rewrite Hsome. exists self. split; [reflexivity | assumption].
Qed.

Lemma items_dict_cached fs s items :
  Model._items_dict s = Some items -> Model.items_dict fs s = (Ok items, s).
Proof.
  intros H. unfold Model.items_dict, Model.bind, Model.get. now rewrite H.
Qed.

Lemma overlap_loop_at fs s items vcs :
  Model._items_dict s = Some items ->
  forall acc,
    Model.for_each vcs
      (fun vc overlapping_values =>
         let '(value, count) := vc in
         if (1 <? count)%nat then
           Model.bind (Model.items_dict fs) (fun items =>
           Model.ret (dict_set overlapping_values value
                               (Model.groups_of items value)))
         else Model.ret overlapping_values)
      acc s
    = (Ok (fold_left (Spec.overlap_step items) vcs acc), s).
Proof.
  intros Hitems. induction vcs as [| [value count] r IH]; intros acc; simpl.
  - reflexivity.
  - unfold Spec.overlap_step at 2. simpl fst. simpl snd.
    destruct (1 <? count)%nat.
    + unfold Model.bind at 1.
      rewrite (bind_run _ _ _ _ _ _ _ (items_dict_cached fs s items Hitems)).
      unfold Model.ret at 1. apply IH.
    + unfold Model.bind at 1, Model.ret at 1. apply IH.
Qed.

Lemma groups_of_In items value key :
  In key (Model.groups_of items value) <->
  exists values, In (key, values) items /\ In value values.
Proof.
  unfold Model.groups_of. rewrite in_map_iff. split.
  - intros ([k values] & E & Hin). simpl in E. subst k.
    apply filter_In in Hin. destruct Hin as [Hin Hmem]. simpl in Hmem.
    apply mem_In in Hmem. eauto.
  - intros (values & Hin & Hv). exists (key, values). split; [reflexivity |].
    apply filter_In. split; [assumption |]. simpl. now apply mem_In.
Qed.

(** C8: on a loaded model whose components name nodes of the complex under
    distinct cluster ids other than -1 and whose items are rows,
    [get_items_in_multiple_groups] returns the empty mapping exactly when
    no item lies in nodes of two components; and each item it reports is
    mapped to the cluster ids, in the order of the per-cluster item lists,
    of the lists that contain it. *)
Theorem items_in_multiple_groups_spec :
  forall (fs : filesystem) (self : Model.Model_t) (jm : JMapper_t)
         (nodes : dict string (list Z)) (N : nat),
    Spec.loaded fs self jm nodes N ->
    Spec.labelling_ok self nodes (jm_components jm) N ->
    Spec.components_ok nodes (jm_components jm) ->
    Spec.items_in_range nodes N ->
    let items := Spec.item_lists nodes (jm_components jm) N in
    exists self' overlapping,
      Model.get_items_in_multiple_groups fs self = (Ok overlapping, self')
      /\ Model._items_dict self' = Some items
      /\ (overlapping = [] <-> ~ Spec.shared_item nodes (jm_components jm))
      /\ forall value groups,
          In (value, groups) overlapping ->
          groups = Model.groups_of items value
          /\ forall key, In key groups <->
                         exists values, In (key, values) items /\ In value values.
Proof.
  intros fs self jm nodes N Hloaded Hlab Hok Hrange items.
  destruct (items_dict_at fs self jm nodes N Hloaded Hlab Hok Hrange)
    as (self' & Hrun & Hitems).
  fold items in Hrun, Hitems.
  exists self', (fold_left (Spec.overlap_step items)
                           (Model.count_values (dict_values items)) []).
  destruct (count_values_spec (dict_values items)) as [Hnd Hget].
  split; [| split; [| split]].
  - unfold Model.get_items_in_multiple_groups.
    rewrite (bind_run _ _ _ _ _ _ _ Hrun).
    apply (overlap_loop_at fs self' items _ Hitems).
  - exact Hitems.
  - rewrite overlap_fold_nil.
    rewrite <- (occurs_twice_iff_shared nodes (jm_components jm) N Hok).
    fold items. split.
    + intros [_ Hle] (v & Hv).
      specialize (Hget v).
      destruct (Nat.eqb_spec (Spec.occurrences (dict_values items) v) 0);
        [lia |].
      apply dict_get_In in Hget. specialize (Hle _ Hget). simpl in Hle. lia.
    + intros Hno. split; [reflexivity |].
      intros [v k] Hin. simpl.
      pose proof (@dict_get_NoDup _ _ _ _ _ _ Hnd Hin) as Hk.
      rewrite Hget in Hk.
      destruct (Nat.eqb_spec (Spec.occurrences (dict_values items) v) 0);
        [discriminate Hk |].
      inversion Hk; subst k.
      destruct (Nat.le_gt_cases (Spec.occurrences (dict_values items) v) 1)
        as [Hle | Hgt]; [assumption |].
      exfalso. apply Hno. exists v. lia.
  - intros value groups Hin.
    assert (E : groups = Model.groups_of items value).
    { eapply overlap_fold_entries; [| exact Hin]. intros v gs []. }
    split; [exact E |]. intros key. rewrite E. apply groups_of_In.
Qed.

Lemma items_in_multiple_groups_spec_witness :
  exists self' overlapping,
    Model.get_items_in_multiple_groups Examples.fs_shared
      (Examples.fresh Examples.fs_shared)
    = (Ok overlapping, self')
    /\ (overlapping = [] <->
        ~ Spec.shared_item [("A"%string, [0]%Z); ("B"%string, [0]%Z)]
                           (jm_components Examples.jm_shared)).
Proof.
  destruct (items_in_multiple_groups_spec Examples.fs_shared
              (Examples.fresh Examples.fs_shared) Examples.jm_shared
              [("A"%string, [0]%Z); ("B"%string, [0]%Z)] 1)
    as (self' & overlapping & Hrun & _ & Hiff & _).
  - split; [reflexivity |]. split; [reflexivity |].
    eexists. split; reflexivity.
  - left. split; [reflexivity | left; reflexivity].
  - split; [| split]; simpl.
    + intros c n [<- | [<- | []]] [<- | []]; simpl; auto.
    + repeat constructor; simpl; intuition discriminate.
    + intuition discriminate.
  - intros n i [<- | [<- | []]]; simpl; intros [<- | []]; lia.
  - exists self', overlapping. split; assumption.
Defined.

(** The item shared by nodes [A] and [B] is reported with both clusters. *)
Lemma items_in_multiple_groups_shared :
  fst (Model.get_items_in_multiple_groups Examples.fs_shared
         (Examples.fresh Examples.fs_shared))
  = Ok [(0%Z, [0; 1]%Z)]
  /\ fst (Model.get_items_in_multiple_groups Examples.fs_two_clusters
            (Examples.fresh Examples.fs_two_clusters))
     = Ok [].
Proof.
  split; reflexivity.
Qed.


(** ** Node descriptions *)

Section Described.

Context {dev : Deviation}.
Variable fs : filesystem.
Variable self0 : Model.Model_t.
Variable jm : JMapper_t.
Variable nodes : dict string (list Z).
Variable N : nat.
Variables raw_df clean_df : DataFrame.
Hypothesis Hloaded : Spec.loaded fs self0 jm nodes N.
Hypothesis Hraw : snd (Tupper.raw fs (jm_tupper jm)) = Ok (PFrame raw_df).
Hypothesis Hclean : snd (Tupper.clean fs (jm_tupper jm)) = Ok (PFrame clean_df).

Variable cols : list string.
Hypothesis Hcols :
  cols = np_intersect1d (numeric_columns raw_df) (column_names clean_df).

Lemma tupper_clean_frame s :
  Model._mapper s = Model._mapper self0 ->
  Model.tupper_clean fs s = (Ok (PFrame clean_df), s).
Proof.
  intros E. unfold Model.tupper_clean, Model.tupper.
  rewrite (bind_run _ _ _ _ _ _ _
             (bind_run _ _ _ _ _ _ _ (mapper_at fs self0 jm nodes N Hloaded s E))).
  unfold Model.lift. simpl. now rewrite Hclean.
Qed.

Lemma tupper_raw_frame s :
  Model._mapper s = Model._mapper self0 ->
  Model.tupper_raw fs s = (Ok (PFrame raw_df), s).
Proof.
  intros E. unfold Model.tupper_raw, Model.tupper.
  rewrite (bind_run _ _ _ _ _ _ _
             (bind_run _ _ _ _ _ _ _ (mapper_at fs self0 jm nodes N Hloaded s E))).
  unfold Model.lift. simpl. now rewrite Hraw.
Qed.

Lemma density_columns_at s :
  Model._mapper s = Model._mapper self0 ->
  Model.density_columns fs s = (Ok cols, s).
Proof.
  intros E. unfold Model.density_columns.
  rewrite (bind_run _ _ _ _ _ _ _ (tupper_raw_frame s E)).
  unfold Model.lift at 1, Model.as_frame at 1, Model.bind at 1.
  rewrite (bind_run _ _ _ _ _ _ _ (tupper_clean_frame s E)).
  rewrite Hcols. reflexivity.
Qed.

Lemma describe_loop_at ks :
  (forall n, In n ks -> In n (dict_keys nodes)) ->
  (forall n, In n ks ->
             exists label,
               get_minimal_std clean_df (get_default nodes n []) (Some cols)
               = Ok label) ->
  forall s acc,
    Model._mapper s = Model._mapper self0 ->
    Model._node_description s = Some acc ->
    exists s',
      Model.for_each ks
        (fun node (_ : unit) =>
           Model.bind (Model.lift (getitem nodes node)) (fun mask =>
           Model.bind (Model.tupper_clean fs) (fun clean =>
           Model.bind (Model.lift (Model.as_frame clean)) (fun df =>
           Model.bind (Model.lift (get_minimal_std df mask (Some cols))) (fun label =>
           let size := List.length mask in
           Model.node_description_set node
             {| Model.label := label; Model.size := size |})))))
        tt s
      = (Ok tt, s')
      /\ Model._mapper s' = Model._mapper s
      /\ Model._node_description s'
         = Some (fold_left
                   (fun d n => dict_set d n (Spec.description_of clean_df cols nodes n))
                   ks acc).
Proof.
  induction ks as [| n r IH]; intros Hkeys Hstd s acc E Hacc; simpl.
  - exists s. repeat split; assumption.
  - destruct (Hstd n (or_introl eq_refl)) as (label & Hlabel).
    set (s1 := Model.set_node_description
                 (Some (dict_set acc n (Spec.description_of clean_df cols nodes n))) s).
    assert (Hbody :
              Model.bind (Model.lift (getitem nodes n)) (fun mask =>
              Model.bind (Model.tupper_clean fs) (fun clean =>
              Model.bind (Model.lift (Model.as_frame clean)) (fun df =>
              Model.bind (Model.lift (get_minimal_std df mask (Some cols))) (fun label =>
              let size := List.length mask in
              Model.node_description_set n
                {| Model.label := label; Model.size := size |})))) s
              = (Ok tt, s1)).
    { unfold Model.bind at 1, Model.lift at 1.
      rewrite (getitem_key nodes n (Hkeys n (or_introl eq_refl))).
      rewrite (bind_run _ _ _ _ _ _ _ (tupper_clean_frame s E)).
      unfold Model.lift at 1, Model.as_frame at 1, Model.bind at 1.
      unfold Model.lift at 1. rewrite Hlabel. unfold Model.bind at 1.
      unfold Model.node_description_set, Model.bind, Model.cached.
      rewrite Hacc. unfold Model.modify, s1, Spec.description_of.
      now rewrite Hlabel. }
    rewrite (bind_run _ _ _ _ _ _ _ Hbody).
    destruct (IH (fun n' H => Hkeys n' (or_intror H))
                 (fun n' H => Hstd n' (or_intror H))
                 s1 _ E eq_refl)
      as (s' & Hrun & Em & Hnd).
    exists s'. repeat split; assumption.
Qed.

(** On a loaded model, [compute_node_descriptions] gives every node the
    column [get_minimal_std] selects among the eligible columns on the
    rows of the node, and the number of its items. *)
Lemma node_descriptions_by_minimal_std s :
  Model._mapper s = Model._mapper self0 ->
  NoDup (dict_keys nodes) ->
  (forall n, In n (dict_keys nodes) ->
             exists label,
               get_minimal_std clean_df (get_default nodes n []) (Some cols)
               = Ok label) ->
  exists s',
    Model.compute_node_descriptions fs s = (Ok tt, s')
    /\ Model._node_description s'
       = Some (map (fun n => (n, Spec.description_of clean_df cols nodes n))
                   (dict_keys nodes)).
Proof.
  intros E Hnd Hstd. unfold Model.compute_node_descriptions.
  rewrite (bind_run _ _ _ _ _ _ _ (complex_at fs self0 jm nodes N Hloaded s E)).
  unfold Model.lift at 1.
  rewrite (node_table_at fs self0 jm nodes N Hloaded). unfold Model.bind at 1.
  rewrite (bind_run _ _ _ _ _ _ _ (density_columns_at s E)).
  unfold Model.bind at 1, Model.modify at 1.
  destruct (describe_loop_at (dict_keys nodes) (fun n H => H) Hstd
              (Model.set_node_description (Some []) s) [] E eq_refl)
    as (s' & Hrun & _ & Hdesc).
  exists s'. split; [exact Hrun |]. rewrite Hdesc.
  assert (H : forall ks (acc : dict string Model.node_desc),
             NoDup (dict_keys acc ++ ks) ->
             fold_left
               (fun d n => dict_set d n (Spec.description_of clean_df cols nodes n))
               ks acc
             = acc ++ map (fun n => (n, Spec.description_of clean_df cols nodes n)) ks).
  { induction ks as [| k r IH]; intros acc Hn; simpl.
    - now rewrite app_nil_r.
    - rewrite dict_set_absent.
      + rewrite IH.
        * now rewrite <- app_assoc.
        * unfold dict_keys. rewrite map_app. simpl. now rewrite <- app_assoc.
      + apply NoDup_remove_2 in Hn. intros Hin. apply Hn.
        apply in_or_app. now left. }
  now rewrite (H (dict_keys nodes) [] Hnd).
Qed.

End Described.

(** ** Items labelled by node *)

Lemma label_items_loop nodes l :
  forall (labels : dict Z Model.node_label) (unclustered : list Z),
    NoDup (dict_keys labels ++ l) ->
    fold_left
      (fun acc idx =>
         let '(labels, unclustered_items) := acc in
         match Model.containing_nodes nodes idx with
         | [] => (dict_set labels idx Model.NoNode, unclustered_items ++ [idx])
         | place_holder =>
             (dict_set labels idx (Model.InNodes place_holder), unclustered_items)
         end)
      l (labels, unclustered)
    = (labels ++ map (fun idx => (idx, Spec.label_of nodes idx)) l,
       unclustered ++ filter (fun i => negb (Spec.covered nodes i)) l).
Proof.
  induction l as [| idx r IH]; intros labels unclustered Hnd; simpl.
  - now rewrite !app_nil_r.
  - assert (Hfresh : ~ In idx (dict_keys labels)).
    { intros Hin. apply NoDup_remove_2 in Hnd. apply Hnd.
      apply in_or_app. now left. }
    assert (Hnd' : forall v : Model.node_label,
               NoDup (dict_keys (labels ++ [(idx, v)]) ++ r)).
    { intros v. unfold dict_keys in *. rewrite map_app. simpl.
      rewrite <- app_assoc. exact Hnd. }
    assert (Hl : Spec.label_of nodes idx
                 = match Model.containing_nodes nodes idx with
                   | [] => Model.NoNode
                   | ids => Model.InNodes ids
                   end).
    { unfold Spec.label_of, Spec.nodes_with.
      now rewrite <- containing_nodes_filter. }
    pose proof (containing_nodes_nil nodes idx) as Hnil.
    rewrite Hl.
    destruct (Model.containing_nodes nodes idx) as [| n ns] eqn:Ec.
    + rewrite (proj1 Hnil eq_refl). simpl negb. cbv iota.
      rewrite (dict_set_absent _ _ _ Hfresh).
      rewrite (IH _ _ (Hnd' _)).
      now rewrite <- !app_assoc.
    + destruct (Spec.covered nodes idx) eqn:Ecov.
      2:{ discriminate (proj2 Hnil eq_refl). }
      simpl negb. cbv iota.
      rewrite (dict_set_absent _ _ _ Hfresh).
      rewrite (IH _ _ (Hnd' _)).
      now rewrite <- !app_assoc.
Qed.

Lemma label_items_closed nodes N :
  Model.label_items nodes N
  = (map (fun idx => (idx, Spec.label_of nodes idx)) (range N),
     Spec.unclustered nodes N).
Proof.
  unfold Model.label_items. rewrite label_items_loop.
  - reflexivity.
  - simpl. apply range_NoDup.
Qed.

Lemma dict_get_tabulate {V} (f : Z -> V) (l : list Z) (i : Z) :
  dict_get (map (fun k => (k, f k)) l) i = if mem i l then Some (f i) else None.
Proof.
  induction l as [| k r IH]; simpl; [reflexivity |].
  rewrite Z.eqb_sym.
  destruct (Z.eqb_spec i k) as [-> | Hne]; simpl; [reflexivity | exact IH].
Qed.

Lemma nodes_with_In nodes idx n :
  In n (Spec.nodes_with nodes idx)
  <-> In n (dict_keys nodes) /\ In idx (get_default nodes n []).
Proof.
  unfold Spec.nodes_with. rewrite filter_In.
  split; intros [H1 H2]; (split; [exact H1 |]).
  - exact (proj1 (mem_In _ _) H2).
  - exact (proj2 (mem_In _ _) H2).
Qed.

Ltac loaded_example :=
  split; [reflexivity |]; split; [reflexivity |];
  eexists; split; reflexivity.

(** X1: [label_item_by_node] on a loaded model labels the items
    [0 .. N-1], each once and in this order, and no other.  An item gets
    the ids of the nodes that contain it, in the order of the node table,
    or -1 when no node contains it; the unclustered items it stores are the
    items labelled -1, in increasing order. *)
Theorem label_item_by_node_labels :
  forall (fs : filesystem) (self : Model.Model_t) (jm : JMapper_t)
         (nodes : dict string (list Z)) (N : nat),
    Spec.loaded fs self jm nodes N ->
    exists labels unclustered self',
      Model.label_item_by_node fs self = (Ok labels, self')
      /\ Model._node_ids self' = Some labels
      /\ Model._unclustered_items self' = Some unclustered
      /\ dict_keys labels = range N
      /\ (forall idx,
             dict_get labels idx
             = if ((0 <=? idx) && (idx <? Z.of_nat N))%Z
               then Some (Spec.label_of nodes idx) else None)
      /\ (forall idx ids,
             dict_get labels idx = Some (Model.InNodes ids) ->
             ids <> []
             /\ ids = Spec.nodes_with nodes idx
             /\ forall n, In n ids <->
                          In n (dict_keys nodes)
                          /\ In idx (get_default nodes n []))
      /\ unclustered
         = filter (fun idx => negb (Spec.covered nodes idx)) (range N)
      /\ (forall idx, In idx unclustered
                      <-> dict_get labels idx = Some Model.NoNode).
Proof.
  intros fs self jm nodes N Hloaded.
  pose proof (label_item_by_node_at fs self jm nodes N Hloaded self eq_refl)
    as Hrun.
  rewrite label_items_closed in Hrun. simpl fst in Hrun.
  set (labels := map (fun idx => (idx, Spec.label_of nodes idx)) (range N)) in *.
  assert (Hget : forall idx,
             dict_get labels idx
             = if ((0 <=? idx) && (idx <? Z.of_nat N))%Z
               then Some (Spec.label_of nodes idx) else None).
  { intros idx. unfold labels. rewrite dict_get_tabulate.
    destruct (mem idx (range N)) eqn:Em.
    - apply mem_In, range_In in Em. destruct Em as [H0 Hn].
      apply Z.leb_le in H0. apply Z.ltb_lt in Hn. now rewrite H0, Hn.
    - apply mem_false in Em. rewrite range_In in Em.
      destruct (0 <=? idx)%Z eqn:H0; [| reflexivity].
      destruct (idx <? Z.of_nat N)%Z eqn:Hn; [| reflexivity].
      apply Z.leb_le in H0. apply Z.ltb_lt in Hn. exfalso. apply Em. lia. }
  exists labels, (Spec.unclustered nodes N). eexists.
  split; [exact Hrun |].
  split; [reflexivity |]. split; [reflexivity |].
  split.
  { unfold labels, dict_keys. rewrite map_map. simpl. apply map_id. }
  split; [exact Hget |].
  split.
  { intros idx ids H. rewrite Hget in H.
    destruct ((0 <=? idx) && (idx <? Z.of_nat N))%Z; [| discriminate H].
    unfold Spec.label_of in H.
    destruct (Spec.nodes_with nodes idx) as [| n ns] eqn:Ew; [discriminate H |].
    injection H as <-.
    split; [discriminate |]. split; [reflexivity |].
    intros n'. rewrite <- Ew. apply nodes_with_In. }
  split; [reflexivity |].
  intros idx. rewrite unclustered_In, Hget. split.
  - intros [[H0 Hn] Hcov].
    apply Z.leb_le in H0. apply Z.ltb_lt in Hn. rewrite H0, Hn. simpl.
    unfold Spec.label_of, Spec.nodes_with.
    rewrite <- containing_nodes_filter.
    now rewrite (proj2 (containing_nodes_nil nodes idx) Hcov).
  - intros H.
    destruct (0 <=? idx)%Z eqn:H0; [| discriminate H].
    destruct (idx <? Z.of_nat N)%Z eqn:Hn; [| discriminate H].
    apply Z.leb_le in H0. apply Z.ltb_lt in Hn. split; [lia |].
    simpl in H. unfold Spec.label_of, Spec.nodes_with in H.
    rewrite <- containing_nodes_filter in H.
    apply containing_nodes_nil.
    destruct (Model.containing_nodes nodes idx); [reflexivity | discriminate H].
Qed.

Lemma label_item_by_node_labels_witness :
  exists labels unclustered self',
    Model.label_item_by_node Examples.fs_outlier
      (Examples.fresh Examples.fs_outlier)
    = (Ok labels, self')
    /\ Model._node_ids self' = Some labels
    /\ Model._unclustered_items self' = Some unclustered
    /\ dict_keys labels = range 5
    /\ unclustered
       = filter (fun idx =>
                   negb (Spec.covered
                           [("n0"%string, [0; 1]%Z); ("n1"%string, [2; 3]%Z)] idx))
                (range 5).
Proof.
  destruct (label_item_by_node_labels Examples.fs_outlier
              (Examples.fresh Examples.fs_outlier) Examples.jm_two_clusters
              [("n0"%string, [0; 1]%Z); ("n1"%string, [2; 3]%Z)] 5)
    as (labels & unclustered & self' & H1 & H2 & H3 & H4 & _ & _ & H7 & _).
  - loaded_example.
  - exists labels, unclustered, self'. repeat apply conj; assumption.
Defined.

(** ** A clean table that cannot be read *)

Lemma clean_unreadable_none fs t :
  Spec.clean_unreadable fs t ->
  exists e, Tupper.clean fs t = ([PrintDiag Tupper.clean_diag e], Ok PNone).
Proof.
  intros [Ht (e & He)]. exists e.
  unfold Tupper.clean, Tupper.assert_path. rewrite Ht, He. reflexivity.
Qed.

Lemma tupper_clean_unreadable fs self jm :
  fst (Model.mapper fs self) = Ok (PMapper jm) ->
  Spec.clean_unreadable fs (jm_tupper jm) ->
  forall s, Model._mapper s = Model._mapper self ->
            Model.tupper_clean fs s = (Ok PNone, s).
Proof.
  intros Hm Hu s E.
  assert (Hs : Model.mapper fs s = (Ok (PMapper jm), s)).
  { apply mapper_run. now rewrite (mapper_same_path fs _ _ E). }
  destruct (clean_unreadable_none _ _ Hu) as (e & He).
  unfold Model.tupper_clean, Model.tupper.
  rewrite (bind_run _ _ _ _ _ _ _ (bind_run _ _ _ _ _ _ _ Hs)).
  unfold Model.lift. simpl. now rewrite He.
Qed.

(** X2: when the clean artifact of the container cannot be read (it was
    removed, is no pickle, or lacks [clean_data]), the container prints
    and hands back [None], so labelling the items by node fails on
    [len(None)] with a [TypeError] in place of the error of the file, and
    changes no attribute of the model. *)
Theorem unreadable_clean_data_is_a_type_error :
  forall (fs : filesystem) (self : Model.Model_t) (jm : JMapper_t),
    fst (Model.mapper fs self) = Ok (PMapper jm) ->
    Spec.clean_unreadable fs (jm_tupper jm) ->
    Model.label_item_by_node fs self = (Raise TypeError, self)
    /\ (Model._node_ids self = None ->
        Model.node_ids fs self = (Raise TypeError, self))
    /\ (Model._unclustered_items self = None ->
        Model.unclustered_items fs self = (Raise TypeError, self)).
Proof.
  intros fs self jm Hm Hu.
  assert (Hrun : Model.label_item_by_node fs self = (Raise TypeError, self)).
  { unfold Model.label_item_by_node.
    rewrite (bind_run _ _ _ _ _ _ _
               (tupper_clean_unreadable fs self jm Hm Hu self eq_refl)).
    reflexivity. }
  split; [exact Hrun |]. split; intros Hnone.
  - unfold Model.node_ids, Model.bind at 1, Model.get. rewrite Hnone.
    unfold Model.bind. now rewrite Hrun.
  - unfold Model.unclustered_items, Model.bind at 1, Model.get. rewrite Hnone.
    unfold Model.bind. now rewrite Hrun.
Qed.

Lemma unreadable_clean_data_is_a_type_error_witness :
  Model.label_item_by_node Examples.fs_clean_lost
    (Examples.fresh Examples.fs_clean_lost)
  = (Raise TypeError, Examples.fresh Examples.fs_clean_lost).
Proof.
  refine (proj1 (unreadable_clean_data_is_a_type_error Examples.fs_clean_lost
                   (Examples.fresh Examples.fs_clean_lost)
                   Examples.jm_two_clusters _ _)).
  - reflexivity.
  - split; [reflexivity |]. eexists. reflexivity.
Defined.

(** X3: a [label_item_by_cluster] that fails on the unreadable clean
    table has already emptied the caches of the cluster sizes and of the
    item lists, and the failure leaves them so: from then on the
    properties [cluster_sizes] and [items_dict] answer with the empty
    dictionary instead of labelling again, whatever the files hold by
    then, and [get_items_in_multiple_groups] reports nothing. *)
Theorem failed_labelling_leaves_empty_caches :
  forall (fs : filesystem) (self : Model.Model_t) (jm : JMapper_t),
    fst (Model.mapper fs self) = Ok (PMapper jm) ->
    jm_complex jm <> [] ->
    Spec.clean_unreadable fs (jm_tupper jm) ->
    exists self',
      Model.label_item_by_cluster fs self = (Raise TypeError, self')
      /\ Model._cluster_sizes self' = Some []
      /\ Model._items_dict self' = Some []
      /\ Model._cluster_ids self' = Model._cluster_ids self
      /\ forall fs' : filesystem,
          Model.cluster_sizes fs' self' = (Ok [], self')
          /\ Model.items_dict fs' self' = (Ok [], self')
          /\ Model.get_items_in_multiple_groups fs' self' = (Ok [], self').
Proof.
  intros fs self jm Hm Hne Hu.
  exists (Model.set_items_dict (Some []) (Model.set_cluster_sizes (Some []) self)).
  split.
  - unfold Model.label_item_by_cluster.
    rewrite (bind_run _ _ _ _ _ _ _ (@complex_run fs self jm Hm)).
    destruct (jm_complex jm) as [| entry cx]; [congruence |].
    simpl List.length. change (0 <? S (List.length cx))%nat with true.
    unfold Model.assert. cbv iota.
    rewrite (bind_run _ _ (Model.ret tt) _ self tt self eq_refl).
    rewrite (bind_run _ _ (Model.modify (Model.set_cluster_sizes (Some []))) _
               self tt (Model.set_cluster_sizes (Some []) self) eq_refl).
    rewrite (bind_run _ _ (Model.modify (Model.set_items_dict (Some []))) _
               _ tt (Model.set_items_dict (Some [])
                       (Model.set_cluster_sizes (Some []) self)) eq_refl).
    rewrite (bind_run _ _ _ _ _ _ _
               (tupper_clean_unreadable fs self jm Hm Hu
                  (Model.set_items_dict (Some [])
                     (Model.set_cluster_sizes (Some []) self))
                  eq_refl)).
    reflexivity.
  - split; [reflexivity |]. split; [reflexivity |]. split; [reflexivity |].
    intros fs'. repeat apply conj; reflexivity.
Qed.

Lemma failed_labelling_leaves_empty_caches_witness :
  exists self',
    Model.label_item_by_cluster Examples.fs_clean_lost
      (Examples.fresh Examples.fs_clean_lost)
    = (Raise TypeError, self')
    /\ Model._cluster_sizes self' = Some []
    /\ Model._items_dict self' = Some []
    /\ Model._cluster_ids self'
       = Model._cluster_ids (Examples.fresh Examples.fs_clean_lost)
    /\ forall fs' : filesystem,
        Model.cluster_sizes fs' self' = (Ok [], self')
        /\ Model.items_dict fs' self' = (Ok [], self')
        /\ Model.get_items_in_multiple_groups fs' self' = (Ok [], self').
Proof.
  apply (failed_labelling_leaves_empty_caches Examples.fs_clean_lost
           (Examples.fresh Examples.fs_clean_lost) Examples.jm_two_clusters).
  - reflexivity.
  - discriminate.
  - split; [reflexivity |]. eexists. reflexivity.
Defined.

(** ** Cluster ids of the items *)

Lemma norm_pos_none n i : norm_pos n i = None <-> Spec.out_of_bounds n i.
Proof.
  unfold norm_pos, Spec.out_of_bounds.
  destruct (0 <=? i)%Z eqn:H0; destruct (i <? Z.of_nat n)%Z eqn:Hn; simpl;
    destruct (- Z.of_nat n <=? i)%Z eqn:Hm; destruct (i <? 0)%Z eqn:Hz; simpl;
    try apply Z.leb_le in H0; try apply Z.leb_gt in H0;
    try apply Z.ltb_lt in Hn; try apply Z.ltb_ge in Hn;
    try apply Z.leb_le in Hm; try apply Z.leb_gt in Hm;
    try apply Z.ltb_lt in Hz; try apply Z.ltb_ge in Hz;
    split; intros H; try discriminate H; try reflexivity; lia.
Qed.

Lemma positions_cases n idxs :
  (exists ps, positions n idxs = Ok ps
              /\ forall i, In i idxs -> ~ Spec.out_of_bounds n i)
  \/ (positions n idxs = Raise IndexError
      /\ exists i, In i idxs /\ Spec.out_of_bounds n i).
Proof.
  induction idxs as [| i r IH]; simpl.
  - left. exists []. split; [reflexivity | intros i []].
  - destruct (norm_pos n i) as [p |] eqn:Ep.
    + assert (Hi : ~ Spec.out_of_bounds n i).
      { intros H. apply norm_pos_none in H. congruence. }
      destruct IH as [(ps & -> & Hall) | (-> & j & Hj & Hout)].
      * left. exists (p :: ps). split; [reflexivity |].
        intros j [<- | Hj]; auto.
      * right. split; [reflexivity |]. exists j. split; [now right | exact Hout].
    + right. split; [reflexivity |]. exists i. split; [now left |].
      now apply norm_pos_none.
Qed.

Lemma nth_list_set (l : list Z) p v i d :
  nth i (Model.list_set l p v) d
  = if (Nat.eqb i p && (p <? List.length l)%nat)%bool then v else nth i l d.
Proof.
  revert p i. induction l as [| x r IH]; intros p i; simpl.
  - rewrite andb_false_r. destruct p; reflexivity.
  - destruct p as [| p']; simpl.
    + destruct i; reflexivity.
    + destruct i as [| i']; simpl; [reflexivity |].
      rewrite IH. reflexivity.
Qed.

Lemma nth_put (ps : list nat) v i d :
  forall labels : list Z,
    (forall p, In p ps -> (p < List.length labels)%nat) ->
    nth i (fold_left (fun ls p => Model.list_set ls p v) ps labels) d
    = if existsb (Nat.eqb i) ps then v else nth i labels d.
Proof.
  induction ps as [| p r IH]; intros labels Hlt; simpl; [reflexivity |].
  rewrite IH.
  - rewrite nth_list_set.
    assert (Hp : (p <? List.length labels)%nat = true)
      by (apply Nat.ltb_lt, Hlt; now left).
    rewrite Hp, andb_true_r.
    destruct (Nat.eqb i p); simpl; [| reflexivity].
    now destruct (existsb (Nat.eqb i) r).
  - intros p' Hp'. rewrite list_set_length. apply Hlt. now right.
Qed.

Lemma existsb_to_nat (i : Z) (idxs : list Z) :
  (0 <= i)%Z -> (forall j, In j idxs -> (0 <= j)%Z) ->
  existsb (Nat.eqb (Z.to_nat i)) (map Z.to_nat idxs) = mem i idxs.
Proof.
  intros Hi Hall. induction idxs as [| j r IH]; simpl; [reflexivity |].
  rewrite IH by (intros j' H; apply Hall; now right).
  f_equal.
  pose proof (Hall j (or_introl eq_refl)) as Hj.
  destruct (Z.eqb_spec i j) as [-> | Hne].
  - apply Nat.eqb_refl.
  - apply Nat.eqb_neq. intros H. apply Hne. lia.
Qed.

(** [labels[indices] = v] with indices that are rows: the cells at the
    indices hold [v], the others are as before. *)
Lemma np_put_rows (labels : list Z) (indices : list Z) (v : Z) :
  (forall i, In i indices -> (0 <= i < Z.of_nat (List.length labels))%Z) ->
  exists labels',
    Model.np_put labels indices v = Ok labels'
    /\ List.length labels' = List.length labels
    /\ forall i d, (0 <= i)%Z ->
                   nth (Z.to_nat i) labels' d
                   = if mem i indices then v else nth (Z.to_nat i) labels d.
Proof.
  intros Hr. unfold Model.np_put. rewrite (positions_in_range _ _ Hr). simpl.
  eexists. split; [reflexivity |]. split.
  - destruct (np_put_in_range labels indices v Hr) as (l' & Hl' & Hlen).
    unfold Model.np_put in Hl'. rewrite (positions_in_range _ _ Hr) in Hl'.
    simpl in Hl'. injection Hl' as <-. exact Hlen.
  - intros i d Hi. rewrite nth_put.
    + rewrite existsb_to_nat; [reflexivity | exact Hi |].
      intros j Hj. apply Hr in Hj. lia.
    + intros p Hp. apply in_map_iff in Hp. destruct Hp as (j & <- & Hj).
      apply Hr in Hj. lia.
Qed.

Lemma put_length (ps : list nat) (v : Z) :
  forall labels : list Z,
    List.length (fold_left (fun ls p => Model.list_set ls p v) ps labels)
    = List.length labels.
Proof.
  induction ps as [| p r IH]; intros labels; simpl; [reflexivity |].
  rewrite IH. apply list_set_length.
Qed.

Lemma np_put_length labels indices v labels' :
  Model.np_put labels indices v = Ok labels' ->
  List.length labels' = List.length labels.
Proof.
  unfold Model.np_put. destruct (positions (List.length labels) indices); simpl.
  - intros H. injection H as <-. apply put_length.
  - discriminate.
Qed.

Section Labelled.

Variable fs : filesystem.
Variable self0 : Model.Model_t.
Variable jm : JMapper_t.
Variable nodes : dict string (list Z).
Variable N : nat.
Hypothesis Hloaded : Spec.loaded fs self0 jm nodes N.

(** One turn of the component loop of [label_item_by_cluster]: the item
    list of the cluster is stored first, then the labels are written, then
    the size is stored. *)
Lemma label_component_run s c labels idict sdict :
  Model._mapper s = Model._mapper self0 ->
  Model._items_dict s = Some idict ->
  Model._cluster_sizes s = Some sdict ->
  (forall n, In n (fst c) -> In n (dict_keys nodes)) ->
  Model.label_component fs c labels s
  = match Model.np_put labels (Spec.members nodes c) (snd c) with
    | Ok labels' =>
        (Ok labels',
         Model.set_cluster_sizes
           (Some (dict_set sdict (snd c) (List.length (Spec.members nodes c))))
           (Model.set_items_dict
              (Some (dict_set idict (snd c) (Spec.members nodes c))) s))
    | Raise e =>
        (Raise e,
         Model.set_items_dict
           (Some (dict_set idict (snd c) (Spec.members nodes c))) s)
    end.
Proof.
  intros E Hitems Hsizes Hkeys.
  destruct c as [ns cluster_id]. simpl fst in *. simpl snd in *.
  unfold Model.label_component.
  rewrite (bind_run _ _ _ _ _ _ _
             (collect_elements_at fs self0 jm nodes N Hloaded s ns E Hkeys [])).
  simpl app.
  change (to_set (List.concat (map (fun n => get_default nodes n []) ns)))
    with (Spec.members nodes (ns, cluster_id)).
  unfold Model.items_dict_set, Model.cluster_sizes_set.
  unfold Model.bind at 1. unfold Model.bind at 1. unfold Model.cached at 1.
  rewrite Hitems. unfold Model.modify at 1.
  unfold Model.bind at 1. unfold Model.lift at 1.
  destruct (Model.np_put labels (Spec.members nodes (ns, cluster_id)) cluster_id)
    as [labels' | e]; [| reflexivity].
  unfold Model.bind at 1. unfold Model.bind at 1. unfold Model.cached at 1.
  simpl Model._cluster_sizes. rewrite Hsizes. unfold Model.modify at 1.
  unfold Model.ret. reflexivity.
Qed.

Lemma members_bounds c :
  (exists i, In i (Spec.members nodes c) /\ Spec.out_of_bounds N i)
  <-> exists i, In i (Spec.items_of nodes c) /\ Spec.out_of_bounds N i.
Proof.
  split; intros (i & Hi & Hout); exists i; (split; [| exact Hout]).
  - now apply (members_In nodes).
  - now apply (members_In nodes).
Qed.

(** The component loop when some component has an item that is no
    position of the label array. *)
Lemma component_loop_bounds cs :
  (forall c n, In c cs -> In n (fst c) -> In n (dict_keys nodes)) ->
  (exists c i, In c cs /\ In i (Spec.items_of nodes c)
               /\ Spec.out_of_bounds N i) ->
  forall s labels idict sdict,
    Model._mapper s = Model._mapper self0 ->
    Model._items_dict s = Some idict ->
    Model._cluster_sizes s = Some sdict ->
    List.length labels = N ->
    exists s',
      Model.for_each cs (Model.label_component fs) labels s
      = (Raise IndexError, s')
      /\ Model._cluster_ids s' = Model._cluster_ids s.
Proof.
  induction cs as [| c r IH];
    intros Hkeys (c0 & i0 & Hc0 & Hi0 & Hout) s labels idict sdict
           E Hitems Hsizes Hlen.
  - destruct Hc0.
  - simpl. unfold Model.bind at 1.
    rewrite (label_component_run s c labels idict sdict E Hitems Hsizes
               (fun n H => Hkeys c n (or_introl eq_refl) H)).
    unfold Model.np_put.
    destruct (positions_cases (List.length labels) (Spec.members nodes c))
      as [(ps & Hps & Hall) | (Hps & _)]; rewrite Hps; simpl.
    + destruct Hc0 as [-> | Hc0].
      * exfalso. apply (Hall i0).
        -- now apply (members_In nodes).
        -- now rewrite Hlen.
      * match goal with
        | |- context [Model.for_each r _ ?l ?st] =>
            destruct (IH (fun c' n H => Hkeys c' n (or_intror H))
                         (ex_intro _ c0 (ex_intro _ i0 (conj Hc0 (conj Hi0 Hout))))
                         st l _ _ E eq_refl eq_refl)
              as (s' & Hrun & Hids)
        end.
        { now rewrite put_length. }
        exists s'. split; [exact Hrun | exact Hids].
    + eexists. split; reflexivity.
Qed.

(** The component loop on items that are rows: each turn overwrites the
    labels of the members of the component with its cluster id. *)
Lemma component_loop_labels cs :
  (forall c n, In c cs -> In n (fst c) -> In n (dict_keys nodes)) ->
  Spec.items_in_range nodes N ->
  forall s labels idict sdict,
    Model._mapper s = Model._mapper self0 ->
    Model._items_dict s = Some idict ->
    Model._cluster_sizes s = Some sdict ->
    List.length labels = N ->
    exists labels' s',
      Model.for_each cs (Model.label_component fs) labels s = (Ok labels', s')
      /\ List.length labels' = N
      /\ (forall i d,
             (0 <= i)%Z ->
             nth (Z.to_nat i) labels' d
             = fold_left
                 (fun acc c => if mem i (Spec.members nodes c) then snd c else acc)
                 cs (nth (Z.to_nat i) labels d))
      /\ Model._mapper s' = Model._mapper s
      /\ Model._unclustered_items s' = Model._unclustered_items s
      /\ Model._items_dict s'
         = Some (fold_left (fun d c => dict_set d (snd c) (Spec.members nodes c))
                           cs idict)
      /\ Model._cluster_sizes s'
         = Some (fold_left
                   (fun d c => dict_set d (snd c) (List.length (Spec.members nodes c)))
                   cs sdict).
Proof.
  intros Hkeys Hrange. induction cs as [| c r IH];
    intros s labels idict sdict E Hitems Hsizes Hlen; simpl.
  - exists labels, s. repeat apply conj; try assumption; reflexivity.
  - destruct (np_put_rows labels (Spec.members nodes c) (snd c))
      as (labels1 & Hput & Hlen1 & Hnth1).
    { intros i Hi. rewrite Hlen. apply (members_In nodes), (items_of_In nodes) in Hi.
      destruct Hi as (n & Hn & Hi).
      apply (Hrange n i); [| exact Hi].
      apply (Hkeys c n); [now left | exact Hn]. }
    unfold Model.bind at 1.
    rewrite (label_component_run s c labels idict sdict E Hitems Hsizes
               (fun n H => Hkeys c n (or_introl eq_refl) H)).
    rewrite Hput.
    match goal with
    | |- context [Model.for_each r _ labels1 ?st] =>
        destruct (IH (fun c' n H => Hkeys c' n (or_intror H)) st labels1 _ _
                     E eq_refl eq_refl (eq_trans Hlen1 Hlen))
          as (labels' & s' & Hrun & Hlen' & Hnth' & Em & Eu & Ei & Es)
    end.
    exists labels', s'. repeat apply conj; try assumption.
    intros i d Hi. rewrite (Hnth' i d Hi), (Hnth1 i d Hi). reflexivity.
Qed.

(** [label_item_by_cluster] up to its component loop. *)
Lemma label_item_by_cluster_loop s :
  Model._mapper s = Model._mapper self0 ->
  Model.label_item_by_cluster fs s
  = Model.bind
      (Model.for_each (jm_components jm) (Model.label_component fs)
                      (repeat (-1)%Z N))
      (fun labels =>
         Model.bind (Model.modify (Model.set_cluster_ids (Some labels))) (fun _ =>
         Model.bind (Model.unclustered_items fs) (fun unclustered =>
         Model.bind (Model.cluster_sizes_set (-1)%Z (List.length unclustered))
                    (fun _ =>
         Model.bind (Model.unclustered_items fs) (fun unclustered =>
         Model.items_dict_set (-1)%Z unclustered)))))
      (Model.set_items_dict (Some []) (Model.set_cluster_sizes (Some []) s)).
Proof.
  intros E. unfold Model.label_item_by_cluster.
  rewrite (bind_run _ _ _ _ _ _ _ (complex_at fs self0 jm nodes N Hloaded _ E)).
  pose proof (complex_not_empty fs self0 jm nodes N Hloaded) as Hne.
  destruct (jm_complex jm) as [| entry cx] eqn:Ecx; [congruence |].
  simpl List.length. change (0 <? S (List.length cx))%nat with true.
  unfold Model.assert. cbv iota.
  rewrite (bind_run _ _ (Model.ret tt) _ s tt s eq_refl).
  rewrite (bind_run _ _ (Model.modify (Model.set_cluster_sizes (Some []))) _
             s tt (Model.set_cluster_sizes (Some []) s) eq_refl).
  set (s1 := Model.set_items_dict (Some []) (Model.set_cluster_sizes (Some []) s)).
  rewrite (bind_run _ _ (Model.modify (Model.set_items_dict (Some []))) _
             _ tt s1 eq_refl).
  assert (E1 : Model._mapper s1 = Model._mapper self0) by exact E.
  destruct (tupper_clean_at fs self0 jm nodes N Hloaded s1 E1)
    as (clean & Hclean & Hlen).
  rewrite (bind_run _ _ _ _ _ _ _ Hclean).
  unfold Model.lift at 1. rewrite Hlen. unfold Model.bind at 1.
  rewrite (bind_run _ _ _ _ _ _ _ (mapper_at fs self0 jm nodes N Hloaded s1 E1)).
  unfold Model.lift at 1. simpl Model.attr_components. unfold Model.bind at 1.
  reflexivity.
Qed.

(** [label_item_by_cluster] on a loaded model whose components name nodes
    of the complex and whose items are rows, with the labels it leaves. *)
Lemma label_item_by_cluster_labels s :
  Model._mapper s = Model._mapper self0 ->
  Spec.unclustered_cache_ok s nodes N ->
  (forall c n, In c (jm_components jm) -> In n (fst c) -> In n (dict_keys nodes)) ->
  Spec.items_in_range nodes N ->
  exists labels s',
    Model.label_item_by_cluster fs s = (Ok tt, s')
    /\ Model._cluster_ids s' = Some labels
    /\ List.length labels = N
    /\ (forall i, (0 <= i)%Z ->
                  nth (Z.to_nat i) labels (-1)%Z
                  = Spec.cluster_of nodes (jm_components jm) i)
    /\ Model._unclustered_items s' = Some (Spec.unclustered nodes N)
    /\ Model._items_dict s'
       = Some (dict_set
                 (fold_left (fun d c => dict_set d (snd c) (Spec.members nodes c))
                            (jm_components jm) [])
                 (-1)%Z (Spec.unclustered nodes N))
    /\ Model._cluster_sizes s'
       = Some (dict_set
                 (fold_left
                    (fun d c => dict_set d (snd c) (List.length (Spec.members nodes c)))
                    (jm_components jm) [])
                 (-1)%Z (List.length (Spec.unclustered nodes N))).
Proof.
  intros E Hcache Hkeys Hrange.
  rewrite (label_item_by_cluster_loop s E).
  set (s1 := Model.set_items_dict (Some []) (Model.set_cluster_sizes (Some []) s)).
  assert (E1 : Model._mapper s1 = Model._mapper self0) by exact E.
  destruct (component_loop_labels (jm_components jm) Hkeys Hrange s1
              (repeat (-1)%Z N) [] [] E1 eq_refl eq_refl (repeat_length _ _))
    as (labels & s2 & Hloop & Hlabels & Hnth & Em2 & Eu2 & Ei2 & Es2).
  rewrite (bind_run _ _ _ _ _ _ _ Hloop).
  unfold Model.bind at 1, Model.modify at 1.
  set (s3 := Model.set_cluster_ids (Some labels) s2).
  assert (E3 : Model._mapper s3 = Model._mapper self0)
    by (simpl; congruence).
  assert (Hcache3 : Spec.unclustered_cache_ok s3 nodes N).
  { unfold Spec.unclustered_cache_ok in *. simpl. rewrite Eu2. exact Hcache. }
  destruct (unclustered_items_at fs self0 jm nodes N Hloaded s3 E3 Hcache3)
    as (s4 & Hu & Em4 & Eu4 & Es4 & Ei4).
  assert (Eids4 : Model._cluster_ids s4 = Some labels).
  { destruct Hcache3 as [Hnone | Hsome].
    - unfold Model.unclustered_items, Model.bind at 1, Model.get in Hu.
      rewrite Hnone in Hu.
      rewrite (bind_run _ _ _ _ _ _ _
                 (label_item_by_node_at fs self0 jm nodes N Hloaded s3 E3)) in Hu.
      unfold Model.cached in Hu. simpl in Hu.
      injection Hu as <-. reflexivity.
    - rewrite (unclustered_items_cached fs s3 _ Hsome) in Hu.
      injection Hu as <-. reflexivity. }
  rewrite (bind_run _ _ _ _ _ _ _ Hu).
  unfold Model.cluster_sizes_set at 1.
  unfold Model.bind at 1. unfold Model.bind at 1. unfold Model.cached at 1.
  rewrite Es4. simpl Model._cluster_sizes. rewrite Es2.
  unfold Model.modify at 1.
  match goal with
  | |- context [Model.set_cluster_sizes ?v s4] =>
      set (s5 := Model.set_cluster_sizes v s4)
  end.
  rewrite (bind_run _ _ _ _ _ _ _
             (unclustered_items_cached fs s5 (Spec.unclustered nodes N) Eu4)).
  unfold Model.items_dict_set, Model.bind, Model.cached, Model.modify.
  simpl Model._items_dict. rewrite Ei4. simpl Model._items_dict. rewrite Ei2.
  exists labels. eexists. split; [reflexivity |].
  simpl. repeat apply conj; try congruence.
  intros i Hi. rewrite (Hnth i (-1)%Z Hi). unfold Spec.cluster_of.
  now rewrite nth_repeat.
Qed.

End Labelled.

(** X4: when a node of some component lists an item that is no position
    of the label array (at or beyond the number of rows of the clean
    table, or below its negative), [label_item_by_cluster] fails with an
    [IndexError] and assigns no cluster ids, although [label_item_by_node]
    accepts the same complex. *)
Theorem item_out_of_bounds_is_an_index_error :
  forall (fs : filesystem) (self : Model.Model_t) (jm : JMapper_t)
         (nodes : dict string (list Z)) (N : nat),
    Spec.loaded fs self jm nodes N ->
    (forall c n, In c (jm_components jm) -> In n (fst c) ->
                 In n (dict_keys nodes)) ->
    (exists c i, In c (jm_components jm) /\ In i (Spec.items_of nodes c)
                 /\ Spec.out_of_bounds N i) ->
    fst (Model.label_item_by_cluster fs self) = Raise IndexError
    /\ Model._cluster_ids (snd (Model.label_item_by_cluster fs self))
       = Model._cluster_ids self
    /\ exists labels, fst (Model.label_item_by_node fs self) = Ok labels.
Proof.
  intros fs self jm nodes N Hloaded Hkeys Hout.
  destruct (component_loop_bounds fs self jm nodes N Hloaded
              (jm_components jm) Hkeys Hout
              (Model.set_items_dict (Some []) (Model.set_cluster_sizes (Some []) self))
              (repeat (-1)%Z N) [] [] eq_refl eq_refl eq_refl (repeat_length _ _))
    as (s' & Hrun & Hids).
  assert (Hfull : Model.label_item_by_cluster fs self = (Raise IndexError, s')).
  { rewrite (label_item_by_cluster_loop fs self jm nodes N Hloaded self eq_refl).
    unfold Model.bind at 1. now rewrite Hrun. }
  rewrite Hfull. simpl fst. simpl snd.
  split; [reflexivity |]. split; [exact Hids |].
  rewrite (label_item_by_node_at fs self jm nodes N Hloaded self eq_refl).
  eexists. reflexivity.
Qed.

Lemma item_out_of_bounds_is_an_index_error_witness :
  fst (Model.label_item_by_cluster Examples.fs_beyond
         (Examples.fresh Examples.fs_beyond))
  = Raise IndexError
  /\ Model._cluster_ids
       (snd (Model.label_item_by_cluster Examples.fs_beyond
               (Examples.fresh Examples.fs_beyond)))
     = Model._cluster_ids (Examples.fresh Examples.fs_beyond)
  /\ exists labels,
      fst (Model.label_item_by_node Examples.fs_beyond
             (Examples.fresh Examples.fs_beyond))
      = Ok labels.
Proof.
  apply (item_out_of_bounds_is_an_index_error Examples.fs_beyond
           (Examples.fresh Examples.fs_beyond) Examples.jm_beyond
           [("n0"%string, [0; 4]%Z)] 4).
  - loaded_example.
  - intros c n [<- | []] [<- | []]. simpl. auto.
  - exists (["n0"%string], 0%Z), 4%Z. simpl.
    split; [auto |]. split; [auto |]. unfold Spec.out_of_bounds. simpl. lia.
Defined.

Lemma last_component_cases nodes (i : Z) cs :
  forall acc : Z,
    let r := fold_left
               (fun acc c => if mem i (Spec.members nodes c) then snd c else acc)
               cs acc in
    ((forall c, In c cs -> ~ In i (Spec.items_of nodes c)) /\ r = acc)
    \/ exists pre c post,
        cs = pre ++ c :: post
        /\ In i (Spec.items_of nodes c)
        /\ (forall c', In c' post -> ~ In i (Spec.items_of nodes c'))
        /\ r = snd c.
Proof.
  induction cs as [| c r IH]; intros acc; simpl.
  - left. split; [intros c [] | reflexivity].
  - destruct (IH (if mem i (Spec.members nodes c) then snd c else acc))
      as [[Hnone Hr] | (pre & c0 & post & -> & Hin & Hpost & Hr)].
    + destruct (mem i (Spec.members nodes c)) eqn:Em.
      * right. exists [], c, r. simpl. split; [reflexivity |].
        split; [| split; [exact Hnone | exact Hr]].
        apply (members_In nodes). exact (proj1 (mem_In _ _) Em).
      * left. split; [| exact Hr].
        intros c' [<- | Hc']; [| now apply Hnone].
        intros Hin. apply (members_In nodes) in Hin.
        apply (proj2 (mem_In _ _)) in Hin. congruence.
    + right. exists (c :: pre), c0, post. simpl.
      split; [reflexivity |]. split; [exact Hin |]. split; [exact Hpost | exact Hr].
Qed.

(** X5: on a loaded model whose components name nodes of the complex and
    whose items are rows, [label_item_by_cluster] leaves one cluster id per
    row: -1 on a row that is in no node of any component, and otherwise the
    id of the last component, in the order of the mapping, that has the
    row in one of its nodes. *)
Theorem cluster_ids_by_last_component :
  forall (fs : filesystem) (self : Model.Model_t) (jm : JMapper_t)
         (nodes : dict string (list Z)) (N : nat),
    Spec.loaded fs self jm nodes N ->
    Spec.unclustered_cache_ok self nodes N ->
    (forall c n, In c (jm_components jm) -> In n (fst c) ->
                 In n (dict_keys nodes)) ->
    Spec.items_in_range nodes N ->
    exists labels self',
      Model.label_item_by_cluster fs self = (Ok tt, self')
      /\ Model._cluster_ids self' = Some labels
      /\ List.length labels = N
      /\ forall i,
          (0 <= i < Z.of_nat N)%Z ->
          ((forall c, In c (jm_components jm) -> ~ In i (Spec.items_of nodes c))
           /\ nth (Z.to_nat i) labels (-1)%Z = (-1)%Z)
          \/ exists pre c post,
              jm_components jm = pre ++ c :: post
              /\ In i (Spec.items_of nodes c)
              /\ (forall c', In c' post -> ~ In i (Spec.items_of nodes c'))
              /\ nth (Z.to_nat i) labels (-1)%Z = snd c.
Proof.
  intros fs self jm nodes N Hloaded Hcache Hkeys Hrange.
  destruct (label_item_by_cluster_labels fs self jm nodes N Hloaded self eq_refl
              Hcache Hkeys Hrange)
    as (labels & s' & Hrun & Hids & Hlen & Hnth & _).
  exists labels, s'. repeat apply conj; try assumption.
  intros i [Hi _]. rewrite (Hnth i Hi). unfold Spec.cluster_of.
  apply last_component_cases.
Qed.

Lemma cluster_ids_by_last_component_witness :
  exists labels self',
    Model.label_item_by_cluster Examples.fs_shared
      (Examples.fresh Examples.fs_shared)
    = (Ok tt, self')
    /\ Model._cluster_ids self' = Some labels
    /\ List.length labels = 1%nat
    /\ forall i,
        (0 <= i < Z.of_nat 1)%Z ->
        ((forall c, In c (jm_components Examples.jm_shared) ->
                    ~ In i (Spec.items_of
                              [("A"%string, [0]%Z); ("B"%string, [0]%Z)] c))
         /\ nth (Z.to_nat i) labels (-1)%Z = (-1)%Z)
        \/ exists pre c post,
            jm_components Examples.jm_shared = pre ++ c :: post
            /\ In i (Spec.items_of [("A"%string, [0]%Z); ("B"%string, [0]%Z)] c)
            /\ (forall c', In c' post ->
                           ~ In i (Spec.items_of
                                     [("A"%string, [0]%Z); ("B"%string, [0]%Z)] c'))
            /\ nth (Z.to_nat i) labels (-1)%Z = snd c.
Proof.
  apply (cluster_ids_by_last_component Examples.fs_shared
           (Examples.fresh Examples.fs_shared) Examples.jm_shared
           [("A"%string, [0]%Z); ("B"%string, [0]%Z)] 1).
  - loaded_example.
  - left. reflexivity.
  - intros c n [<- | [<- | []]] [<- | []]; simpl; auto.
  - intros n i [<- | [<- | []]]; simpl; intros [<- | []]; lia.
Defined.

(** X6: when moreover every node of the complex is in a component and no
    component carries the cluster id -1, the rows [label_item_by_cluster]
    labels -1 are exactly the unclustered items it stores under -1. *)
Theorem unclustered_items_are_labelled_minus_one :
  forall (fs : filesystem) (self : Model.Model_t) (jm : JMapper_t)
         (nodes : dict string (list Z)) (N : nat),
    Spec.loaded fs self jm nodes N ->
    Spec.unclustered_cache_ok self nodes N ->
    (forall c n, In c (jm_components jm) -> In n (fst c) ->
                 In n (dict_keys nodes)) ->
    Spec.items_in_range nodes N ->
    Spec.nodes_grouped nodes (jm_components jm) ->
    ~ In (-1)%Z (map snd (jm_components jm)) ->
    exists labels unclustered items self',
      Model.label_item_by_cluster fs self = (Ok tt, self')
      /\ Model._cluster_ids self' = Some labels
      /\ Model._unclustered_items self' = Some unclustered
      /\ Model._items_dict self' = Some items
      /\ dict_get items (-1)%Z = Some unclustered
      /\ forall i,
          (0 <= i < Z.of_nat N)%Z ->
          (nth (Z.to_nat i) labels (-1)%Z = (-1)%Z <-> In i unclustered).
Proof.
  intros fs self jm nodes N Hloaded Hcache Hkeys Hrange Hgrouped Hminus.
  destruct (label_item_by_cluster_labels fs self jm nodes N Hloaded self eq_refl
              Hcache Hkeys Hrange)
    as (labels & s' & Hrun & Hids & Hlen & Hnth & Hu & Hitems & _).
  exists labels, (Spec.unclustered nodes N). eexists. exists s'.
  split; [exact Hrun |]. split; [exact Hids |]. split; [exact Hu |].
  split; [exact Hitems |]. split; [apply dict_get_set_eq |].
  intros i Hi. rewrite (Hnth i (proj1 Hi)). unfold Spec.cluster_of.
  rewrite unclustered_In.
  destruct (last_component_cases nodes i (jm_components jm) (-1)%Z)
    as [[Hnone ->] | (pre & c & post & Ecs & Hin & _ & ->)].
  - split; [intros _ | reflexivity]. split; [exact Hi |].
    destruct (Spec.covered nodes i) eqn:Ecov; [| reflexivity].
    apply covered_true in Ecov. destruct Ecov as (n & Hn & Hin).
    destruct (Hgrouped n Hn) as (c & Hc & Hnc).
    exfalso. apply (Hnone c Hc). apply (items_of_In nodes). eauto.
  - assert (Hc : In c (jm_components jm)).
    { rewrite Ecs. apply in_or_app. right. now left. }
    split.
    + intros E. exfalso. apply Hminus. rewrite <- E. now apply in_map.
    + intros [_ Hcov]. exfalso.
      apply (items_of_In nodes) in Hin. destruct Hin as (n & Hn & Hin).
      assert (Htrue : Spec.covered nodes i = true).
      { apply covered_true. exists n. split; [| exact Hin]. eapply Hkeys; eauto. }
      congruence.
Qed.

Lemma unclustered_items_are_labelled_minus_one_witness :
  exists labels unclustered items self',
    Model.label_item_by_cluster Examples.fs_outlier
      (Examples.fresh Examples.fs_outlier)
    = (Ok tt, self')
    /\ Model._cluster_ids self' = Some labels
    /\ Model._unclustered_items self' = Some unclustered
    /\ Model._items_dict self' = Some items
    /\ dict_get items (-1)%Z = Some unclustered
    /\ forall i,
        (0 <= i < Z.of_nat 5)%Z ->
        (nth (Z.to_nat i) labels (-1)%Z = (-1)%Z <-> In i unclustered).
Proof.
  apply (unclustered_items_are_labelled_minus_one Examples.fs_outlier
           (Examples.fresh Examples.fs_outlier) Examples.jm_two_clusters
           [("n0"%string, [0; 1]%Z); ("n1"%string, [2; 3]%Z)] 5).
  - loaded_example.
  - left. reflexivity.
  - intros c n [<- | [<- | []]] [<- | []]; simpl; auto.
  - intros n i [<- | [<- | []]]; simpl; intros [<- | [<- | []]]; lia.
  - intros n [<- | [<- | []]]; simpl.
    + exists (["n0"%string], 0%Z). simpl. auto.
    + exists (["n1"%string], 1%Z). simpl. auto.
  - simpl. intuition discriminate.
Defined.

(** ** Item lists and sizes of the clusters *)

Lemma dict_set_map_values {A B} (g : A -> B) (d : dict Z A) k v :
  map (fun kv => (fst kv, g (snd kv))) (dict_set d k v)
  = dict_set (map (fun kv => (fst kv, g (snd kv))) d) k (g v).
Proof.
  induction d as [| [k' v'] r IH]; simpl; [reflexivity |].
  destruct (Z.eqb k' k); simpl; [reflexivity | now rewrite IH].
Qed.

Lemma fold_dict_set_map_values {A B} (g : A -> B)
      (f : list string * Z -> A) (cs : list (list string * Z)) :
  forall d : dict Z A,
    map (fun kv => (fst kv, g (snd kv)))
        (fold_left (fun d c => dict_set d (snd c) (f c)) cs d)
    = fold_left (fun d c => dict_set d (snd c) (g (f c))) cs
                (map (fun kv => (fst kv, g (snd kv))) d).
Proof.
  induction cs as [| c r IH]; intros d; simpl; [reflexivity |].
  now rewrite IH, dict_set_map_values.
Qed.

Lemma fold_dict_set_values {A} (P : A -> Prop)
      (f : list string * Z -> A) (cs : list (list string * Z)) :
  (forall c, In c cs -> P (f c)) ->
  forall d : dict Z A,
    (forall k v, In (k, v) d -> P v) ->
    forall k v, In (k, v) (fold_left (fun d c => dict_set d (snd c) (f c)) cs d) ->
                P v.
Proof.
  induction cs as [| c r IH]; intros Hcs d Hd k v Hin; simpl in Hin.
  - eauto.
  - apply (IH (fun c' H => Hcs c' (or_intror H)) (dict_set d (snd c) (f c)))
      with (k := k); [| exact Hin].
    intros k' v' H'. apply dict_set_In in H'.
    destruct H' as [[_ ->] | H']; [apply Hcs; now left | eauto].
Qed.

Lemma fold_dict_set_keys {A} (f : list string * Z -> A)
      (cs : list (list string * Z)) :
  forall (d : dict Z A) k,
    In k (dict_keys (fold_left (fun d c => dict_set d (snd c) (f c)) cs d))
    <-> In k (dict_keys d) \/ In k (map snd cs).
Proof.
  induction cs as [| c r IH]; intros d k; simpl.
  - tauto.
  - rewrite IH, dict_set_keys_In. intuition congruence.
Qed.

(** X7: after [label_item_by_cluster] on a loaded model whose components
    name nodes of the complex and whose items are rows, the stored size of
    every cluster is the length of its stored item list, the item lists
    hold distinct rows, and the clusters are the cluster ids of the
    components and -1. *)
Theorem cluster_sizes_count_item_lists :
  forall (fs : filesystem) (self : Model.Model_t) (jm : JMapper_t)
         (nodes : dict string (list Z)) (N : nat),
    Spec.loaded fs self jm nodes N ->
    Spec.unclustered_cache_ok self nodes N ->
    (forall c n, In c (jm_components jm) -> In n (fst c) ->
                 In n (dict_keys nodes)) ->
    Spec.items_in_range nodes N ->
    exists items sizes self',
      Model.label_item_by_cluster fs self = (Ok tt, self')
      /\ Model._items_dict self' = Some items
      /\ Model._cluster_sizes self' = Some sizes
      /\ sizes = map (fun kv => (fst kv, List.length (snd kv))) items
      /\ (forall k l, In (k, l) items ->
                      NoDup l /\ forall i, In i l -> (0 <= i < Z.of_nat N)%Z)
      /\ (forall k, In k (dict_keys items)
                    <-> k = (-1)%Z \/ In k (map snd (jm_components jm))).
Proof.
  intros fs self jm nodes N Hloaded Hcache Hkeys Hrange.
  destruct (label_item_by_cluster_at fs self jm nodes N Hloaded self eq_refl
              Hcache Hkeys Hrange)
    as (s' & Hrun & _ & _ & Hitems & Hsizes).
  eexists. eexists. exists s'.
  split; [exact Hrun |]. split; [exact Hitems |]. split; [exact Hsizes |].
  split.
  { rewrite dict_set_map_values.
    now rewrite (fold_dict_set_map_values (@List.length Z)). }
  split.
  - intros k l Hin. apply dict_set_In in Hin.
    destruct Hin as [[_ ->] | Hin].
    + split; [apply unclustered_NoDup |].
      intros i Hi. now apply unclustered_In in Hi.
    + revert k l Hin.
      apply (fold_dict_set_values
               (fun l => NoDup l /\ forall i, In i l -> (0 <= i < Z.of_nat N)%Z)).
      * intros c Hc. split; [apply members_NoDup |].
        intros i Hi. apply (members_In nodes), (items_of_In nodes) in Hi.
        destruct Hi as (n & Hn & Hi). apply (Hrange n i); [| exact Hi].
        eapply Hkeys; eauto.
      * intros k v [].
  - intros k. rewrite dict_set_keys_In, fold_dict_set_keys. simpl. tauto.
Qed.

Lemma cluster_sizes_count_item_lists_witness :
  exists items sizes self',
    Model.label_item_by_cluster Examples.fs_shared
      (Examples.fresh Examples.fs_shared)
    = (Ok tt, self')
    /\ Model._items_dict self' = Some items
    /\ Model._cluster_sizes self' = Some sizes
    /\ sizes = map (fun kv => (fst kv, List.length (snd kv))) items
    /\ (forall k l, In (k, l) items ->
                    NoDup l /\ forall i, In i l -> (0 <= i < Z.of_nat 1)%Z)
    /\ (forall k, In k (dict_keys items)
                  <-> k = (-1)%Z \/ In k (map snd (jm_components Examples.jm_shared))).
Proof.
  apply (cluster_sizes_count_item_lists Examples.fs_shared
           (Examples.fresh Examples.fs_shared) Examples.jm_shared
           [("A"%string, [0]%Z); ("B"%string, [0]%Z)] 1).
  - loaded_example.
  - left. reflexivity.
  - intros c n [<- | [<- | []]] [<- | []]; simpl; auto.
  - intros n i [<- | [<- | []]]; simpl; intros [<- | []]; lia.
Defined.

(** ** A labelled model and the files *)

Lemma bind_ok A B (c : Model.M A) (k : A -> Model.M B) s b s' :
  Model.bind c k s = (Ok b, s') ->
  exists a s1, c s = (Ok a, s1) /\ k a s1 = (Ok b, s').
Proof.
  unfold Model.bind. destruct (c s) as [[a | e] s1]; intros H.
  - exists a, s1. split; [reflexivity | exact H].
  - discriminate H.
Qed.

Lemma lift_ok A (r : result A) s a s' :
  Model.lift r s = (Ok a, s') -> r = Ok a /\ s' = s.
Proof. unfold Model.lift. intros H. injection H as -> <-. split; reflexivity. Qed.

Lemma reads_only_run A (c : Model.M A) s r s' :
  Spec.reads_only c -> c s = (r, s') -> s' = s.
Proof. intros H E. specialize (H s). rewrite E in H. exact H. Qed.

Lemma reads_only_bind A B (c : Model.M A) (k : A -> Model.M B) :
  Spec.reads_only c -> (forall a, Spec.reads_only (k a)) ->
  Spec.reads_only (Model.bind c k).
Proof.
  intros Hc Hk s. unfold Model.bind.
  destruct (c s) as [[a | e] s1] eqn:E.
  - rewrite (reads_only_run _ _ _ _ _ Hc E). apply Hk.
  - simpl. exact (reads_only_run _ _ _ _ _ Hc E).
Qed.

Lemma reads_only_lift A (r : result A) : Spec.reads_only (Model.lift r).
Proof. intros s. reflexivity. Qed.

Lemma tupper_clean_reads_only fs : Spec.reads_only (Model.tupper_clean fs).
Proof.
  unfold Model.tupper_clean, Model.tupper.
  repeat first [ apply mapper_reads_only
               | apply reads_only_lift
               | apply reads_only_bind; [| intros ? ] ].
Qed.

Lemma tupper_raw_reads_only fs : Spec.reads_only (Model.tupper_raw fs).
Proof.
  unfold Model.tupper_raw, Model.tupper.
  repeat first [ apply mapper_reads_only
               | apply reads_only_lift
               | apply reads_only_bind; [| intros ? ] ].
Qed.

Lemma complex_reads_only fs : Spec.reads_only (Model.complex fs).
Proof.
  unfold Model.complex.
  repeat first [ apply mapper_reads_only
               | apply reads_only_lift
               | apply reads_only_bind; [| intros ? ] ].
Qed.

(** What [label_item_by_node] writes when it returns. *)
Lemma label_item_by_node_writes fs s labels s' :
  Model.label_item_by_node fs s = (Ok labels, s') ->
  exists unclustered,
    s' = Model.set_unclustered_items (Some unclustered)
           (Model.set_node_ids (Some labels) s).
Proof.
  unfold Model.label_item_by_node. intros H.
  apply bind_ok in H. destruct H as (clean & s1 & H1 & H).
  apply (reads_only_run _ _ _ _ _ (tupper_clean_reads_only fs)) in H1. subst s1.
  apply bind_ok in H. destruct H as (N & s1 & H1 & H).
  apply lift_ok in H1. destruct H1 as [_ ->].
  apply bind_ok in H. destruct H as (cx & s1 & H1 & H).
  apply (reads_only_run _ _ _ _ _ (complex_reads_only fs)) in H1. subst s1.
  apply bind_ok in H. destruct H as (nodes & s1 & H1 & H).
  apply lift_ok in H1. destruct H1 as [_ ->].
  destruct (Model.label_items nodes N) as [ls us].
  unfold Model.bind, Model.modify, Model.ret in H.
  injection H as <- <-. exists us. reflexivity.
Qed.

(** What reading [self.unclustered_items] leaves when it returns. *)
Lemma unclustered_items_ok fs s u s' :
  Model.unclustered_items fs s = (Ok u, s') ->
  Model._unclustered_items s' = Some u
  /\ Model._cluster_ids s' = Model._cluster_ids s
  /\ Model._cluster_sizes s' = Model._cluster_sizes s
  /\ Model._items_dict s' = Model._items_dict s.
Proof.
  unfold Model.unclustered_items, Model.bind at 1, Model.get.
  destruct (Model._unclustered_items s) as [v |] eqn:Ev.
  - unfold Model.ret. intros H. injection H as <- <-. auto.
  - intros H. apply bind_ok in H. destruct H as (labels & s1 & H1 & H).
    apply label_item_by_node_writes in H1. destruct H1 as (us & ->).
    unfold Model.cached in H. simpl in H. injection H as <- <-.
    simpl. auto.
Qed.

Lemma modify_ok f s u s' : Model.modify f s = (Ok u, s') -> s' = f s.
Proof. unfold Model.modify. intros H. now injection H as <-. Qed.

Lemma cached_ok A (field : Model.Model_t -> option A) s a s' :
  Model.cached field s = (Ok a, s') -> field s = Some a /\ s' = s.
Proof.
  unfold Model.cached. destruct (field s); intros H; [| discriminate H].
  injection H as <- <-. split; reflexivity.
Qed.

Tactic Notation "peel" hyp(H) "as" ident(a) ident(s1) ident(H1) :=
  apply bind_ok in H; destruct H as (a & s1 & H1 & H).

(** X8: whenever [label_item_by_cluster] returns, the cluster ids, the
    cluster sizes, the item lists and the unclustered items are all stored
    in the model, with the unclustered items and their number under -1;
    the four properties then answer from the model alone and leave it as
    it is, whatever files exist by then. *)
Theorem labelled_model_answers_from_cache :
  forall (fs : filesystem) (self self' : Model.Model_t),
    Model.label_item_by_cluster fs self = (Ok tt, self') ->
    exists ids sizes items unclustered,
      Model._cluster_ids self' = Some ids
      /\ Model._cluster_sizes self' = Some sizes
      /\ Model._items_dict self' = Some items
      /\ Model._unclustered_items self' = Some unclustered
      /\ dict_get sizes (-1)%Z = Some (List.length unclustered)
      /\ dict_get items (-1)%Z = Some unclustered
      /\ forall fs' : filesystem,
          Model.cluster_ids fs' self' = (Ok ids, self')
          /\ Model.cluster_sizes fs' self' = (Ok sizes, self')
          /\ Model.items_dict fs' self' = (Ok items, self')
          /\ Model.unclustered_items fs' self' = (Ok unclustered, self').
Proof.
  intros fs self self' H. unfold Model.label_item_by_cluster in H.
  peel H as cx s1 H1. peel H as u1 s2 H2. peel H as u2 s3 H3. peel H as u3 s4 H4.
  peel H as clean s5 H5. peel H as N s6 H6. peel H as m s7 H7. peel H as comps s8 H8.
  peel H as labels s9 H9. clear H1 H2 H3 H4 H5 H6 H7 H8 H9.
  peel H as u4 s10 H10. apply modify_ok in H10. subst s10.
  peel H as u s11 H11. apply unclustered_items_ok in H11.
  destruct H11 as (Hu & Hids & _ & _). simpl in Hids.
  peel H as u5 s12 H12. unfold Model.cluster_sizes_set in H12.
  peel H12 as sdict s13 H13. apply cached_ok in H13. destruct H13 as [Es ->].
  apply modify_ok in H12. subst s12.
  peel H as u' s14 H14.
  rewrite (unclustered_items_cached fs _ u) in H14 by exact Hu.
  injection H14 as <- <-.
  unfold Model.items_dict_set in H. peel H as idict s15 H15.
  apply cached_ok in H15. destruct H15 as [Ei ->].
  apply modify_ok in H. subst self'.
  exists labels, (dict_set sdict (-1)%Z (List.length u)),
         (dict_set idict (-1)%Z u), u.
  simpl. split; [exact Hids |].
  split; [reflexivity |]. split; [reflexivity |]. split; [exact Hu |].
  split; [apply dict_get_set_eq |]. split; [apply dict_get_set_eq |].
  intros fs'.
  unfold Model.cluster_ids, Model.cluster_sizes, Model.items_dict,
    Model.unclustered_items, Model.bind, Model.get.
  simpl. rewrite Hids, Hu. repeat apply conj; reflexivity.
Qed.

Lemma labelled_model_answers_from_cache_witness :
  let self' :=
    snd (Model.label_item_by_cluster Examples.fs_outlier
           (Examples.fresh Examples.fs_outlier)) in
  exists ids sizes items unclustered,
    Model._cluster_ids self' = Some ids
    /\ Model._cluster_sizes self' = Some sizes
    /\ Model._items_dict self' = Some items
    /\ Model._unclustered_items self' = Some unclustered
    /\ dict_get sizes (-1)%Z = Some (List.length unclustered)
    /\ dict_get items (-1)%Z = Some unclustered
    /\ forall fs' : filesystem,
        Model.cluster_ids fs' self' = (Ok ids, self')
        /\ Model.cluster_sizes fs' self' = (Ok sizes, self')
        /\ Model.items_dict fs' self' = (Ok items, self')
        /\ Model.unclustered_items fs' self' = (Ok unclustered, self').
Proof.
  intros self'.
  apply (labelled_model_answers_from_cache Examples.fs_outlier
           (Examples.fresh Examples.fs_outlier) self').
  unfold self'. vm_compute. reflexivity.
Defined.

(** ** Overlapping values of the cached item lists *)

Lemma overlap_fold_keys items vcs :
  forall acc v,
    In v (dict_keys (fold_left (Spec.overlap_step items) vcs acc))
    <-> In v (dict_keys acc)
        \/ exists count, In (v, count) vcs /\ (1 < count)%nat.
Proof.
  induction vcs as [| [v0 c0] r IH]; intros acc v; simpl.
  - split; [tauto |]. intros [H | (count & [] & _)]. exact H.
  - rewrite IH. unfold Spec.overlap_step. simpl.
    destruct (1 <? c0)%nat eqn:Ec.
    + apply Nat.ltb_lt in Ec. rewrite dict_set_keys_In. split.
      * intros [[-> | H] | (count & Hin & Hc)]; eauto.
      * intros [H | (count & [Heq | Hin] & Hc)]; eauto.
        injection Heq as <- <-. auto.
    + apply Nat.ltb_ge in Ec. split.
      * intros [H | (count & Hin & Hc)]; eauto.
      * intros [H | (count & [Heq | Hin] & Hc)]; eauto.
        injection Heq as <- <-. lia.
Qed.

Lemma overlap_fold_NoDup items vcs :
  forall acc,
    NoDup (dict_keys acc) ->
    NoDup (dict_keys (fold_left (Spec.overlap_step items) vcs acc)).
Proof.
  induction vcs as [| vc r IH]; intros acc Hnd; simpl; [exact Hnd |].
  apply IH. unfold Spec.overlap_step.
  destruct (1 <? snd vc)%nat; [now apply dict_set_NoDup | exact Hnd].
Qed.

(** X9: on a model whose item lists are stored, [get_items_in_multiple_groups]
    reads no file and leaves the model as it is; it reports, each once, the
    values that occur at least twice in the item lists taken together, and
    gives each the keys of the lists that contain it, in the order of the
    dictionary. *)
Theorem overlaps_come_from_the_stored_item_lists :
  forall (fs : filesystem) (self : Model.Model_t) (items : dict Z (list Z)),
    Model._items_dict self = Some items ->
    exists overlapping,
      Model.get_items_in_multiple_groups fs self = (Ok overlapping, self)
      /\ NoDup (dict_keys overlapping)
      /\ (forall value,
             In value (dict_keys overlapping)
             <-> (2 <= Spec.occurrences (dict_values items) value)%nat)
      /\ forall value groups,
          In (value, groups) overlapping ->
          groups = map fst (filter (fun kv => mem value (snd kv)) items)
          /\ forall key, In key groups <->
                         exists values, In (key, values) items /\ In value values.
Proof.
  intros fs self items Hitems.
  exists (fold_left (Spec.overlap_step items)
                    (Model.count_values (dict_values items)) []).
  destruct (count_values_spec (dict_values items)) as [Hnd Hget].
  split; [| split; [| split]].
  - unfold Model.get_items_in_multiple_groups.
    rewrite (bind_run _ _ _ _ _ _ _ (items_dict_cached fs self items Hitems)).
    apply (overlap_loop_at fs self items _ Hitems).
  - apply overlap_fold_NoDup. constructor.
  - intros value. rewrite overlap_fold_keys. simpl. specialize (Hget value).
    split.
    + intros [[] | (count & Hin & Hc)].
      pose proof (@dict_get_NoDup _ _ _ _ _ _ Hnd Hin) as Hk.
      rewrite Hget in Hk.
      destruct (Nat.eqb_spec (Spec.occurrences (dict_values items) value) 0);
        [discriminate Hk |].
      injection Hk as <-. lia.
    + intros Hocc. right.
      exists (Spec.occurrences (dict_values items) value).
      split; [| lia].
      destruct (Nat.eqb_spec (Spec.occurrences (dict_values items) value) 0);
        [lia |].
      now apply dict_get_In in Hget.
  - intros value groups Hin.
    assert (E : groups = Model.groups_of items value).
    { eapply overlap_fold_entries; [| exact Hin]. intros v gs []. }
    split; [exact E |]. intros key. rewrite E. apply groups_of_In.
Qed.

Lemma overlaps_come_from_the_stored_item_lists_witness :
  let self' :=
    snd (Model.label_item_by_cluster Examples.fs_shared
           (Examples.fresh Examples.fs_shared)) in
  exists overlapping,
    Model.get_items_in_multiple_groups [] self' = (Ok overlapping, self')
    /\ NoDup (dict_keys overlapping)
    /\ (forall value,
           In value (dict_keys overlapping)
           <-> (2 <= Spec.occurrences
                       (dict_values [(0%Z, [0%Z]); (1%Z, [0%Z]); ((-1)%Z, [])])
                       value)%nat).
Proof.
  intros self'.
  destruct (overlaps_come_from_the_stored_item_lists [] self'
              [(0%Z, [0%Z]); (1%Z, [0%Z]); ((-1)%Z, [])])
    as (overlapping & H1 & H2 & H3 & _).
  - unfold self'. vm_compute. reflexivity.
  - exists overlapping. repeat apply conj; assumption.
Defined.

Lemma count_occ_NoDup (l : list Z) v :
  NoDup l -> count_occ Z.eq_dec l v = if mem v l then 1%nat else 0%nat.
Proof.
  intros Hnd. destruct (mem v l) eqn:Em.
  - apply count_occ_NoDup_1; [exact Hnd | exact (proj1 (mem_In _ _) Em)].
  - apply count_occ_not_In. exact (proj1 (mem_false _ _) Em).
Qed.

Lemma groups_of_length (items : dict Z (list Z)) v :
  (forall k l, In (k, l) items -> NoDup l) ->
  List.length (Model.groups_of items v) = Spec.occurrences (dict_values items) v.
Proof.
  unfold Model.groups_of, Spec.occurrences, dict_values.
  induction items as [| [k l] r IH]; intros Hnd; simpl; [reflexivity |].
  rewrite (count_occ_NoDup l v) by (apply (Hnd k); now left).
  destruct (mem v l); simpl; rewrite IH by (intros k' l' H; apply (Hnd k'); now right);
    reflexivity.
Qed.

Lemma groups_of_NoDup (items : dict Z (list Z)) v :
  NoDup (dict_keys items) -> NoDup (Model.groups_of items v).
Proof.
  unfold Model.groups_of, dict_keys.
  induction items as [| [k l] r IH]; intros Hnd; simpl; [constructor |].
  inversion Hnd as [| ? ? Hk Hr]; subst.
  destruct (mem v l); simpl; [| now apply IH].
  constructor; [| now apply IH].
  intros Hin. apply Hk. apply in_map_iff in Hin.
  destruct Hin as ([k' l'] & <- & Hin). apply filter_In in Hin.
  apply in_map_iff. exists (k', l'). split; [reflexivity | tauto].
Qed.

Lemma overlap_entry_occurs (items : dict Z (list Z)) value groups :
  In (value, groups)
     (fold_left (Spec.overlap_step items)
                (Model.count_values (dict_values items)) []) ->
  groups = Model.groups_of items value
  /\ (2 <= Spec.occurrences (dict_values items) value)%nat.
Proof.
  intros Hin. split.
  - eapply overlap_fold_entries; [| exact Hin]. intros v gs [].
  - assert (Hk : In value
                    (dict_keys (fold_left (Spec.overlap_step items)
                                  (Model.count_values (dict_values items)) []))).
    { unfold dict_keys. apply in_map_iff. exists (value, groups). auto. }
    apply overlap_fold_keys in Hk. destruct Hk as [[] | (count & Hc & Hlt)].
    destruct (count_values_spec (dict_values items)) as [Hnd Hget].
    pose proof (@dict_get_NoDup _ _ _ _ _ _ Hnd Hc) as Hk.
    rewrite Hget in Hk.
    destruct (Nat.eqb_spec (Spec.occurrences (dict_values items) value) 0);
      [discriminate Hk |].
    injection Hk as <-. lia.
Qed.

Lemma item_lists_keys nodes comps N :
  dict_keys (Spec.item_lists nodes comps N) = map snd comps ++ [(-1)%Z].
Proof.
  unfold Spec.item_lists, dict_keys. rewrite map_app, map_map. reflexivity.
Qed.

Lemma item_lists_In nodes comps N k l :
  In (k, l) (Spec.item_lists nodes comps N) ->
  (exists c, In c comps /\ k = snd c /\ l = Spec.members nodes c)
  \/ (k = (-1)%Z /\ l = Spec.unclustered nodes N).
Proof.
  unfold Spec.item_lists. intros H. apply in_app_or in H.
  destruct H as [H | [H | []]].
  - apply in_map_iff in H. destruct H as (c & Hc & Hin).
    injection Hc as <- <-. left. eauto.
  - injection H as <- <-. right. auto.
Qed.

(** X10: on a loaded model whose components name nodes of the complex
    under distinct cluster ids other than -1 and whose items are rows,
    every item that [get_items_in_multiple_groups] reports comes with at
    least two cluster ids, all different, each the id of a component that
    has the item in one of its nodes; an unclustered item is never
    reported and -1 is never among the ids. *)
Theorem overlapping_items_lie_in_two_clusters :
  forall (fs : filesystem) (self : Model.Model_t) (jm : JMapper_t)
         (nodes : dict string (list Z)) (N : nat),
    Spec.loaded fs self jm nodes N ->
    Spec.labelling_ok self nodes (jm_components jm) N ->
    Spec.components_ok nodes (jm_components jm) ->
    Spec.items_in_range nodes N ->
    exists self' overlapping,
      Model.get_items_in_multiple_groups fs self = (Ok overlapping, self')
      /\ forall value groups,
          In (value, groups) overlapping ->
          (2 <= List.length groups)%nat
          /\ NoDup groups
          /\ ~ In (-1)%Z groups
          /\ ~ In value (Spec.unclustered nodes N)
          /\ forall key, In key groups ->
                         exists c, In c (jm_components jm) /\ snd c = key
                                   /\ In value (Spec.items_of nodes c).
Proof.
  intros fs self jm nodes N Hloaded Hlab Hok Hrange.
  destruct (items_dict_at fs self jm nodes N Hloaded Hlab Hok Hrange)
    as (self' & Hrun & Hitems).
  set (items := Spec.item_lists nodes (jm_components jm) N) in *.
  exists self', (fold_left (Spec.overlap_step items)
                           (Model.count_values (dict_values items)) []).
  split.
  { unfold Model.get_items_in_multiple_groups.
    rewrite (bind_run _ _ _ _ _ _ _ Hrun).
    apply (overlap_loop_at fs self' items _ Hitems). }
  assert (Hlists : forall k l, In (k, l) items -> NoDup l).
  { intros k l Hin. apply item_lists_In in Hin.
    destruct Hin as [(c & _ & _ & ->) | [_ ->]];
      [apply members_NoDup | apply unclustered_NoDup]. }
  assert (Hkeys : NoDup (dict_keys items)).
  { unfold items. rewrite item_lists_keys.
    destruct Hok as (_ & Hnd & Hminus).
    apply NoDup_app; [exact Hnd | repeat constructor; intros [] |].
    intros k Hk [<- | []]. contradiction. }
  assert (Hfree : forall value key,
             In key (Model.groups_of items value) ->
             (2 <= Spec.occurrences (dict_values items) value)%nat ->
             exists c, In c (jm_components jm) /\ snd c = key
                       /\ In value (Spec.items_of nodes c)).
  { intros value key Hkey Hocc.
    apply groups_of_In in Hkey. destruct Hkey as (values & Hin & Hv).
    apply item_lists_In in Hin.
    destruct Hin as [(c & Hc & -> & ->) | [-> ->]].
    - exists c. split; [exact Hc |]. split; [reflexivity |].
      now apply (members_In nodes).
    - exfalso.
      rewrite <- (groups_of_length items value Hlists) in Hocc.
      assert (Hall : forall k, In k (Model.groups_of items value) -> k = (-1)%Z).
      { intros k Hk. apply groups_of_In in Hk. destruct Hk as (l & Hin & Hl).
        apply item_lists_In in Hin.
        destruct Hin as [(c & Hc & -> & ->) | [-> _]]; [| reflexivity].
        exfalso. apply unclustered_In in Hv. destruct Hv as [_ Hcov].
        apply (members_In nodes), (items_of_In nodes) in Hl.
        destruct Hl as (n & Hn & Hl).
        assert (Ht : Spec.covered nodes value = true).
        { apply covered_true. exists n. split; [| exact Hl].
          destruct Hok as (Hnames & _). eapply Hnames; eauto. }
        congruence. }
      pose proof (groups_of_NoDup items value Hkeys) as Hnd.
      destruct (Model.groups_of items value) as [| a [| b r]];
        simpl in Hocc; try lia.
      inversion Hnd as [| ? ? Hab _]; subst. apply Hab.
      rewrite (Hall a), (Hall b); simpl; auto. }
  intros value groups Hin.
  apply overlap_entry_occurs in Hin. destruct Hin as [-> Hocc].
  split; [now rewrite (groups_of_length items value Hlists) |].
  split; [now apply groups_of_NoDup |].
  split.
  { intros Hm. destruct (Hfree value _ Hm Hocc) as (c & Hc & Hid & _).
    destruct Hok as (_ & _ & Hminus). apply Hminus. rewrite <- Hid.
    now apply in_map. }
  split.
  { intros Hu.
    assert (Hm : In (-1)%Z (Model.groups_of items value)).
    { apply groups_of_In. exists (Spec.unclustered nodes N). split; [| exact Hu].
      unfold items, Spec.item_lists. apply in_or_app. right. now left. }
    destruct (Hfree value _ Hm Hocc) as (c & Hc & Hid & _).
    destruct Hok as (_ & _ & Hminus). apply Hminus. rewrite <- Hid.
    now apply in_map. }
  intros key Hkey. exact (Hfree value key Hkey Hocc).
Qed.

Lemma overlapping_items_lie_in_two_clusters_witness :
  exists self' overlapping,
    Model.get_items_in_multiple_groups Examples.fs_shared
      (Examples.fresh Examples.fs_shared)
    = (Ok overlapping, self')
    /\ forall value groups,
        In (value, groups) overlapping ->
        (2 <= List.length groups)%nat
        /\ NoDup groups
        /\ ~ In (-1)%Z groups
        /\ ~ In value (Spec.unclustered
                         [("A"%string, [0]%Z); ("B"%string, [0]%Z)] 1)
        /\ forall key, In key groups ->
                       exists c, In c (jm_components Examples.jm_shared)
                                 /\ snd c = key
                                 /\ In value
                                       (Spec.items_of
                                          [("A"%string, [0]%Z); ("B"%string, [0]%Z)]
                                          c).
Proof.
  apply (overlapping_items_lie_in_two_clusters Examples.fs_shared
           (Examples.fresh Examples.fs_shared) Examples.jm_shared
           [("A"%string, [0]%Z); ("B"%string, [0]%Z)] 1).
  - loaded_example.
  - left. split; [reflexivity | left; reflexivity].
  - split; [| split]; simpl.
    + intros c n [<- | [<- | []]] [<- | []]; simpl; auto.
    + repeat constructor; simpl; intuition discriminate.
    + intuition discriminate.
  - intros n i [<- | [<- | []]]; simpl; intros [<- | []]; lia.
Defined.

(** ** The description of every node *)

Lemma dict_get_tabulate_str {V} (f : string -> V) (l : list string) (n : string) :
  dict_get (map (fun k => (k, f k)) l) n = if mem n l then Some (f n) else None.
Proof.
  induction l as [| k r IH]; simpl; [reflexivity |].
  rewrite String.eqb_sym.
  destruct (String.eqb_spec n k) as [-> | Hne]; simpl; [reflexivity | exact IH].
Qed.

(** X11: on a loaded model whose raw and clean artifacts hold tables,
    [compute_node_descriptions] replaces whatever descriptions were stored
    by one description per node of the complex, in the order of the node
    table: the size is the length of the item list of the node, and the
    label is the column [get_minimal_std] selects on the rows of the node
    among the columns that are numeric in the raw table and present in the
    clean one.  (It is assumed that the selection returns for every node.) *)
Theorem node_descriptions_of_every_node :
  forall (dev : Deviation) (fs : filesystem) (self : Model.Model_t)
         (jm : JMapper_t)
         (nodes : dict string (list Z)) (N : nat) (raw_df clean_df : DataFrame),
    Spec.loaded fs self jm nodes N ->
    snd (Tupper.raw fs (jm_tupper jm)) = Ok (PFrame raw_df) ->
    snd (Tupper.clean fs (jm_tupper jm)) = Ok (PFrame clean_df) ->
    NoDup (dict_keys nodes) ->
    (forall n, In n (dict_keys nodes) ->
               exists label,
                 get_minimal_std clean_df (get_default nodes n [])
                   (Some (np_intersect1d (numeric_columns raw_df)
                                         (column_names clean_df)))
                 = Ok label) ->
    exists descriptions self',
      Model.compute_node_descriptions fs self = (Ok tt, self')
      /\ Model._node_description self' = Some descriptions
      /\ dict_keys descriptions = dict_keys nodes
      /\ forall n,
          In n (dict_keys nodes) ->
          exists d,
            dict_get descriptions n = Some d
            /\ Model.size d = List.length (get_default nodes n [])
            /\ get_minimal_std clean_df (get_default nodes n [])
                 (Some (np_intersect1d (numeric_columns raw_df)
                                       (column_names clean_df)))
               = Ok (Model.label d).
Proof.
  intros dev fs self jm nodes N raw_df clean_df Hloaded Hraw Hclean Hnd Hstd.
  destruct (node_descriptions_by_minimal_std fs self jm nodes N raw_df clean_df
              Hloaded Hraw Hclean _ eq_refl self eq_refl Hnd Hstd)
    as (s' & Hrun & Hdesc).
  eexists. exists s'. split; [exact Hrun |]. split; [exact Hdesc |].
  split.
  { unfold dict_keys. rewrite map_map. simpl. apply map_id. }
  intros n Hn. rewrite dict_get_tabulate_str.
  rewrite (proj2 (mem_In _ _) Hn).
  eexists. split; [reflexivity |]. split; [reflexivity |].
  unfold Spec.description_of. simpl.
  destruct (Hstd n Hn) as (label & ->). reflexivity.
Qed.

Lemma node_descriptions_of_every_node_witness :
  exists descriptions self',
    Model.compute_node_descriptions (dev := Examples.float_std)
      Examples.fs_two_clusters (Examples.fresh Examples.fs_two_clusters)
    = (Ok tt, self')
    /\ Model._node_description self' = Some descriptions
    /\ dict_keys descriptions = ["n0"; "n1"]%string.
Proof.
  destruct (node_descriptions_of_every_node Examples.float_std
              Examples.fs_two_clusters
              (Examples.fresh Examples.fs_two_clusters) Examples.jm_two_clusters
              [("n0"%string, [0; 1]%Z); ("n1"%string, [2; 3]%Z)] 4
              Examples.raw_ab Examples.clean_ab)
    as (descriptions & self' & H1 & H2 & H3 & _).
  - loaded_example.
  - reflexivity.
  - reflexivity.
  - repeat constructor; simpl; intuition discriminate.
  - intros n [<- | [<- | []]]; eexists; vm_compute; reflexivity.
  - exists descriptions, self'. repeat apply conj; assumption.
Defined.

(** ** The selected column: what comes back, and the failures *)

Lemma select_In df cols :
  forall cs,
    select df cols = Ok cs ->
    forall nc, In nc cs -> In (fst nc) cols /\ In nc (columns df).
Proof.
  induction cols as [| c r IH]; simpl; intros cs H nc Hin.
  - injection H as <-. destruct Hin.
  - destruct (filter (fun nc => String.eqb (fst nc) c) (columns df))
      as [| f fs] eqn:Ef; [discriminate H |].
    destruct (select df r) as [rest |]; unfold rbind in H; [| discriminate H].
    injection H as <-.
    assert (Hin' : In nc ((f :: fs) ++ rest)) by exact Hin. clear Hin.
    apply in_app_or in Hin'. destruct Hin' as [Hin | Hin].
    + rewrite <- Ef in Hin. apply filter_In in Hin. destruct Hin as [Hin Heq].
      apply String.eqb_eq in Heq. auto.
    + destruct (IH rest eq_refl nc Hin). auto.
Qed.

Lemma select_found df cols :
  forall cs,
    select df cols = Ok cs ->
    forall c col, In c cols -> In (c, col) (columns df) -> In (c, col) cs.
Proof.
  induction cols as [| c0 r IH]; simpl; intros cs H c col Hc Hin.
  - destruct Hc.
  - destruct (filter (fun nc => String.eqb (fst nc) c0) (columns df))
      as [| f fs] eqn:Ef; [discriminate H |].
    destruct (select df r) as [rest |]; unfold rbind in H; [| discriminate H].
    injection H as <-. change (In (c, col) ((f :: fs) ++ rest)).
    apply in_or_app. destruct Hc as [-> | Hc].
    + left. rewrite <- Ef. apply filter_In. split; [exact Hin |].
      apply String.eqb_refl.
    + right. exact (IH rest eq_refl c col Hc Hin).
Qed.

Lemma select_present df cols :
  forall cs,
    select df cols = Ok cs ->
    forall c, In c cols -> In c (column_names df).
Proof.
  induction cols as [| c0 r IH]; simpl; intros cs H c Hc.
  - destruct Hc.
  - destruct (filter (fun nc => String.eqb (fst nc) c0) (columns df))
      as [| f fs] eqn:Ef; [discriminate H |].
    destruct (select df r) as [rest |]; unfold rbind in H; [| discriminate H].
    destruct Hc as [-> | Hc]; [| exact (IH rest eq_refl c Hc)].
    assert (Hf : In f (filter (fun nc => String.eqb (fst nc) c) (columns df)))
      by (rewrite Ef; now left).
    apply filter_In in Hf. destruct Hf as [Hin Heq].
    apply String.eqb_eq in Heq. subst c.
    unfold column_names. now apply in_map.
Qed.

Lemma select_missing df pre c post :
  (forall c', In c' pre -> In c' (column_names df)) ->
  ~ In c (column_names df) ->
  select df (pre ++ c :: post) = Raise (KeyError (KStr c)).
Proof.
  intros Hpre Hc. induction pre as [| p r IH]; simpl.
  - rewrite filter_absent by exact Hc. reflexivity.
  - destruct (filter (fun nc => String.eqb (fst nc) p) (columns df))
      as [| f fs] eqn:Ef.
    + exfalso. pose proof (Hpre p (or_introl eq_refl)) as Hp.
      unfold column_names in Hp. apply in_map_iff in Hp.
      destruct Hp as ([n col] & Hn & Hin). simpl in Hn. subst n.
      assert (Hf : In (p, col)
                      (filter (fun nc => String.eqb (fst nc) p) (columns df))).
      { apply filter_In. split; [exact Hin | apply String.eqb_refl]. }
      rewrite Ef in Hf. destruct Hf.
    + rewrite IH by (intros c' H; apply Hpre; now right). reflexivity.
Qed.

Lemma std_axis0_ok {dev : Deviation} cs :
  forall stds,
    std_axis0 cs = Ok stds ->
    forall nc, In nc cs -> is_numeric (snd nc) = true.
Proof.
  induction cs as [| [n col] r IH]; simpl; intros stds H nc Hin.
  - destruct Hin.
  - destruct col as [vals | vals]; [| discriminate H].
    destruct (std_axis0 r) as [rest |]; simpl in H; [| discriminate H].
    destruct Hin as [<- | Hin]; [reflexivity | exact (IH rest eq_refl nc Hin)].
Qed.

Lemma index_get_In names i c : index_get names i = Ok c -> In c names.
Proof.
  unfold index_get. destruct (norm_pos (List.length names) i) as [p |];
    [| discriminate].
  destruct (nth_error names p) as [c' |] eqn:E; [| discriminate].
  intros H. injection H as <-. exact (nth_error_In _ _ E).
Qed.

Lemma take_rows_numeric col ps :
  is_numeric (take_rows col ps) = is_numeric col.
Proof. destruct col; reflexivity. Qed.

(** X12: whenever [get_minimal_std] returns, the label is one of the
    density columns (of all the columns of the table when none are given)
    and names a numeric column of the table; every position of the mask is
    then a position of the table, and every density column is a column of
    the table, numeric wherever it occurs. *)
Theorem get_minimal_std_returns_a_density_column :
  forall (dev : Deviation) (df : DataFrame) (mask : list Z)
         (density_cols : option (list string)) (label : string),
    get_minimal_std df mask density_cols = Ok label ->
    let cols := match density_cols with
                | Some cols => cols
                | None => column_names df
                end in
    In label cols
    /\ (exists vals, In (label, NumCol vals) (columns df))
    /\ (forall i, In i mask -> ~ Spec.out_of_bounds (nrows df) i)
    /\ forall c, In c cols ->
                 In c (column_names df)
                 /\ forall col, In (c, col) (columns df) -> is_numeric col = true.
Proof.
  intros dev df mask density_cols label H cols.
  unfold get_minimal_std in H. fold cols in H. unfold iloc in H.
  destruct (positions_cases (nrows df) mask)
    as [(ps & Hps & Hall) | (Hps & _)]; rewrite Hps in H; simpl in H;
    [| discriminate H].
  unfold getitem_cols in H.
  match type of H with
  | context [select ?d cols] => set (rows := d) in *
  end.
  destruct (select rows cols) as [cs |] eqn:Es; simpl in H; [| discriminate H].
  destruct (std_axis0 cs) as [stds |] eqn:Estd; simpl in H; [| discriminate H].
  destruct (argmin stds) as [pos |]; simpl in H; [| discriminate H].
  apply index_get_In in H. unfold column_names in H. simpl in H.
  assert (Hrows : forall c col,
             In (c, col) (columns df) ->
             In (c, take_rows col ps) (columns rows)).
  { intros c col Hin. unfold rows. simpl. apply in_map_iff.
    exists (c, col). auto. }
  split; [| split; [| split]].
  - apply in_map_iff in H. destruct H as (nc & <- & Hin).
    exact (proj1 (select_In _ _ _ Es nc Hin)).
  - apply in_map_iff in H. destruct H as (nc & Hl & Hin).
    pose proof (std_axis0_ok _ _ Estd nc Hin) as Hnum.
    destruct (select_In _ _ _ Es nc Hin) as [_ Hc].
    unfold rows in Hc. simpl in Hc. apply in_map_iff in Hc.
    destruct Hc as ([n col] & Hnc & Hcol). subst nc. simpl in *. subst n.
    rewrite take_rows_numeric in Hnum.
    destruct col as [vals | vals]; [| discriminate Hnum].
    exists vals. exact Hcol.
  - exact Hall.
  - intros c Hc. split.
    + pose proof (select_present _ _ _ Es c Hc) as Hp.
      unfold column_names, rows in Hp. simpl in Hp. rewrite map_map in Hp.
      exact Hp.
    + intros col Hin.
      pose proof (select_found _ _ _ Es c _ Hc (Hrows c col Hin)) as Hsel.
      pose proof (std_axis0_ok _ _ Estd _ Hsel) as Hnum. simpl in Hnum.
      now rewrite take_rows_numeric in Hnum.
Qed.

Lemma get_minimal_std_returns_a_density_column_witness :
  In "a"%string ["a"; "b"]%string
  /\ (exists vals, In ("a"%string, NumCol vals) (columns Examples.clean_ab))
  /\ (forall i, In i [0; 1]%Z -> ~ Spec.out_of_bounds (nrows Examples.clean_ab) i)
  /\ forall c, In c ["a"; "b"]%string ->
               In c (column_names Examples.clean_ab)
               /\ forall col, In (c, col) (columns Examples.clean_ab) ->
                              is_numeric col = true.
Proof.
  apply (get_minimal_std_returns_a_density_column Examples.float_std
           Examples.clean_ab [0; 1]%Z (Some ["a"; "b"]%string) "a"%string).
  vm_compute. reflexivity.
Defined.

(** X13: how [get_minimal_std] fails.  A position of the mask that is no
    position of the table is an [IndexError], whatever the columns.  With
    a mask inside the table, the first density column that the table does
    not have is a [KeyError] naming it, and an empty list of density
    columns is a [ValueError]: there is no smallest of no deviation. *)
Theorem get_minimal_std_failures :
  forall (dev : Deviation) (df : DataFrame) (mask : list Z)
         (density_cols : option (list string)),
    let cols := match density_cols with
                | Some cols => cols
                | None => column_names df
                end in
    ((exists i, In i mask /\ Spec.out_of_bounds (nrows df) i) ->
     get_minimal_std df mask density_cols = Raise IndexError)
    /\ ((forall i, In i mask -> ~ Spec.out_of_bounds (nrows df) i) ->
        (forall pre c post,
            cols = pre ++ c :: post ->
            (forall c', In c' pre -> In c' (column_names df)) ->
            ~ In c (column_names df) ->
            get_minimal_std df mask density_cols = Raise (KeyError (KStr c)))
        /\ (cols = [] ->
            get_minimal_std df mask density_cols = Raise ValueError)).
Proof.
  intros dev df mask density_cols cols. split.
  - intros (i & Hi & Hout). unfold get_minimal_std, iloc.
    destruct (positions_cases (nrows df) mask)
      as [(ps & _ & Hall) | (Hps & _)].
    + destruct (Hall i Hi Hout).
    + now rewrite Hps.
  - intros Hin.
    destruct (positions_cases (nrows df) mask)
      as [(ps & Hps & _) | (_ & i & Hi & Hout)]; [| destruct (Hin i Hi Hout)].
    split.
    + intros pre c post Ecols Hpre Hc.
      unfold get_minimal_std, iloc. fold cols. rewrite Hps. simpl.
      unfold getitem_cols. rewrite Ecols.
      rewrite select_missing; [reflexivity | |];
        unfold column_names; simpl; rewrite map_map; simpl.
      * exact Hpre.
      * exact Hc.
    + intros Ecols. unfold get_minimal_std, iloc. fold cols.
      rewrite Hps, Ecols. reflexivity.
Qed.

(** ** Scores of a record *)

Lemma error_not_negative x mu : Spec.not_negative (error x mu).
Proof.
  unfold error. destruct (xdiv (xsub x mu) mu); simpl; auto.
  apply Qabs_nonneg.
Qed.

Lemma xadd_fin s e q :
  xadd s e = Fin q -> exists a b, s = Fin a /\ e = Fin b /\ q = (a + b)%Q.
Proof.
  destruct s, e; simpl; intros H; try discriminate H.
  injection H as <-. eauto.
Qed.

Lemma xadd_not_negative s e :
  Spec.not_negative s -> Spec.not_negative e -> Spec.not_negative (xadd s e).
Proof.
  destruct s, e; simpl; auto. intros Hs He.
  rewrite <- (Qplus_0_r 0). now apply Qplus_le_compat.
Qed.

Lemma Qabs_zero (q : Q) : (Qabs q == 0)%Q -> (q == 0)%Q.
Proof.
  intros H. apply Qle_antisym.
  - rewrite <- H. apply Qle_Qabs.
  - pose proof (Qle_Qabs (- q)) as Hn. rewrite Qabs_opp, H in Hn. lra.
Qed.

Lemma error_fin_zero x mu q :
  error x mu = Fin q -> (q == 0)%Q ->
  exists a b, x = Fin a /\ mu = Fin b /\ ~ (b == 0)%Q /\ (a == b)%Q.
Proof.
  unfold error, xsub.
  destruct x as [a | | |], mu as [b | | |]; try (simpl; discriminate);
    try (cbn [xadd xneg xdiv]; destruct (Qsign b); cbn [xabs]; discriminate).
  change (xabs (xdiv (Fin (a + - b)) (Fin b)) = Fin q -> (q == 0)%Q ->
          exists a0 b0, Fin a = Fin a0 /\ Fin b = Fin b0
                        /\ ~ (b0 == 0)%Q /\ (a0 == b0)%Q).
  unfold xdiv, Qsign.
  destruct (Qcompare_spec b 0) as [Hb | Hb | Hb].
  - destruct (Qcompare_spec (a + - b) 0); cbn [xabs]; discriminate.
  - cbn [xabs]. intros H Hq.
    apply (f_equal (fun s => match s with Fin r => r | _ => 0%Q end)) in H.
    cbv beta iota in H. rewrite <- H in Hq.
    apply Qabs_zero in Hq.
    exists a, b. repeat split; try reflexivity; [lra |].
    assert (E : (a + - b == (a + - b) / b * b)%Q) by (field; lra).
    rewrite Hq in E. lra.
  - cbn [xabs]. intros H Hq.
    apply (f_equal (fun s => match s with Fin r => r | _ => 0%Q end)) in H.
    cbv beta iota in H. rewrite <- H in Hq.
    apply Qabs_zero in Hq.
    exists a, b. repeat split; try reflexivity; [lra |].
    assert (E : (a + - b == (a + - b) / b * b)%Q) by (field; lra).
    rewrite Hq in E. lra.
Qed.

Lemma score_loop_sign target group_data cols :
  forall s0 s,
    rfor_each cols
      (fun col score =>
         rbind (Model.cell0 target col) (fun x =>
         rbind (Model.column_mean group_data col) (fun mu =>
         Ok (xadd score (error x mu)))))
      s0 = Ok s ->
    (Spec.not_negative s0 -> Spec.not_negative s)
    /\ forall q,
        s = Fin q ->
        exists q0,
          s0 = Fin q0
          /\ (Spec.not_negative s0 -> (q0 <= q)%Q)
          /\ (Spec.not_negative s0 -> (q == q0)%Q ->
              forall col, In col cols ->
                exists x mu,
                  Model.cell0 target col = Ok (Fin x)
                  /\ Model.column_mean group_data col = Ok (Fin mu)
                  /\ ~ (mu == 0)%Q /\ (x == mu)%Q).
Proof.
  induction cols as [| c r IH]; simpl; intros s0 s H.
  - injection H as <-. split; [auto |]. intros q ->. exists q.
    split; [reflexivity |]. split; [intros _; lra |]. intros _ _ col [].
  - destruct (Model.cell0 target c) as [x |] eqn:Ex; simpl in H; [| discriminate H].
    destruct (Model.column_mean group_data c) as [mu |] eqn:Emu; simpl in H;
      [| discriminate H].
    destruct (IH _ _ H) as [Hsign Hfin]. split.
    + intros H0. apply Hsign. apply xadd_not_negative; [exact H0 |].
      apply error_not_negative.
    + intros q Eq. destruct (Hfin q Eq) as (q1 & E1 & Hle & Hzero).
      apply xadd_fin in E1. destruct E1 as (a & b & -> & Eb & ->).
      exists a. split; [reflexivity |].
      pose proof (error_not_negative x mu) as Hb. rewrite Eb in Hb. simpl in Hb.
      assert (Hab : Spec.not_negative (Fin a) ->
                    Spec.not_negative (xadd (Fin a) (error x mu))).
      { intros Ha. apply xadd_not_negative; [exact Ha |]. apply error_not_negative. }
      rewrite Eb in Hab, Hle, Hzero. simpl xadd in Hab, Hle, Hzero.
      split.
      * intros Ha. specialize (Hle (Hab Ha)). simpl in Ha. lra.
      * intros Ha Hq col [<- | Hcol].
        -- specialize (Hle (Hab Ha)).
           assert (Hb0 : (b == 0)%Q) by lra.
           destruct (error_fin_zero _ _ _ Eb Hb0) as (x' & mu' & -> & -> & Hm & Hx).
           exists x', mu'. auto.
        -- specialize (Hle (Hab Ha)).
           apply (Hzero (Hab Ha)); [lra | exact Hcol].
Qed.

(** X14: a score that [target_matching] gives a group is never below
    zero: it is a number that is not negative, plus infinity, or
    not-a-number.  A score of zero means that on every compared column the
    cell of the record and the mean of the group are numbers, the mean is
    not zero, and the two are equal. *)
Theorem scores_are_never_negative :
  forall (target group_data : DataFrame) (target_cols raw_cols : list string)
         (s : xnum),
    Model.score_group target target_cols raw_cols group_data = Ok s ->
    s <> NInf
    /\ (forall q, s = Fin q -> (0 <= q)%Q)
    /\ (forall q, s = Fin q -> (q == 0)%Q ->
        forall col,
          In col (Model.compared_columns target_cols raw_cols) ->
          exists x mu,
            Model.cell0 target col = Ok (Fin x)
            /\ Model.column_mean group_data col = Ok (Fin mu)
            /\ ~ (mu == 0)%Q /\ (x == mu)%Q).
Proof.
  intros target group_data target_cols raw_cols s H.
  unfold Model.score_group in H. rewrite score_group_compared in H.
  destruct (score_loop_sign _ _ _ _ _ H) as [Hsign Hfin].
  assert (H0 : Spec.not_negative (Fin 0)) by (simpl; lra).
  specialize (Hsign H0).
  split; [| split].
  - intros ->. exact Hsign.
  - intros q ->. exact Hsign.
  - intros q Eq Hq. destruct (Hfin q Eq) as (q0 & E0 & _ & Hzero).
    injection E0 as <-. apply (Hzero H0). exact Hq.
Qed.

Lemma scores_are_never_negative_witness :
  Fin (4 # 4) <> NInf
  /\ (forall q, Fin (4 # 4) = Fin q -> (0 <= q)%Q)
  /\ (forall q, Fin (4 # 4) = Fin q -> (q == 0)%Q ->
      forall col,
        In col (Model.compared_columns ["a"]%string ["a"; "b"]%string) ->
        exists x mu,
          Model.cell0 Examples.target_a0 col = Ok (Fin x)
          /\ Model.column_mean
               (Model.merge_group 1 [2; 3]%nat Examples.raw_outlier) col
             = Ok (Fin mu)
          /\ ~ (mu == 0)%Q /\ (x == mu)%Q).
Proof.
  apply (scores_are_never_negative Examples.target_a0
           (Model.merge_group 1 [2; 3]%nat Examples.raw_outlier)
           ["a"]%string ["a"; "b"]%string (Fin (4 # 4))).
  vm_compute. reflexivity.
Defined.

(** ** The group of the lowest score *)

Lemma xltb_xleb a b : xltb a b = true -> xleb a b = true.
Proof.
  destruct a as [x | | |], b as [y | | |]; simpl; try discriminate; auto.
  destruct (Qcompare_spec x y) as [H | H | H]; try discriminate.
  intros _. apply Qle_bool_iff. lra.
Qed.

Lemma xltb_not_xleb a b : xltb a b = true -> xleb b a = false.
Proof.
  destruct a as [x | | |], b as [y | | |]; simpl; try discriminate; auto.
  destruct (Qcompare_spec x y) as [H | H | H]; try discriminate.
  intros _. destruct (Qle_bool y x) eqn:E; [| reflexivity].
  apply Qle_bool_iff in E. lra.
Qed.

Lemma xleb_xltb_trans a b c :
  xleb a b = true -> xltb b c = true -> xltb a c = true.
Proof.
  destruct a as [x | | |], b as [y | | |], c as [z | | |]; simpl;
    try discriminate; auto.
  intros Hxy. apply Qle_bool_iff in Hxy.
  destruct (Qcompare_spec y z) as [H | H | H]; try discriminate.
  intros _. destruct (Qcompare_spec x z) as [H' | H' | H']; try reflexivity; lra.
Qed.

Lemma min_scan_first (rest : dict string xnum) :
  forall (pre mid : dict string xnum) (first : string * xnum),
    (forall e, In e pre -> xleb (snd e) (snd first) = false) ->
    (forall e, In e mid -> xltb (snd e) (snd first) = false) ->
    let best :=
      fold_left (fun best kv => if xltb (snd kv) (snd best) then kv else best)
                rest first in
    exists pre' post',
      pre ++ first :: mid ++ rest = pre' ++ best :: post'
      /\ (forall e, In e pre' -> xleb (snd e) (snd best) = false)
      /\ (forall e, In e post' -> xltb (snd e) (snd best) = false).
Proof.
  induction rest as [| kv r IH]; intros pre mid first Hpre Hmid; simpl.
  - exists pre, mid. rewrite app_nil_r. auto.
  - destruct (xltb (snd kv) (snd first)) eqn:Elt.
    + destruct (IH (pre ++ first :: mid) [] kv) as (pre' & post' & E & H1 & H2).
      * intros e He. apply in_app_or in He.
        destruct (xleb (snd e) (snd kv)) eqn:Ele; [| reflexivity].
        pose proof (xleb_xltb_trans _ _ _ Ele Elt) as Hlt.
        destruct He as [He | [<- | He]].
        -- apply xltb_xleb in Hlt. rewrite (Hpre e He) in Hlt. discriminate.
        -- rewrite xltb_irrefl in Hlt. discriminate.
        -- rewrite (Hmid e He) in Hlt. discriminate.
      * intros e [].
      * exists pre', post'. split; [| auto].
        rewrite <- E. simpl. rewrite <- app_assoc. reflexivity.
    + destruct (IH pre (mid ++ [kv]) first Hpre) as (pre' & post' & E & H1 & H2).
      * intros e He. apply in_app_or in He.
        destruct He as [He | [<- | []]]; [now apply Hmid | exact Elt].
      * exists pre', post'. split; [| auto].
        rewrite <- E. rewrite <- app_assoc. reflexivity.
Qed.

(** X15: whenever [target_matching] returns, the group it names is a key
    of the scores it returns, the first one of the lowest score: no score
    listed before it is equal to its score or below, and no score listed
    after it is below.  (A comparison with a score that is not-a-number
    never holds.) *)
Theorem min_index_is_the_first_lowest_score :
  forall (fs : filesystem) (target : DataFrame) (remove_unclustered : bool)
         (col_filter : option (list string)) (self self' : Model.Model_t)
         (scores : dict string xnum) (min_index : string),
    Model.target_matching fs target remove_unclustered col_filter self
    = (Ok (scores, min_index), self') ->
    exists v pre post,
      scores = pre ++ (min_index, v) :: post
      /\ (forall e, In e pre -> xleb (snd e) v = false)
      /\ (forall e, In e post -> xltb (snd e) v = false).
Proof.
  intros fs target remove_unclustered col_filter self self' scores min_index H.
  unfold Model.target_matching in H.
  peel H as tables s1 H1. peel H as kept s2 H2. peel H as raw_cols s3 H3.
  peel H as scores0 s4 H4. peel H as best s5 H5.
  unfold Model.ret in H. injection H as <- <- <-.
  apply lift_ok in H5. destruct H5 as [Hmin _].
  unfold Model.min_key in Hmin.
  destruct scores0 as [| first rest]; [discriminate Hmin |].
  injection Hmin as <-.
  destruct (min_scan_first rest [] [] first) as (pre & post & E & Hpre & Hpost).
  - intros e [].
  - intros e [].
  - simpl in E.
    set (b := fold_left
                (fun best kv => if xltb (snd kv) (snd best) then kv else best)
                rest first) in *.
    exists (snd b), pre, post. split; [| auto].
    rewrite E. now destruct b.
Qed.

Lemma min_index_is_the_first_lowest_score_witness :
  exists v pre post,
    [("group_0"%string, NaN); ("group_1"%string, Fin (4 # 4))]
    = pre ++ ("group_0"%string, v) :: post
    /\ (forall e, In e pre -> xleb (snd e) v = false)
    /\ (forall e, In e post -> xltb (snd e) v = false).
Proof.
  apply (min_index_is_the_first_lowest_score Examples.fs_outlier
           Examples.target_a0 true None (Examples.fresh Examples.fs_outlier)
           (snd (Model.target_matching Examples.fs_outlier Examples.target_a0
                   true None (Examples.fresh Examples.fs_outlier)))).
  vm_compute. reflexivity.
Defined.

(** ** The tables of the nodes of a component *)

Lemma missing_label_none n labels :
  (forall i, In i labels -> (0 <= i < Z.of_nat n)%Z) ->
  Model.missing_label n labels = None.
Proof.
  intros Hall. unfold Model.missing_label.
  destruct (find _ labels) as [i |] eqn:E; [| reflexivity].
  apply find_some in E. destruct E as [Hin Hbad].
  destruct (Hall i Hin) as [H0 Hn].
  apply Z.leb_le in H0. apply Z.ltb_lt in Hn. rewrite H0, Hn in Hbad.
  discriminate Hbad.
Qed.

Lemma missing_label_some n labels :
  (exists i, In i labels /\ ~ (0 <= i < Z.of_nat n)%Z) ->
  exists i, Model.missing_label n labels = Some i
            /\ In i labels /\ ~ (0 <= i < Z.of_nat n)%Z.
Proof.
  intros (i & Hin & Hbad). unfold Model.missing_label.
  destruct (find _ labels) as [j |] eqn:E.
  - apply find_some in E. destruct E as [Hj Hb]. exists j.
    split; [reflexivity |]. split; [exact Hj |].
    intros [H0 Hn]. apply Z.leb_le in H0. apply Z.ltb_lt in Hn.
    rewrite H0, Hn in Hb. discriminate Hb.
  - exfalso. pose proof (find_none _ _ E i Hin) as Hn.
    apply negb_false_iff, andb_true_iff in Hn. destruct Hn as [H0 Hn].
    apply Z.leb_le in H0. apply Z.ltb_lt in Hn. apply Hbad. lia.
Qed.

Section NodeTables.

Variable fs : filesystem.
Variable self0 : Model.Model_t.
Variable jm : JMapper_t.
Variable nodes : dict string (list Z).
Variable N : nat.
Variable raw_df : DataFrame.
Hypothesis Hloaded : Spec.loaded fs self0 jm nodes N.
Hypothesis Hraw : snd (Tupper.raw fs (jm_tupper jm)) = Ok (PFrame raw_df).

(** [_get_node_df] on a node of the complex: the rows of the raw table
    that carry the items of the node as labels. *)
Lemma get_node_df_at s n :
  Model._mapper s = Model._mapper self0 ->
  In n (dict_keys nodes) ->
  Model._get_node_df fs n s
  = (Model.loc_rows (PFrame raw_df) (get_default nodes n []), s).
Proof.
  intros E Hn. unfold Model._get_node_df.
  rewrite (bind_run _ _ _ _ _ _ _
             (tupper_raw_frame fs self0 jm nodes N raw_df Hloaded Hraw s E)).
  unfold Model.lift at 1. simpl Model.attr_loc. unfold Model.bind at 1.
  rewrite (bind_run _ _ _ _ _ _ _ (mapper_at fs self0 jm nodes N Hloaded s E)).
  unfold Model.lift at 1. simpl Model.attr_complex. unfold Model.bind at 1.
  unfold Model.lift at 1.
  rewrite (node_table_at fs self0 jm nodes N Hloaded). unfold Model.bind at 1.
  unfold Model.lift at 1. rewrite (getitem_key nodes n Hn).
  unfold Model.bind at 1. reflexivity.
Qed.

Lemma node_dfs_loop ns :
  (forall n, In n ns -> In n (dict_keys nodes)) ->
  (forall n i, In n ns -> In i (get_default nodes n []) ->
               (0 <= i < Z.of_nat (nrows raw_df))%Z) ->
  forall s acc,
    Model._mapper s = Model._mapper self0 ->
    Model.for_each ns
      (fun node node_dict =>
         Model.bind (Model._get_node_df fs node) (fun df =>
         Model.ret (dict_set node_dict node df)))
      acc s
    = (Ok (fold_left
             (fun d n => dict_set d n
                           (PFrame (Spec.rows_at raw_df (get_default nodes n []))))
             ns acc),
       s).
Proof.
  induction ns as [| n r IH]; intros Hkeys Hrows s acc E; simpl; [reflexivity |].
  unfold Model.bind at 1. unfold Model.bind at 1.
  rewrite (get_node_df_at s n E (Hkeys n (or_introl eq_refl))).
  unfold Model.loc_rows.
  rewrite missing_label_none
    by (intros i Hi; apply (Hrows n i); [now left | exact Hi]).
  unfold Model.ret at 1.
  apply IH; [| | exact E].
  - intros n' H. apply Hkeys. now right.
  - intros n' i H. apply Hrows. now right.
Qed.

End NodeTables.

Lemma fold_dict_set_tabulate {V} (f : string -> V) (ns : list string) :
  forall d : dict string V,
    NoDup (dict_keys d ++ ns) ->
    fold_left (fun d n => dict_set d n (f n)) ns d
    = d ++ map (fun n => (n, f n)) ns.
Proof.
  induction ns as [| n r IH]; intros d Hnd; simpl.
  - now rewrite app_nil_r.
  - assert (Hfresh : ~ In n (dict_keys d)).
    { intros Hin. apply NoDup_remove_2 in Hnd. apply Hnd.
      apply in_or_app. now left. }
    rewrite (dict_set_absent _ _ _ Hfresh). rewrite IH.
    + now rewrite <- app_assoc.
    + unfold dict_keys in *. rewrite map_app. simpl. now rewrite <- app_assoc.
Qed.

(** X16: [get_node_dfs(cc)] reads [cc] as a position in the list of the
    components, not as a cluster id: on a model whose mapper artifact
    loads with [n] components, a [cc] below [-n] or at least [n] fails with
    an [IndexError] and leaves the model unchanged. *)
Theorem get_node_dfs_index_error :
  forall (fs : filesystem) (self : Model.Model_t) (jm : JMapper_t) (cc : Z),
    fst (Model.mapper fs self) = Ok (PMapper jm) ->
    Spec.out_of_bounds (List.length (jm_components jm)) cc ->
    Model.get_node_dfs fs cc self = (Raise IndexError, self).
Proof.
  intros fs self jm cc Hm Hout. unfold Model.get_node_dfs.
  rewrite (bind_run _ _ _ _ _ _ _ (@mapper_run fs self _ Hm)).
  unfold Model.lift at 1. simpl Model.attr_components. unfold Model.bind at 1.
  unfold Model.list_getitem.
  rewrite (proj2 (norm_pos_none _ _) Hout). reflexivity.
Qed.

Lemma get_node_dfs_index_error_witness :
  Model.get_node_dfs Examples.fs_two_clusters 2
    (Examples.fresh Examples.fs_two_clusters)
  = (Raise IndexError, Examples.fresh Examples.fs_two_clusters).
Proof.
  apply (get_node_dfs_index_error Examples.fs_two_clusters
           (Examples.fresh Examples.fs_two_clusters) Examples.jm_two_clusters 2).
  - reflexivity.
  - unfold Spec.out_of_bounds. simpl. lia.
Defined.

(** X17: on a loaded model whose raw artifact holds a table,
    [get_node_dfs(cc)] returns, for the component at position [cc], one
    table per node, keyed by the node id in the order of the nodes: the
    rows of the raw table labelled by the items of the node, one row per
    entry of the item list and in its order, with the columns of the raw
    table; the model is left as it is.  (The nodes are nodes of the
    complex and their items are row labels of the raw table.) *)
Theorem node_tables_of_a_component :
  forall (fs : filesystem) (self : Model.Model_t) (jm : JMapper_t)
         (nodes : dict string (list Z)) (N : nat) (raw_df : DataFrame)
         (cc : Z) (ns : list string) (key : Z),
    Spec.loaded fs self jm nodes N ->
    snd (Tupper.raw fs (jm_tupper jm)) = Ok (PFrame raw_df) ->
    Model.list_getitem (jm_components jm) cc = Ok (ns, key) ->
    NoDup ns ->
    (forall n, In n ns -> In n (dict_keys nodes)) ->
    (forall n i, In n ns -> In i (get_default nodes n []) ->
                 (0 <= i < Z.of_nat (nrows raw_df))%Z) ->
    exists dfs,
      Model.get_node_dfs fs cc self = (Ok dfs, self)
      /\ dict_keys dfs = ns
      /\ forall n,
          In n ns ->
          let items := get_default nodes n [] in
          let table := Spec.rows_at raw_df items in
          dict_get dfs n = Some (PFrame table)
          /\ nrows table = List.length items
          /\ column_names table = column_names raw_df
          /\ forall c vals,
              dict_get (columns raw_df) c = Some (NumCol vals) ->
              dict_get (columns table) c
              = Some (NumCol (map (fun i => nth (Z.to_nat i) vals None) items)).
Proof.
  intros fs self jm nodes N raw_df cc ns key Hloaded Hraw Hcc Hnd Hkeys Hrows.
  exists (map (fun n => (n, PFrame (Spec.rows_at raw_df (get_default nodes n []))))
              ns).
  split; [| split].
  - unfold Model.get_node_dfs.
    rewrite (bind_run _ _ _ _ _ _ _
               (mapper_at fs self jm nodes N Hloaded self eq_refl)).
    unfold Model.lift at 1. simpl Model.attr_components. unfold Model.bind at 1.
    unfold Model.lift at 1. rewrite Hcc. unfold Model.bind at 1.
    rewrite (node_dfs_loop fs self jm nodes N raw_df Hloaded Hraw ns Hkeys Hrows
               self [] eq_refl).
    now rewrite (fold_dict_set_tabulate _ ns [] Hnd).
  - unfold dict_keys. rewrite map_map. simpl. apply map_id.
  - intros n Hn items table.
    split; [| split; [| split]].
    + rewrite dict_get_tabulate_str. now rewrite (proj2 (mem_In _ _) Hn).
    + unfold table, Spec.rows_at. simpl. apply length_map.
    + unfold table, Spec.rows_at, column_names. simpl. rewrite map_map.
      reflexivity.
    + intros c vals Hc. unfold table, Spec.rows_at. simpl.
      rewrite (dict_get_map_values (columns raw_df)
                 (fun col => take_rows col (map Z.to_nat items)) c).
      rewrite Hc. simpl. now rewrite map_map.
Qed.

Lemma node_tables_of_a_component_witness :
  exists dfs,
    Model.get_node_dfs Examples.fs_two_clusters (-1)
      (Examples.fresh Examples.fs_two_clusters)
    = (Ok dfs, Examples.fresh Examples.fs_two_clusters)
    /\ dict_keys dfs = ["n1"]%string.
Proof.
  destruct (node_tables_of_a_component Examples.fs_two_clusters
              (Examples.fresh Examples.fs_two_clusters) Examples.jm_two_clusters
              [("n0"%string, [0; 1]%Z); ("n1"%string, [2; 3]%Z)] 4
              Examples.raw_ab (-1) ["n1"%string] 1)
    as (dfs & H1 & H2 & _).
  - loaded_example.
  - reflexivity.
  - reflexivity.
  - repeat constructor. simpl. tauto.
  - intros n [<- | []]. simpl. auto.
  - intros n i [<- | []]; simpl; intros [<- | [<- | []]]; lia.
  - exists dfs. split; assumption.
Defined.

(** ** The hyperparameters of the model *)

(** X18: the first read of [hyper_parameters] on a model that has none
    stored loads the entry [hyperparameters] of the mapper artifact and
    stores it.  When the value is no table, series or array: a truthy
    value is then answered from the model, whatever became of the file; a
    falsy one (an empty dictionary or list, zero, the empty string, [None])
    is stored in vain: every later read opens the mapper artifact again,
    and fails when it is gone. *)
Theorem hyper_parameters_cache_only_truthy_values :
  forall (fs1 fs2 : filesystem) (self s1 : Model.Model_t) (hp : pyval),
    Model._hyper_parameters self = None ->
    Model.hyper_parameters fs1 self = (Ok hp, s1) ->
    Spec.plain_value hp = true ->
    exists path,
      Model._mapper self = Some path
      /\ rbind (load fs1 path) (fun ref => subscript ref "hyperparameters") = Ok hp
      /\ s1 = Model.set_hyper_parameters (Some hp) self
      /\ Model.hyper_parameters fs2 s1
         = if py_truthy hp then (Ok hp, s1)
           else match rbind (load fs2 path)
                            (fun ref => subscript ref "hyperparameters") with
                | Ok hp' => (Ok hp', Model.set_hyper_parameters (Some hp') s1)
                | Raise e => (Raise e, s1)
                end.
Proof.
  intros fs1 fs2 self s1 hp Hnone H _.
  unfold Model.hyper_parameters, Model.bind at 1, Model.get in H.
  rewrite Hnone in H.
  unfold Model.assert_mapper, Model.bind at 1, Model.bind at 1, Model.get in H.
  destruct (Model._mapper self) as [path |] eqn:Ep; [| discriminate H].
  destruct (truthy path) eqn:Et; [| discriminate H].
  unfold Model.ret at 1, Model.bind at 1, Model.lift at 1 in H.
  destruct (load fs1 path) as [ref |] eqn:El; [| discriminate H].
  unfold Model.bind at 1, Model.lift at 1 in H.
  destruct (subscript ref "hyperparameters") as [hp0 |] eqn:Es; [| discriminate H].
  unfold Model.bind, Model.modify, Model.ret in H. injection H as <- <-.
  exists path. split; [reflexivity |]. split; [rewrite El; exact Es |].
  split; [reflexivity |].
  unfold Model.hyper_parameters, Model.bind at 1, Model.get.
  cbn [Model._hyper_parameters Model.set_hyper_parameters].
  destruct (py_truthy hp0); [reflexivity |].
  unfold Model.assert_mapper, Model.bind at 1, Model.bind at 1, Model.get.
  cbn [Model._mapper Model.set_hyper_parameters]. rewrite Ep, Et.
  unfold Model.ret at 1, Model.bind at 1, Model.lift at 1.
  destruct (load fs2 path) as [ref2 |]; [| reflexivity].
  unfold Model.bind at 1, Model.lift at 1. simpl rbind.
  destruct (subscript ref2 "hyperparameters") as [hp2 |]; reflexivity.
Qed.

Lemma hyper_parameters_cache_only_truthy_values_witness :
  let s1 := Model.set_hyper_parameters (Some (PDict []))
              (Examples.fresh Examples.fs_two_clusters) in
  exists path,
    Model._mapper (Examples.fresh Examples.fs_two_clusters) = Some path
    /\ rbind (load Examples.fs_two_clusters path)
             (fun ref => subscript ref "hyperparameters")
       = Ok (PDict [])
    /\ s1 = Model.set_hyper_parameters (Some (PDict []))
              (Examples.fresh Examples.fs_two_clusters)
    /\ Model.hyper_parameters [] s1
       = if py_truthy (PDict []) then (Ok (PDict []), s1)
         else match rbind (load [] path)
                          (fun ref => subscript ref "hyperparameters") with
              | Ok hp' => (Ok hp', Model.set_hyper_parameters (Some hp') s1)
              | Raise e => (Raise e, s1)
              end.
Proof.
  intros s1.
  apply (hyper_parameters_cache_only_truthy_values Examples.fs_two_clusters []
           (Examples.fresh Examples.fs_two_clusters) s1 (PDict [])).
  - reflexivity.
  - reflexivity.
  - reflexivity.
Defined.

(** ** The tables of the clusters *)

Lemma append_inj_r (p a b : string) : (p ++ a = p ++ b)%string -> a = b.
Proof.
  induction p as [| c p IH]; simpl; intros H; [exact H |].
  injection H as H. now apply IH.
Qed.

Lemma repr_int_inj (a b : Z) : repr_int a = repr_int b -> a = b.
Proof.
  unfold repr_int. intros H. apply DecimalZ.to_int_inj.
  assert (Hnn : forall z, Z.to_int z <> Decimal.Pos Decimal.Nil
                          /\ Z.to_int z <> Decimal.Neg Decimal.Nil).
  { intros [| p | p]; simpl; split; try discriminate;
      intros E; injection E as E;
      exact (DecimalPos.Unsigned.to_uint_nonnil p E). }
  pose proof (NilZero.isi (Z.to_int a) (proj1 (Hnn a)) (proj2 (Hnn a))) as Ha.
  pose proof (NilZero.isi (Z.to_int b) (proj1 (Hnn b)) (proj2 (Hnn b))) as Hb.
  rewrite H in Ha. rewrite Ha in Hb. now injection Hb.
Qed.

Lemma group_key_inj (a b : Z) : Spec.group_key a = Spec.group_key b -> a = b.
Proof.
  unfold Spec.group_key. intros H. apply repr_int_inj.
  exact (append_inj_r _ _ _ H).
Qed.

Lemma group_key_NoDup (ks : list Z) : NoDup ks -> NoDup (map Spec.group_key ks).
Proof.
  induction 1 as [| k r Hk Hr IH]; simpl; constructor; [| exact IH].
  intros Hin. apply in_map_iff in Hin. destruct Hin as (k' & E & Hk').
  apply group_key_inj in E. subst k'. contradiction.
Qed.

Lemma fold_dict_set_entries {E V} (key : E -> string) (val : E -> V)
      (es : list E) :
  forall d : dict string V,
    NoDup (dict_keys d ++ map key es) ->
    fold_left (fun d e => dict_set d (key e) (val e)) es d
    = d ++ map (fun e => (key e, val e)) es.
Proof.
  induction es as [| e r IH]; intros d Hnd; simpl.
  - now rewrite app_nil_r.
  - assert (Hfresh : ~ In (key e) (dict_keys d)).
    { intros Hin. apply NoDup_remove_2 in Hnd. apply Hnd.
      apply in_or_app. now left. }
    rewrite (dict_set_absent _ _ _ Hfresh). rewrite IH.
    + now rewrite <- app_assoc.
    + unfold dict_keys in *. rewrite map_app. simpl. now rewrite <- app_assoc.
Qed.

Lemma dict_pop_last {V} (d : dict string V) k v :
  ~ In k (dict_keys d) -> dict_pop (d ++ [(k, v)]) k = Ok d.
Proof.
  induction d as [| [k' v'] r IH]; simpl; intros Hk.
  - now rewrite String.eqb_refl.
  - destruct (String.eqb_spec k' k) as [-> | Hne]; [exfalso; auto |].
    rewrite IH by tauto. reflexivity.
Qed.

Lemma rows_of_length (N : nat) (l : list Z) :
  NoDup l -> (forall i, In i l -> (0 <= i < Z.of_nat N)%Z) ->
  List.length (Spec.rows_of N l) = List.length l.
Proof.
  intros Hnd Hr. unfold Spec.rows_of. rewrite length_map.
  apply Permutation_length. apply NoDup_Permutation.
  - apply NoDup_filter, range_NoDup.
  - exact Hnd.
  - intros i. rewrite filter_In, range_In. split.
    + intros [_ Hm]. exact (proj1 (mem_In _ _) Hm).
    + intros Hi. split; [now apply Hr | exact (proj2 (mem_In _ _) Hi)].
Qed.

Lemma rows_of_bound (N : nat) (l : list Z) p :
  In p (Spec.rows_of N l) -> (p < N)%nat.
Proof.
  unfold Spec.rows_of. intros H. apply in_map_iff in H.
  destruct H as (i & <- & Hi). apply filter_In in Hi. destruct Hi as [Hi _].
  apply range_In in Hi. lia.
Qed.

Lemma group_rows_at (clean : DataFrame) (idxs : list Z) :
  (forall i, In i idxs -> (0 <= i < Z.of_nat (nrows clean))%Z) ->
  Model.group_rows clean idxs = Ok (Spec.rows_of (nrows clean) idxs).
Proof.
  intros Hr. unfold Model.group_rows.
  destruct (find _ idxs) as [i |] eqn:E; [| reflexivity].
  apply find_some in E. destruct E as [Hin Hbad].
  destruct (Hr i Hin) as [H0 Hn].
  apply Z.leb_le in H0. apply Z.ltb_lt in Hn. rewrite H0, Hn in Hbad.
  discriminate Hbad.
Qed.

Section ClusterTables.

Variable fs : filesystem.
Variable self0 : Model.Model_t.
Variable jm : JMapper_t.
Variable nodes : dict string (list Z).
Variable N : nat.
Variables raw_df clean_df : DataFrame.
Hypothesis Hloaded : Spec.loaded fs self0 jm nodes N.
Hypothesis Hraw : snd (Tupper.raw fs (jm_tupper jm)) = Ok (PFrame raw_df).
Hypothesis Hclean : snd (Tupper.clean fs (jm_tupper jm)) = Ok (PFrame clean_df).

Lemma clean_rows : nrows clean_df = N.
Proof.
  destruct Hloaded as (_ & _ & clean & Hc & Hlen).
  rewrite Hclean in Hc. injection Hc as <-. simpl in Hlen.
  now injection Hlen.
Qed.

Lemma cluster_dfs_loop (entries : dict Z (list Z)) :
  (forall k idxs i, In (k, idxs) entries -> In i idxs ->
                    (0 <= i < Z.of_nat N)%Z) ->
  forall s acc,
    Model._mapper s = Model._mapper self0 ->
    Model.for_each entries
      (fun entry group_dataframes =>
         let '(group_label, indexes) := entry in
         Model.bind (Model.tupper_clean fs) (fun clean =>
         Model.bind (Model.lift (Model.as_frame clean)) (fun df =>
         Model.bind (Model.lift (Model.group_rows df indexes)) (fun rows =>
         Model.bind (Model.tupper_raw fs) (fun raw =>
         Model.bind (Model.lift (Model.as_merge_operand raw)) (fun raw_df =>
         Model.ret (dict_set group_dataframes
                             ("group_" ++ repr_int group_label)%string
                             (Model.merge_group group_label rows raw_df))))))))
      acc s
    = (Ok (fold_left
             (fun d e => dict_set d (Spec.group_key (fst e))
                           (Model.merge_group (fst e) (Spec.rows_of N (snd e))
                                              raw_df))
             entries acc),
       s).
Proof.
  induction entries as [| [k idxs] r IH]; intros Hr s acc E; simpl;
    [reflexivity |].
  unfold Model.bind at 1.
  rewrite (bind_run _ _ _ _ _ _ _
             (tupper_clean_frame fs self0 jm nodes N clean_df Hloaded Hclean s E)).
  unfold Model.lift at 1. simpl Model.as_frame. unfold Model.bind at 1.
  unfold Model.lift at 1.
  rewrite group_rows_at
    by (rewrite clean_rows; intros i Hi; apply (Hr k idxs i); [now left | exact Hi]).
  rewrite clean_rows. unfold Model.bind at 1.
  rewrite (bind_run _ _ _ _ _ _ _
             (tupper_raw_frame fs self0 jm nodes N raw_df Hloaded Hraw s E)).
  unfold Model.lift at 1. simpl Model.as_merge_operand. unfold Model.bind at 1.
  unfold Model.ret at 1.
  apply IH; [| exact E].
  intros k' idxs' i H Hi. apply (Hr k' idxs' i); [now right | exact Hi].
Qed.

Lemma item_lists_in_range :
  (forall c n, In c (jm_components jm) -> In n (fst c) -> In n (dict_keys nodes)) ->
  Spec.items_in_range nodes N ->
  forall k idxs i,
    In (k, idxs) (Spec.item_lists nodes (jm_components jm) N) -> In i idxs ->
    (0 <= i < Z.of_nat N)%Z.
Proof.
  intros Hkeys Hrange k idxs i Hin Hi. apply item_lists_In in Hin.
  destruct Hin as [(c & Hc & _ & ->) | [_ ->]].
  - apply (members_In nodes), (items_of_In nodes) in Hi.
    destruct Hi as (n & Hn & Hi). apply (Hrange n i); [| exact Hi].
    eapply Hkeys; eauto.
  - now apply unclustered_In in Hi.
Qed.

(** Reading [self.items_dict] on a model that is new or labelled. *)
Lemma items_dict_state s :
  Model._mapper s = Model._mapper self0 ->
  Spec.labelled_or_new s nodes (jm_components jm) N ->
  Spec.components_ok nodes (jm_components jm) ->
  Spec.items_in_range nodes N ->
  exists s',
    Model.items_dict fs s
    = (Ok (Spec.item_lists nodes (jm_components jm) N), s')
    /\ Model._mapper s' = Model._mapper s
    /\ Model._items_dict s' = Some (Spec.item_lists nodes (jm_components jm) N)
    /\ Model._unclustered_items s' = Some (Spec.unclustered nodes N).
Proof.
  intros E Hlab (Hkeys & Hnd & Hneg) Hrange.
  unfold Model.items_dict, Model.bind at 1, Model.get.
  destruct Hlab as [[Hnone Hcache] | [Hsome Hu]].
  - rewrite Hnone.
    destruct (label_item_by_cluster_at fs self0 jm nodes N Hloaded s E
                Hcache Hkeys Hrange)
      as (s' & Hrun & Em & Eu & Hitems & _).
    rewrite (final_dict _ _ _ Hnd Hneg) in Hitems.
    exists s'. rewrite (bind_run _ _ _ _ _ _ _ Hrun).
    unfold Model.cached. rewrite Hitems. repeat apply conj; auto.
  - rewrite Hsome. exists s. repeat apply conj; auto.
Qed.

Lemma cluster_tables_keys :
  Spec.components_ok nodes (jm_components jm) ->
  dict_keys (Spec.cluster_tables raw_df N
               (Spec.item_lists nodes (jm_components jm) N))
  = map Spec.group_key (map snd (jm_components jm) ++ [(-1)%Z])
  /\ NoDup (map Spec.group_key (map snd (jm_components jm) ++ [(-1)%Z])).
Proof.
  intros (_ & Hnd & Hneg). split.
  - rewrite <- (item_lists_keys nodes (jm_components jm) N).
    unfold Spec.cluster_tables, dict_keys. now rewrite !map_map.
  - apply group_key_NoDup. apply NoDup_app; [exact Hnd | |].
    + repeat constructor. intros [].
    + intros k Hk [<- | []]. contradiction.
Qed.

(** [get_cluster_dfs] on a model that is new or labelled. *)
Lemma get_cluster_dfs_at s :
  Model._mapper s = Model._mapper self0 ->
  Spec.labelled_or_new s nodes (jm_components jm) N ->
  Spec.components_ok nodes (jm_components jm) ->
  Spec.items_in_range nodes N ->
  exists s',
    Model.get_cluster_dfs fs s
    = (Ok (Spec.cluster_tables raw_df N
             (Spec.item_lists nodes (jm_components jm) N)), s')
    /\ Model._mapper s' = Model._mapper s
    /\ Model._items_dict s' = Some (Spec.item_lists nodes (jm_components jm) N)
    /\ Model._unclustered_items s' = Some (Spec.unclustered nodes N).
Proof.
  intros E Hlab Hok Hrange.
  destruct (items_dict_state s E Hlab Hok Hrange) as (s' & Hrun & Em & Ei & Eu).
  exists s'. split; [| auto].
  unfold Model.get_cluster_dfs. rewrite (bind_run _ _ _ _ _ _ _ Hrun).
  rewrite (cluster_dfs_loop _
             (item_lists_in_range (proj1 Hok) Hrange) s' [] (eq_trans Em E)).
  f_equal. f_equal.
  rewrite (fold_dict_set_entries
             (fun e : Z * list Z => Spec.group_key (fst e))
             (fun e => Model.merge_group (fst e) (Spec.rows_of N (snd e)) raw_df)).
  - reflexivity.
  - simpl. destruct (cluster_tables_keys Hok) as [Hk Hnd].
    rewrite <- Hk in Hnd. unfold Spec.cluster_tables, dict_keys in Hnd.
    rewrite map_map in Hnd. exact Hnd.
Qed.

End ClusterTables.

Lemma filter_all {A} (f : A -> bool) (l : list A) :
  (forall x, In x l -> f x = true) -> filter f l = l.
Proof.
  induction l as [| x r IH]; intros H; simpl; [reflexivity |].
  rewrite (H x (or_introl eq_refl)).
  now rewrite IH by (intros y Hy; apply H; now right).
Qed.

Lemma merge_group_rows k (rows : list nat) (raw : DataFrame) :
  (forall p, In p rows -> (p < nrows raw)%nat) ->
  Model.merge_group k rows raw
  = {| nrows := List.length rows;
       columns :=
         ("group"%string, NumCol (map (fun _ => Some (inject_Z k)) rows))
           :: map (fun nc => (fst nc, take_rows (snd nc) rows)) (columns raw) |}.
Proof.
  intros H. unfold Model.merge_group.
  rewrite filter_all; [reflexivity |].
  intros p Hp. apply Nat.ltb_lt. now apply H.
Qed.

(** X19: on a loaded model, new or labelled, whose raw and clean
    artifacts hold tables, [get_cluster_dfs] returns one table per
    cluster, keyed [group_<id>] in the order of the stored item lists
    (the components, then -1), all keys different.  When the raw table
    has at least the rows of the clean one and neither table has a column
    named [group], the table of a cluster has one row per item of the
    cluster, taken in increasing order of the rows whatever the order of
    the item list: a column [group] that holds the cluster id, then the
    columns of the raw table on these rows. *)
Theorem cluster_tables_of_a_model :
  forall (fs : filesystem) (self : Model.Model_t) (jm : JMapper_t)
         (nodes : dict string (list Z)) (N : nat) (raw_df clean_df : DataFrame),
    Spec.loaded fs self jm nodes N ->
    snd (Tupper.raw fs (jm_tupper jm)) = Ok (PFrame raw_df) ->
    snd (Tupper.clean fs (jm_tupper jm)) = Ok (PFrame clean_df) ->
    Spec.labelled_or_new self nodes (jm_components jm) N ->
    Spec.components_ok nodes (jm_components jm) ->
    Spec.items_in_range nodes N ->
    (N <= nrows raw_df)%nat ->
    ~ In "group"%string (column_names raw_df) ->
    ~ In "group"%string (column_names clean_df) ->
    exists tables items self',
      Model.get_cluster_dfs fs self = (Ok tables, self')
      /\ Model._items_dict self' = Some items
      /\ dict_keys tables = map Spec.group_key (dict_keys items)
      /\ dict_keys items = map snd (jm_components jm) ++ [(-1)%Z]
      /\ NoDup (dict_keys tables)
      /\ forall k l,
          In (k, l) items ->
          let rows := map Z.to_nat (filter (fun i => mem i l) (range N)) in
          exists t,
            dict_get tables ("group_" ++ repr_int k)%string = Some t
            /\ nrows t = List.length l
            /\ columns t
               = ("group"%string, NumCol (map (fun _ => Some (inject_Z k)) rows))
                   :: map (fun nc => (fst nc, take_rows (snd nc) rows))
                          (columns raw_df).
Proof.
  intros fs self jm nodes N raw_df clean_df Hloaded Hraw Hclean Hlab Hok Hrange
         Hrows _ _.
  destruct (get_cluster_dfs_at fs self jm nodes N raw_df clean_df
              Hloaded Hraw Hclean self eq_refl Hlab Hok Hrange)
    as (s' & Hrun & _ & Hitems & _).
  destruct (cluster_tables_keys jm nodes N raw_df Hok) as [Hkeys Hnd].
  set (items := Spec.item_lists nodes (jm_components jm) N) in *.
  exists (Spec.cluster_tables raw_df N items), items, s'.
  split; [exact Hrun |]. split; [exact Hitems |].
  split.
  { rewrite Hkeys. unfold items. now rewrite item_lists_keys. }
  split; [apply item_lists_keys |].
  split; [now rewrite Hkeys |].
  intros k l Hin rows.
  assert (Hl : NoDup l /\ forall i, In i l -> (0 <= i < Z.of_nat N)%Z).
  { split.
    - apply item_lists_In in Hin.
      destruct Hin as [(c & _ & _ & ->) | [_ ->]];
        [apply members_NoDup | apply unclustered_NoDup].
    - intros i Hi.
      exact (item_lists_in_range jm nodes N (proj1 Hok) Hrange k l i Hin Hi). }
  exists (Model.merge_group k (Spec.rows_of N l) raw_df).
  split.
  { apply dict_get_NoDup.
    - now rewrite Hkeys.
    - unfold Spec.cluster_tables. apply in_map_iff. exists (k, l). auto. }
  rewrite merge_group_rows
    by (intros p Hp; apply rows_of_bound in Hp; lia).
  simpl. split; [| reflexivity].
  apply rows_of_length; tauto.
Qed.

Lemma cluster_tables_of_a_model_witness :
  exists tables items self',
    Model.get_cluster_dfs Examples.fs_outlier (Examples.fresh Examples.fs_outlier)
    = (Ok tables, self')
    /\ Model._items_dict self' = Some items
    /\ dict_keys tables = map Spec.group_key (dict_keys items)
    /\ dict_keys items = [0; 1; -1]%Z.
Proof.
  destruct (cluster_tables_of_a_model Examples.fs_outlier
              (Examples.fresh Examples.fs_outlier) Examples.jm_two_clusters
              [("n0"%string, [0; 1]%Z); ("n1"%string, [2; 3]%Z)] 5
              Examples.raw_outlier Examples.raw_outlier)
    as (tables & items & self' & H1 & H2 & H3 & H4 & _).
  - loaded_example.
  - reflexivity.
  - reflexivity.
  - left. split; [reflexivity | left; reflexivity].
  - split; [| split]; simpl.
    + intros c n [<- | [<- | []]] [<- | []]; simpl; auto.
    + repeat constructor; simpl; intuition discriminate.
    + intuition discriminate.
  - intros n i [<- | [<- | []]]; simpl; intros [<- | [<- | []]]; lia.
  - simpl. lia.
  - simpl. intuition discriminate.
  - simpl. intuition discriminate.
  - exists tables, items, self'. repeat apply conj; assumption.
Defined.

(** ** Matching a record on a loaded model *)

Section Matching.

Variable fs : filesystem.
Variable self0 : Model.Model_t.
Variable jm : JMapper_t.
Variable nodes : dict string (list Z).
Variable N : nat.
Variables raw_df clean_df : DataFrame.
Hypothesis Hloaded : Spec.loaded fs self0 jm nodes N.
Hypothesis Hraw : snd (Tupper.raw fs (jm_tupper jm)) = Ok (PFrame raw_df).
Hypothesis Hclean : snd (Tupper.clean fs (jm_tupper jm)) = Ok (PFrame clean_df).

Lemma raw_columns_at s col_filter :
  Model._mapper s = Model._mapper self0 ->
  Model.raw_columns fs col_filter s = (Ok (Spec.raw_cols_of raw_df col_filter), s).
Proof.
  intros E. unfold Model.raw_columns, Spec.raw_cols_of.
  assert (Hread :
            Model.bind (Model.tupper_raw fs) (fun raw =>
            Model.bind (Model.lift (Model.as_frame raw)) (fun raw_df =>
            Model.ret (numeric_columns raw_df))) s
            = (Ok (numeric_columns raw_df), s)).
  { rewrite (bind_run _ _ _ _ _ _ _
               (tupper_raw_frame fs self0 jm nodes N raw_df Hloaded Hraw s E)).
    reflexivity. }
  destruct col_filter as [[| c r] |]; try exact Hread. reflexivity.
Qed.

Lemma kept_tables_at s (remove_unclustered : bool)
      (tables : dict string DataFrame) :
  Spec.components_ok nodes (jm_components jm) ->
  Model._unclustered_items s = Some (Spec.unclustered nodes N) ->
  tables = Spec.cluster_tables raw_df N
             (Spec.item_lists nodes (jm_components jm) N) ->
  (if remove_unclustered then
     Model.bind (Model.unclustered_items fs) (fun unclustered =>
       if (0 <? List.length unclustered)%nat
       then Model.lift (dict_pop tables "group_-1"%string)
       else Model.ret tables)
   else Model.ret tables) s
  = (Ok (Spec.cluster_tables raw_df N
           (Spec.kept_items nodes (jm_components jm) N remove_unclustered)), s).
Proof.
  intros Hok Hu ->. unfold Spec.kept_items.
  destruct remove_unclustered; simpl andb; [| reflexivity].
  rewrite (bind_run _ _ _ _ _ _ _ (unclustered_items_cached fs s _ Hu)).
  destruct (0 <? List.length (Spec.unclustered nodes N))%nat; [| reflexivity].
  unfold Model.lift. f_equal.
  unfold Spec.item_lists, Spec.cluster_tables. rewrite map_app. simpl.
  change (Spec.group_key (-1)) with "group_-1"%string.
  apply dict_pop_last.
  destruct (cluster_tables_keys jm nodes N raw_df Hok) as [_ Hnd].
  rewrite map_app in Hnd. simpl in Hnd.
  apply NoDup_remove_2 in Hnd. rewrite app_nil_r in Hnd.
  change (Spec.group_key (-1)) with "group_-1"%string in Hnd.
  unfold dict_keys. rewrite !map_map. simpl. rewrite map_map in Hnd. exact Hnd.
Qed.

(** [target_matching] on a model that is new or labelled, up to the
    scores. *)
Lemma target_matching_at s target remove_unclustered col_filter :
  Model._mapper s = Model._mapper self0 ->
  Spec.labelled_or_new s nodes (jm_components jm) N ->
  Spec.components_ok nodes (jm_components jm) ->
  Spec.items_in_range nodes N ->
  exists s',
    Model.target_matching fs target remove_unclustered col_filter s
    = (match Spec.scores_of target (Spec.raw_cols_of raw_df col_filter)
               (Spec.cluster_tables raw_df N
                  (Spec.kept_items nodes (jm_components jm) N remove_unclustered))
       with
       | Ok scores =>
           match Model.min_key scores with
           | Ok min_index => Ok (scores, min_index)
           | Raise e => Raise e
           end
       | Raise e => Raise e
       end, s')
    /\ Model._mapper s' = Model._mapper s.
Proof.
  intros E Hlab Hok Hrange.
  destruct (get_cluster_dfs_at fs self0 jm nodes N raw_df clean_df
              Hloaded Hraw Hclean s E Hlab Hok Hrange)
    as (s' & Hrun & Em & _ & Eu).
  exists s'. split; [| exact Em].
  unfold Model.target_matching.
  rewrite (bind_run _ _ _ _ _ _ _ Hrun).
  rewrite (bind_run _ _ _ _ _ _ _
             (kept_tables_at s' remove_unclustered _ Hok Eu eq_refl)).
  rewrite (bind_run _ _ _ _ _ _ _
             (raw_columns_at s' col_filter (eq_trans Em E))).
  unfold Model.bind at 1, Model.lift at 1.
  change (rfor_each
            (Spec.cluster_tables raw_df N
               (Spec.kept_items nodes (jm_components jm) N remove_unclustered))
            _ [])
    with (Spec.scores_of target (Spec.raw_cols_of raw_df col_filter)
            (Spec.cluster_tables raw_df N
               (Spec.kept_items nodes (jm_components jm) N remove_unclustered))).
  destruct (Spec.scores_of _ _ _) as [scores | e]; [| reflexivity].
  unfold Model.bind at 1, Model.lift at 1.
  destruct (Model.min_key scores); reflexivity.
Qed.

End Matching.

(** X20: with [remove_unclustered] set, on a loaded model that has no
    component and at least one unclustered item, [target_matching] removes
    the only table there is and fails with the [ValueError] of [min] on no
    score, whatever the record and the filter. *)
Theorem target_matching_without_groups :
  forall (fs : filesystem) (self : Model.Model_t) (jm : JMapper_t)
         (nodes : dict string (list Z)) (N : nat) (raw_df clean_df : DataFrame)
         (target : DataFrame) (col_filter : option (list string)),
    Spec.loaded fs self jm nodes N ->
    snd (Tupper.raw fs (jm_tupper jm)) = Ok (PFrame raw_df) ->
    snd (Tupper.clean fs (jm_tupper jm)) = Ok (PFrame clean_df) ->
    Spec.labelled_or_new self nodes (jm_components jm) N ->
    jm_components jm = [] ->
    Spec.unclustered nodes N <> [] ->
    fst (Model.target_matching fs target true col_filter self) = Raise ValueError.
Proof.
  intros fs self jm nodes N raw_df clean_df target col_filter
         Hloaded Hraw Hclean Hlab Hnone Hu.
  assert (Hok : Spec.components_ok nodes (jm_components jm)).
  { rewrite Hnone. split; [intros c n [] | split; [constructor | intros []]]. }
  assert (Hrange : forall c n, In c (jm_components jm) -> In n (fst c) ->
                               In n (dict_keys nodes))
    by exact (proj1 Hok).
  (* the items of the nodes play no part when there is no component *)
  assert (Hrun : exists s',
             Model.get_cluster_dfs fs self
             = (Ok (Spec.cluster_tables raw_df N
                      (Spec.item_lists nodes (jm_components jm) N)), s')
             /\ Model._mapper s' = Model._mapper self
             /\ Model._unclustered_items s' = Some (Spec.unclustered nodes N)).
  { assert (Hitems : exists s',
               Model.items_dict fs self
               = (Ok (Spec.item_lists nodes (jm_components jm) N), s')
               /\ Model._mapper s' = Model._mapper self
               /\ Model._unclustered_items s' = Some (Spec.unclustered nodes N)).
    { unfold Model.items_dict, Model.bind at 1, Model.get.
      destruct Hlab as [[Hn Hcache] | [Hsome Hun]].
      - rewrite Hn.
        assert (Hlabel : exists s',
                   Model.label_item_by_cluster fs self = (Ok tt, s')
                   /\ Model._mapper s' = Model._mapper self
                   /\ Model._unclustered_items s' = Some (Spec.unclustered nodes N)
                   /\ Model._items_dict s'
                      = Some [((-1)%Z, Spec.unclustered nodes N)]).
        { rewrite (label_item_by_cluster_loop fs self jm nodes N Hloaded self
                     eq_refl).
          rewrite Hnone. simpl Model.for_each.
          rewrite (bind_run _ _ (Model.ret (repeat (-1)%Z N)) _ _ _ _ eq_refl).
          unfold Model.bind at 1, Model.modify at 1.
          match goal with
          | |- context [Model.set_cluster_ids ?v ?st] =>
              set (s3 := Model.set_cluster_ids v st)
          end.
          assert (Hc3 : Spec.unclustered_cache_ok s3 nodes N) by exact Hcache.
          destruct (unclustered_items_at fs self jm nodes N Hloaded s3 eq_refl Hc3)
            as (s4 & Hu4 & Em4 & Eu4 & Es4 & Ei4).
          rewrite (bind_run _ _ _ _ _ _ _ Hu4).
          unfold Model.cluster_sizes_set at 1.
          unfold Model.bind at 1. unfold Model.bind at 1. unfold Model.cached at 1.
          rewrite Es4. simpl Model._cluster_sizes. unfold Model.modify at 1.
          match goal with
          | |- context [Model.set_cluster_sizes ?v s4] =>
              set (s5 := Model.set_cluster_sizes v s4)
          end.
          rewrite (bind_run _ _ _ _ _ _ _
                     (unclustered_items_cached fs s5 (Spec.unclustered nodes N) Eu4)).
          unfold Model.items_dict_set, Model.bind, Model.cached, Model.modify.
          simpl Model._items_dict. rewrite Ei4. simpl Model._items_dict.
          eexists. split; [reflexivity |]. simpl.
          repeat apply conj;
            [rewrite Em4; reflexivity | exact Eu4 | reflexivity]. }
        destruct Hlabel as (s' & Hl & Em & Eun & Ei).
        exists s'. rewrite (bind_run _ _ _ _ _ _ _ Hl).
        unfold Model.cached. rewrite Ei. unfold Spec.item_lists. rewrite Hnone.
        simpl. auto.
      - rewrite Hsome. exists self. auto. }
    destruct Hitems as (s' & Hi & Em & Eun).
    exists s'. split; [| auto].
    unfold Model.get_cluster_dfs. rewrite (bind_run _ _ _ _ _ _ _ Hi).
    rewrite (cluster_dfs_loop fs self jm nodes N raw_df clean_df
               Hloaded Hraw Hclean _).
    - unfold Spec.item_lists. rewrite Hnone. reflexivity.
    - intros k idxs i Hin Hidx. unfold Spec.item_lists in Hin.
      rewrite Hnone in Hin. destruct Hin as [Hin | []].
      injection Hin as <- <-. now apply unclustered_In in Hidx.
    - exact Em. }
  destruct Hrun as (s' & Hdfs & Em & Eun).
  unfold Model.target_matching.
  rewrite (bind_run _ _ _ _ _ _ _ Hdfs).
  rewrite (bind_run _ _ _ _ _ _ _
             (kept_tables_at fs jm nodes N raw_df s' true _ Hok Eun eq_refl)).
  rewrite (bind_run _ _ _ _ _ _ _
             (raw_columns_at fs self jm nodes N raw_df Hloaded Hraw s' col_filter Em)).
  unfold Spec.kept_items. rewrite Hnone.
  destruct (Spec.unclustered nodes N) as [| i r]; [congruence |].
  reflexivity.
Qed.

Lemma target_matching_without_groups_witness :
  fst (Model.target_matching Examples.fs_no_nodes Examples.target_a0 true None
         (Examples.fresh Examples.fs_no_nodes))
  = Raise ValueError.
Proof.
  apply (target_matching_without_groups Examples.fs_no_nodes
           (Examples.fresh Examples.fs_no_nodes) Examples.jm_no_nodes [] 2
           {| nrows := 2; columns := [("a"%string, Examples.cells [1; 2]%Q)] |}
           {| nrows := 2; columns := [("a"%string, Examples.cells [1; 2]%Q)] |}).
  - loaded_example.
  - reflexivity.
  - reflexivity.
  - left. split; [reflexivity | left; reflexivity].
  - reflexivity.
  - discriminate.
Defined.

Lemma numeric_columns_In (df : DataFrame) c :
  In c (numeric_columns df)
  <-> exists vals, In (c, NumCol vals) (columns df).
Proof.
  unfold numeric_columns. rewrite in_map_iff. split.
  - intros ([n col] & <- & Hin). apply filter_In in Hin. simpl in Hin.
    destruct Hin as [Hin Hnum]. destruct col as [vals | vals]; [| discriminate].
    exists vals. exact Hin.
  - intros (vals & Hin). exists (c, NumCol vals). split; [reflexivity |].
    apply filter_In. auto.
Qed.

Lemma rfor_each_fold {A S} (l : list A) (body : A -> S -> result S)
      (f : S -> A -> S) :
  (forall x, In x l -> forall s, body x s = Ok (f s x)) ->
  forall s, rfor_each l body s = Ok (fold_left f l s).
Proof.
  induction l as [| x r IH]; intros H s; simpl; [reflexivity |].
  rewrite (H x (or_introl eq_refl)). simpl.
  apply IH. intros y Hy. apply H. now right.
Qed.

Lemma cell0_first (target : DataFrame) col :
  NoDup (column_names target) ->
  (forall c vals, In (c, NumCol vals) (columns target) -> vals <> []) ->
  In col (Model.target_columns target) ->
  Model.cell0 target col = Ok (Spec.first_cell target col).
Proof.
  intros Hnd Hne Hin. apply target_columns_In in Hin.
  destruct Hin as (c & Hin & Hnum & Hmiss).
  unfold Model.cell0, Spec.first_cell.
  rewrite (@dict_get_NoDup _ _ _ (columns target) col c Hnd Hin).
  destruct c as [vals | vals]; [| discriminate Hnum].
  destruct vals as [| [q |] r].
  - destruct (Hne col [] Hin eq_refl).
  - reflexivity.
  - discriminate Hmiss.
Qed.

Lemma dict_get_cons_other {V} (d : dict string V) k0 v0 k :
  k0 <> k -> dict_get ((k0, v0) :: d) k = dict_get d k.
Proof.
  intros H. cbn [dict_get].
  destruct (keqb_spec k0 k); [contradiction | reflexivity].
Qed.

Lemma column_mean_merged (raw : DataFrame) k rows col :
  NoDup (column_names raw) ->
  ~ In "group"%string (column_names raw) ->
  (forall p, In p rows -> (p < nrows raw)%nat) ->
  In col (numeric_columns raw) ->
  Model.column_mean (Model.merge_group k rows raw) col
  = Ok (mean (Spec.masked_cells raw rows col)).
Proof.
  intros Hnd Hgroup Hrows Hin. apply numeric_columns_In in Hin.
  destruct Hin as (vals & Hin).
  rewrite (merge_group_rows k rows raw Hrows).
  unfold Model.column_mean, Spec.masked_cells. simpl columns.
  assert (Hne : col <> "group"%string).
  { intros ->. apply Hgroup. unfold column_names.
    apply in_map_iff. exists ("group"%string, NumCol vals). auto. }
  rewrite dict_get_cons_other by congruence.
  rewrite (dict_get_map_values (columns raw) (fun c => take_rows c rows) col).
  rewrite (@dict_get_NoDup _ _ _ (columns raw) col (NumCol vals) Hnd Hin).
  reflexivity.
Qed.

Lemma score_group_formula (target raw : DataFrame) k rows :
  NoDup (column_names target) ->
  (forall c vals, In (c, NumCol vals) (columns target) -> vals <> []) ->
  NoDup (column_names raw) ->
  ~ In "group"%string (column_names raw) ->
  (forall p, In p rows -> (p < nrows raw)%nat) ->
  Model.score_group target (Model.target_columns target) (numeric_columns raw)
                    (Model.merge_group k rows raw)
  = Ok (Spec.score_formula target raw rows
          (Model.compared_columns (Model.target_columns target)
                                  (numeric_columns raw))).
Proof.
  intros Hnt Hne Hnr Hgroup Hrows.
  unfold Model.score_group. rewrite score_group_compared.
  apply rfor_each_fold. intros col Hcol s.
  unfold Model.compared_columns in Hcol. apply filter_In in Hcol.
  destruct Hcol as [Htc Hrc]. apply mem_In in Hrc.
  rewrite (cell0_first target col Hnt Hne Htc). simpl.
  rewrite (column_mean_merged raw k rows col Hnr Hgroup Hrows Hrc).
  reflexivity.
Qed.

Lemma rfor_each_map {A B S} (h : A -> B) (l : list A)
      (body : B -> S -> result S) :
  forall s, rfor_each (map h l) body s = rfor_each l (fun x => body (h x)) s.
Proof.
  induction l as [| x r IH]; intros s; simpl; [reflexivity |].
  destruct (body (h x) s); simpl; [apply IH | reflexivity].
Qed.

Lemma min_key_In (scores : dict string xnum) :
  scores <> [] ->
  exists k, Model.min_key scores = Ok k /\ In k (dict_keys scores).
Proof.
  destruct scores as [| first rest]; [congruence |]. intros _.
  eexists. split; [reflexivity |].
  destruct (min_scan_first rest [] [] first) as (pre & post & E & _).
  - intros e [].
  - intros e [].
  - simpl in E. unfold dict_keys. rewrite E, map_app. simpl.
    apply in_or_app. right. now left.
Qed.

Lemma kept_items_cases nodes comps N remove_unclustered :
  Spec.kept_items nodes comps N remove_unclustered
  = map (fun c => (snd c, Spec.members nodes c)) comps
  \/ Spec.kept_items nodes comps N remove_unclustered
     = Spec.item_lists nodes comps N.
Proof.
  unfold Spec.kept_items.
  destruct (remove_unclustered && _)%bool; [now left | now right].
Qed.

Lemma kept_items_incl nodes comps N remove_unclustered e :
  In e (Spec.kept_items nodes comps N remove_unclustered) ->
  In e (Spec.item_lists nodes comps N).
Proof.
  destruct (kept_items_cases nodes comps N remove_unclustered) as [-> | ->];
    [| auto].
  intros H. unfold Spec.item_lists. apply in_or_app. now left.
Qed.

Lemma kept_items_NoDup nodes comps N remove_unclustered :
  Spec.components_ok nodes comps ->
  NoDup (map Spec.group_key
             (dict_keys (Spec.kept_items nodes comps N remove_unclustered))).
Proof.
  intros (_ & Hnd & Hneg). apply group_key_NoDup.
  destruct (kept_items_cases nodes comps N remove_unclustered) as [-> | ->].
  - unfold dict_keys. rewrite map_map. exact Hnd.
  - rewrite item_lists_keys. apply NoDup_app; [exact Hnd | |].
    + repeat constructor. intros [].
    + intros k Hk [<- | []]. contradiction.
Qed.

(** X21: on a loaded model, new or labelled, whose raw and clean
    artifacts hold tables, [target_matching] without a column filter gives
    one score per kept cluster, keyed [group_<id>] in the order of the
    item lists: the sum, over the columns that are numeric without missing
    value in the record and numeric in the raw table, of
    [abs((x - mu) / mu)] for the first cell [x] of the record and the mean
    [mu] of the raw column over the rows of the cluster.  The table of the
    unclustered items is left out only when [remove_unclustered] is set and
    there are unclustered items.  The group named is one of the keys.  (The
    raw table has the rows of the clean one and distinct column names, none
    of them [group]; the record has distinct column names and at least one
    row.) *)
Theorem target_matching_scores_every_kept_cluster :
  forall (fs : filesystem) (self : Model.Model_t) (jm : JMapper_t)
         (nodes : dict string (list Z)) (N : nat) (raw_df clean_df : DataFrame)
         (target : DataFrame) (remove_unclustered : bool),
    Spec.loaded fs self jm nodes N ->
    snd (Tupper.raw fs (jm_tupper jm)) = Ok (PFrame raw_df) ->
    snd (Tupper.clean fs (jm_tupper jm)) = Ok (PFrame clean_df) ->
    Spec.labelled_or_new self nodes (jm_components jm) N ->
    Spec.components_ok nodes (jm_components jm) ->
    Spec.items_in_range nodes N ->
    (N <= nrows raw_df)%nat ->
    NoDup (column_names raw_df) ->
    ~ In "group"%string (column_names raw_df) ->
    ~ In "group"%string (column_names clean_df) ->
    NoDup (column_names target) ->
    (forall c vals, In (c, NumCol vals) (columns target) -> vals <> []) ->
    let kept :=
      if (remove_unclustered
          && (0 <? List.length (Spec.unclustered nodes N))%nat)%bool
      then map (fun c => (snd c, Spec.members nodes c)) (jm_components jm)
      else map (fun c => (snd c, Spec.members nodes c)) (jm_components jm)
           ++ [((-1)%Z, Spec.unclustered nodes N)] in
    let compared :=
      filter (fun col => mem col (numeric_columns raw_df))
             (Model.target_columns target) in
    kept <> [] ->
    exists scores min_index self',
      Model.target_matching fs target remove_unclustered None self
      = (Ok (scores, min_index), self')
      /\ scores
         = map (fun kl =>
                  (("group_" ++ repr_int (fst kl))%string,
                   fold_left
                     (fun acc c =>
                        xadd acc
                             (error (Spec.first_cell target c)
                                    (mean (Spec.masked_cells raw_df
                                             (Spec.rows_of N (snd kl)) c))))
                     compared (Fin 0)))
               kept
      /\ In min_index (dict_keys scores).
Proof.
  intros fs self jm nodes N raw_df clean_df target remove_unclustered
         Hloaded Hraw Hclean Hlab Hok Hrange Hrows Hnr Hgroup _ Hnt Hne
         kept compared Hkept.
  change kept with (Spec.kept_items nodes (jm_components jm) N remove_unclustered)
    in *.
  clear kept.
  set (kept := Spec.kept_items nodes (jm_components jm) N remove_unclustered) in *.
  destruct (target_matching_at fs self jm nodes N raw_df clean_df
              Hloaded Hraw Hclean self target remove_unclustered None
              eq_refl Hlab Hok Hrange)
    as (s' & Hrun & _).
  fold kept in Hrun. simpl Spec.raw_cols_of in Hrun.
  set (score := fun kl : Z * list Z =>
                  Spec.score_formula target raw_df (Spec.rows_of N (snd kl))
                                     compared).
  assert (Hscores :
            Spec.scores_of target (numeric_columns raw_df)
                           (Spec.cluster_tables raw_df N kept)
            = Ok (map (fun kl => (Spec.group_key (fst kl), score kl)) kept)).
  { unfold Spec.scores_of, Spec.cluster_tables. rewrite rfor_each_map.
    rewrite (rfor_each_fold kept _
               (fun (d : dict string xnum) kl =>
                  dict_set d (Spec.group_key (fst kl)) (score kl))).
    - f_equal.
      rewrite (fold_dict_set_entries
                 (fun kl : Z * list Z => Spec.group_key (fst kl)) score).
      + reflexivity.
      + simpl.
        pose proof (kept_items_NoDup nodes (jm_components jm) N
                      remove_unclustered Hok) as Hnd.
        fold kept in Hnd. unfold dict_keys in Hnd. now rewrite map_map in Hnd.
    - intros kl Hkl d. simpl fst. simpl snd.
      rewrite (score_group_formula target raw_df (fst kl)
                 (Spec.rows_of N (snd kl)) Hnt Hne Hnr Hgroup).
      + reflexivity.
      + intros p Hp. apply rows_of_bound in Hp. lia. }
  rewrite Hscores in Hrun.
  destruct (min_key_In (map (fun kl => (Spec.group_key (fst kl), score kl)) kept))
    as (k & Hmin & Hin).
  { destruct kept; [congruence | discriminate]. }
  rewrite Hmin in Hrun.
  eexists. exists k, s'. split; [exact Hrun |]. split; [reflexivity | exact Hin].
Qed.

Lemma target_matching_scores_every_kept_cluster_witness :
  exists scores min_index self',
    Model.target_matching Examples.fs_outlier Examples.target_az true None
      (Examples.fresh Examples.fs_outlier)
    = (Ok (scores, min_index), self')
    /\ In min_index (dict_keys scores).
Proof.
  destruct (target_matching_scores_every_kept_cluster Examples.fs_outlier
              (Examples.fresh Examples.fs_outlier) Examples.jm_two_clusters
              [("n0"%string, [0; 1]%Z); ("n1"%string, [2; 3]%Z)] 5
              Examples.raw_outlier Examples.raw_outlier Examples.target_az true)
    as (scores & min_index & self' & H1 & _ & H3).
  - loaded_example.
  - reflexivity.
  - reflexivity.
  - left. split; [reflexivity | left; reflexivity].
  - split; [| split]; simpl.
    + intros c n [<- | [<- | []]] [<- | []]; simpl; auto.
    + repeat constructor; simpl; intuition discriminate.
    + intuition discriminate.
  - intros n i [<- | [<- | []]]; simpl; intros [<- | [<- | []]]; lia.
  - simpl. lia.
  - repeat constructor; simpl; intuition discriminate.
  - simpl. intuition discriminate.
  - simpl. intuition discriminate.
  - repeat constructor; simpl; intuition discriminate.
  - intros c vals [H | [H | []]]; injection H as <- <-; discriminate.
  - discriminate.
  - exists scores, min_index, self'. split; assumption.
Defined.

(** ** Group identifiers when the cluster ids are -1, 0, 1, ... *)








Section Identified.

Context {dev : Deviation}.

Variable helper : Model.M Model.ztable.
Variable z0 : Model.ztable.
Variables zt st : Q.
Hypothesis Hpure : forall s, helper s = (Ok z0, s).











End Identified.




(** ** Descriptions left behind by a failure *)

Lemma for_each_app A S (l1 l2 : list A) (body : A -> S -> Model.M S) :
  forall a s,
    Model.for_each (l1 ++ l2) body a s
    = Model.bind (Model.for_each l1 body a) (Model.for_each l2 body) s.
Proof.
  induction l1 as [| x r IH]; intros a s; simpl.
  - reflexivity.
  - unfold Model.bind.
    destruct (body x a s) as [[a' | e] s1]; [| reflexivity].
    rewrite IH. reflexivity.
Qed.

(** X23: on a loaded model without stored node descriptions whose raw and
    clean artifacts hold tables, when [get_minimal_std] fails on the rows
    of a node [n] after succeeding on the nodes before it, the first read
    of [node_description] fails with that exception, and every later read
    returns, without an error and whatever became of the files, the
    descriptions of the nodes before [n] only: the computation is not
    started again. *)
Theorem interrupted_node_descriptions_stay_cached :
  forall (dev : Deviation) (fs : filesystem) (self : Model.Model_t)
         (jm : JMapper_t)
         (nodes : dict string (list Z)) (N : nat) (raw_df clean_df : DataFrame)
         (pre post : list string) (n : string) (e : exn),
    Spec.loaded fs self jm nodes N ->
    snd (Tupper.raw fs (jm_tupper jm)) = Ok (PFrame raw_df) ->
    snd (Tupper.clean fs (jm_tupper jm)) = Ok (PFrame clean_df) ->
    Model._node_description self = None ->
    NoDup (dict_keys nodes) ->
    dict_keys nodes = pre ++ n :: post ->
    let cols :=
      np_intersect1d (numeric_columns raw_df) (column_names clean_df) in
    (forall k, In k pre ->
               exists label,
                 get_minimal_std clean_df (get_default nodes k []) (Some cols)
                 = Ok label) ->
    get_minimal_std clean_df (get_default nodes n []) (Some cols) = Raise e ->
    exists self',
      Model.node_description fs self = (Raise e, self')
      /\ forall fs',
          Model.node_description fs' self'
          = (Ok (map (fun k => (k, Spec.description_of clean_df cols nodes k))
                     pre),
             self').
Proof.
  intros dev fs self jm nodes N raw_df clean_df pre post n e
         Hloaded Hraw Hclean Hnone Hnd Hkeys cols Hpre Hfail.
  set (s1 := Model.set_node_description (Some []) self).
  assert (Hin : forall k, In k pre -> In k (dict_keys nodes)).
  { intros k Hk. rewrite Hkeys. apply in_or_app. now left. }
  destruct (describe_loop_at fs self jm nodes N clean_df Hloaded Hclean cols pre
              Hin Hpre s1 [] eq_refl eq_refl)
    as (s2 & Hrun & Em & Hdesc).
  assert (Hpre_nd : NoDup (dict_keys (@nil (string * Model.node_desc)) ++ pre)).
  { simpl. rewrite Hkeys in Hnd. now apply NoDup_app_remove_r in Hnd. }
  rewrite (fold_dict_set_tabulate _ pre [] Hpre_nd) in Hdesc. simpl app in Hdesc.
  assert (Hcompute : Model.compute_node_descriptions fs self = (Raise e, s2)).
  { unfold Model.compute_node_descriptions.
    rewrite (bind_run _ _ _ _ _ _ _
               (complex_at fs self jm nodes N Hloaded self eq_refl)).
    unfold Model.lift at 1.
    rewrite (node_table_at fs self jm nodes N Hloaded). unfold Model.bind at 1.
    rewrite (bind_run _ _ _ _ _ _ _
               (density_columns_at fs self jm nodes N raw_df clean_df
                  Hloaded Hraw Hclean cols eq_refl self eq_refl)).
    unfold Model.bind at 1, Model.modify at 1. fold s1.
    rewrite Hkeys, for_each_app.
    rewrite (bind_run _ _ _ _ _ _ _ Hrun).
    cbn [Model.for_each]. unfold Model.bind at 1. unfold Model.bind at 1.
    unfold Model.lift at 1.
    rewrite (getitem_key nodes n).
    2:{ rewrite Hkeys. apply in_or_app. right. now left. }
    rewrite (bind_run _ _ _ _ _ _ _
               (tupper_clean_frame fs self jm nodes N clean_df Hloaded Hclean
                  s2 Em)).
    unfold Model.lift at 1, Model.as_frame at 1, Model.bind at 1.
    unfold Model.bind at 1, Model.lift at 1. rewrite Hfail. reflexivity. }
  exists s2. split.
  - unfold Model.node_description, Model.bind at 1, Model.get. rewrite Hnone.
    unfold Model.bind. now rewrite Hcompute.
  - intros fs'. now apply node_description_cached.
Qed.

Lemma interrupted_node_descriptions_stay_cached_witness :
  exists self',
    Model.node_description (dev := Examples.float_std)
      Examples.fs_stray (Examples.fresh Examples.fs_stray)
    = (Raise IndexError, self')
    /\ Model.node_description (dev := Examples.float_std) [] self'
       = (Ok [("n0"%string, {| Model.label := "a"%string; Model.size := 2 |})],
          self').
Proof.
  destruct (interrupted_node_descriptions_stay_cached Examples.float_std
              Examples.fs_stray (Examples.fresh Examples.fs_stray)
              Examples.jm_stray
              [("n0"%string, [0; 1]%Z); ("n1"%string, [2; 9]%Z)] 4
              Examples.raw_ab Examples.clean_ab
              ["n0"%string] [] "n1"%string IndexError)
    as (self' & H1 & H2).
  - loaded_example.
  - reflexivity.
  - reflexivity.
  - reflexivity.
  - repeat constructor; simpl; intuition discriminate.
  - reflexivity.
  - intros k [<- | []]. eexists. vm_compute. reflexivity.
  - vm_compute. reflexivity.
  - exists self'. split; [exact H1 |]. rewrite (H2 []). vm_compute. reflexivity.
Defined.

Section Left.

Import Model.
Local Open Scope model_scope.

Context {F : Type}.
Variable field : Model_t -> F.

Lemma leaves_ret A (a : A) : Spec.leaves field (ret a).
Proof. intros s r s' H. unfold ret in H. now injection H as _ <-. Qed.

Lemma leaves_get : Spec.leaves field get.
Proof. intros s r s' H. unfold get in H. now injection H as _ <-. Qed.

Lemma leaves_lift A (x : result A) : Spec.leaves field (lift x).
Proof. intros s r s' H. unfold lift in H. now injection H as _ <-. Qed.

Lemma leaves_assert b msg : Spec.leaves field (assert b msg).
Proof.
  intros s r s' H. unfold assert, ret, raise in H.
  destruct b; now injection H as _ <-.
Qed.

Lemma leaves_cached A (f : Model_t -> option A) : Spec.leaves field (cached f).
Proof.
  intros s r s' H. unfold cached in H.
  destruct (f s); now injection H as _ <-.
Qed.

Lemma leaves_modify f :
  (forall s, field (f s) = field s) -> Spec.leaves field (modify f).
Proof. intros Hf s r s' H. unfold modify in H. injection H as _ <-. apply Hf. Qed.

Lemma leaves_reads_only A (c : M A) : Spec.reads_only c -> Spec.leaves field c.
Proof.
  intros Hc s r s' H. now rewrite (reads_only_run _ _ _ _ _ Hc H).
Qed.

Lemma leaves_bind A B (c : M A) (k : A -> M B) :
  Spec.leaves field c -> (forall a, Spec.leaves field (k a)) ->
  Spec.leaves field (bind c k).
Proof.
  intros Hc Hk s r s' H. unfold bind in H.
  destruct (c s) as [[a | e] s1] eqn:E.
  - rewrite (Hk _ _ _ _ H). exact (Hc _ _ _ E).
  - injection H as _ <-. exact (Hc _ _ _ E).
Qed.

Lemma leaves_for_each A S (xs : list A) (body : A -> S -> M S) :
  (forall x a, Spec.leaves field (body x a)) ->
  forall a, Spec.leaves field (for_each xs body a).
Proof.
  intros Hbody. induction xs as [| x r IH]; intros a; simpl.
  - apply leaves_ret.
  - apply leaves_bind; auto.
Qed.

End Left.

Section Interrupted.

Context {dev : Deviation}.

Import Model.
Local Open Scope model_scope.

Ltac leaves_steps :=
  repeat first
    [ assumption
    | solve [auto]
    | apply leaves_ret
    | apply leaves_get
    | apply leaves_lift
    | apply leaves_assert
    | apply leaves_cached
    | apply leaves_modify; intros ?; reflexivity
    | apply leaves_bind; [| intros ? ]
    | apply leaves_for_each; intros ? ? ].

Variable fs : filesystem.

Lemma mapper_leaves : Spec.leaves _cluster_descriptions (mapper fs).
Proof. apply leaves_reads_only, mapper_reads_only. Qed.

Lemma complex_leaves : Spec.leaves _cluster_descriptions (complex fs).
Proof. apply leaves_reads_only, complex_reads_only. Qed.

Lemma tupper_clean_leaves : Spec.leaves _cluster_descriptions (tupper_clean fs).
Proof. apply leaves_reads_only, tupper_clean_reads_only. Qed.

Lemma tupper_raw_leaves : Spec.leaves _cluster_descriptions (tupper_raw fs).
Proof. apply leaves_reads_only, tupper_raw_reads_only. Qed.

Lemma density_columns_leaves :
  Spec.leaves _cluster_descriptions (density_columns fs).
Proof.
  pose proof tupper_raw_leaves. pose proof tupper_clean_leaves.
  unfold density_columns. leaves_steps.
Qed.

Lemma label_item_by_node_leaves :
  Spec.leaves _cluster_descriptions (label_item_by_node fs).
Proof.
  pose proof tupper_clean_leaves. pose proof complex_leaves.
  unfold label_item_by_node. leaves_steps.
  destruct (label_items _ _). leaves_steps.
Qed.

Lemma unclustered_items_leaves :
  Spec.leaves _cluster_descriptions (unclustered_items fs).
Proof.
  pose proof label_item_by_node_leaves.
  unfold unclustered_items. leaves_steps.
  destruct (_unclustered_items _); leaves_steps.
Qed.

Lemma label_component_leaves component labels :
  Spec.leaves _cluster_descriptions (label_component fs component labels).
Proof.
  pose proof complex_leaves.
  unfold label_component, items_dict_set, cluster_sizes_set.
  destruct component as [nodes cluster_id]. leaves_steps.
Qed.

Lemma label_item_by_cluster_leaves :
  Spec.leaves _cluster_descriptions (label_item_by_cluster fs).
Proof.
  pose proof complex_leaves. pose proof tupper_clean_leaves.
  pose proof mapper_leaves. pose proof unclustered_items_leaves.
  pose proof label_component_leaves.
  unfold label_item_by_cluster, items_dict_set, cluster_sizes_set.
  leaves_steps.
Qed.

Lemma cluster_sizes_leaves : Spec.leaves _cluster_descriptions (cluster_sizes fs).
Proof.
  pose proof label_item_by_cluster_leaves.
  unfold cluster_sizes. leaves_steps.
  destruct (_cluster_sizes _); leaves_steps.
Qed.

Lemma compute_node_descriptions_leaves :
  Spec.leaves _cluster_descriptions (compute_node_descriptions fs).
Proof.
  pose proof complex_leaves. pose proof tupper_clean_leaves.
  pose proof density_columns_leaves.
  unfold compute_node_descriptions, node_description_set. leaves_steps.
Qed.

Lemma node_description_leaves :
  Spec.leaves _cluster_descriptions (node_description fs).
Proof.
  pose proof compute_node_descriptions_leaves.
  unfold node_description. leaves_steps.
  destruct (_node_description _); leaves_steps.
Qed.

Lemma accumulate_nodes_leaves nodes :
  Spec.leaves _cluster_descriptions (accumulate_nodes fs nodes).
Proof.
  pose proof node_description_leaves.
  unfold accumulate_nodes. apply leaves_for_each. intros node [holder N].
  leaves_steps.
Qed.

Lemma leaves_keeps k A (c : M A) :
  Spec.leaves _cluster_descriptions c -> Spec.keeps (Spec.described_without k) c.
Proof.
  intros Hc s r s' H (d & Hd & Hk). exists d.
  rewrite (Hc _ _ _ H). split; assumption.
Qed.

Lemma keeps_bind P A B (c : M A) (k : A -> M B) :
  Spec.keeps P c -> (forall a, Spec.keeps P (k a)) -> Spec.keeps P (bind c k).
Proof.
  intros Hc Hk s r s' H HP. unfold bind in H.
  destruct (c s) as [[a | e] s1] eqn:E.
  - exact (Hk _ _ _ _ H (Hc _ _ _ E HP)).
  - injection H as _ <-. exact (Hc _ _ _ E HP).
Qed.

Lemma keeps_for_each P A S (xs : list A) (body : A -> S -> M S) :
  (forall x a, In x xs -> Spec.keeps P (body x a)) ->
  forall a, Spec.keeps P (for_each xs body a).
Proof.
  induction xs as [| x r IH]; intros Hbody a; simpl.
  - intros s res s' H HP. unfold ret in H. now injection H as _ <-.
  - apply keeps_bind.
    + apply Hbody. now left.
    + intros a'. apply IH. intros y b Hy. apply Hbody. now right.
Qed.

Lemma failure_bind P A B (c : M A) (k : A -> M B) :
  Spec.keeps P c -> (forall a, Spec.keeps_on_failure P (k a)) ->
  Spec.keeps_on_failure P (bind c k).
Proof.
  intros Hc Hk s e s' H HP. unfold bind in H.
  destruct (c s) as [[a | e0] s1] eqn:E.
  - exact (Hk _ _ _ _ H (Hc _ _ _ E HP)).
  - injection H as _ <-. exact (Hc _ _ _ E HP).
Qed.

Lemma cluster_descriptions_set_keeps key value k :
  key <> k ->
  Spec.keeps (Spec.described_without k) (cluster_descriptions_set key value).
Proof.
  intros Hne s r s' H (d & Hd & Hk).
  unfold cluster_descriptions_set, bind, cached in H. rewrite Hd in H.
  unfold modify in H. injection H as _ <-.
  exists (dict_set d key value). split; [reflexivity |].
  rewrite dict_get_set_neq; assumption.
Qed.

Lemma cluster_descriptions_set_returns key value k :
  Spec.keeps_on_failure (Spec.described_without k)
                        (cluster_descriptions_set key value).
Proof.
  intros s e s' H (d & Hd & Hk).
  unfold cluster_descriptions_set, bind, cached in H. rewrite Hd in H.
  discriminate H.
Qed.

Lemma describe_component_keeps component u k :
  snd component <> k ->
  Spec.keeps (Spec.described_without k) (describe_component fs component u).
Proof.
  destruct component as [nodes cluster_id]. simpl. intros Hne.
  unfold describe_component.
  apply keeps_bind; [apply leaves_keeps, accumulate_nodes_leaves |].
  intros [holder N].
  apply keeps_bind; [apply leaves_keeps, leaves_lift |]. intros density.
  apply keeps_bind; [apply leaves_keeps, cluster_sizes_leaves |]. intros sizes.
  apply keeps_bind; [apply leaves_keeps, leaves_lift |]. intros size.
  now apply cluster_descriptions_set_keeps.
Qed.

(** What follows the component loop in [compute_cluster_descriptions]. *)
Lemma unclustered_description_keeps :
  Spec.keeps_on_failure (Spec.described_without (-1))
    (cols <- density_columns fs ;;
     clean <- tupper_clean fs ;;
     unclustered <- unclustered_items fs ;;
     df <- lift (as_frame clean) ;;
     unclustered_label <- lift (get_minimal_std df unclustered (Some cols)) ;;
     sizes <- cluster_sizes fs ;;
     size <- lift (getitem sizes (-1)%Z) ;;
     cluster_descriptions_set (-1)%Z
       {| density := [(unclustered_label, 1%Q)]; cluster_size := size |}).
Proof.
  apply failure_bind; [apply leaves_keeps, density_columns_leaves | intros cols].
  apply failure_bind; [apply leaves_keeps, tupper_clean_leaves | intros clean].
  apply failure_bind; [apply leaves_keeps, unclustered_items_leaves | intros u].
  apply failure_bind; [apply leaves_keeps, leaves_lift | intros df].
  apply failure_bind; [apply leaves_keeps, leaves_lift | intros label].
  apply failure_bind; [apply leaves_keeps, cluster_sizes_leaves | intros sizes].
  apply failure_bind; [apply leaves_keeps, leaves_lift | intros size].
  apply cluster_descriptions_set_returns.
Qed.

End Interrupted.

(** X24: whenever [compute_cluster_descriptions] raises, it leaves a
    dictionary of cluster descriptions stored in the model, without the
    entry -1 of the unclustered items, which is written last; the property
    [cluster_descriptions] then returns this incomplete dictionary without
    an error, whatever became of the files, and the computation is not
    started again.  (No component of the mapper carries the cluster id
    -1.) *)
Theorem interrupted_cluster_descriptions_stay_cached :
  forall (dev : Deviation) (fs : filesystem) (self self' : Model.Model_t)
         (e : exn),
    Model.compute_cluster_descriptions fs self = (Raise e, self') ->
    (forall jm, fst (Model.mapper fs self) = Ok (PMapper jm) ->
                ~ In (-1)%Z (map snd (jm_components jm))) ->
    exists d,
      Model._cluster_descriptions self' = Some d
      /\ dict_get d (-1)%Z = None
      /\ forall fs', Model.cluster_descriptions fs' self' = (Ok d, self').
Proof.
  intros dev fs self self' e H Hids.
  assert (HP : Spec.described_without (-1) self').
  { unfold Model.compute_cluster_descriptions in H.
    unfold Model.bind at 1, Model.modify at 1 in H.
    set (s1 := Model.set_cluster_descriptions (Some []) self) in H.
    assert (P1 : Spec.described_without (-1) s1)
      by (exists []; split; reflexivity).
    unfold Model.bind at 1 in H.
    destruct (Model.mapper fs s1) as [[m | e1] s1'] eqn:Em.
    - pose proof (reads_only_run _ _ _ _ _ (mapper_reads_only fs) Em) as ->.
      unfold Model.bind at 1, Model.lift at 1 in H.
      destruct (Model.attr_components m) as [components | e2] eqn:Ec.
      + destruct m; try discriminate Ec. injection Ec as <-.
        assert (Hm : fst (Model.mapper fs self) = Ok (PMapper jm)).
        { rewrite (mapper_same_path fs self s1 eq_refl). now rewrite Em. }
        specialize (Hids _ Hm).
        revert H P1. apply failure_bind.
        * apply keeps_for_each. intros c u Hc.
          apply describe_component_keeps. intros Heq. apply Hids.
          rewrite <- Heq. now apply in_map.
        * intros _. apply unclustered_description_keeps.
      + injection H as _ <-. exact P1.
    - pose proof (reads_only_run _ _ _ _ _ (mapper_reads_only fs) Em) as ->.
      injection H as _ <-. exact P1. }
  destruct HP as (d & Hd & Hk). exists d. split; [exact Hd |].
  split; [exact Hk |]. intros fs'.
  unfold Model.cluster_descriptions, Model.bind, Model.get. now rewrite Hd.
Qed.

Lemma interrupted_cluster_descriptions_stay_cached_witness :
  let self' :=
    snd (Model.compute_cluster_descriptions (dev := Examples.float_std)
           Examples.fs_stray (Examples.fresh Examples.fs_stray)) in
  exists d,
    Model._cluster_descriptions self' = Some d
    /\ dict_get d (-1)%Z = None
    /\ Model.cluster_descriptions (dev := Examples.float_std) [] self'
       = (Ok d, self').
Proof.
  intros self'.
  destruct (interrupted_cluster_descriptions_stay_cached Examples.float_std
              Examples.fs_stray (Examples.fresh Examples.fs_stray) self'
              IndexError)
    as (d & Hd & Hk & Hc).
  - unfold self'. vm_compute. reflexivity.
  - intros jm Hm. vm_compute in Hm. injection Hm as <-.
    simpl. intuition discriminate.
  - exists d. split; [exact Hd |]. split; [exact Hk |]. apply Hc.
Defined.

(** ** Matching a record: the columns compared under a filter *)






